(* ===== verification/_CoqProject ===== *)
-Q . S2P
Prelude.v
GoSort.v
GoHash.v
GoRegexp.v
Api.v
Conditions.v
Effects.v
Projection.v
ProjectionLemmas.v
ProjectionCycle.v
ProjectionFacts.v
Binding.v
BindingFacts.v
Validation.v
ValidationFacts.v
Provisioned.v
Resolver.v
Resources.v
BindingReconciler.v
BindingReconcilerFacts.v
Cluster.v
ClusterFacts.v
KindReconciler.v
Kinds.v
Recorder.v
KindReconcilerFacts.v
KindsFacts.v
EndToEnd.v
Admission.v
Clients.v
ClientsFacts.v
Heap.v
DeepCopy.v
DeepCopyFacts.v
Clientset.v
ClientsetFacts.v
FakeClients.v
FakeClientsFacts.v
Informers.v
InformersFacts.v
Injection.v
InjectionFacts.v
Registration.v
RegistrationFacts.v
TestSupport.v
Controllers.v
ControllersFacts.v
System.v
SystemRuns.v
SystemFacts.v
WakeUps.v
Settling.v
Replicas.v
ReplicasFacts.v
Workers.v
WorkerCalls.v
Replay.v
WorkersFacts.v
ReplicasSettling.v
