(* ===== verification/Prelude.v ===== *)
(** * Service Bindings for Kubernetes: a verification development

    The repository is a Kubernetes controller.  A [ServiceBinding] names a service and
    a workload.  The controller resolves the service to the name of a secret, keeps a
    [ServiceBindingProjection] that asks for that secret in the workload, and reports
    both in the binding's conditions.  The projection is applied to pod templates by
    its methods [Do] and [Undo], which the binding reconciler and the webhook of
    knative call.  A [ProvisionedService] is the simplest service: it publishes the
    secret of its spec.

    ** Files, and the code they model

    - [Prelude]: outcomes ([Done] or [Panic]), results with an error, strings, lists.
    - [GoSort], [GoHash], [GoRegexp]: [sort.SliceStable] (insertion sort on blocks of
      twenty elements and symmetric merges), [crypto/sha1] with [%x], and the pattern
      language [isInjectedEnv] uses, as executable definitions.
    - [Api], [Conditions], [Effects]: the Kubernetes and knative data the code reads
      and writes; knative's condition manager as the class [ConditionManager] with its
      laws; calls to the outside as a monad with a log, errors, reconciler events.
    - [Projection] ([pkg/apis/labsinternal/v1alpha1]): the kind, [Do], [Undo], their
      helpers and the status methods.  [ProjectionLemmas] gives both in closed form,
      [ProjectionCycle] what one does after the other, [ProjectionFacts] the
      specification and the properties.
    - [Binding] ([pkg/apis/servicebinding/v1alpha3]), Module [SB]: the kind and its
      status methods.  [BindingFacts]: their reachable states and invariant.
    - [Validation], [ValidationFacts]: the [Validate] methods of the kinds.
    - [Provisioned] ([pkg/apis/labs/v1alpha1], [pkg/reconciler/provisionedservice]),
      Module [PS]: the kind and its reconciler.
    - [Resolver] ([pkg/resolver], [pkg/apis/duck/v1alpha3]): from a reference to a secret.
    - [Resources] ([pkg/reconciler/servicebinding/resources]): the projection a binding
      asks for.
    - [BindingReconciler], [BindingReconcilerFacts]
      ([pkg/reconciler/servicebinding/servicebinding.go]): [ReconcileKind].
    - [Cluster], [ClusterFacts], [EndToEnd]: [ReconcileKind] composed with an API server
      (class [ApiServer]), caches of any age, other writers, the resolver, the reconciler
      of [ProvisionedService] and [Do].
    - [KindReconciler], [Kinds], [KindReconcilerFacts], [KindsFacts]
      ([pkg/client/injection/reconciler], the two [controller.go]): the generated
      reconcilers, once over the operations of a kind (class [Kind]) and under the
      names of the three packages (Modules [servicebinding], [provisionedservice] and
      [servicebindingprojection]), and the controllers built from them.  [Recorder]
      ([createRecorder] of the generated [controller.go]): the recorders they use.
    - [Admission] (the [register.go] files, [cmd/manager/main.go]): schemes, the kinds of
      the admission webhooks, the selectors of the binding webhook.
    - [Clients], [ClientsFacts] ([pkg/client/clientset/versioned/typed],
      [pkg/client/listers]): the requests of the typed clients, the listers over a cache.
    - [Informers], [InformersFacts] ([pkg/client/informers/externalversions]): the
      factory of shared informers as a state machine.
    - [Heap]: pointers, slices and the heap, what a deep copy is, and the pieces
      generated copies are made of.  [DeepCopy] ([zz_generated.deepcopy.go] of the four
      API packages, Modules [labsinternal], [servicebinding], [labs], [duck]): the
      structs in memory and their copies; [DeepCopyFacts]: they copy.
    - [Clientset], [ClientsetFacts] ([clientset/versioned/clientset.go], the
      [*_client.go] files): from a configuration to the clients of the groups.
    - [FakeClients], [FakeClientsFacts] ([clientset/versioned/fake], [typed/*/*/fake]):
      the clients for tests, against the typed ones.
    - [Injection], [InjectionFacts] ([pkg/client/injection] but for the reconcilers): what
      start-up puts into the context, and the getters.  [Registration],
      [RegistrationFacts]: the [init] functions of these packages and of the schemes, which
      register what start-up runs.
    - [TestSupport] ([pkg/reconciler/testing]): the listers and the factory of the unit
      tests, with the chains of reactors of its fake clients.
    - [Controllers], [ControllersFacts] ([pkg/reconciler/*/controller.go],
      [NewServiceableResolver]): which events enqueue which keys, and promotion.
    - [System], [SystemRuns], [SystemFacts], [WakeUps], [Settling]: the [ServiceBinding]
      controller at work, as a step relation: the generated [Reconcile] around
      [ReconcileKind] on the keys of a queue, the event handlers that fill it, the
      informers' caches and the notifications on their way to them, the API server (classes
      [ApiServer] and [BindingServer]), services and other actors.
    - [Replicas], [ReplicasFacts], [ReplicasSettling]: several replicas of it over one API
      server, which start, stop, gain and lose the lead of keys ([PromoteFunc],
      [isNotLeaderNorObserver]).  [Workers], [WorkerCalls], [Replay], [WorkersFacts]: the
      workers of the replicas, which overlap; a step is one call of one worker.

    ** Conventions

    Definitions keep the names of the code; a field [f] of a struct [T] is [T_f] or a
    short form of it.  Objects are values: a method that changes its receiver returns
    the new one, so a deep copy is the object itself; [DeepCopyFacts] justifies that on
    a model of memory in which the copies are the generated code.  Code that may panic
    returns an [outcome]: an index out of range, a nil dereference and an assignment to
    a nil map are [Panic].  A map is a [gmap], under an [option] where the code tells a nil one;
    a loop over a map takes the order of the entries as an argument where the order
    can be observed.  The parts of Kubernetes objects that the code only copies are of
    the arbitrary type of the class [Opaque].

    Reconcilers are in the monad [M]: each call to a lister, a client, a tracker, a
    recorder or the clock is answered by an environment, a function of the log of the
    calls so far, and logged.  Nothing is assumed of the answers, so a theorem about
    every environment covers stale caches, conflicts and failures at any point.
    Functions of third-party packages are parameters or classes ([ConditionManager],
    [FieldErrors], [SchemaGuess], [Kmeta], [SemanticEquality], [KnativeReconciler],
    [KnativeController], [Foreign], [RestLibrary], [LabelSelectors], [ObjectTrackers],
    [EventLibrary], [InjectionRegistry], [ObjectSorters], [ObjectCodecs]),
    as is the API server of [Cluster] ([ApiServer]), with what they document as a class of laws ([ConditionManagerLaws], ...); each
    class of laws has an instance, which the witnesses use.

    The loops of [GoSort] run on fuel taken from the lengths involved: one more than
    the length for the loops over blocks and passes, whose bounds grow at each round,
    and the size of the range for the searches, the rotations and the recursive merge,
    which shrink it.  The lemmas [..._fuel] show that more fuel changes nothing.
    [SliceStable_Permutation] holds for every input and [SliceStable_small] identifies
    the result with insertion sort up to twenty elements.

    ** What is shown

    - Injection ([ProjectionFacts]): [Do] never panics and refines the relation [Bound],
      [Undo] refines [Unbound], keeps what is not the binding's and leaves nothing of the
      binding; the round trip on untouched workloads, idempotence, secret rotation, isolation between bindings, and the exact language [isInjectedEnv]
      recognizes.  Four theorems show where the promises end: other bindings' type and
      provider variables are removed, users' variables are moved past twenty elements,
      a root given by reference is appended again at each [Do].
    - Conditions ([BindingFacts]): no reachable sequence of status methods panics,
      [Ready] summarizes the two others, transition times move with the status.
    - Validation ([ValidationFacts]): exactly which problems are reported, and exactly
      when the index into the conflicting paths is out of range.
    - Reconciling ([Resolver], [Resources], [BindingReconcilerFacts]): the runs as a
      relation and the refinement of [ReconcileKind] to it; at most one write, of what the
      binding asks for and only to what it owns; convergence; what the status says after
      success and failure, and of which projection; the stale conditions after a failed
      resolution.
    - The controller in a cluster ([ClusterFacts], [EndToEnd]): for any server with
      optimistic concurrency and any cache of objects that were stored once, a
      reconciliation touches nothing that its binding does not own, and of that only the
      spec, the labels and the annotations; one with a current cache settles the projection,
      which further ones leave as it is; the binding then reports the readiness of the stored
      projection; and the projection delivers the secret that the service publishes to the
      containers of every workload, as long as the binding and its secret stay the same and
      nobody else changes the spec, labels, annotations and owners of the projection.  A
      [ProvisionedService] that its controller has reconciled is such a service.
    - The controller at work ([WakeUps], [Settling]): in every run, in which anything may
      happen between the reads and the writes of a reconciliation, every binding is in the
      queue, or will be told of, or in sync (no lost wake-ups); so all bindings are
      in sync whenever the queue is empty and all is delivered; and left alone the
      controller gets there: all its runs end, because a reconciliation leaves alone,
      down to the transition times, what the one before it wrote.
    - Several replicas ([WorkersFacts], [ReplicasFacts], [ReplicasSettling]): no wake-up is
      lost for the keys that a replica leads, in every run of any number of replicas, whoever
      led the keys before, and however the calls of their workers interleave, on the same
      key even; no worker is ever stuck, and all return after a bounded number of calls
      ([Replay]: the code run again with the answers it got makes the same calls); a replica
      that does not lead a key leaves the cluster and the other replicas
      alone; and under a stable election the replicas settle too, even if two lead the same
      key, in every run in which they reconcile one key at a time with caches that are up to
      date for this key.
    - Generated code ([KindReconcilerFacts], [KindsFacts], [ClientsFacts],
      [InformersFacts]): followers never write, status updates touch only the status
      and retry a bounded number of times, finalizer patches are the reconciler's own,
      the controller never panics on accepted bindings, a key that is not cached is a
      no-op, informers are shared and run once, and time limits are exact up to
      9223372036 seconds.
    - Memory ([DeepCopyFacts]): every [DeepCopy] returns the same value in new memory
      and changes nothing else, so neither object sees writes to the other;
      [DeepCopyObject] never returns an interface around a nil pointer.
    - Start-up ([ClientsetFacts], [InjectionFacts], [RegistrationFacts], [ControllersFacts]):
      how the clients are built and when not; what the context holds afterwards, in whatever
      order the packages and those of other modules were registered; every event on a binding
      or on the projection made for it enqueues the binding; a new leader enqueues all
      cached objects.  Two theorems show defects: [NewForConfigOrDie] accepts limits that
      [NewForConfig] rejects, and the filtered factories all use the last selector.
    - Tests ([FakeClientsFacts], [TestSupport]): a call of a fake client is the operation the
      typed client would request; every object of a test row goes to one fake client, whose
      reactors see only valid creations and updates.
    - Webhooks ([Admission]): which objects the binding webhook selects, and that
      projections are not registered for validation.

    ** What is not modelled

    The copies of the structs of other modules, which are assumed to be deep; what
    Kubernetes and knative do with the constructed clients, informers, queues and
    trackers; the reconciliation loop of knative's [psbinding] around [Do] and [Undo]; logging;
    and the servers that [main] starts.  What other modules keep in the context is a set of
    keys and the dynamic client; their registered functions are assumed to supply their own
    keys, to keep those of these packages and to return once the clients are there
    ([foreign], [supplied]).  The controllers take of their tracker its [OnChanged], as a
    parameter.
    A map inside a struct is a value here, so the aliasing of maps is not modelled; a nil and
    an empty slice stand for the same list.  Messages are modelled as they are given: [MarkFalse]
    formats them, so its laws speak of those without a percent sign ([verbatim]).
    In [Cluster] a step is a whole call of [ReconcileKind], at the time of its only write;
    that it may work on caches of any age covers what others did before it, not what they do
    while it runs.  In [System] a reconciliation is five moments with anything in between,
    other workers' uninterrupted reconciliations included; in [Workers] it is a step for each
    of its calls, and nothing is left out of the interleaving.  That the replicas settle is
    shown of reconciliations that follow each other, each with caches up to date for its key,
    after any that overlapped or had older ones: a reconciliation with an old cache may fail
    and be tried again until the cache is told, so that runs of those alone need not end.  Of the
    informers [System] and [Workers] have the watches, which tell every change in order; a
    relist may skip changes, and is left out.  A projection is not handed from one owner to
    another without a deletion.  The server may store a nil map for an empty one, which the
    reconciler's comparison takes for equal ([map_equal_spec]).  The tracker keeps what it tracks (resyncs renew its
    leases).  A replica that starts knows nothing and will be told of everything stored
    ([started]).  The election is any sequence of promotions and demotions. *)
From stdpp Require Export base tactics list gmap strings pretty.
From Stdlib Require Export Lia ZArith Ascii String.
From stdpp Require Export list gmap strings.

Create HintDb go.

Declare Scope go_scope.
Delimit Scope go_scope with go.

(** ** Panics and results *)

(** The outcome of running Go code: it returns a value or it panics. *)
Inductive outcome (A : Type) : Type :=
| Done (a : A)
| Panic.
Arguments Done {A} _.
Arguments Panic {A}.

Definition obind {A B : Type} (m : outcome A) (f : A → outcome B) : outcome B :=
  match m with Done a => f a | Panic => Panic end.

Notation "'let!' x ':=' m 'in' k" := (obind m (fun x => k))
  (at level 10, x pattern, m at level 100, k at level 200) : go_scope.

Definition omap_outcome {A B : Type} (f : A → B) (m : outcome A) : outcome B :=
  obind m (λ a, Done (f a)).

#[export] Instance outcome_eq_dec `{EqDecision A} : EqDecision (outcome A).
Proof. solve_decision. Defined.

Lemma obind_Done {A B} (m : outcome A) (f : A → outcome B) b :
  obind m f = Done b ↔ ∃ a, m = Done a ∧ f a = Done b.
Proof. destruct m; naive_solver. Qed.

Lemma obind_Panic {A B} (m : outcome A) (f : A → outcome B) :
  obind m f = Panic ↔ m = Panic ∨ ∃ a, m = Done a ∧ f a = Panic.
Proof. destruct m; naive_solver. Qed.

(** A pointer dereference or an index out of range panics. *)
Definition deref {A : Type} (p : option A) : outcome A :=
  match p with Some a => Done a | None => Panic end.

Lemma deref_Done {A} (p : option A) a : deref p = Done a ↔ p = Some a.
Proof. destruct p; naive_solver. Qed.

(** Go's list index assignment [l[i] = x]: out of range panics. *)
Definition list_set {A : Type} (l : list A) (i : nat) (x : A) : outcome (list A) :=
  if decide (i < length l) then Done (<[i := x]> l) else Panic.

(** A pair of a value and an error, [(T, error)]: exactly one is present in all
    the functions modelled here. *)
Inductive result (E A : Type) : Type :=
| Ok (a : A)
| Err (e : E).
Arguments Ok {E A} _.
Arguments Err {E A} _.

#[export] Instance result_eq_dec `{EqDecision E, EqDecision A} : EqDecision (result E A).
Proof. solve_decision. Defined.

(** ** Strings, as in the Go packages [strings] and [fmt] *)

(** [strings.HasPrefix(s, p)]. *)
Fixpoint HasPrefix (s p : string) {struct p} : bool :=
  match p, s with
  | EmptyString, _ => true
  | String a p', String b s' => bool_decide (a = b) && HasPrefix s' p'
  | String _ _, EmptyString => false
  end.

(** [strings.Contains(s, sub)]. *)
Fixpoint Contains (s sub : string) : bool :=
  HasPrefix s sub ||
  match s with EmptyString => false | String _ s' => Contains s' sub end.

(** The suffix of [s] after its first [n] bytes. *)
Fixpoint str_drop (n : nat) (s : string) : string :=
  match n, s with
  | S n', String _ s' => str_drop n' s'
  | _, _ => s
  end.

(** [strings.Replace(s, old, new, 1)] for a non-empty [old]. *)
Fixpoint ReplaceFirst (s old new : string) : string :=
  if HasPrefix s old then new +:+ str_drop (String.length old) s
  else match s with
       | EmptyString => EmptyString
       | String a s' => String a (ReplaceFirst s' old new)
       end.

(** Go's [<] on strings is lexicographic on bytes. *)
Definition str_lt (s t : string) : bool := String.ltb s t.

Lemma str_app_nil_l (s : string) : "" +:+ s = s.
Proof. done. Qed.

Lemma str_app_cons a (s t : string) : String a s +:+ t = String a (s +:+ t).
Proof. done. Qed.

Lemma str_app_assoc (s t u : string) : (s +:+ t) +:+ u = s +:+ (t +:+ u).
Proof. induction s as [|a s IH]; [done|]. by rewrite !str_app_cons, IH. Qed.

Lemma str_app_nil_r (s : string) : s +:+ "" = s.
Proof. induction s as [|a s IH]; [done|]. by rewrite str_app_cons, IH. Qed.

Lemma str_length_app (s t : string) :
  String.length (s +:+ t) = String.length s + String.length t.
Proof. induction s as [|a s IH]; [done|]. rewrite str_app_cons. cbn. by rewrite IH. Qed.

Lemma str_app_inj_l (s t u : string) : s +:+ t = s +:+ u → t = u.
Proof. induction s as [|a s IH]; [done|]. intros [= H]. by apply IH. Qed.

Lemma str_app_inj_length (s s' t t' : string) :
  String.length s = String.length s' → s +:+ t = s' +:+ t' → s = s' ∧ t = t'.
Proof.
  revert s'. induction s as [|a s IH]; intros [|a' s'] Hlen Heq; try done.
  injection Heq as -> Heq. injection Hlen as Hlen.
  destruct (IH _ Hlen Heq) as [-> ->]. done.
Qed.

Lemma HasPrefix_spec s p : HasPrefix s p = true ↔ ∃ t, s = p +:+ t.
Proof.
  revert s. induction p as [|a p IH]; intros s; cbn.
  - split; [intros _; by exists s | done].
  - destruct s as [|b s]; [split; [done | by intros [t Ht]]|].
    rewrite andb_true_iff, bool_decide_eq_true, IH. split.
    + intros [-> [t ->]]. by exists t.
    + intros [t [= -> ->]]. eauto.
Qed.

Lemma HasPrefix_app p t : HasPrefix (p +:+ t) p = true.
Proof. apply HasPrefix_spec. eauto. Qed.

Lemma str_drop_app p t : str_drop (String.length p) (p +:+ t) = t.
Proof. by induction p. Qed.

Lemma ReplaceFirst_prefix p t new : ReplaceFirst (p +:+ t) p new = new +:+ t.
Proof.
  destruct (p +:+ t) as [|a s] eqn:E; cbn.
  - destruct p; [|done]. destruct t; [|done]. cbn. done.
  - rewrite <- E, HasPrefix_app, str_drop_app. done.
Qed.

(** A string between double quotes.  [fmt]'s verb [%q] does the same on the names
    of Kubernetes objects, which hold nothing to escape. *)
Definition double_quote : string := String (Ascii.ascii_of_nat 34) EmptyString.
Definition quoted (s : string) : string := double_quote +:+ s +:+ double_quote.

(** Membership of every byte of a string in a class. *)
Fixpoint str_all (p : Ascii.ascii → bool) (s : string) : bool :=
  match s with EmptyString => true | String a s' => p a && str_all p s' end.

Lemma str_all_app p s t : str_all p (s +:+ t) = str_all p s && str_all p t.
Proof. induction s as [|a s IH]; [done|]. rewrite str_app_cons. cbn. by rewrite IH, andb_assoc. Qed.

(** *** The order on strings is a strict total order. *)
Lemma str_lt_asym s t : str_lt s t = true → str_lt t s = false.
Proof.
  unfold str_lt, String.ltb. rewrite (String.compare_antisym t s).
  by destruct (String.compare s t).
Qed.

Lemma str_lt_irrefl s : str_lt s s = false.
Proof. destruct (str_lt s s) eqn:E; [by rewrite <- E, (str_lt_asym _ _ E) | done]. Qed.

Lemma str_lt_total s t : str_lt s t = false → str_lt t s = false → s = t.
Proof.
  unfold str_lt, String.ltb. rewrite (String.compare_antisym t s).
  destruct (String.compare s t) eqn:E; try done.
  intros _ _. by apply String.compare_eq_iff.
Qed.

Lemma str_lt_le s t : str_lt s t = false ↔ String.le t s.
Proof.
  unfold str_lt, String.ltb, String.le, String.leb. rewrite (String.compare_antisym t s).
  destruct (String.compare s t); cbn; split; intuition congruence.
Qed.

Lemma str_nlt_trans s t u : str_lt t s = false → str_lt u t = false → str_lt u s = false.
Proof. rewrite !str_lt_le. intros. by etrans. Qed.

#[export] Hint Resolve str_lt_irrefl str_lt_asym : go.

(** ** Lists *)
Section lists.
Context {A : Type} (P : A → Prop) `{!∀ x, Decision (P x)}.

Lemma filter_True (l : list A) : Forall P l → filter P l = l.
Proof.
  induction 1 as [|x l Hx _ IH]; [done|]. by rewrite filter_cons_True, IH.
Qed.

Lemma filter_False (l : list A) : Forall (λ x, ¬ P x) l → filter P l = [].
Proof.
  induction 1 as [|x l Hx _ IH]; [done|]. by rewrite filter_cons_False, IH.
Qed.

Lemma Forall_filter_self (l : list A) : Forall P (filter P l).
Proof. apply Forall_forall. intros x Hx. by apply list_elem_of_filter in Hx as [? _]. Qed.

Lemma filter_idemp (l : list A) : filter P (filter P l) = filter P l.
Proof. apply filter_True, Forall_filter_self. Qed.
End lists.

(** ** Concrete instances

    [compute_decide] proves a closed decidable proposition by evaluating its
    decision procedure. *)
Ltac compute_decide := apply (bool_decide_unpack _); vm_compute; exact I.
