(* ===== verification/GoSort.v ===== *)
(** * The standard library's [sort.SliceStable]

    [ServiceBindingProjection.Do] sorts volumes, volume mounts and environment
    variables with [sort.SliceStable] and a comparison that is not a weak order:
    it answers [false] as soon as one of the two elements was not injected by a
    binding.  What the call does is then whatever the library's algorithm does,
    so the algorithm itself is modelled: insertion sort on blocks of 20 elements
    followed by in-place symmetric merges ([insertionSort_func], [symMerge_func],
    [rotate_func], [swapRange_func] and [stable_func] of package [sort]).

    The slice is the list [l]; [Less] and [Swap] take indices, as in Go. *)
From S2P Require Import Prelude.

Section definitions.
Context {A : Type} (less : A → A → bool).
Implicit Types (l : list A) (i j a b m n : nat).

Definition Less l i j : bool :=
  match l !! i, l !! j with Some x, Some y => less x y | _, _ => false end.

Definition Swap l i j : list A :=
  match l !! i, l !! j with Some x, Some y => <[i := y]> (<[j := x]> l) | _, _ => l end.

(** The inner loop of [insertionSort_func]:
    [for j := i; j > a && data.Less(j, j-1); j-- { data.Swap(j, j-1) }]. *)
Fixpoint sift l a j : list A :=
  match j with
  | 0 => l
  | S j' => if (a <? j) && Less l j j' then sift (Swap l j j') a j' else l
  end.

Definition insertionSort l a b : list A :=
  foldl (λ l i, sift l a i) l (seq (a + 1) (b - (a + 1))).

(** [for b <= n { insertionSort(a, b); a = b; b += blockSize }; insertionSort(a, n)] *)
Fixpoint insertionBlocks (fuel : nat) l a b n bs : list A :=
  match fuel with
  | 0 => l
  | S f =>
      if b <=? n then insertionBlocks f (insertionSort l a b) b (b + bs) n bs
      else insertionSort l a n
  end.

Definition swapRange l a b n : list A :=
  foldl (λ l i, Swap l (a + i) (b + i)) l (seq 0 n).

Fixpoint rotateLoop (fuel : nat) l m i j : list A :=
  match fuel with
  | 0 => l
  | S f =>
      if i =? j then swapRange l (m - i) m i
      else if j <? i then rotateLoop f (swapRange l (m - i) m j) m (i - j) j
      else rotateLoop f (swapRange l (m - i) (m + j - i) i) m i (j - i)
  end.

Definition rotate l a m b : list A := rotateLoop (S (b - a)) l m (m - a) (b - m).

(** [for i < j { h := (i+j)/2; if p(h) { i = h+1 } else { j = h } }; return i] *)
Fixpoint search (fuel : nat) (p : nat → bool) i j : nat :=
  match fuel with
  | 0 => i
  | S f =>
      if i <? j then
        let h := Nat.div2 (i + j) in
        if p h then search f p (h + 1) j else search f p i h
      else i
  end.

(** [for k := a; k < i-1; k++ { data.Swap(k, k+1) }] *)
Definition shiftRight l a i : list A :=
  foldl (λ l k, Swap l k (k + 1)) l (seq a (i - 1 - a)).

(** [for k := m; k > i; k-- { data.Swap(k, k-1) }] *)
Definition shiftLeft l m i : list A :=
  foldl (λ l k, Swap l k (k - 1)) l (rev (seq (i + 1) (m - i))).

Fixpoint symMerge (fuel : nat) l a m b : list A :=
  match fuel with
  | 0 => l
  | S f =>
      if m - a =? 1 then
        shiftRight l a (search (b - m) (λ h, Less l h a) m b)
      else if b - m =? 1 then
        shiftLeft l m (search (m - a) (λ h, negb (Less l m h)) a m)
      else
        let mid := Nat.div2 (a + b) in
        let n := mid + m in
        let '(start, r) := if mid <? m then (n - b, mid) else (a, m) in
        let p := n - 1 in
        let start := search (r - start) (λ c, negb (Less l (p - c) c)) start r in
        let e := n - start in
        let l := if (start <? m) && (m <? e) then rotate l start m e else l in
        let l := if (a <? start) && (start <? mid) then symMerge f l a start mid else l in
        if (mid <? e) && (e <? b) then symMerge f l mid e b else l
  end.

(** [for b <= n { symMerge(a, a+bs, b); a = b; b += 2*bs };
    if m := a + bs; m < n { symMerge(a, m, n) }] *)
Fixpoint mergePass (fuel : nat) l a b bs n : list A :=
  match fuel with
  | 0 => l
  | S f =>
      if b <=? n then mergePass f (symMerge (b - a) l a (a + bs) b) b (b + 2 * bs) bs n
      else let m := a + bs in if m <? n then symMerge (n - a) l a m n else l
  end.

Fixpoint mergeLoop (fuel : nat) l bs n : list A :=
  match fuel with
  | 0 => l
  | S f => if bs <? n then mergeLoop f (mergePass (S n) l 0 (2 * bs) bs n) (2 * bs) n else l
  end.

Definition blockSize : nat := 20.

(** [sort.SliceStable(l, less)] *)
Definition SliceStable l : list A :=
  let n := length l in
  mergeLoop (S n) (insertionBlocks (S n) l 0 blockSize n blockSize) blockSize n.

(** Insertion of one more element at the end, walking to the left while it is
    smaller than its neighbour: what one round of insertion sort does. *)
Fixpoint ins_rev (x : A) (r : list A) : list A :=
  match r with
  | [] => [x]
  | y :: r' => if less x y then y :: ins_rev x r' else x :: y :: r'
  end.
Definition push l (x : A) : list A := reverse (ins_rev x (reverse l)).
Definition isort l : list A := foldl push [] l.

(** No element is smaller than its left neighbour. *)
Fixpoint locally_sorted l : Prop :=
  match l with
  | x :: ((y :: _) as l') => less y x = false ∧ locally_sorted l'
  | _ => True
  end.
End definitions.

(** ** The fuel is enough: more fuel than the callers give changes nothing. *)
Section fuel.
Context {A : Type} (less : A → A → bool).
Implicit Types (l : list A) (i j a b m n k : nat).

Lemma div2_between i j : i < j → i ≤ Nat.div2 (i + j) < j.
Proof. intros. rewrite Nat.div2_div. split; [apply Nat.div_le_lower_bound|apply Nat.Div0.div_lt_upper_bound]; lia. Qed.

Lemma div2_lower a b : Nat.div2 (a + b) = a → b - a ≤ 1.
Proof. rewrite Nat.div2_div. intros. pose proof (Nat.div_mod_eq (a + b) 2). pose proof (Nat.mod_upper_bound (a + b) 2). lia. Qed.

Lemma search_fuel k p : ∀ f i j, j - i ≤ f → search (k + f) p i j = search f p i j.
Proof.
  induction f as [|f IH]; intros i j Hf.
  - destruct k; [done|]. rewrite Nat.add_0_r. cbn [search]. by rewrite (proj2 (Nat.ltb_ge i j)) by lia.
  - rewrite Nat.add_succ_r. cbn [search]. destruct (i <? j) eqn:E; [|done].
    apply Nat.ltb_lt in E. pose proof (div2_between i j E). case_match; apply IH; lia.
Qed.

Lemma rotateLoop_fuel k : ∀ f l m i j,
  0 < i → 0 < j → i + j ≤ f → rotateLoop (k + f) l m i j = rotateLoop f l m i j.
Proof.
  induction f as [|f IH]; intros l m i j Hi Hj Hf; [lia|]. rewrite Nat.add_succ_r. cbn [rotateLoop].
  destruct (i =? j) eqn:E; [done|]. apply Nat.eqb_neq in E.
  destruct (j <? i) eqn:E'; [apply Nat.ltb_lt in E'|apply Nat.ltb_ge in E']; apply IH; lia.
Qed.

Lemma symMerge_fuel k : ∀ f l a m b,
  a < m < b → b - a ≤ f → symMerge less (k + f) l a m b = symMerge less f l a m b.
Proof.
  induction f as [|f IH]; intros l a m b Hm Hf; [lia|]. rewrite Nat.add_succ_r. cbn [symMerge].
  pose proof (div2_between a b ltac:(lia)) as Hmid.
  assert (∀ l i j h, a ≤ i → h ≤ b → h - i < b - a →
    (if (i <? j) && (j <? h) then symMerge less (k + f) l i j h else l) =
    (if (i <? j) && (j <? h) then symMerge less f l i j h else l)) as Hrec.
  { intros l' i j h Hi Hh Hsize. destruct (i <? j) eqn:E; [|done]. destruct (j <? h) eqn:E'; [|done]. cbn.
    apply Nat.ltb_lt in E. apply Nat.ltb_lt in E'. apply IH; lia. }
  destruct (m - a =? 1); [done|]. destruct (b - m =? 1) eqn:Hbm; [done|].
  destruct (if _ : bool then _ else _) as [start r]. cbn zeta.
  set (st := search _ _ _ _). rewrite (Hrec _ a) by lia. destruct (decide (Nat.div2 (a + b) = a)) as [Heq|Hne].
  - apply Nat.eqb_neq in Hbm. pose proof (div2_lower a b). lia.
  - apply Hrec; lia.
Qed.

Lemma mergePass_fuel k bs n : 0 < bs → ∀ f l a b,
  n + 1 - b < f → mergePass less (k + f) l a b bs n = mergePass less f l a b bs n.
Proof.
  intros Hbs. induction f as [|f IH]; intros l a b Hf; [lia|]. rewrite Nat.add_succ_r. cbn [mergePass].
  destruct (b <=? n) eqn:E; [|done]. apply Nat.leb_le in E. apply IH. lia.
Qed.

Lemma insertionBlocks_fuel k bs n : 0 < bs → ∀ f l a b,
  n + 1 - b < f → insertionBlocks less (k + f) l a b n bs = insertionBlocks less f l a b n bs.
Proof.
  intros Hbs. induction f as [|f IH]; intros l a b Hf; [lia|]. rewrite Nat.add_succ_r. cbn [insertionBlocks].
  destruct (b <=? n) eqn:E; [|done]. apply Nat.leb_le in E. apply IH. lia.
Qed.

Lemma mergeLoop_fuel k n : ∀ f l bs,
  0 < bs → n - bs < f → mergeLoop less (k + f) l bs n = mergeLoop less f l bs n.
Proof.
  induction f as [|f IH]; intros l bs Hbs Hf; [lia|]. rewrite Nat.add_succ_r. cbn [mergeLoop].
  destruct (bs <? n) eqn:E; [|done]. apply Nat.ltb_lt in E. apply IH; lia.
Qed.

(** The loops of [SliceStable] with any larger amount. *)
Lemma SliceStable_fuel k l :
  SliceStable less l =
  mergeLoop less (k + S (length l))
    (insertionBlocks less (k + S (length l)) l 0 blockSize (length l) blockSize) blockSize (length l).
Proof.
  unfold SliceStable. rewrite mergeLoop_fuel, insertionBlocks_fuel; unfold blockSize; try done; lia.
Qed.
End fuel.

Section permutation.
Context {A : Type} (less : A → A → bool).
Implicit Types (l : list A) (i j a b m n : nat).

Lemma Swap_Permutation l i j : Swap l i j ≡ₚ l.
Proof.
  unfold Swap. destruct (l !! i) as [x|] eqn:Hi; [|done].
  destruct (l !! j) as [y|] eqn:Hj; [|done].
  destruct (decide (i = j)) as [->|Hne].
  { simplify_eq. by rewrite list_insert_insert_eq, list_insert_id. }
  symmetry. apply Permutation_inj. split; [by rewrite !length_insert|].
  exists (λ k, if decide (k = i) then j else if decide (k = j) then i else k). split.
  - intros k k'. repeat case_decide; naive_solver.
  - intros k. pose proof (lookup_lt_Some _ _ _ Hi). pose proof (lookup_lt_Some _ _ _ Hj).
    repeat case_decide; subst.
    + by rewrite list_lookup_insert_ne, list_lookup_insert_eq.
    + rewrite list_lookup_insert_eq by (rewrite length_insert; done). done.
    + by rewrite !list_lookup_insert_ne by done.
Qed.

Lemma foldl_Permutation {B} (f : list A → B → list A) (ks : list B) l :
  (∀ l k, f l k ≡ₚ l) → foldl f l ks ≡ₚ l.
Proof.
  intros Hf. revert l. induction ks as [|k ks IH]; intros l; [done|].
  cbn. by rewrite IH, Hf.
Qed.

Lemma sift_Permutation l a j : sift less l a j ≡ₚ l.
Proof.
  revert l. induction j as [|j IH]; intros l; cbn [sift]; [done|].
  case_match; [|done]. by rewrite IH, Swap_Permutation.
Qed.

Lemma insertionSort_Permutation l a b : insertionSort less l a b ≡ₚ l.
Proof. apply foldl_Permutation. intros. apply sift_Permutation. Qed.

Lemma insertionBlocks_Permutation fuel l a b n bs :
  insertionBlocks less fuel l a b n bs ≡ₚ l.
Proof.
  revert l a b. induction fuel as [|f IH]; intros l a b; cbn [insertionBlocks]; [done|].
  case_match; [rewrite IH|]; apply insertionSort_Permutation.
Qed.

Lemma swapRange_Permutation l a b n : swapRange l a b n ≡ₚ l.
Proof. apply foldl_Permutation. intros. apply Swap_Permutation. Qed.

Lemma rotateLoop_Permutation fuel l m i j : rotateLoop fuel l m i j ≡ₚ l.
Proof.
  revert l i j. induction fuel as [|f IH]; intros l i j; cbn [rotateLoop]; [done|].
  repeat case_match; rewrite ?IH; apply swapRange_Permutation.
Qed.

Lemma symMerge_Permutation fuel l a m b : symMerge less fuel l a m b ≡ₚ l.
Proof.
  revert l a m b. induction fuel as [|f IH]; intros l a m b; cbn [symMerge]; [done|].
  case_match; [apply foldl_Permutation; intros; apply Swap_Permutation|].
  case_match; [apply foldl_Permutation; intros; apply Swap_Permutation|].
  destruct (if _ <? m then _ else _) as [s r]. set (st := search _ _ _ _).
  repeat case_match; rewrite ?IH; try done; apply rotateLoop_Permutation.
Qed.

Lemma mergePass_Permutation fuel l a b bs n : mergePass less fuel l a b bs n ≡ₚ l.
Proof.
  revert l a b. induction fuel as [|f IH]; intros l a b; cbn [mergePass]; [done|].
  repeat case_match; rewrite ?IH; try done; apply symMerge_Permutation.
Qed.

Lemma mergeLoop_Permutation fuel l bs n : mergeLoop less fuel l bs n ≡ₚ l.
Proof.
  revert l bs. induction fuel as [|f IH]; intros l bs; cbn [mergeLoop]; [done|].
  case_match; [|done]. by rewrite IH, mergePass_Permutation.
Qed.

(** Whatever the comparison, the sorted slice is a permutation of the slice. *)
Lemma SliceStable_Permutation l : SliceStable less l ≡ₚ l.
Proof. unfold SliceStable. by rewrite mergeLoop_Permutation, insertionBlocks_Permutation. Qed.

Lemma SliceStable_length l : length (SliceStable less l) = length l.
Proof. by rewrite SliceStable_Permutation. Qed.

Lemma elem_of_SliceStable l x : x ∈ SliceStable less l ↔ x ∈ l.
Proof. by rewrite SliceStable_Permutation. Qed.
End permutation.

(** ** Slices of at most [blockSize] elements: plain insertion sort *)
Section insertion.
Context {A : Type} (less : A → A → bool).
Implicit Types (l pre post : list A) (x y : A).

Lemma push_nil x : push less [] x = [x].
Proof. done. Qed.

Lemma push_snoc l x y :
  push less (l ++ [y]) x = if less x y then push less l x ++ [y] else l ++ [y; x].
Proof.
  unfold push. rewrite reverse_snoc. cbn [ins_rev].
  case_match; rewrite !reverse_cons; [done|].
  rewrite reverse_involutive. by rewrite <- (assoc_L (++)).
Qed.

Lemma Less_middle l pre x y post :
  l = pre ++ y :: x :: post → Less less l (S (length pre)) (length pre) = less x y.
Proof.
  intros ->. unfold Less.
  rewrite lookup_app_r by lia. replace (S (length pre) - length pre) with 1 by lia.
  by rewrite list_lookup_middle.
Qed.

Lemma Swap_middle pre x y post :
  Swap (pre ++ y :: x :: post) (S (length pre)) (length pre) = pre ++ x :: y :: post.
Proof.
  unfold Swap.
  rewrite lookup_app_r by lia. replace (S (length pre) - length pre) with 1 by lia.
  rewrite list_lookup_middle by done. cbn [lookup list_lookup].
  rewrite insert_app_r_alt by lia. rewrite Nat.sub_diag. cbn.
  rewrite insert_app_r_alt by lia. replace (S (length pre) - length pre) with 1 by lia.
  done.
Qed.

(** One round of the index-based loop is one [push]. *)
Lemma sift_push pre x post :
  sift less (pre ++ x :: post) 0 (length pre) = push less pre x ++ post.
Proof.
  revert post. induction pre as [|y pre IH] using rev_ind; intros post; [done|].
  rewrite length_app. cbn [length]. rewrite Nat.add_1_r. cbn [sift].
  rewrite <- (assoc_L (++)). cbn [app].
  rewrite (Less_middle _ pre x y post) by done. rewrite push_snoc. cbn [Nat.ltb Nat.leb andb].
  destruct (less x y).
  - rewrite Swap_middle, IH. by rewrite <- (assoc_L (++)).
  - by rewrite <- !(assoc_L (++)).
Qed.

Lemma push_length l x : length (push less l x) = S (length l).
Proof.
  unfold push. rewrite length_reverse, <- (length_reverse l).
  induction (reverse l) as [|y r IH]; cbn; [done|]. case_match; cbn; lia.
Qed.

Lemma foldl_push_length l ks : length (foldl (push less) l ks) = length l + length ks.
Proof. revert l. induction ks as [|k ks IH]; intros l; cbn; [lia|]. rewrite IH, push_length. lia. Qed.

Lemma foldl_sift_push pre post :
  foldl (λ l i, sift less l 0 i) (pre ++ post) (seq (length pre) (length post)) =
  foldl (push less) pre post.
Proof.
  revert pre. induction post as [|x post IH]; intros pre; cbn; [by rewrite app_nil_r|].
  rewrite sift_push, <- (push_length pre x). apply IH.
Qed.

Lemma insertionSort_isort l : insertionSort less l 0 (length l) = isort less l.
Proof.
  unfold insertionSort, isort. destruct l as [|x l]; [done|].
  replace (length (x :: l) - (0 + 1)) with (length l) by (cbn; lia).
  apply (foldl_sift_push [x] l).
Qed.

Lemma insertionSort_empty l a b : b ≤ a + 1 → insertionSort less l a b = l.
Proof. intros H. unfold insertionSort. by replace (b - (a + 1)) with 0 by lia. Qed.

(** Up to twenty elements, [SliceStable] is insertion sort. *)
Lemma SliceStable_small l : length l ≤ blockSize → SliceStable less l = isort less l.
Proof.
  intros Hle. unfold SliceStable. pose proof (insertionSort_isort l) as His.
  remember (length l) as n eqn:Hn. clear Hn.
  assert (insertionBlocks less (S n) l 0 blockSize n blockSize = isort less l) as ->.
  { cbn [insertionBlocks]. destruct (blockSize <=? n) eqn:E; [|done].
    apply Nat.leb_le in E. assert (n = blockSize) as -> by lia. rewrite His.
    unfold blockSize at 1. cbn [insertionBlocks].
    apply insertionSort_empty. unfold blockSize. lia. }
  cbn [mergeLoop]. destruct (Nat.ltb_spec blockSize n); [lia | done].
Qed.

(** *** Filters commute with insertion *)
Lemma filter_push_drop (P : A → Prop) `{!∀ x, Decision (P x)} l x :
  ¬ P x → filter P (push less l x) = filter P l.
Proof.
  intros Hx. induction l as [|y l IH] using rev_ind.
  - rewrite push_nil. by rewrite filter_cons_False.
  - rewrite push_snoc. case_match; rewrite !filter_app; [by rewrite IH|].
    f_equal. rewrite !filter_cons, filter_nil. by repeat case_decide.
Qed.

Lemma filter_foldl_push_drop (P : A → Prop) `{!∀ x, Decision (P x)} l ks :
  Forall (λ x, ¬ P x) ks → filter P (foldl (push less) l ks) = filter P l.
Proof.
  revert l. induction ks as [|k ks IH]; intros l Hks; [done|].
  apply Forall_cons in Hks as [Hk Hks]. cbn. by rewrite IH, filter_push_drop.
Qed.

(** Elements that are never smaller than one another keep their order. *)
Lemma filter_push_keep (P : A → Prop) `{!∀ x, Decision (P x)} l x :
  (∀ y z, less y z = true → P y → P z → False) →
  filter P (push less l x) = filter P (l ++ [x]).
Proof.
  intros HP. induction l as [|y l IH] using rev_ind; [done|].
  rewrite push_snoc. destruct (less x y) eqn:Hxy; [|by rewrite <- (assoc_L (++))].
  rewrite filter_app, IH, <- filter_app, <- !(assoc_L (++)), !filter_app. f_equal.
  rewrite !filter_cons, !filter_nil. repeat case_decide; naive_solver.
Qed.

Lemma filter_isort_keep (P : A → Prop) `{!∀ x, Decision (P x)} l :
  (∀ y z, less y z = true → P y → P z → False) →
  filter P (isort less l) = filter P l.
Proof.
  intros HP. induction l as [|x l IH] using rev_ind; [done|].
  unfold isort. rewrite foldl_app. cbn [foldl].
  by rewrite filter_push_keep, !filter_app, <- IH.
Qed.

Lemma foldl_push_Permutation l ks : foldl (push less) l ks ≡ₚ l ++ ks.
Proof.
  revert l. induction ks as [|k ks IH]; intros l; cbn; [by rewrite app_nil_r|].
  rewrite IH. rewrite cons_middle, (assoc_L (++)). apply Permutation_app_tail.
  unfold push. rewrite reverse_Permutation.
  trans (k :: reverse l); [|by rewrite reverse_Permutation, Permutation_app_comm].
  generalize (reverse l). intros r. induction r as [|y r IHr]; cbn; [done|].
  case_match; [|done]. rewrite IHr. apply Permutation_swap.
Qed.

Lemma isort_app l ks : isort less (l ++ ks) = foldl (push less) (isort less l) ks.
Proof. unfold isort. by rewrite foldl_app. Qed.

Lemma isort_length l : length (isort less l) = length l.
Proof. apply (foldl_push_length [] l). Qed.

Lemma elem_of_foldl_push l ks z : z ∈ foldl (push less) l ks ↔ z ∈ l ∨ z ∈ ks.
Proof. by rewrite foldl_push_Permutation, elem_of_app. Qed.

Lemma elem_of_isort l z : z ∈ isort less l ↔ z ∈ l.
Proof. unfold isort. rewrite elem_of_foldl_push. set_solver. Qed.

(** *** Local order *)
Lemma locally_sorted_app l y z ks :
  locally_sorted less (l ++ [y]) → less z y = false → locally_sorted less (z :: ks) →
  locally_sorted less (l ++ y :: z :: ks).
Proof.
  induction l as [|w l IH]; [by cbn|]. destruct l as [|v l]; cbn; [naive_solver|].
  intros [? ?] ? ?. split; [done|]. by apply IH.
Qed.

Lemma locally_sorted_app_l l ks : locally_sorted less (l ++ ks) → locally_sorted less l.
Proof.
  induction l as [|w l IH]; [done|]. destruct l as [|v l]; [done|]. cbn.
  intros [? ?]. split; [done|]. by apply IH.
Qed.

Lemma locally_sorted_app_r l ks : locally_sorted less (l ++ ks) → locally_sorted less ks.
Proof.
  induction l as [|w l IH]; [done|]. intros H. apply IH.
  destruct l as [|v l]; cbn in *; [destruct ks; naive_solver | naive_solver].
Qed.

(** An element that is not smaller than the last one stays where it is. *)
Lemma push_sorted l x : locally_sorted less (l ++ [x]) → push less l x = l ++ [x].
Proof.
  destruct l as [|y l _] using rev_ind; [done|].
  rewrite <- (assoc_L (++)). intros H. rewrite push_snoc.
  apply locally_sorted_app_r in H as [-> _]. done.
Qed.

Lemma foldl_push_sorted l ks :
  locally_sorted less (l ++ ks) → foldl (push less) l ks = l ++ ks.
Proof.
  revert l. induction ks as [|k ks IH]; intros l H; cbn; [by rewrite app_nil_r|].
  rewrite push_sorted; rewrite cons_middle, (assoc_L (++)) in H;
    [|by eapply locally_sorted_app_l].
  rewrite IH by done. by rewrite <- (assoc_L (++)).
Qed.

Lemma isort_sorted l : locally_sorted less l → isort less l = l.
Proof. apply (foldl_push_sorted [] l). Qed.

Context (Hasym : ∀ x y, less x y = true → less y x = false).

Lemma push_locally_sorted l x :
  locally_sorted less l → locally_sorted less (push less l x).
Proof using Hasym.
  induction l as [|y l IH] using rev_ind; [done|]. intros Hl.
  rewrite push_snoc. destruct (less x y) eqn:Hxy.
  - assert (locally_sorted less l) as Hl' by by eapply locally_sorted_app_l.
    specialize (IH Hl'). clear Hl'.
    destruct l as [|z l _] using rev_ind; [cbn; auto|].
    rewrite push_snoc in *. destruct (less x z).
    + rewrite <- (assoc_L (++)) in *. cbn in *.
      apply locally_sorted_app; [done| |done].
      by apply locally_sorted_app_r in Hl as [? _].
    + rewrite <- (assoc_L (++)). cbn [app].
      rewrite (cons_middle z), (assoc_L (++)).
      apply (locally_sorted_app (l ++ [z]) x y []); [| auto | done].
      by rewrite <- (assoc_L (++)).
  - by apply locally_sorted_app.
Qed.

Lemma foldl_push_locally_sorted l ks :
  locally_sorted less l → locally_sorted less (foldl (push less) l ks).
Proof using Hasym.
  revert l. induction ks as [|k ks IH]; intros l Hl; [done|].
  cbn. by apply IH, push_locally_sorted.
Qed.

Lemma isort_locally_sorted l : locally_sorted less (isort less l).
Proof using Hasym. by apply foldl_push_locally_sorted. Qed.

Lemma isort_idemp l : isort less (isort less l) = isort less l.
Proof using Hasym. apply isort_sorted, isort_locally_sorted. Qed.

(** Sorting the remainder of a sorted slice after removing one class of
    elements and adding them again at the end changes nothing. *)
Lemma isort_refresh (P : A → Prop) `{!∀ x, Decision (P x)} l ks :
  Forall P l → Forall (λ x, ¬ P x) ks →
  isort less (filter P (isort less (l ++ ks)) ++ ks) = isort less (l ++ ks).
Proof using Hasym.
  intros Hl Hks. rewrite !isort_app, filter_foldl_push_drop by done.
  rewrite filter_True; [by rewrite isort_idemp|].
  apply Forall_forall. intros x. rewrite elem_of_isort. rewrite Forall_forall in Hl. auto.
Qed.
End insertion.
