(* ===== verification/GoHash.v ===== *)
(** * The standard library's [crypto/sha1], and [fmt]'s [%x] of a digest

    Annotation keys and volume names carry the hexadecimal SHA-1 digest of an
    object's name: [fmt.Sprintf("%x", sha1.Sum([]byte(name)))].  The digest is
    computed, so that the keys of the repository's own tests can be checked, and
    the lemmas below state the two facts the components rely on: a digest prints
    as forty bytes, all of them lower-case hexadecimal digits. *)
From S2P Require Import Prelude.

Local Open Scope Z_scope.

(** ** 32-bit words *)
Definition w32 (z : Z) : Z := z mod 2 ^ 32.
Definition add32 (x y : Z) : Z := w32 (x + y).
Definition rotl32 (n x : Z) : Z := w32 (Z.lor (Z.shiftl x n) (Z.shiftr x (32 - n))).
Definition not32 (x : Z) : Z := Z.lxor x (2 ^ 32 - 1).

(** Big-endian bytes of a [k]-byte number, and back. *)
Fixpoint be_bytes (k : nat) (z : Z) : list Z :=
  match k with O => [] | S k' => be_bytes k' (Z.shiftr z 8) ++ [z mod 256] end.
Definition be_word (bs : list Z) : Z := foldl (λ acc b, acc * 256 + b) 0 bs.

Fixpoint bytes_of_string (s : string) : list Z :=
  match s with
  | EmptyString => []
  | String a s' => Z.of_N (Ascii.N_of_ascii a) :: bytes_of_string s'
  end.

(** ** Padding: a 1 bit, zeros, and the length in bits on eight bytes *)
Definition pad (msg : list Z) : list Z :=
  let len := Z.of_nat (length msg) in
  msg ++ [128] ++ replicate (Z.to_nat ((55 - len) mod 64)) 0 ++ be_bytes 8 (8 * len).

(** ** The compression function *)
Fixpoint words (k : nat) (bs : list Z) : list Z :=
  match k with O => [] | S k' => be_word (take 4 bs) :: words k' (drop 4 bs) end.

(** The message schedule, most recent word first. *)
Fixpoint schedule (k : nat) (rev_ws : list Z) : list Z :=
  match k with
  | O => rev_ws
  | S k' =>
      let at_ i := nth i rev_ws 0 in
      let w := rotl32 1 (Z.lxor (Z.lxor (at_ 2%nat) (at_ 7%nat))
                                (Z.lxor (at_ 13%nat) (at_ 15%nat))) in
      schedule k' (w :: rev_ws)
  end.

Record digest := Digest { h0 : Z; h1 : Z; h2 : Z; h3 : Z; h4 : Z }.

Definition round_f (t : nat) (b c d : Z) : Z * Z :=
  if (t <? 20)%nat then (Z.lor (Z.land b c) (Z.land (not32 b) d), 0x5A827999)
  else if (t <? 40)%nat then (Z.lxor (Z.lxor b c) d, 0x6ED9EBA1)
  else if (t <? 60)%nat then
    (Z.lor (Z.lor (Z.land b c) (Z.land b d)) (Z.land c d), 0x8F1BBCDC)
  else (Z.lxor (Z.lxor b c) d, 0xCA62C1D6).

Definition round (s : digest) (tw : nat * Z) : digest :=
  let '(Digest a b c d e) := s in
  let '(f, k) := round_f tw.1 b c d in
  let t := add32 (rotl32 5 a) (add32 f (add32 e (add32 k tw.2))) in
  Digest t a (rotl32 30 b) c d.

Definition block (s : digest) (bs : list Z) : digest :=
  let ws := reverse (schedule 64 (reverse (words 16 bs))) in
  let '(Digest a b c d e) := foldl round s (zip (seq 0 80) ws) in
  Digest (add32 (h0 s) a) (add32 (h1 s) b) (add32 (h2 s) c) (add32 (h3 s) d) (add32 (h4 s) e).

Fixpoint blocks (n : nat) (s : digest) (bs : list Z) : digest :=
  match n with O => s | S n' => blocks n' (block s (take 64 bs)) (drop 64 bs) end.

(** [sha1.Sum([]byte(s))], a [[20]byte]. *)
Definition Sum (s : string) : list Z :=
  let bs := pad (bytes_of_string s) in
  let '(Digest a b c d e) :=
    blocks (length bs / 64)%nat
      (Digest 0x67452301 0xEFCDAB89 0x98BADCFE 0x10325476 0xC3D2E1F0) bs in
  be_bytes 4 a ++ be_bytes 4 b ++ be_bytes 4 c ++ be_bytes 4 d ++ be_bytes 4 e.

(** ** [%x] of a byte slice: two lower-case digits per byte *)
Definition hex_digits : list Ascii.ascii :=
  ["0"; "1"; "2"; "3"; "4"; "5"; "6"; "7"; "8"; "9"; "a"; "b"; "c"; "d"; "e"; "f"]%char.

Definition hex_digit (z : Z) : Ascii.ascii := nth (Z.to_nat (z mod 16)) hex_digits "0"%char.

Fixpoint hex_string (bs : list Z) : string :=
  match bs with
  | [] => ""
  | b :: bs' => String (hex_digit (b / 16)) (String (hex_digit b) (hex_string bs'))
  end.

Definition sha1_hex (s : string) : string := hex_string (Sum s).

(** The class [[0-9a-f]] of the regular expression syntax. *)
Definition is_hex (a : Ascii.ascii) : bool :=
  let n := Ascii.N_of_ascii a in
  (((48 <=? n) && (n <=? 57)) || ((97 <=? n) && (n <=? 102)))%N.

#[global] Arguments Sum : simpl never.
#[global] Arguments sha1_hex : simpl never.

(** ** Test vectors *)
Example sha1_empty : sha1_hex "" = "da39a3ee5e6b4b0d3255bfef95601890afd80709"%string.
Proof. vm_compute. reflexivity. Qed.

Example sha1_abc : sha1_hex "abc" = "a9993e364706816aba3e25717850c26c9cd0d89d"%string.
Proof. vm_compute. reflexivity. Qed.

Example sha1_two_blocks :
  sha1_hex "abcdbcdecdefdefgefghfghighijhijkijkljklmklmnlmnomnopnopq" =
  "84983e441c3bd26ebaae4aa1f95129e5e54670f1"%string.
Proof. vm_compute. reflexivity. Qed.

(** The keys the repository's own tests expect for these two names. *)
Example sha1_my_binding : sha1_hex "my-binding" = "16384e6a11df69776193b6a877bfbe80bab09a17"%string.
Proof. vm_compute. reflexivity. Qed.

Example sha1_my_secret : sha1_hex "my-secret" = "5c5a15a8b0b3e154d77746945e563ba40100681b"%string.
Proof. vm_compute. reflexivity. Qed.

(** ** What the components rely on *)
Lemma be_bytes_length k z : length (be_bytes k z) = k.
Proof. revert z. induction k as [|k IH]; intros z; [done|]. cbn. rewrite length_app, IH. cbn. lia. Qed.

Lemma Sum_length s : length (Sum s) = 20%nat.
Proof.
  unfold Sum. destruct (blocks _ _ _) as [a b c d e].
  by rewrite !length_app, !be_bytes_length.
Qed.

Lemma hex_string_length bs : String.length (hex_string bs) = (2 * length bs)%nat.
Proof. induction bs as [|b bs IH]; [done|]. cbn. rewrite IH. lia. Qed.

Lemma hex_digit_is_hex z : is_hex (hex_digit z) = true.
Proof.
  unfold hex_digit. pose proof (Z.mod_pos_bound z 16 ltac:(lia)) as Hz.
  remember (Z.to_nat (z mod 16)) as n eqn:Hn.
  assert (n < 16)%nat by lia. clear Hn Hz.
  do 16 (destruct n as [|n]; [reflexivity|]). lia.
Qed.

Lemma hex_string_is_hex bs : str_all is_hex (hex_string bs) = true.
Proof. induction bs as [|b bs IH]; [done|]. cbn [hex_string str_all]. by rewrite !hex_digit_is_hex, IH. Qed.

Lemma sha1_hex_length s : String.length (sha1_hex s) = 40%nat.
Proof. unfold sha1_hex. by rewrite hex_string_length, Sum_length. Qed.

Lemma sha1_hex_is_hex s : str_all is_hex (sha1_hex s) = true.
Proof. apply hex_string_is_hex. Qed.

Lemma sha1_hex_nonempty s : sha1_hex s ≠ EmptyString.
Proof. intros H. pose proof (sha1_hex_length s) as Hl. by rewrite H in Hl. Qed.

#[export] Hint Resolve sha1_hex_is_hex sha1_hex_nonempty : go.
