(* ===== verification/GoRegexp.v ===== *)
(** * The standard library's [regexp], as far as the repository uses it

    [fieldPathAnnotationRe] is the only pattern in the repository.  It is
    compiled from a quoted literal, a character class under [+], an alternation
    and two anchors, so the model has exactly these constructors; a pattern
    between [^] and [$] matches when the whole text belongs to its language.
    [MatchString] decides the language with derivatives. *)
From S2P Require Import Prelude.

Inductive re : Type :=
| Void
| Eps
| Class (p : ascii → bool)
| Seq (r1 r2 : re)
| Alt (r1 r2 : re)
| Star (r : re).

(** [regexp.QuoteMeta(s)]: the literal [s]. *)
Fixpoint QuoteMeta (s : string) : re :=
  match s with
  | EmptyString => Eps
  | String a s' => Seq (Class (λ b, bool_decide (a = b))) (QuoteMeta s')
  end.

Definition Plus (r : re) : re := Seq r (Star r).

(** The language of a pattern. *)
Inductive matches : re → string → Prop :=
| m_eps : matches Eps ""
| m_class p a : p a = true → matches (Class p) (String a "")
| m_seq r1 r2 s t : matches r1 s → matches r2 t → matches (Seq r1 r2) (s +:+ t)
| m_alt_l r1 r2 s : matches r1 s → matches (Alt r1 r2) s
| m_alt_r r1 r2 s : matches r2 s → matches (Alt r1 r2) s
| m_star_nil r : matches (Star r) ""
| m_star_cons r s t : matches r s → matches (Star r) t → matches (Star r) (s +:+ t).

Fixpoint nullable (r : re) : bool :=
  match r with
  | Void | Class _ => false
  | Eps | Star _ => true
  | Seq r1 r2 => nullable r1 && nullable r2
  | Alt r1 r2 => nullable r1 || nullable r2
  end.

Fixpoint deriv (a : ascii) (r : re) : re :=
  match r with
  | Void | Eps => Void
  | Class p => if p a then Eps else Void
  | Seq r1 r2 =>
      if nullable r1 then Alt (Seq (deriv a r1) r2) (deriv a r2) else Seq (deriv a r1) r2
  | Alt r1 r2 => Alt (deriv a r1) (deriv a r2)
  | Star r1 => Seq (deriv a r1) (Star r1)
  end.

(** [regexp.MustCompile("^" + r + "$").MatchString(s)] *)
Fixpoint MatchString (r : re) (s : string) : bool :=
  match s with EmptyString => nullable r | String a s' => MatchString (deriv a r) s' end.

(** ** The matcher decides the language *)
Lemma nullable_matches r : nullable r = true ↔ matches r "".
Proof.
  split.
  - induction r; cbn; intros H; try done; try (by constructor).
    + apply andb_prop in H as [H1 H2]. apply (m_seq _ _ "" ""); auto.
    + apply orb_prop in H as [H|H]; [apply m_alt_l | apply m_alt_r]; auto.
  - remember "" as e eqn:He. intros H. revert He.
    induction H as [|p a Hp|r1 r2 s t H1 IH1 H2 IH2|r1 r2 s H IH|r1 r2 s H IH|r|r s t H1 IH1 H2 IH2];
      intros He; cbn; try done.
    + destruct s; [|done]. rewrite str_app_nil_l in He. by rewrite IH1, IH2.
    + by rewrite IH.
    + rewrite IH by done. by destruct (nullable r1).
Qed.

Lemma deriv_sound a r s : matches (deriv a r) s → matches r (String a s).
Proof.
  revert s. induction r as [| |p|r1 IH1 r2 IH2|r1 IH1 r2 IH2|r1 IH1]; cbn; intros s H.
  - inversion H.
  - inversion H.
  - destruct (p a) eqn:Hp; inversion H; subst. by constructor.
  - assert (matches (Seq (deriv a r1) r2) s → matches (Seq r1 r2) (String a s)) as Hseq.
    { intros Hs. inversion Hs as [| |? ? s1 s2 Hs1 Hs2| | | |]; subst.
      rewrite <- str_app_cons. constructor; auto. }
    destruct (nullable r1) eqn:Hn; [|auto].
    inversion H; subst; [auto|]. apply (m_seq _ _ ""); [by apply nullable_matches|]. auto.
  - inversion H; subst; [apply m_alt_l | apply m_alt_r]; auto.
  - inversion H as [| |? ? s1 s2 Hs1 Hs2| | | |]; subst.
    rewrite <- str_app_cons. apply m_star_cons; auto.
Qed.

Lemma deriv_complete a r s : matches r (String a s) → matches (deriv a r) s.
Proof.
  remember (String a s) as u eqn:Hu. intros H. revert s Hu.
  induction H as [|p b Hp|r1 r2 s1 s2 H1 IH1 H2 IH2|r1 r2 s1 H IH|r1 r2 s1 H IH|r|r s1 s2 H1 IH1 H2 IH2];
    intros s Hu; cbn; try done.
  - injection Hu as -> <-. rewrite Hp. constructor.
  - destruct s1 as [|b s1].
    + assert (nullable r1 = true) as -> by by apply nullable_matches.
      apply m_alt_r. auto.
    + rewrite str_app_cons in Hu. injection Hu as -> <-.
      assert (matches (Seq (deriv a r1) r2) (s1 +:+ s2)) by (constructor; auto).
      destruct (nullable r1); [by apply m_alt_l | done].
  - apply m_alt_l. auto.
  - apply m_alt_r. auto.
  - destruct s1 as [|b s1]; [by apply IH2|].
    rewrite str_app_cons in Hu. injection Hu as -> <-. constructor; auto.
Qed.

Lemma MatchString_matches r s : MatchString r s = true ↔ matches r s.
Proof.
  revert r. induction s as [|a s IH]; intros r; cbn; [apply nullable_matches|].
  rewrite IH. split; [apply deriv_sound | apply deriv_complete].
Qed.

(** ** Inversion of the constructs used *)
Lemma matches_Seq r1 r2 s :
  matches (Seq r1 r2) s ↔ ∃ s1 s2, s = s1 +:+ s2 ∧ matches r1 s1 ∧ matches r2 s2.
Proof.
  split; [inversion 1; subst; eauto|]. intros (s1 & s2 & -> & ? & ?). by constructor.
Qed.

Lemma matches_Alt r1 r2 s : matches (Alt r1 r2) s ↔ matches r1 s ∨ matches r2 s.
Proof. split; [inversion 1; subst; eauto|]. intros [?|?]; [by apply m_alt_l | by apply m_alt_r]. Qed.

Lemma matches_QuoteMeta l s : matches (QuoteMeta l) s ↔ s = l.
Proof.
  revert s. induction l as [|a l IH]; intros s; cbn.
  - split; [by inversion 1 | intros ->; constructor].
  - rewrite matches_Seq. split.
    + intros (s1 & s2 & -> & H1 & ->%IH). inversion H1 as [|p b Hb| | | | |]; subst.
      apply bool_decide_eq_true in Hb as ->. done.
    + intros ->. exists (String a ""), l. split; [done|]. split; [|by apply IH].
      constructor. by apply bool_decide_eq_true.
Qed.

Lemma matches_Star_Class p s : matches (Star (Class p)) s ↔ str_all p s = true.
Proof.
  split.
  - remember (Star (Class p)) as r eqn:Hr. intros H. revert Hr.
    induction H as [| | | | | |r s1 s2 H1 _ H2 IH2]; intros Hr; try done.
    injection Hr as ->. inversion H1; subst. rewrite str_app_cons, str_app_nil_l. cbn.
    by rewrite IH2, andb_true_r.
  - induction s as [|a s IH]; [constructor|]. cbn. intros [Ha Hs]%andb_prop.
    apply (m_star_cons _ (String a "") s); [by constructor | auto].
Qed.

Lemma matches_Plus_Class p s :
  matches (Plus (Class p)) s ↔ s ≠ "" ∧ str_all p s = true.
Proof.
  unfold Plus. rewrite matches_Seq. split.
  - intros (s1 & s2 & -> & H1 & H2). inversion H1; subst. rewrite str_app_cons, str_app_nil_l.
    split; [done|]. cbn. apply matches_Star_Class in H2. by rewrite H2, andb_true_r.
  - intros [Hne Hs]. destruct s as [|a s]; [done|]. cbn in Hs. apply andb_prop in Hs as [? ?].
    exists (String a ""), s. repeat split; [by constructor | by apply matches_Star_Class].
Qed.
