(* ===== verification/Api.v ===== *)
(** * The Kubernetes and knative data the components read and write

    Records for the structs of [k8s.io/api/core/v1], [metav1] and
    [knative.dev/pkg] that appear in the repository's code.  Each record has the
    fields the code reads or writes; everything else a struct holds (an image, a
    security context, other volume sources, ...) is one field [*_Rest] of an
    arbitrary type, which the code copies and never inspects.  A composite
    literal that leaves those fields out has [opaque_zero] there.

    A Go map that the code compares with [nil] or creates on demand is an
    [option (gmap string string)]; slices are lists: no code modelled here tells
    a nil slice from an empty one. *)
From S2P Require Import Prelude.

(** The fields of third-party structs that the code only copies. *)
Class Opaque := {
  opaque : Type;
  opaque_zero : opaque;
  #[global] opaque_eq_dec :: EqDecision opaque;
}.

(** [metav1.Time]: an instant; [0] is the zero [time.Time]. *)
Definition Time : Type := Z.
#[export] Instance Time_eq_dec : EqDecision Time := Z.eq_dec.

Notation smap := (gmap string string).

(** ** metav1 *)
Record OwnerReference := mkOwnerReference {
  OwnerReference_APIVersion : string;
  OwnerReference_Kind : string;
  OwnerReference_Name : string;
  OwnerReference_UID : string;
  OwnerReference_Controller : option bool;
  OwnerReference_BlockOwnerDeletion : option bool;
}.

#[export] Instance OwnerReference_eq_dec : EqDecision OwnerReference.
Proof. solve_decision. Defined.

Record ObjectMeta `{Opaque} := mkObjectMeta {
  Meta_Name : string;
  Meta_Namespace : string;
  Meta_UID : string;
  Meta_ResourceVersion : string;
  Meta_Generation : Z;
  Meta_DeletionTimestamp : option Time;
  Meta_Labels : option smap;
  Meta_Annotations : option smap;
  Meta_OwnerReferences : list OwnerReference;
  Meta_Finalizers : list string;
  Meta_Rest : opaque;
}.

Arguments mkObjectMeta {_} _ _ _ _ _ _ _ _ _ _ _.

#[export] Instance ObjectMeta_eq_dec `{Opaque} : EqDecision ObjectMeta.
Proof. solve_decision. Defined.

(** A composite literal [metav1.ObjectMeta{Name: ..., Namespace: ...}]. *)
Definition newMeta `{Opaque} (name namespace : string) : ObjectMeta :=
  {| Meta_Name := name; Meta_Namespace := namespace; Meta_UID := "";
     Meta_ResourceVersion := ""; Meta_Generation := 0; Meta_DeletionTimestamp := None;
     Meta_Labels := None; Meta_Annotations := None; Meta_OwnerReferences := [];
     Meta_Finalizers := []; Meta_Rest := opaque_zero |}.

Section setters.
Context `{Opaque}.
Implicit Types m : ObjectMeta.

Definition Meta_set_Labels m (v : option smap) : ObjectMeta :=
  {| Meta_Name := Meta_Name m; Meta_Namespace := Meta_Namespace m; Meta_UID := Meta_UID m;
     Meta_ResourceVersion := Meta_ResourceVersion m; Meta_Generation := Meta_Generation m;
     Meta_DeletionTimestamp := Meta_DeletionTimestamp m; Meta_Labels := v;
     Meta_Annotations := Meta_Annotations m; Meta_OwnerReferences := Meta_OwnerReferences m;
     Meta_Finalizers := Meta_Finalizers m; Meta_Rest := Meta_Rest m |}.

Definition Meta_set_Annotations m (v : option smap) : ObjectMeta :=
  {| Meta_Name := Meta_Name m; Meta_Namespace := Meta_Namespace m; Meta_UID := Meta_UID m;
     Meta_ResourceVersion := Meta_ResourceVersion m; Meta_Generation := Meta_Generation m;
     Meta_DeletionTimestamp := Meta_DeletionTimestamp m; Meta_Labels := Meta_Labels m;
     Meta_Annotations := v; Meta_OwnerReferences := Meta_OwnerReferences m;
     Meta_Finalizers := Meta_Finalizers m; Meta_Rest := Meta_Rest m |}.

Definition Meta_set_OwnerReferences m (v : list OwnerReference) : ObjectMeta :=
  {| Meta_Name := Meta_Name m; Meta_Namespace := Meta_Namespace m; Meta_UID := Meta_UID m;
     Meta_ResourceVersion := Meta_ResourceVersion m; Meta_Generation := Meta_Generation m;
     Meta_DeletionTimestamp := Meta_DeletionTimestamp m; Meta_Labels := Meta_Labels m;
     Meta_Annotations := Meta_Annotations m; Meta_OwnerReferences := v;
     Meta_Finalizers := Meta_Finalizers m; Meta_Rest := Meta_Rest m |}.

Definition Meta_set_Finalizers m (v : list string) : ObjectMeta :=
  {| Meta_Name := Meta_Name m; Meta_Namespace := Meta_Namespace m; Meta_UID := Meta_UID m;
     Meta_ResourceVersion := Meta_ResourceVersion m; Meta_Generation := Meta_Generation m;
     Meta_DeletionTimestamp := Meta_DeletionTimestamp m; Meta_Labels := Meta_Labels m;
     Meta_Annotations := Meta_Annotations m; Meta_OwnerReferences := Meta_OwnerReferences m;
     Meta_Finalizers := v; Meta_Rest := Meta_Rest m |}.
End setters.

(** [metav1.Time.IsZero] of a [*metav1.Time]: nil, or the zero instant. *)
Definition IsZero (t : option Time) : bool :=
  match t with None => true | Some t => bool_decide (t = 0%Z) end.

Record LabelSelectorRequirement := mkRequirement {
  Requirement_Key : string;
  Requirement_Operator : string;
  Requirement_Values : list string;
}.

Record LabelSelector := mkLabelSelector {
  LabelSelector_MatchLabels : option smap;
  LabelSelector_MatchExpressions : list LabelSelectorRequirement;
}.

#[export] Instance LabelSelectorRequirement_eq_dec : EqDecision LabelSelectorRequirement.
Proof. solve_decision. Defined.
#[export] Instance LabelSelector_eq_dec : EqDecision LabelSelector.
Proof. solve_decision. Defined.

(** ** knative.dev/pkg/tracker *)
Record Reference := mkReference {
  Reference_APIVersion : string;
  Reference_Kind : string;
  Reference_Namespace : string;
  Reference_Name : string;
  Reference_Selector : option LabelSelector;
}.

#[export] Instance Reference_eq_dec : EqDecision Reference.
Proof. solve_decision. Defined.

Definition Reference_set_Namespace (r : Reference) (ns : string) : Reference :=
  {| Reference_APIVersion := Reference_APIVersion r; Reference_Kind := Reference_Kind r;
     Reference_Namespace := ns; Reference_Name := Reference_Name r;
     Reference_Selector := Reference_Selector r |}.

(** ** schema *)
Record GroupVersion := mkGroupVersion { GV_Group : string; GV_Version : string }.
Record GroupVersionKind := mkGVK { GVK_Group : string; GVK_Version : string; GVK_Kind : string }.
Record GroupVersionResource :=
  mkGVR { GVR_Group : string; GVR_Version : string; GVR_Resource : string }.

#[export] Instance GroupVersion_eq_dec : EqDecision GroupVersion.
Proof. solve_decision. Defined.
#[export] Instance GroupVersionKind_eq_dec : EqDecision GroupVersionKind.
Proof. solve_decision. Defined.
#[export] Instance GroupVersionResource_eq_dec : EqDecision GroupVersionResource.
Proof. solve_decision. Defined.

Definition WithKind (gv : GroupVersion) (kind : string) : GroupVersionKind :=
  mkGVK (GV_Group gv) (GV_Version gv) kind.

(** ** corev1 *)
Record LocalObjectReference := mkLocalObjectReference { LocalObjectReference_Name : string }.

#[export] Instance LocalObjectReference_eq_dec : EqDecision LocalObjectReference.
Proof. solve_decision. Defined.

Section corev1.
Context `{Opaque}.

Record ObjectFieldSelector := mkObjectFieldSelector {
  ObjectFieldSelector_FieldPath : string;
  ObjectFieldSelector_Rest : opaque;
}.

Record SecretKeySelector := mkSecretKeySelector {
  SecretKeySelector_Name : string;
  SecretKeySelector_Key : string;
  SecretKeySelector_Rest : opaque;
}.

Record EnvVarSource := mkEnvVarSource {
  EnvVarSource_FieldRef : option ObjectFieldSelector;
  EnvVarSource_SecretKeyRef : option SecretKeySelector;
  EnvVarSource_Rest : opaque;
}.

Record CoreEnvVar := mkCoreEnvVar {
  CoreEnvVar_Name : string;
  CoreEnvVar_Value : string;
  CoreEnvVar_ValueFrom : option EnvVarSource;
}.

Record VolumeMount := mkVolumeMount {
  VolumeMount_Name : string;
  VolumeMount_ReadOnly : bool;
  VolumeMount_MountPath : string;
  VolumeMount_Rest : opaque;
}.

Record Container := mkContainer {
  Container_Name : string;
  Container_Env : list CoreEnvVar;
  Container_VolumeMounts : list VolumeMount;
  Container_Rest : opaque;
}.

Record SecretProjection := mkSecretProjection {
  SecretProjection_Name : string;
  SecretProjection_Rest : opaque;
}.

Record DownwardAPIVolumeFile := mkDownwardAPIVolumeFile {
  DownwardAPIVolumeFile_Path : string;
  DownwardAPIVolumeFile_FieldRef : option ObjectFieldSelector;
  DownwardAPIVolumeFile_Rest : opaque;
}.

Record VolumeProjection := mkVolumeProjection {
  VolumeProjection_Secret : option SecretProjection;
  VolumeProjection_DownwardAPI : option (list DownwardAPIVolumeFile);
  VolumeProjection_Rest : opaque;
}.

Record ProjectedVolumeSource := mkProjectedVolumeSource {
  Projected_Sources : list VolumeProjection;
  Projected_Rest : opaque;
}.

Record Volume := mkVolume {
  Volume_Name : string;
  Volume_Projected : option ProjectedVolumeSource;
  Volume_Rest : opaque;
}.

Record PodSpec := mkPodSpec {
  PodSpec_Volumes : list Volume;
  PodSpec_InitContainers : list Container;
  PodSpec_Containers : list Container;
  PodSpec_Rest : opaque;
}.

(** [duckv1.WithPod]: an object whose [spec.template] is a pod template. *)
Record WithPod := mkWithPod {
  WithPod_ObjectMeta : ObjectMeta;
  WithPod_TemplateMeta : ObjectMeta;
  WithPod_PodSpec : PodSpec;
  WithPod_Rest : opaque;
}.
End corev1.

#[export] Instance ObjectFieldSelector_eq_dec `{Opaque} : EqDecision ObjectFieldSelector.
Proof. solve_decision. Defined.
#[export] Instance SecretKeySelector_eq_dec `{Opaque} : EqDecision SecretKeySelector.
Proof. solve_decision. Defined.
#[export] Instance EnvVarSource_eq_dec `{Opaque} : EqDecision EnvVarSource.
Proof. solve_decision. Defined.
#[export] Instance CoreEnvVar_eq_dec `{Opaque} : EqDecision CoreEnvVar.
Proof. solve_decision. Defined.
#[export] Instance VolumeMount_eq_dec `{Opaque} : EqDecision VolumeMount.
Proof. solve_decision. Defined.
#[export] Instance Container_eq_dec `{Opaque} : EqDecision Container.
Proof. solve_decision. Defined.
#[export] Instance SecretProjection_eq_dec `{Opaque} : EqDecision SecretProjection.
Proof. solve_decision. Defined.
#[export] Instance DownwardAPIVolumeFile_eq_dec `{Opaque} : EqDecision DownwardAPIVolumeFile.
Proof. solve_decision. Defined.
#[export] Instance VolumeProjection_eq_dec `{Opaque} : EqDecision VolumeProjection.
Proof. solve_decision. Defined.
#[export] Instance ProjectedVolumeSource_eq_dec `{Opaque} : EqDecision ProjectedVolumeSource.
Proof. solve_decision. Defined.
#[export] Instance Volume_eq_dec `{Opaque} : EqDecision Volume.
Proof. solve_decision. Defined.
#[export] Instance PodSpec_eq_dec `{Opaque} : EqDecision PodSpec.
Proof. solve_decision. Defined.
#[export] Instance WithPod_eq_dec `{Opaque} : EqDecision WithPod.
Proof. solve_decision. Defined.

(** An instance of [Opaque] for concrete examples: the remaining fields are a
    string. *)
Definition string_opaque : Opaque := {| opaque := string; opaque_zero := "" |}.
