(* ===== verification/Conditions.v ===== *)
(** * knative's condition sets, as the components see them

    [knative.dev/pkg/apis.ConditionSet] is not part of the repository.  Its
    manager is the class [ConditionManager]: the operations the code calls, and
    the behaviour the package documents for them.  The projection's and the
    provisioned service's status methods are proved against this interface. *)
From S2P Require Import Prelude Api.

(** [apis.Condition] *)
Record Condition := mkCondition {
  Condition_Type : string;
  Condition_Status : string;
  Condition_Severity : string;
  Condition_LastTransitionTime : Time;
  Condition_Reason : string;
  Condition_Message : string;
}.

#[export] Instance Condition_eq_dec : EqDecision Condition.
Proof. solve_decision. Defined.

(** The zero [apis.Condition{}]. *)
Definition zeroCondition : Condition := mkCondition "" "" "" 0%Z "" "".

Definition ConditionTrue : string := "True".
Definition ConditionFalse : string := "False".
Definition ConditionUnknown : string := "Unknown".
Definition ConditionReady : string := "Ready".

(** [duckv1.Status] *)
Record duckStatus := mkStatus {
  Status_ObservedGeneration : Z;
  Status_Conditions : list Condition;
  Status_Annotations : option smap;
}.

#[export] Instance duckStatus_eq_dec : EqDecision duckStatus.
Proof. solve_decision. Defined.

Definition zeroStatus : duckStatus := mkStatus 0 [] None.

Definition Status_set_ObservedGeneration (s : duckStatus) (g : Z) : duckStatus :=
  {| Status_ObservedGeneration := g; Status_Conditions := Status_Conditions s;
     Status_Annotations := Status_Annotations s |}.

(** [apis.NewLivingConditionSet(deps...)] with its manager's methods; [now] is
    the clock reading a method stamps on the conditions it changes. *)
Class ConditionManager := {
  ConditionSet : Type;
  NewLivingConditionSet : list string → ConditionSet;
  GetCondition : duckStatus → string → option Condition;
  cm_InitializeConditions : ConditionSet → Time → duckStatus → duckStatus;
  cm_MarkTrue : ConditionSet → Time → string → duckStatus → duckStatus;
  cm_MarkFalse : ConditionSet → Time → string → string → string → duckStatus → duckStatus;
}.

(** A condition of type [t] is present, with this status, reason and message. *)
Definition has_condition `{ConditionManager} (s : duckStatus) (t st reason msg : string) : Prop :=
  ∃ c, GetCondition s t = Some c ∧ Condition_Status c = st ∧
       Condition_Reason c = reason ∧ Condition_Message c = msg.

Definition is_true `{ConditionManager} (s : duckStatus) (t : string) : Prop :=
  ∃ c, GetCondition s t = Some c ∧ Condition_Status c = ConditionTrue.

(** A message that is its own format: [MarkFalse] takes the message for the format of a
    text, and the code passes no operands. *)
Definition verbatim (msg : string) : Prop := Contains msg "%" = false.

(** What the package documents: [MarkTrue] sets the condition to true, and the
    happy condition when every dependent is true; [MarkFalse] sets the condition
    and the happy condition to false with the reason and the message given;
    [InitializeConditions] adds the missing conditions and keeps the others; no
    method touches another field of the status. *)
Class ConditionManagerLaws `{ConditionManager} := {
  MarkTrue_true deps now t s :
    t ∈ deps →
    is_true (cm_MarkTrue (NewLivingConditionSet deps) now t s) t;
  MarkTrue_happy deps now t s :
    (∀ d, d ∈ deps → d = t ∨ is_true s d) →
    is_true (cm_MarkTrue (NewLivingConditionSet deps) now t s) ConditionReady;
  MarkFalse_false deps now t reason msg s :
    t ∈ deps → verbatim msg →
    has_condition (cm_MarkFalse (NewLivingConditionSet deps) now t reason msg s)
      t ConditionFalse reason msg;
  MarkFalse_happy deps now t reason msg s :
    t ∈ deps → verbatim msg →
    has_condition (cm_MarkFalse (NewLivingConditionSet deps) now t reason msg s)
      ConditionReady ConditionFalse reason msg;
  Initialize_present deps now t s :
    t = ConditionReady ∨ t ∈ deps →
    is_Some (GetCondition (cm_InitializeConditions (NewLivingConditionSet deps) now s) t);
  Initialize_keeps deps now t s c :
    GetCondition s t = Some c →
    GetCondition (cm_InitializeConditions (NewLivingConditionSet deps) now s) t = Some c;
  cm_frame deps now t reason msg s f :
    f = cm_InitializeConditions (NewLivingConditionSet deps) now ∨
    f = cm_MarkTrue (NewLivingConditionSet deps) now t ∨
    f = cm_MarkFalse (NewLivingConditionSet deps) now t reason msg →
    Status_ObservedGeneration (f s) = Status_ObservedGeneration s ∧
    Status_Annotations (f s) = Status_Annotations s;
}.

(** ** A concrete manager, for the examples: conditions are looked up and
    replaced by type, and time stamps always move. *)
Section simple_manager.
Definition find_condition (s : duckStatus) (t : string) : option Condition :=
  List.find (λ c, bool_decide (Condition_Type c = t)) (Status_Conditions s).

Definition put_condition (c : Condition) (s : duckStatus) : duckStatus :=
  {| Status_ObservedGeneration := Status_ObservedGeneration s;
     Status_Conditions := c :: Status_Conditions s;
     Status_Annotations := Status_Annotations s |}.

Definition put (now : Time) (t st reason msg : string) (s : duckStatus) : duckStatus :=
  put_condition (mkCondition t st "" now reason msg) s.

Definition put_missing (now : Time) (s : duckStatus) (t : string) : duckStatus :=
  match find_condition s t with
  | Some _ => s
  | None => put now t ConditionUnknown "" "" s
  end.

Definition all_true (s : duckStatus) (deps : list string) : bool :=
  forallb (λ d, match find_condition s d with
                | Some c => bool_decide (Condition_Status c = ConditionTrue)
                | None => false
                end) deps.

#[global] Instance simple_manager : ConditionManager := {|
  ConditionSet := list string;
  NewLivingConditionSet deps := deps;
  GetCondition := find_condition;
  cm_InitializeConditions deps now s := foldl (put_missing now) s (ConditionReady :: deps);
  cm_MarkTrue deps now t s :=
    let s := put now t ConditionTrue "" "" s in
    if all_true s deps then put now ConditionReady ConditionTrue "" "" s else s;
  cm_MarkFalse deps now t reason msg s :=
    put now t ConditionFalse reason msg (put now ConditionReady ConditionFalse reason msg s);
|}.

#[local] Arguments all_true : simpl never.
#[local] Arguments put : simpl never.
#[local] Arguments find_condition : simpl never.

Lemma find_put now t st reason msg s t' :
  find_condition (put now t st reason msg s) t' =
  if decide (t = t') then Some (mkCondition t st "" now reason msg) else find_condition s t'.
Proof. unfold find_condition, put, put_condition. cbn. case_bool_decide; by case_decide. Qed.

Lemma put_missing_keeps now s t t' c :
  find_condition s t' = Some c → find_condition (put_missing now s t) t' = Some c.
Proof.
  intros Hc. unfold put_missing. destruct (find_condition s t) eqn:E; [done|].
  rewrite find_put. case_decide; [congruence | done].
Qed.

Lemma foldl_put_missing_keeps now s ts t' c :
  find_condition s t' = Some c → find_condition (foldl (put_missing now) s ts) t' = Some c.
Proof.
  revert s. induction ts as [|t ts IH]; intros s Hc; [done|].
  cbn. by apply IH, put_missing_keeps.
Qed.

Lemma foldl_put_missing_present now s ts t :
  t ∈ ts → is_Some (find_condition (foldl (put_missing now) s ts) t).
Proof.
  revert s. induction ts as [|t' ts IH]; intros s Hin; [by apply elem_of_nil in Hin|].
  cbn. apply elem_of_cons in Hin as [->|Hin]; [|by apply IH].
  assert (∃ c, find_condition (put_missing now s t') t' = Some c) as [c Hc].
  { unfold put_missing. destruct (find_condition s t') eqn:E; [eauto|].
    rewrite find_put, decide_True by done. eauto. }
  exists c. by apply foldl_put_missing_keeps.
Qed.

#[global] Instance simple_manager_laws : ConditionManagerLaws.
Proof.
  split.
  - intros. unfold is_true. cbn. case_match; rewrite !find_put; repeat case_decide; eauto; done.
  - intros deps now t s Hd. unfold is_true. cbn.
    assert (all_true (put now t ConditionTrue "" "" s) deps = true) as ->.
    { apply forallb_forall. intros d Hin%list_elem_of_In. rewrite find_put.
      case_decide; [done|]. destruct (Hd d Hin) as [?|(c & Hc & Hs)]; [done|].
      cbn in Hc. rewrite Hc. by apply bool_decide_eq_true. }
    rewrite find_put, decide_True by done. eauto.
  - intros. unfold has_condition. cbn. rewrite find_put, decide_True by done. by eexists.
  - intros. unfold has_condition. cbn. rewrite !find_put.
    case_decide; [|rewrite decide_True by done]; by eexists.
  - intros deps now t s Ht. apply foldl_put_missing_present. set_solver.
  - intros. by apply foldl_put_missing_keeps.
  - intros deps now t reason msg s f Hf.
    assert (∀ ts s, Status_ObservedGeneration (foldl (put_missing now) s ts) = Status_ObservedGeneration s ∧
      Status_Annotations (foldl (put_missing now) s ts) = Status_Annotations s) as Hfold.
    { clear. induction ts as [|t ts IH]; intros s; [done|]. cbn.
      destruct (IH (put_missing now s t)) as [-> ->]. unfold put_missing. by case_match. }
    destruct Hf as [->|[->| ->]];
      [apply (Hfold (ConditionReady :: deps)) | cbn; by case_match | done].
Qed.
End simple_manager.
