(* ===== verification/Effects.v ===== *)
(** * Calls to the outside, errors and reconciler events

    The reconcilers call listers, clients, trackers and recorders.  A computation
    with such calls is a function from the log of the calls made so far to an
    [outcome] and the extended log.  The answer to a call is given by the
    environment, a function of the whole log: nothing is assumed of it, so the same
    lookup may give different answers at different times. *)
From S2P Require Import Prelude Api.

(** ** The monad *)
Definition M (E A : Type) : Type := list E → outcome A * list E.

Definition ret {E A} (a : A) : M E A := λ log, (Done a, log).

Definition panic {E A} : M E A := λ log, (Panic, log).

Definition bind {E A B} (m : M E A) (f : A → M E B) : M E B := λ log,
  let '(o, log') := m log in
  match o with Done a => f a log' | Panic => (Panic, log') end.

(** Code that may panic but calls nothing. *)
Definition pure {E A} (o : outcome A) : M E A := λ log, (o, log).

(** One call: [ask log] is the environment's answer, [event r] what is logged. *)
Definition call {E R} (ask : list E → R) (event : R → E) : M E R := λ log,
  let r := ask log in (Done r, log ++ [event r]).

Declare Scope effect_scope.
Delimit Scope effect_scope with effect.
Notation "'do!' x ':=' m 'in' k" := (bind m (fun x => k))
  (at level 10, x pattern, m at level 100, k at level 200) : effect_scope.

Section monad.
Context {E : Type}.

Lemma bind_ret {A B} (a : A) (f : A → M E B) log : bind (ret a) f log = f a log.
Proof. done. Qed.

Lemma bind_pure {A B} (a : A) (f : A → M E B) log : bind (pure (Done a)) f log = f a log.
Proof. done. Qed.

(** As functions of the log, to rewrite below another [bind]. *)
Lemma bind_ret_l {A B} (a : A) (f : A → M E B) : bind (ret a) f = f a.
Proof. done. Qed.

Lemma bind_pure_l {A B} (a : A) (f : A → M E B) : bind (pure (Done a)) f = f a.
Proof. done. Qed.

Lemma bind_call {R B} (ask : list E → R) ev (f : R → M E B) log :
  bind (call ask ev) f log = f (ask log) (log ++ [ev (ask log)]).
Proof. done. Qed.

Lemma bind_Done {A B} (m : M E A) (f : A → M E B) log log' a :
  m log = (Done a, log') → bind m f log = f a log'.
Proof. unfold bind. by intros ->. Qed.

Lemma bind_inv {A B} (m : M E A) (f : A → M E B) log log' b :
  bind m f log = (Done b, log') →
  ∃ a log0, m log = (Done a, log0) ∧ f a log0 = (Done b, log').
Proof. unfold bind. destruct (m log) as [[a|] log0]; naive_solver. Qed.
End monad.

(** A computation only ever extends the log, with events that satisfy [P]. *)
Definition emits {E A} (P : E → Prop) (m : M E A) : Prop :=
  ∀ log, ∃ new, (m log).2 = log ++ new ∧ Forall P new.

Section emits.
Context {E : Type} (P : E → Prop).

Lemma emits_ret {A} (a : A) : emits P (ret a).
Proof. intros log. exists []. by rewrite app_nil_r. Qed.

Lemma emits_pure {A} (o : outcome A) : emits P (pure o).
Proof. intros log. exists []. by rewrite app_nil_r. Qed.

Lemma emits_panic {A} : emits P (panic (A := A)).
Proof. intros log. exists []. by rewrite app_nil_r. Qed.

Lemma emits_call {R} (ask : list E → R) ev : (∀ r, P (ev r)) → emits P (call ask ev).
Proof. intros Hp log. exists [ev (ask log)]. split; [done|]. by constructor. Qed.

Lemma emits_bind {A B} (m : M E A) (f : A → M E B) :
  emits P m → (∀ a, emits P (f a)) → emits P (bind m f).
Proof.
  intros Hm Hf log. destruct (Hm log) as (new & Hlog & Hnew). unfold bind.
  destruct (m log) as [[a|] log']; cbn in *; subst; [|by exists new].
  destruct (Hf a (log ++ new)) as (new' & Hlog' & Hnew').
  exists (new ++ new'). rewrite Hlog', (assoc_L (++)). split; [done|]. by apply Forall_app.
Qed.
End emits.

#[export] Hint Resolve emits_ret emits_pure emits_panic emits_call emits_bind : go.

(** [emits] for a computation whose shape is given by matches on answers. *)
Ltac solve_emits :=
  repeat first
    [ apply emits_bind; [|intros ?] | apply emits_ret | apply emits_pure | apply emits_panic
    | apply emits_call; intros ?
    | case_match ].

(** ** Errors *)
Inductive error : Type :=
| ApiError (reason message : string)      (** a Kubernetes status error *)
| PlainError (message : string)           (** [errors.New], [fmt.Errorf] *)
| Wrapped (prefix : string) (e : error).  (** [fmt.Errorf("...: %w", err)] *)

#[export] Instance error_eq_dec : EqDecision error.
Proof. solve_decision. Defined.

Fixpoint Error (e : error) : string :=
  match e with
  | ApiError _ message | PlainError message => message
  | Wrapped prefix e => prefix +:+ Error e
  end.

(** [apierrs.ReasonForError], which looks through wrapped errors. *)
Fixpoint ReasonForError (e : error) : string :=
  match e with
  | ApiError reason _ => reason
  | PlainError _ => ""
  | Wrapped _ e => ReasonForError e
  end.

Definition IsNotFound (e : error) : bool := bool_decide (ReasonForError e = "NotFound").
Definition IsConflict (e : error) : bool := bool_decide (ReasonForError e = "Conflict").

(** ** [knative.dev/pkg/reconciler.Event] *)

(** [*ReconcilerEvent]: an event type, a reason and the formatted message. *)
Record ReconcilerEvent := mkReconcilerEvent {
  Event_EventType : string;
  Event_Reason : string;
  Event_Message : string;
}.

#[export] Instance ReconcilerEvent_eq_dec : EqDecision ReconcilerEvent.
Proof. solve_decision. Defined.

(** A [reconciler.Event] is an error; a nil one is [None] below. *)
Inductive Event : Type :=
| AnEvent (e : ReconcilerEvent)
| AnError (e : error)
| WrappedEvent (prefix : string) (e : ReconcilerEvent).  (** an error around an event *)

#[export] Instance Event_eq_dec : EqDecision Event.
Proof. solve_decision. Defined.

Definition EventTypeNormal : string := "Normal".
Definition EventTypeWarning : string := "Warning".

(** [reconciler.EventAs]: the event in the chain of errors. *)
Definition EventAs (e : Event) : option ReconcilerEvent :=
  match e with AnEvent ev | WrappedEvent _ ev => Some ev | AnError _ => None end.

Definition Event_Error (e : Event) : string :=
  match e with
  | AnEvent ev => Event_Message ev
  | AnError err => Error err
  | WrappedEvent prefix ev => prefix +:+ Event_Message ev
  end.
