(* ===== verification/Projection.v ===== *)
(** * [ServiceBindingProjection]: injecting a binding into a workload

    The data of [pkg/apis/labsinternal/v1alpha1/servicebindingprojection_types.go]
    and the behaviour of [servicebindingprojection_lifecycle.go]: [Do] injects the
    binding's secret into a pod template (a projected volume, a mount in every
    target container, environment variables, annotations), [Undo] removes it.

    [Do] assigns into maps, which panics on a nil map, so it returns an
    [outcome].  Sorting is the library algorithm of [GoSort], the digests are
    those of [GoHash], and the field path pattern is one of [GoRegexp]. *)
From S2P Require Import Prelude GoSort GoHash GoRegexp Api Conditions.

(** ** Data *)

(** [EnvVar] of the binding's spec: the variable [Name] gets the secret's [Key]. *)
Record EnvVar := mkEnvVar { EnvVar_Name : string; EnvVar_Key : string }.

#[export] Instance EnvVar_eq_dec : EqDecision EnvVar.
Proof. solve_decision. Defined.

Record WorkloadReference := mkWorkloadReference {
  Workload_Reference : Reference;
  Workload_Containers : list string;
}.

#[export] Instance WorkloadReference_eq_dec : EqDecision WorkloadReference.
Proof. solve_decision. Defined.

Record ServiceBindingProjectionSpec := mkSBPSpec {
  SBPSpec_Name : string;
  SBPSpec_Type : string;
  SBPSpec_Provider : string;
  SBPSpec_Binding : LocalObjectReference;
  SBPSpec_Workload : WorkloadReference;
  SBPSpec_Env : list EnvVar;
}.

#[export] Instance ServiceBindingProjectionSpec_eq_dec : EqDecision ServiceBindingProjectionSpec.
Proof. solve_decision. Defined.

Record ServiceBindingProjectionStatus := mkSBPStatus { SBPStatus_Status : duckStatus }.

#[export] Instance SBPStatus_eq_dec : EqDecision ServiceBindingProjectionStatus.
Proof. solve_decision. Defined.

Record ServiceBindingProjection `{Opaque} := mkSBP {
  SBP_Meta : ObjectMeta;
  SBP_Spec : ServiceBindingProjectionSpec;
  SBP_Status : ServiceBindingProjectionStatus;
}.

Arguments mkSBP {_} _ _ _.

#[export] Instance ServiceBindingProjection_eq_dec `{Opaque} : EqDecision ServiceBindingProjection.
Proof. solve_decision. Defined.

(** [GroupName] of register.go, and the constants of the two files. *)
Definition GroupName : string := "internal.bindings.labs.vmware.com".
Definition ServiceBindingProjectionAnnotationKey : string := GroupName +:+ "/projection".
Definition ServiceBindingProjectionConditionReady : string := ConditionReady.
Definition ServiceBindingProjectionConditionWorkloadAvailable : string := "WorkloadAvailable".
Definition ServiceBindingRootEnv : string := "SERVICE_BINDING_ROOT".
Definition bindingVolumePrefix : string := "binding-".

Definition SchemeGroupVersion : GroupVersion := mkGroupVersion GroupName "v1alpha1".

(** [m[k] = v] on a possibly nil map: assignment to a nil map panics. *)
Definition map_assign (m : option smap) (k v : string) : outcome (option smap) :=
  match m with Some m => Done (Some (<[k := v]> m)) | None => Panic end.

(** [m[k]] on a possibly nil map: the zero value when absent. *)
Definition map_get (m : option smap) (k : string) : string :=
  default "" (m ≫= λ m, m !! k).

(** [HasAll(a, b)] and [Has(a)] of [sets.String]. *)
Definition Has (s : gset string) (a : string) : bool := bool_decide (a ∈ s).
Definition HasAll2 (s : gset string) (a b : string) : bool := Has s a && Has s b.

Section lifecycle.
Context `{Opaque}.
Implicit Types (b : ServiceBindingProjection) (ps : WithPod) (c : Container) (v : Volume)
  (e : CoreEnvVar).

(** *** Field updates of the workload *)
Definition set_Annotations ps (m : option smap) : WithPod :=
  {| WithPod_ObjectMeta := Meta_set_Annotations (WithPod_ObjectMeta ps) m;
     WithPod_TemplateMeta := WithPod_TemplateMeta ps;
     WithPod_PodSpec := WithPod_PodSpec ps; WithPod_Rest := WithPod_Rest ps |}.

Definition set_TemplateAnnotations ps (m : option smap) : WithPod :=
  {| WithPod_ObjectMeta := WithPod_ObjectMeta ps;
     WithPod_TemplateMeta := Meta_set_Annotations (WithPod_TemplateMeta ps) m;
     WithPod_PodSpec := WithPod_PodSpec ps; WithPod_Rest := WithPod_Rest ps |}.

Definition set_PodSpec ps (s : PodSpec) : WithPod :=
  {| WithPod_ObjectMeta := WithPod_ObjectMeta ps;
     WithPod_TemplateMeta := WithPod_TemplateMeta ps;
     WithPod_PodSpec := s; WithPod_Rest := WithPod_Rest ps |}.

Definition set_Volumes ps (vs : list Volume) : WithPod :=
  set_PodSpec ps
    {| PodSpec_Volumes := vs; PodSpec_InitContainers := PodSpec_InitContainers (WithPod_PodSpec ps);
       PodSpec_Containers := PodSpec_Containers (WithPod_PodSpec ps);
       PodSpec_Rest := PodSpec_Rest (WithPod_PodSpec ps) |}.

Definition set_InitContainers ps (cs : list Container) : WithPod :=
  set_PodSpec ps
    {| PodSpec_Volumes := PodSpec_Volumes (WithPod_PodSpec ps); PodSpec_InitContainers := cs;
       PodSpec_Containers := PodSpec_Containers (WithPod_PodSpec ps);
       PodSpec_Rest := PodSpec_Rest (WithPod_PodSpec ps) |}.

Definition set_Containers ps (cs : list Container) : WithPod :=
  set_PodSpec ps
    {| PodSpec_Volumes := PodSpec_Volumes (WithPod_PodSpec ps);
       PodSpec_InitContainers := PodSpec_InitContainers (WithPod_PodSpec ps);
       PodSpec_Containers := cs; PodSpec_Rest := PodSpec_Rest (WithPod_PodSpec ps) |}.

Definition set_Env c (es : list CoreEnvVar) : Container :=
  {| Container_Name := Container_Name c; Container_Env := es;
     Container_VolumeMounts := Container_VolumeMounts c; Container_Rest := Container_Rest c |}.

Definition set_VolumeMounts c (ms : list VolumeMount) : Container :=
  {| Container_Name := Container_Name c; Container_Env := Container_Env c;
     Container_VolumeMounts := ms; Container_Rest := Container_Rest c |}.

Definition Annotations ps : option smap := Meta_Annotations (WithPod_ObjectMeta ps).
Definition TemplateAnnotations ps : option smap := Meta_Annotations (WithPod_TemplateMeta ps).
Definition Volumes ps : list Volume := PodSpec_Volumes (WithPod_PodSpec ps).
Definition InitContainers ps : list Container := PodSpec_InitContainers (WithPod_PodSpec ps).
Definition Containers ps : list Container := PodSpec_Containers (WithPod_PodSpec ps).

(** *** Keys and recognizers *)

Definition annotationKey b : string :=
  ServiceBindingProjectionAnnotationKey +:+ "-" +:+ sha1_hex (Meta_Name (SBP_Meta b)).

(** [metadata.annotations['<key>']] *)
Definition annotationFieldPath (key : string) : string :=
  "metadata.annotations['" +:+ key +:+ "']".

(** [^metadata\.annotations\['<AnnotationKey>-[0-9a-f]+-(type|provider)'\]$] *)
Definition fieldPathAnnotationRe : re :=
  Seq (QuoteMeta ("metadata.annotations['" +:+ ServiceBindingProjectionAnnotationKey +:+ "-"))
    (Seq (Plus (Class is_hex))
      (Seq (QuoteMeta "-")
        (Seq (Alt (QuoteMeta "type") (QuoteMeta "provider")) (QuoteMeta "']")))).

Definition isInjectedEnv (e : CoreEnvVar) (allInjectedSecrets : gset string) : bool :=
  match CoreEnvVar_ValueFrom e with
  | Some src =>
      match EnvVarSource_SecretKeyRef src with
      | Some ref => Has allInjectedSecrets (SecretKeySelector_Name ref)
      | None => false
      end ||
      match EnvVarSource_FieldRef src with
      | Some ref => MatchString fieldPathAnnotationRe (ObjectFieldSelector_FieldPath ref)
      | None => false
      end
  | None => false
  end.

(** [v.Projected != nil && len(v.Projected.Sources) > 0 &&
    v.Projected.Sources[0].Secret != nil && secrets.Has(v.Projected.Sources[0].Secret.Name)] *)
Definition projectsSecret (secrets : gset string) v : bool :=
  match Volume_Projected v with
  | Some p =>
      match Projected_Sources p with
      | src :: _ =>
          match VolumeProjection_Secret src with
          | Some s => Has secrets (SecretProjection_Name s)
          | None => false
          end
      | [] => false
      end
  | None => false
  end.

Definition isTargetContainer b (idx : Z) c : bool :=
  let targets := Workload_Containers (SBPSpec_Workload (SBP_Spec b)) in
  match targets with
  | [] => true
  | _ => existsb (λ t, bool_decide (Container_Name c = t)) targets
  end.

(** *** Undo *)

Definition undoContainer (removeSecrets removeVolumes : gset string) c : Container :=
  let c := set_VolumeMounts c
    (foldl (λ preserved vm,
       if Has removeVolumes (VolumeMount_Name vm) then preserved else preserved ++ [vm])
       [] (Container_VolumeMounts c)) in
  set_Env c
    (foldl (λ preserved e,
       if isInjectedEnv e removeSecrets then preserved else preserved ++ [e])
       [] (Container_Env c)).

Definition Undo b ps : WithPod :=
  let ps := match Annotations ps with
            | None => set_Annotations ps (Some ∅) | Some _ => ps end in
  let ps := match TemplateAnnotations ps with
            | None => set_TemplateAnnotations ps (Some ∅) | Some _ => ps end in
  let key := annotationKey b in
  let removeSecrets : gset string :=
    {[ map_get (Annotations ps) key;
       LocalObjectReference_Name (SBPSpec_Binding (SBP_Spec b)) ]} in
  let ps := set_Annotations ps (delete key <$> Annotations ps) in
  let ps := set_TemplateAnnotations ps (delete (key +:+ "-type") <$> TemplateAnnotations ps) in
  let ps := set_TemplateAnnotations ps (delete (key +:+ "-provider") <$> TemplateAnnotations ps) in
  let '(preservedVolumes, removeVolumes) :=
    foldl (λ '(preserved, remove) v,
      if projectsSecret removeSecrets v then (preserved, {[ Volume_Name v ]} ∪ remove)
      else (preserved ++ [v], remove)) ([], ∅ : gset string) (Volumes ps) in
  let ps := set_Volumes ps preservedVolumes in
  let ps := set_InitContainers ps
    (map (undoContainer removeSecrets removeVolumes) (InitContainers ps)) in
  set_Containers ps (map (undoContainer removeSecrets removeVolumes) (Containers ps)).

(** *** Do *)

Definition injectedValues ps : gset string * gset string :=
  let secrets : gset string :=
    map_fold (λ (k secret : string) acc,
      if HasPrefix k ServiceBindingProjectionAnnotationKey then {[ secret ]} ∪ acc else acc)
      ∅ (default ∅ (Annotations ps)) in
  let volumes : gset string :=
    foldl (λ acc v, if projectsSecret secrets v then {[ Volume_Name v ]} ∪ acc else acc)
      ∅ (Volumes ps) in
  (secrets, volumes).

(** The comparison given to each [sort.SliceStable] call. *)
Definition lessVolume (injectedVolumes : gset string) (v w : Volume) : bool :=
  if negb (HasAll2 injectedVolumes (Volume_Name v) (Volume_Name w)) then false
  else str_lt (Volume_Name v) (Volume_Name w).

Definition lessMount (injectedVolumes : gset string) (v w : VolumeMount) : bool :=
  if negb (HasAll2 injectedVolumes (VolumeMount_Name v) (VolumeMount_Name w)) then false
  else str_lt (VolumeMount_Name v) (VolumeMount_Name w).

Definition lessEnv (injectedSecrets : gset string) (e f : CoreEnvVar) : bool :=
  if negb (isInjectedEnv e injectedSecrets) || negb (isInjectedEnv f injectedSecrets) then false
  else str_lt (CoreEnvVar_Name e) (CoreEnvVar_Name f).

Definition fieldRefEnv (name key : string) : CoreEnvVar :=
  mkCoreEnvVar name "" (Some (mkEnvVarSource
    (Some (mkObjectFieldSelector (annotationFieldPath key) opaque_zero)) None opaque_zero)).

Definition secretKeyEnv (name secret key : string) : CoreEnvVar :=
  mkCoreEnvVar name "" (Some (mkEnvVarSource
    None (Some (mkSecretKeySelector secret key opaque_zero)) opaque_zero)).

(** The variable appended for one entry of [b.Spec.Env]. *)
Definition injectedEnv b (secretName : string) (e : EnvVar) : CoreEnvVar :=
  let key := annotationKey b in
  if bool_decide (EnvVar_Key e = "type") && negb (bool_decide (SBPSpec_Type (SBP_Spec b) = ""))
  then fieldRefEnv (EnvVar_Name e) (key +:+ "-type")
  else if bool_decide (EnvVar_Key e = "provider")
          && negb (bool_decide (SBPSpec_Provider (SBP_Spec b) = ""))
  then fieldRefEnv (EnvVar_Name e) (key +:+ "-provider")
  else secretKeyEnv (EnvVar_Name e) secretName (EnvVar_Key e).

(** The value of the first [SERVICE_BINDING_ROOT] variable, [""] when none. *)
Fixpoint predefinedMountPath (es : list CoreEnvVar) : string :=
  match es with
  | [] => ""
  | e :: es' =>
      if bool_decide (CoreEnvVar_Name e = ServiceBindingRootEnv) then CoreEnvVar_Value e
      else predefinedMountPath es'
  end.

Definition doContainer b (bindingVolume secretName : string)
    (allInjectedVolumes allInjectedSecrets : gset string) c : Container :=
  let mountPath := predefinedMountPath (Container_Env c) in
  let '(mountPath, c) :=
    if bool_decide (mountPath = "") then
      ("/bindings",
       set_Env c (Container_Env c ++ [mkCoreEnvVar ServiceBindingRootEnv "/bindings" None]))
    else (mountPath, c) in
  let c := set_VolumeMounts c (Container_VolumeMounts c ++
    [mkVolumeMount bindingVolume true (mountPath +:+ "/" +:+ SBPSpec_Name (SBP_Spec b)) opaque_zero]) in
  let c := set_VolumeMounts c
    (SliceStable (lessMount allInjectedVolumes) (Container_VolumeMounts c)) in
  match SBPSpec_Env (SBP_Spec b) with
  | [] => c
  | env =>
      let c := set_Env c (foldl (λ es (e : EnvVar), es ++ [injectedEnv b secretName e]) (Container_Env c) env) in
      set_Env c (SliceStable (lessEnv allInjectedSecrets) (Container_Env c))
  end.

Definition downwardSource (key path : string) : VolumeProjection :=
  mkVolumeProjection None
    (Some [mkDownwardAPIVolumeFile path
      (Some (mkObjectFieldSelector (annotationFieldPath key) opaque_zero)) opaque_zero])
    opaque_zero.

Definition secretSource (secret : string) : VolumeProjection :=
  mkVolumeProjection (Some (mkSecretProjection secret opaque_zero)) None opaque_zero.

Definition bindingVolumeName (secret : string) : string := bindingVolumePrefix +:+ sha1_hex secret.

(** [ps.Spec.Template.Annotations[key-field] = value] and the volume source that
    exposes it, when the spec overrides the field. *)
Definition exposeField ps (sources : list VolumeProjection) (key field value : string)
    : outcome (WithPod * list VolumeProjection) :=
  if bool_decide (value = "") then Done (ps, sources)
  else
    let annotation := key +:+ "-" +:+ field in
    obind (map_assign (TemplateAnnotations ps) annotation value) (λ m,
    Done (set_TemplateAnnotations ps m, sources ++ [downwardSource annotation field])).

Definition Do b ps : outcome WithPod :=
  let ps := Undo b ps in
  let '(injectedSecrets, injectedVolumes) := injectedValues ps in
  let key := annotationKey b in
  let sb := LocalObjectReference_Name (SBPSpec_Binding (SBP_Spec b)) in
  obind (exposeField ps [secretSource sb] key "type" (SBPSpec_Type (SBP_Spec b)))
    (λ '(ps, sources),
  obind (exposeField ps sources key "provider" (SBPSpec_Provider (SBP_Spec b)))
    (λ '(ps, sources),
  let volume := mkVolume (bindingVolumeName sb)
    (Some (mkProjectedVolumeSource sources opaque_zero)) opaque_zero in
  let ps := set_Volumes ps (Volumes ps ++ [volume]) in
  let injectedSecrets : gset string := {[ sb ]} ∪ injectedSecrets in
  let injectedVolumes : gset string := {[ Volume_Name volume ]} ∪ injectedVolumes in
  let ps := set_Volumes ps (SliceStable (lessVolume injectedVolumes) (Volumes ps)) in
  obind (map_assign (Annotations ps) key sb) (λ m,
  let ps := set_Annotations ps m in
  let doc := doContainer b (Volume_Name volume) sb injectedVolumes injectedSecrets in
  let ps := set_InitContainers ps
    (map (λ c, if isTargetContainer b (-1) c then doc c else c) (InitContainers ps)) in
  Done (set_Containers ps
    (imap (λ i c, if isTargetContainer b (Z.of_nat i) c then doc c else c) (Containers ps)))))).

(** *** Accessors used by knative's binding reconciler *)

Definition GetSubject b : Reference :=
  Reference_set_Namespace (Workload_Reference (SBPSpec_Workload (SBP_Spec b)))
    (Meta_Namespace (SBP_Meta b)).

Definition GetStatus b : duckStatus := SBPStatus_Status (SBP_Status b).

Definition GetBindingStatus b : ServiceBindingProjectionStatus := SBP_Status b.

Definition GetGroupVersionKind b : GroupVersionKind :=
  WithKind SchemeGroupVersion "ServiceBindingProjection".

Definition SetDefaults b : ServiceBindingProjection := b.
End lifecycle.

(** *** Status *)
Section status.
Context `{ConditionManager}.
Implicit Types bs : ServiceBindingProjectionStatus.

Definition sbpCondSet : ConditionSet :=
  NewLivingConditionSet [ServiceBindingProjectionConditionWorkloadAvailable].

Definition GetConditionSet : ConditionSet := sbpCondSet.

Definition InitializeConditions (now : Time) bs : ServiceBindingProjectionStatus :=
  mkSBPStatus (cm_InitializeConditions sbpCondSet now (SBPStatus_Status bs)).

Definition MarkBindingAvailable (now : Time) bs : ServiceBindingProjectionStatus :=
  mkSBPStatus (cm_MarkTrue sbpCondSet now
    ServiceBindingProjectionConditionWorkloadAvailable (SBPStatus_Status bs)).

Definition MarkBindingUnavailable (now : Time) (reason message : string) bs
    : ServiceBindingProjectionStatus :=
  let reason :=
    if HasPrefix reason "Subject" then ReplaceFirst reason "Subject" "Workload" else reason in
  mkSBPStatus (cm_MarkFalse sbpCondSet now
    ServiceBindingProjectionConditionWorkloadAvailable reason message (SBPStatus_Status bs)).

Definition SetObservedGeneration (gen : Z) bs : ServiceBindingProjectionStatus :=
  mkSBPStatus (Status_set_ObservedGeneration (SBPStatus_Status bs) gen).
End status.

#[global] Arguments undoContainer : simpl never.
#[global] Arguments doContainer : simpl never.
#[global] Arguments Undo : simpl never.
#[global] Arguments Do : simpl never.
#[global] Arguments isInjectedEnv : simpl never.
#[global] Arguments projectsSecret : simpl never.
#[global] Arguments annotationKey : simpl never.
#[global] Arguments injectedValues : simpl never.
#[global] Arguments isTargetContainer : simpl never.
