(* ===== verification/ProjectionLemmas.v ===== *)
(** * Lemmas about [Do] and [Undo]

    The loops of the lifecycle as filters, the fields of a workload after [Undo]
    and after [Do], and the normal form [Do b ps = Done (inject b (Undo b ps))].
    The properties of the component are proved from these in [ProjectionFacts]. *)
From S2P Require Import Prelude GoSort GoHash GoRegexp Api Conditions Projection.

(** ** Loops that build a slice with [append] *)
Lemma foldl_append_filter {A} (p : A → bool) (l acc : list A) :
  foldl (λ acc x, if p x then acc else acc ++ [x]) acc l = acc ++ filter (λ x, p x = false) l.
Proof.
  revert acc. induction l as [|x l IH]; intros acc; cbn [foldl]; [by rewrite app_nil_r|].
  rewrite IH. destruct (p x) eqn:Hp.
  - by rewrite filter_cons_False by congruence.
  - rewrite filter_cons_True by done. by rewrite <- (assoc_L (++)).
Qed.

Lemma foldl_append_map {A B} (f : A → B) (l : list A) (acc : list B) :
  foldl (λ acc x, acc ++ [f x]) acc l = acc ++ map f l.
Proof.
  revert acc. induction l as [|x l IH]; intros acc; cbn [foldl map]; [by rewrite app_nil_r|].
  rewrite IH. by rewrite <- (assoc_L (++)).
Qed.

Lemma HasAll2_false s a b : HasAll2 s a b = false ↔ a ∉ s ∨ b ∉ s.
Proof.
  unfold HasAll2, Has. rewrite andb_false_iff, !bool_decide_eq_false. done.
Qed.

(** ** The comparisons are asymmetric *)
Section less.
Context `{Opaque}.

Lemma lessVolume_asym s v w : lessVolume s v w = true → lessVolume s w v = false.
Proof.
  unfold lessVolume, HasAll2. rewrite (andb_comm (Has s (Volume_Name w))).
  case_match; auto with go.
Qed.

Lemma lessMount_asym s v w : lessMount s v w = true → lessMount s w v = false.
Proof.
  unfold lessMount, HasAll2. rewrite (andb_comm (Has s (VolumeMount_Name w))).
  case_match; auto with go.
Qed.

Lemma lessEnv_asym s e f : lessEnv s e f = true → lessEnv s f e = false.
Proof.
  unfold lessEnv. rewrite (orb_comm (negb (isInjectedEnv f s))).
  case_match; auto with go.
Qed.
End less.

#[export] Hint Resolve lessVolume_asym lessMount_asym lessEnv_asym : go.

Section lemmas.
Context `{Opaque}.
Implicit Types (b : ServiceBindingProjection) (ps : WithPod) (c : Container) (v : Volume)
  (e : CoreEnvVar) (s : gset string).

Definition secretName b : string := LocalObjectReference_Name (SBPSpec_Binding (SBP_Spec b)).

(** ** [Undo], field by field *)
Definition removedSecrets b ps : gset string :=
  {[ map_get (Annotations ps) (annotationKey b); secretName b ]}.

Definition removedVolumes b ps : gset string :=
  list_to_set (Volume_Name <$> filter (λ v, projectsSecret (removedSecrets b ps) v = true) (Volumes ps)).

(** Everything of a workload but the annotations, volumes and containers. *)
Definition frame ps : WithPod :=
  set_Containers (set_InitContainers (set_Volumes
    (set_TemplateAnnotations (set_Annotations ps None) None) []) []) [].

Lemma WithPod_ext ps ps' :
  frame ps = frame ps' → Annotations ps = Annotations ps' →
  TemplateAnnotations ps = TemplateAnnotations ps' → Volumes ps = Volumes ps' →
  InitContainers ps = InitContainers ps' → Containers ps = Containers ps' → ps = ps'.
Proof.
  destruct ps as [[] [] [] ?], ps' as [[] [] [] ?]. cbn.
  unfold Annotations, TemplateAnnotations, Volumes, InitContainers, Containers. cbn.
  intros Hf **. injection Hf as ?. subst. done.
Qed.

Lemma foldl_undoVolumes s (vs acc : list Volume) (rm : gset string) :
  foldl (λ '(preserved, remove) v,
      if projectsSecret s v then (preserved, {[ Volume_Name v ]} ∪ remove)
      else (preserved ++ [v], remove)) (acc, rm) vs =
  (acc ++ filter (λ v, projectsSecret s v = false) vs,
   list_to_set (Volume_Name <$> filter (λ v, projectsSecret s v = true) vs) ∪ rm).
Proof.
  revert acc rm. induction vs as [|v vs IH]; intros acc rm; cbn [foldl].
  - rewrite app_nil_r. f_equal. cbn. by rewrite (left_id_L ∅ (∪)).
  - destruct (projectsSecret s v) eqn:E; rewrite IH; f_equal.
    + by rewrite (filter_cons_False (λ v, projectsSecret s v = false)) by congruence.
    + rewrite (filter_cons_True (λ v, projectsSecret s v = true)) by done. cbn. set_solver.
    + rewrite (filter_cons_True (λ v, projectsSecret s v = false)) by done.
      by rewrite <- (assoc_L (++)).
    + by rewrite (filter_cons_False (λ v, projectsSecret s v = true)) by congruence.
Qed.

Lemma undoContainer_eq rs rv c :
  undoContainer rs rv c =
  {| Container_Name := Container_Name c;
     Container_Env := filter (λ e, isInjectedEnv e rs = false) (Container_Env c);
     Container_VolumeMounts :=
       filter (λ m, Has rv (VolumeMount_Name m) = false) (Container_VolumeMounts c);
     Container_Rest := Container_Rest c |}.
Proof.
  unfold undoContainer, set_Env, set_VolumeMounts. cbn.
  by rewrite (foldl_append_filter (λ e, isInjectedEnv e rs)),
    (foldl_append_filter (λ m, Has rv (VolumeMount_Name m))).
Qed.

Lemma Undo_eq b ps :
  Undo b ps =
  set_Containers (set_InitContainers (set_Volumes
    (set_TemplateAnnotations (set_Annotations ps
      (Some (delete (annotationKey b) (default ∅ (Annotations ps)))))
      (Some (delete (annotationKey b +:+ "-provider")
        (delete (annotationKey b +:+ "-type") (default ∅ (TemplateAnnotations ps))))))
    (filter (λ v, projectsSecret (removedSecrets b ps) v = false) (Volumes ps)))
    (map (undoContainer (removedSecrets b ps) (removedVolumes b ps)) (InitContainers ps)))
    (map (undoContainer (removedSecrets b ps) (removedVolumes b ps)) (Containers ps)).
Proof.
  destruct ps as [[? ? ? ? ? ? ? anns ? ? ?] [? ? ? ? ? ? ? tanns ? ? ?] [vs ics cs ?] ?].
  unfold Undo, removedVolumes, removedSecrets, Annotations, TemplateAnnotations, Volumes,
    InitContainers, Containers; cbn.
  destruct anns as [anns|], tanns as [tanns|]; cbn -[delete];
    rewrite foldl_undoVolumes, app_nil_l, (right_id_L ∅ (∪)); done.
Qed.

Lemma Undo_frame b ps : frame (Undo b ps) = frame ps.
Proof. rewrite Undo_eq. done. Qed.

Lemma Undo_Annotations b ps :
  Annotations (Undo b ps) = Some (delete (annotationKey b) (default ∅ (Annotations ps))).
Proof. rewrite Undo_eq. done. Qed.

Lemma Undo_TemplateAnnotations b ps :
  TemplateAnnotations (Undo b ps) =
  Some (delete (annotationKey b +:+ "-provider")
    (delete (annotationKey b +:+ "-type") (default ∅ (TemplateAnnotations ps)))).
Proof. rewrite Undo_eq. done. Qed.

Lemma Undo_Volumes b ps :
  Volumes (Undo b ps) = filter (λ v, projectsSecret (removedSecrets b ps) v = false) (Volumes ps).
Proof. rewrite Undo_eq. done. Qed.

Lemma Undo_InitContainers b ps :
  InitContainers (Undo b ps) =
  map (undoContainer (removedSecrets b ps) (removedVolumes b ps)) (InitContainers ps).
Proof. rewrite Undo_eq. done. Qed.

Lemma Undo_Containers b ps :
  Containers (Undo b ps) =
  map (undoContainer (removedSecrets b ps) (removedVolumes b ps)) (Containers ps).
Proof. rewrite Undo_eq. done. Qed.

(** ** Recognizing secrets *)
Lemma projectsSecret_spec s v :
  projectsSecret s v = true ↔
  ∃ p src rest sec, Volume_Projected v = Some p ∧ Projected_Sources p = src :: rest ∧
    VolumeProjection_Secret src = Some sec ∧ SecretProjection_Name sec ∈ s.
Proof.
  unfold projectsSecret. split.
  - repeat case_match; try done. unfold Has. rewrite bool_decide_eq_true. eauto 10.
  - intros (p & src & rest & sec & -> & -> & -> & ?). by apply bool_decide_eq_true.
Qed.

Lemma projectsSecret_mono s s' v :
  s ⊆ s' → projectsSecret s v = true → projectsSecret s' v = true.
Proof. rewrite !projectsSecret_spec. set_solver. Qed.

Lemma isInjectedEnv_mono s s' e :
  s ⊆ s' → isInjectedEnv e s = true → isInjectedEnv e s' = true.
Proof.
  unfold isInjectedEnv, Has. intros Hs.
  repeat case_match; rewrite ?orb_true_iff, ?bool_decide_eq_true; set_solver.
Qed.

Lemma projectsSecret_union s s' v :
  projectsSecret (s ∪ s') v = projectsSecret s v || projectsSecret s' v.
Proof.
  unfold projectsSecret, Has. repeat case_match; try done.
  rewrite (bool_decide_ext _ (SecretProjection_Name s0 ∈ s ∨ SecretProjection_Name s0 ∈ s')) by set_solver.
  by rewrite bool_decide_or.
Qed.

Lemma isInjectedEnv_union s s' e :
  isInjectedEnv e (s ∪ s') = isInjectedEnv e s || isInjectedEnv e s'.
Proof.
  unfold isInjectedEnv, Has. repeat case_match; try done; rewrite ?orb_false_r.
  all: try rewrite (bool_decide_ext _ (SecretKeySelector_Name s0 ∈ s ∨ SecretKeySelector_Name s0 ∈ s')) by set_solver.
  all: rewrite ?bool_decide_or; try done. all: repeat destruct (bool_decide _); cbn; try done.
  all: by destruct (MatchString _ _).
Qed.

(** ** [Do] in normal form *)
Definition bindingVolume b : Volume :=
  let key := annotationKey b in
  mkVolume (bindingVolumeName (secretName b))
    (Some (mkProjectedVolumeSource
      ([secretSource (secretName b)]
       ++ (if bool_decide (SBPSpec_Type (SBP_Spec b) = "") then []
           else [downwardSource (key +:+ "-type") "type"])
       ++ (if bool_decide (SBPSpec_Provider (SBP_Spec b) = "") then []
           else [downwardSource (key +:+ "-provider") "provider"])) opaque_zero)) opaque_zero.

(** The template annotations that expose the overridden type and provider. *)
Definition exposedAnnotations b (m : smap) : smap :=
  let key := annotationKey b in
  let m := if bool_decide (SBPSpec_Type (SBP_Spec b) = "") then m
           else <[key +:+ "-type" := SBPSpec_Type (SBP_Spec b)]> m in
  if bool_decide (SBPSpec_Provider (SBP_Spec b) = "") then m
  else <[key +:+ "-provider" := SBPSpec_Provider (SBP_Spec b)]> m.

Definition knownSecrets b ps : gset string := {[ secretName b ]} ∪ (injectedValues ps).1.
Definition knownVolumes b ps : gset string :=
  {[ bindingVolumeName (secretName b) ]} ∪ (injectedValues ps).2.

Definition isTarget b c : bool := isTargetContainer b (-1) c.

(** What [Do] does to one container. *)
Definition bindContainer b ps c : Container :=
  if isTarget b c
  then doContainer b (bindingVolumeName (secretName b)) (secretName b)
         (knownVolumes b ps) (knownSecrets b ps) c
  else c.

Definition inject b ps : WithPod :=
  set_Containers (set_InitContainers (set_Annotations (set_Volumes (set_TemplateAnnotations ps
    (Some (exposedAnnotations b (default ∅ (TemplateAnnotations ps)))))
    (SliceStable (lessVolume (knownVolumes b ps)) (Volumes ps ++ [bindingVolume b])))
    (Some (<[annotationKey b := secretName b]> (default ∅ (Annotations ps)))))
    (map (bindContainer b ps) (InitContainers ps)))
    (map (bindContainer b ps) (Containers ps)).

Lemma imap_map {A B} (f : nat → A → B) (g : A → B) (l : list A) :
  (∀ i x, f i x = g x) → imap f l = map g l.
Proof.
  revert f. induction l as [|x l IH]; intros f Hf; [done|].
  cbn [imap map]. f_equal; [apply Hf|]. apply IH. intros. apply Hf.
Qed.

Lemma set_TemplateAnnotations_id ps m :
  TemplateAnnotations ps = Some m → set_TemplateAnnotations ps (Some m) = ps.
Proof. destruct ps as [? [] ? ?]. unfold TemplateAnnotations. cbn. by intros ->. Qed.

Lemma exposeField_eq ps sources key field value m :
  TemplateAnnotations ps = Some m →
  exposeField ps sources key field value =
  Done (set_TemplateAnnotations ps
          (Some (if bool_decide (value = "") then m else <[key +:+ "-" +:+ field := value]> m)),
        sources ++ (if bool_decide (value = "") then []
                    else [downwardSource (key +:+ "-" +:+ field) field])).
Proof.
  intros Hm. unfold exposeField. case_bool_decide.
  - by rewrite set_TemplateAnnotations_id, app_nil_r.
  - by rewrite Hm.
Qed.

Lemma TemplateAnnotations_set ps m : TemplateAnnotations (set_TemplateAnnotations ps m) = m.
Proof. done. Qed.

#[local] Opaque SliceStable doContainer bindingVolumeName annotationKey annotationFieldPath
  isTargetContainer.

Lemma Do_inject b ps : Do b ps = Done (inject b (Undo b ps)).
Proof.
  unfold Do. pose proof (Undo_Annotations b ps) as Ha.
  pose proof (Undo_TemplateAnnotations b ps) as Ht.
  set (u := Undo b ps) in *. clearbody u.
  destruct (injectedValues u) as [injs injv] eqn:Hi.
  rewrite (exposeField_eq _ _ _ _ _ _ Ht). cbn [obind].
  rewrite (exposeField_eq _ _ _ _ _ _ (TemplateAnnotations_set _ _)). cbn [obind].
  match goal with |- context [map_assign (Annotations ?p)] =>
    change (Annotations p) with (Annotations u) end.
  rewrite Ha. cbn [map_assign obind].
  unfold inject, bindContainer, knownVolumes, knownSecrets. rewrite Hi, Ha, Ht.
  cbn [fst snd default from_option id].
  f_equal. apply WithPod_ext; [reflexivity|reflexivity|reflexivity|reflexivity|reflexivity|].
  apply imap_map. reflexivity.
Qed.

#[local] Transparent SliceStable doContainer bindingVolumeName annotationKey annotationFieldPath
  isTargetContainer.

Lemma inject_frame b ps : frame (inject b ps) = frame ps.
Proof. done. Qed.

(** ** Containers after [Do] *)
Definition rootEnv c : list CoreEnvVar :=
  if bool_decide (predefinedMountPath (Container_Env c) = "")
  then [mkCoreEnvVar ServiceBindingRootEnv "/bindings" None] else [].

Definition rootPath c : string :=
  let p := predefinedMountPath (Container_Env c) in
  if bool_decide (p = "") then "/bindings" else p.

Definition bindingMount b c : VolumeMount :=
  mkVolumeMount (bindingVolumeName (secretName b)) true
    (rootPath c +:+ "/" +:+ SBPSpec_Name (SBP_Spec b)) opaque_zero.

Definition bindingEnv b : list CoreEnvVar :=
  map (injectedEnv b (secretName b)) (SBPSpec_Env (SBP_Spec b)).

(** The variables of a bound container: sorted, when the binding maps any. *)
Definition sortEnv b ps (es : list CoreEnvVar) : list CoreEnvVar :=
  match SBPSpec_Env (SBP_Spec b) with
  | [] => es
  | _ => SliceStable (lessEnv (knownSecrets b ps)) es
  end.

Lemma bindContainer_target b ps c :
  isTarget b c = true →
  bindContainer b ps c =
  {| Container_Name := Container_Name c;
     Container_Env := sortEnv b ps (Container_Env c ++ rootEnv c ++ bindingEnv b);
     Container_VolumeMounts :=
       SliceStable (lessMount (knownVolumes b ps)) (Container_VolumeMounts c ++ [bindingMount b c]);
     Container_Rest := Container_Rest c |}.
Proof.
  intros Ht. unfold bindContainer. rewrite Ht.
  unfold doContainer, bindingMount, rootPath, rootEnv, bindingEnv, sortEnv.
  destruct (bool_decide (predefinedMountPath _ = "")), (SBPSpec_Env (SBP_Spec b)) as [|e es];
    cbn -[SliceStable]; unfold set_Env, set_VolumeMounts; cbn -[SliceStable];
    rewrite ?app_nil_r; try done.
  all: rewrite foldl_append_map; by rewrite <- !(assoc_L (++)).
Qed.

Lemma bindContainer_other b ps c : isTarget b c = false → bindContainer b ps c = c.
Proof. intros Ht. unfold bindContainer. by rewrite Ht. Qed.

Lemma isTarget_Name b c c' : Container_Name c = Container_Name c' → isTarget b c = isTarget b c'.
Proof. unfold isTarget, isTargetContainer. by intros ->. Qed.

Lemma isTarget_undo b rs rv c : isTarget b (undoContainer rs rv c) = isTarget b c.
Proof. apply isTarget_Name. by rewrite undoContainer_eq. Qed.

Lemma isTarget_bind b ps c : isTarget b (bindContainer b ps c) = isTarget b c.
Proof.
  apply isTarget_Name. destruct (isTarget b c) eqn:E;
    [by rewrite bindContainer_target | by rewrite bindContainer_other].
Qed.

Lemma sortEnv_Permutation b ps es : sortEnv b ps es ≡ₚ es.
Proof. unfold sortEnv. case_match; [done|]. apply SliceStable_Permutation. Qed.

(** ** The pattern and the keys *)
Lemma fieldPathAnnotationRe_spec (t : string) :
  MatchString fieldPathAnnotationRe t = true ↔
  ∃ h f, h ≠ "" ∧ str_all is_hex h = true ∧ (f = "type" ∨ f = "provider") ∧
    t = annotationFieldPath (ServiceBindingProjectionAnnotationKey +:+ "-" +:+ h +:+ "-" +:+ f).
Proof.
  unfold fieldPathAnnotationRe, annotationFieldPath. rewrite MatchString_matches. split.
  - intros (? & ? & -> & ->%matches_QuoteMeta & Ht)%matches_Seq.
    apply matches_Seq in Ht as (h & ? & -> & [Hne Hh]%matches_Plus_Class & Ht).
    apply matches_Seq in Ht as (? & ? & -> & ->%matches_QuoteMeta & Ht).
    apply matches_Seq in Ht as (f & ? & -> & Hf & ->%matches_QuoteMeta).
    apply matches_Alt in Hf. rewrite !matches_QuoteMeta in Hf.
    exists h, f. split_and!; try done. by rewrite !str_app_assoc.
  - intros (h & f & Hne & Hh & Hf & ->).
    assert (∀ p k d g : string, p +:+ (k +:+ d +:+ h +:+ d +:+ f) +:+ g =
      (p +:+ k +:+ d) +:+ h +:+ d +:+ f +:+ g) as -> by (intros; by rewrite !str_app_assoc).
    constructor; [by apply matches_QuoteMeta|].
    constructor; [by apply matches_Plus_Class|].
    constructor; [by apply matches_QuoteMeta|].
    constructor; [|by apply matches_QuoteMeta].
    rewrite matches_Alt, !matches_QuoteMeta. done.
Qed.

Lemma annotationKey_length b :
  String.length (annotationKey b) = String.length ServiceBindingProjectionAnnotationKey + 41.
Proof. unfold annotationKey. rewrite !str_length_app, sha1_hex_length. done. Qed.

Lemma annotationKey_prefix b :
  HasPrefix (annotationKey b) ServiceBindingProjectionAnnotationKey = true.
Proof. apply HasPrefix_app. Qed.

Lemma annotationKey_inj b b' :
  annotationKey b = annotationKey b' ↔
  sha1_hex (Meta_Name (SBP_Meta b)) = sha1_hex (Meta_Name (SBP_Meta b')).
Proof. unfold annotationKey. split; [intros Heq; by do 2 apply str_app_inj_l in Heq | by intros ->]. Qed.

(** The three annotations of a binding. *)
Lemma key_field_inj b b' f f' :
  annotationKey b +:+ f = annotationKey b' +:+ f' → annotationKey b = annotationKey b' ∧ f = f'.
Proof. apply str_app_inj_length. by rewrite !annotationKey_length. Qed.

Lemma type_provider_ne b : annotationKey b +:+ "-type" ≠ annotationKey b +:+ "-provider".
Proof. intros Heq. by apply key_field_inj in Heq as [_ ?]. Qed.

(** ** What [Do] injects, [isInjectedEnv] recognizes *)
Lemma isInjectedEnv_secretKeyEnv s n sec k :
  sec ∈ s → isInjectedEnv (secretKeyEnv n sec k) s = true.
Proof. intros Hs. unfold isInjectedEnv, Has. cbn. by rewrite bool_decide_eq_true_2. Qed.

Lemma isInjectedEnv_fieldRefEnv s n b f :
  f = "type" ∨ f = "provider" →
  isInjectedEnv (fieldRefEnv n (annotationKey b +:+ "-" +:+ f)) s = true.
Proof.
  intros Hf. unfold isInjectedEnv, fieldRefEnv.
  cbn [CoreEnvVar_ValueFrom EnvVarSource_SecretKeyRef EnvVarSource_FieldRef orb
    ObjectFieldSelector_FieldPath].
  apply fieldPathAnnotationRe_spec. exists (sha1_hex (Meta_Name (SBP_Meta b))), f.
  split_and!; auto with go.
Qed.

Lemma isInjectedEnv_injectedEnv b s x :
  secretName b ∈ s → isInjectedEnv (injectedEnv b (secretName b) x) s = true.
Proof.
  intros Hs. unfold injectedEnv. repeat case_match.
  - apply (isInjectedEnv_fieldRefEnv _ _ _ "type"). auto.
  - apply (isInjectedEnv_fieldRefEnv _ _ _ "provider"). auto.
  - by apply isInjectedEnv_secretKeyEnv.
Qed.

Lemma bindingEnv_injected b s :
  secretName b ∈ s → Forall (λ e, isInjectedEnv e s = true) (bindingEnv b).
Proof.
  intros Hs. apply Forall_map, Forall_forall. intros x _. by apply isInjectedEnv_injectedEnv.
Qed.

Lemma rootEnv_not_injected c s : Forall (λ e, isInjectedEnv e s = false) (rootEnv c).
Proof. unfold rootEnv. case_match; by repeat constructor. Qed.

Lemma bindingVolume_projects b s : projectsSecret s (bindingVolume b) = Has s (secretName b).
Proof. done. Qed.

(** ** The sets gathered by [injectedValues] *)
Lemma elem_of_injectedSecrets ps x :
  x ∈ (injectedValues ps).1 ↔
  ∃ k, default ∅ (Annotations ps) !! k = Some x ∧
       HasPrefix k ServiceBindingProjectionAnnotationKey = true.
Proof.
  unfold injectedValues. cbn [fst]. generalize (default ∅ (Annotations ps)). intros m.
  apply (map_fold_weak_ind (λ (acc : gset string) (m : smap),
    x ∈ acc ↔ ∃ k, m !! k = Some x ∧ HasPrefix k ServiceBindingProjectionAnnotationKey = true)).
  - setoid_rewrite lookup_empty. set_solver.
  - intros k y m' acc Hk IH. split.
    + intros Hx. destruct (HasPrefix k _) eqn:Hp.
      * apply elem_of_union in Hx as [->%elem_of_singleton|Hx].
        -- exists k. by rewrite lookup_insert_eq.
        -- apply IH in Hx as (k' & Hk' & ?). exists k'.
           rewrite lookup_insert_ne by congruence. done.
      * apply IH in Hx as (k' & Hk' & ?). exists k'. rewrite lookup_insert_ne by congruence. done.
    + intros (k' & Hk' & Hp'). destruct (decide (k = k')) as [->|Hne].
      * rewrite lookup_insert_eq in Hk'. injection Hk' as ->. rewrite Hp'. set_solver.
      * rewrite lookup_insert_ne in Hk' by done.
        assert (x ∈ acc) by (apply IH; eauto). case_match; set_solver.
Qed.

Lemma foldl_injectedVolumes s (vs : list Volume) (acc : gset string) x :
  x ∈ foldl (λ acc v, if projectsSecret s v then {[ Volume_Name v ]} ∪ acc else acc) acc vs ↔
  x ∈ acc ∨ ∃ v, v ∈ vs ∧ projectsSecret s v = true ∧ Volume_Name v = x.
Proof.
  revert acc. induction vs as [|v vs IH]; intros acc; cbn [foldl].
  { split; [by left|]. by intros [?|(w & ?%elem_of_nil & _)]. }
  rewrite IH. setoid_rewrite elem_of_cons.
  destruct (projectsSecret s v) eqn:E; [rewrite elem_of_union, elem_of_singleton|]; split.
  - intros [[->|?]|(w & ? & ? & ?)]; [|by left|]; right;
      [exists v | exists w]; split_and!; auto.
  - intros [?|(w & [->|?] & ? & <-)]; [by left; right|by left; left|right; by exists w].
  - intros [?|(w & ? & ? & ?)]; [by left|right; exists w; split_and!; auto].
  - intros [?|(w & [->|?] & ? & <-)]; [by left|congruence|right; by exists w].
Qed.

Lemma elem_of_injectedVolumes ps x :
  x ∈ (injectedValues ps).2 ↔
  ∃ v, v ∈ Volumes ps ∧ projectsSecret (injectedValues ps).1 v = true ∧ Volume_Name v = x.
Proof. unfold injectedValues. cbn [fst snd]. rewrite foldl_injectedVolumes, elem_of_empty. tauto. Qed.
End lemmas.
