(* ===== verification/ProjectionCycle.v ===== *)
(** * Undoing what was done, and doing it again

    The exact effect of [Undo] on a workload that [Do] has just produced, and of
    a second [Do]: the lemmas behind idempotence and the round trip. *)
From S2P Require Import Prelude GoSort GoHash GoRegexp Api Conditions Projection ProjectionLemmas.

Section cycle.
Context `{Opaque}.
Implicit Types (b : ServiceBindingProjection) (u ps : WithPod) (c : Container) (v : Volume)
  (e : CoreEnvVar).

Definition allContainers u : list Container := InitContainers u ++ Containers u.

(** Nothing of binding [b] is left in [u]. *)
Record Undone b u : Prop := {
  undone_ann : ∃ m, Annotations u = Some m ∧ m !! annotationKey b = None;
  undone_tann : ∃ m, TemplateAnnotations u = Some m ∧
    m !! (annotationKey b +:+ "-type") = None ∧ m !! (annotationKey b +:+ "-provider") = None;
  undone_vols : Forall (λ v, projectsSecret {[ secretName b ]} v = false) (Volumes u);
  undone_env : Forall (λ c, Forall (λ e, isInjectedEnv e {[ secretName b ]} = false)
    (Container_Env c)) (allContainers u);
}.

(** The name of the volume [b] injects is not in use. *)
Record Fresh b u : Prop := {
  fresh_vols : Forall (λ v, Volume_Name v ≠ bindingVolumeName (secretName b)) (Volumes u);
  fresh_mounts : Forall (λ c, Forall (λ m, VolumeMount_Name m ≠ bindingVolumeName (secretName b))
    (Container_VolumeMounts c)) (allContainers u);
}.

(** Every slice that [Do] sorts has at most [blockSize] elements. *)
Record Small b u : Prop := {
  small_vols : length (Volumes u) < blockSize;
  small_mounts : Forall (λ c, isTarget b c = true →
    length (Container_VolumeMounts c) < blockSize) (allContainers u);
  small_env : Forall (λ c, isTarget b c = true → SBPSpec_Env (SBP_Spec b) ≠ [] →
    length (Container_Env c ++ rootEnv c ++ bindingEnv b) ≤ blockSize) (allContainers u);
}.

(** In a target container, the first [SERVICE_BINDING_ROOT] variable, if there
    is one, has a literal value. *)
Definition Rooted b u : Prop :=
  Forall (λ c, isTarget b c = true → predefinedMountPath (Container_Env c) = "" →
    Forall (λ e, CoreEnvVar_Name e ≠ ServiceBindingRootEnv) (Container_Env c)) (allContainers u).

Lemma Undo_Undone b ps : Undone b (Undo b ps).
Proof.
  assert ({[ secretName b ]} ⊆ removedSecrets b ps) as Hsub by (unfold removedSecrets; set_solver).
  split.
  - rewrite Undo_Annotations. eexists. split; [done|]. apply lookup_delete_eq.
  - rewrite Undo_TemplateAnnotations. eexists. split_and!; [done| |apply lookup_delete_eq].
    rewrite lookup_delete_ne; [apply lookup_delete_eq|].
    intros Heq. by apply (type_provider_ne b).
  - rewrite Undo_Volumes. apply Forall_forall. intros v [Hv _]%list_elem_of_filter.
    destruct (projectsSecret {[_]} v) eqn:E; [|done].
    by rewrite (projectsSecret_mono _ _ _ Hsub E) in Hv.
  - unfold allContainers. rewrite Undo_InitContainers, Undo_Containers, <- map_app.
    apply Forall_map, Forall_forall. intros c _. cbn. rewrite undoContainer_eq. cbn.
    apply Forall_forall. intros e [He _]%list_elem_of_filter.
    destruct (isInjectedEnv e {[_]}) eqn:E; [|done].
    by rewrite (isInjectedEnv_mono _ _ _ Hsub E) in He.
Qed.

(** ** Mount paths *)
Lemma predefinedMountPath_filter es :
  predefinedMountPath es =
  match filter (λ e, CoreEnvVar_Name e = ServiceBindingRootEnv) es with
  | [] => "" | e :: _ => CoreEnvVar_Value e
  end.
Proof.
  induction es as [|e es IH]; [done|]. cbn [predefinedMountPath].
  rewrite filter_cons. case_bool_decide; case_decide; done.
Qed.

Lemma lessEnv_name s e f : lessEnv s e f = true → CoreEnvVar_Name e ≠ CoreEnvVar_Name f.
Proof.
  unfold lessEnv. case_match; [done|]. intros Hlt Heq.
  rewrite Heq, str_lt_irrefl in Hlt. done.
Qed.

Lemma predefinedMountPath_isort s es :
  predefinedMountPath (isort (lessEnv s) es) = predefinedMountPath es.
Proof.
  rewrite !predefinedMountPath_filter, filter_isort_keep; [done|].
  intros y z Hlt Hy Hz. apply lessEnv_name in Hlt. congruence.
Qed.

Lemma predefinedMountPath_root c :
  (predefinedMountPath (Container_Env c) = "" →
    Forall (λ e, CoreEnvVar_Name e ≠ ServiceBindingRootEnv) (Container_Env c)) →
  predefinedMountPath (Container_Env c ++ rootEnv c) = rootPath c.
Proof.
  intros Hroot. unfold rootEnv, rootPath. case_bool_decide as Hp; [|by rewrite app_nil_r].
  rewrite predefinedMountPath_filter, filter_app, filter_False by auto. done.
Qed.

Lemma rootPath_nonempty c : rootPath c ≠ "".
Proof. unfold rootPath. by case_bool_decide. Qed.

(** ** One container: bind, undo, bind again *)
Definition sortEnv' b u es : list CoreEnvVar :=
  match SBPSpec_Env (SBP_Spec b) with [] => es | _ => isort (lessEnv (knownSecrets b u)) es end.

(** What is left of a container's binding after [Undo]: the root variable, and
    the variables and mounts of other bindings in order. *)
Definition restContainer b u c : Container :=
  if isTarget b c then
    {| Container_Name := Container_Name c;
       Container_Env := sortEnv' b u (Container_Env c ++ rootEnv c);
       Container_VolumeMounts :=
         isort (lessMount (knownVolumes b u)) (Container_VolumeMounts c);
       Container_Rest := Container_Rest c |}
  else c.

Lemma restContainer_Name b u c : Container_Name (restContainer b u c) = Container_Name c.
Proof. unfold restContainer. by case_match. Qed.

Lemma drop_bindingEnv b :
  Forall (λ e, ¬ isInjectedEnv e {[ secretName b ]} = false) (bindingEnv b).
Proof.
  eapply Forall_impl; [apply (bindingEnv_injected b {[ secretName b ]}); set_solver|].
  cbn. congruence.
Qed.

Lemma drop_bindingMount b c :
  Forall (λ m, ¬ Has {[ bindingVolumeName (secretName b) ]} (VolumeMount_Name m) = false)
    [bindingMount b c].
Proof.
  constructor; [|done]. unfold Has. cbn. rewrite bool_decide_eq_false. set_solver.
Qed.

Lemma keep_env b c :
  Forall (λ e, isInjectedEnv e {[ secretName b ]} = false) (Container_Env c) →
  Forall (λ e, isInjectedEnv e {[ secretName b ]} = false) (Container_Env c ++ rootEnv c).
Proof. intros. apply Forall_app. split; [done | apply rootEnv_not_injected]. Qed.

Lemma keep_mounts b c :
  Forall (λ m, VolumeMount_Name m ≠ bindingVolumeName (secretName b)) (Container_VolumeMounts c) →
  Forall (λ m, Has {[ bindingVolumeName (secretName b) ]} (VolumeMount_Name m) = false)
    (Container_VolumeMounts c).
Proof.
  intros Hmnt. eapply Forall_impl; [apply Hmnt|]. cbn. intros m Hm. unfold Has.
  rewrite bool_decide_eq_false. set_solver.
Qed.

Lemma undoContainer_id rs rv c :
  Forall (λ e, isInjectedEnv e rs = false) (Container_Env c) →
  Forall (λ m, Has rv (VolumeMount_Name m) = false) (Container_VolumeMounts c) →
  undoContainer rs rv c = c.
Proof.
  intros He Hm. rewrite undoContainer_eq, !filter_True by done. by destruct c.
Qed.

Section container.
Context (b : ServiceBindingProjection) (u : WithPod) (c : Container).
Context (Henv : Forall (λ e, isInjectedEnv e {[ secretName b ]} = false) (Container_Env c)).
Context (Hmnt : Forall (λ m, VolumeMount_Name m ≠ bindingVolumeName (secretName b))
  (Container_VolumeMounts c)).
Context (Hsm : isTarget b c = true → length (Container_VolumeMounts c) < blockSize).
Context (Hse : isTarget b c = true → SBPSpec_Env (SBP_Spec b) ≠ [] →
  length (Container_Env c ++ rootEnv c ++ bindingEnv b) ≤ blockSize).

Lemma sortEnv_small :
  isTarget b c = true →
  sortEnv b u (Container_Env c ++ rootEnv c ++ bindingEnv b) =
  sortEnv' b u (Container_Env c ++ rootEnv c ++ bindingEnv b).
Proof.
  intros Ht. unfold sortEnv, sortEnv'. destruct (SBPSpec_Env (SBP_Spec b)) eqn:E; [done|].
  apply SliceStable_small. by apply Hse.
Qed.

Lemma mounts_small :
  isTarget b c = true →
  SliceStable (lessMount (knownVolumes b u)) (Container_VolumeMounts c ++ [bindingMount b c]) =
  isort (lessMount (knownVolumes b u)) (Container_VolumeMounts c ++ [bindingMount b c]).
Proof.
  clear Hse Henv Hmnt. intros Ht. apply SliceStable_small. rewrite length_app. cbn. specialize (Hsm Ht). lia.
Qed.

Lemma undo_bindContainer :
  undoContainer {[ secretName b ]} {[ bindingVolumeName (secretName b) ]}
    (bindContainer b u c) = restContainer b u c.
Proof.
  unfold restContainer.
  destruct (Sumbool.sumbool_of_bool (isTarget b c)) as [Ht|Ht]; rewrite Ht.
  - rewrite bindContainer_target, undoContainer_eq by exact Ht. cbn [Container_Name Container_Env Container_VolumeMounts Container_Rest]. f_equal.
    + rewrite sortEnv_small by done. rewrite (assoc_L (++)). unfold sortEnv'.
      destruct (SBPSpec_Env (SBP_Spec b)) eqn:E.
      { unfold bindingEnv. rewrite E. cbn. rewrite app_nil_r. apply filter_True, keep_env, Henv. }
      rewrite isort_app, filter_foldl_push_drop by apply drop_bindingEnv.
      apply filter_True, Forall_forall. intros z. rewrite elem_of_isort.
      pose proof (keep_env _ _ Henv) as Hk. rewrite Forall_forall in Hk. auto.
    + rewrite mounts_small by done.
      rewrite isort_app, filter_foldl_push_drop by apply drop_bindingMount.
      apply filter_True, Forall_forall. intros z. rewrite elem_of_isort.
      pose proof (keep_mounts _ _ Hmnt) as Hk. rewrite Forall_forall in Hk. auto.
  - rewrite bindContainer_other by done.
    apply undoContainer_id; [exact Henv | apply keep_mounts, Hmnt].
Qed.

Context (Hroot : isTarget b c = true → predefinedMountPath (Container_Env c) = "" →
  Forall (λ e, CoreEnvVar_Name e ≠ ServiceBindingRootEnv) (Container_Env c)).

Lemma rest_predefined :
  isTarget b c = true →
  predefinedMountPath (Container_Env (restContainer b u c)) = rootPath c.
Proof.
  intros Ht. unfold restContainer. rewrite Ht. cbn. unfold sortEnv'.
  case_match; [|rewrite predefinedMountPath_isort]; apply predefinedMountPath_root; auto.
Qed.

Lemma rebind_container u' :
  knownSecrets b u' = knownSecrets b u → knownVolumes b u' = knownVolumes b u →
  bindContainer b u' (restContainer b u c) = bindContainer b u c.
Proof.
  intros Hks Hkv. destruct (Sumbool.sumbool_of_bool (isTarget b c)) as [Ht|Ht].
  - pose proof (rest_predefined Ht) as Hp.
    assert (isTarget b (restContainer b u c) = true) as Ht'
      by (by rewrite (isTarget_Name _ _ c) by apply restContainer_Name).
    rewrite !bindContainer_target by done.
    assert (rootEnv (restContainer b u c) = []) as ->.
    { unfold rootEnv. rewrite Hp, bool_decide_eq_false_2 by apply rootPath_nonempty. done. }
    assert (bindingMount b (restContainer b u c) = bindingMount b c) as ->.
    { unfold bindingMount. do 2 f_equal. unfold rootPath at 1.
      rewrite Hp, bool_decide_eq_false_2 by apply rootPath_nonempty. done. }
    rewrite mounts_small, sortEnv_small by done.
    unfold restContainer. rewrite Ht. cbn [Container_Name Container_Env Container_VolumeMounts
      Container_Rest app]. rewrite Hkv. f_equal.
    + unfold sortEnv, sortEnv'. destruct (SBPSpec_Env (SBP_Spec b)) eqn:E.
      { unfold bindingEnv. rewrite E. cbn. by rewrite !app_nil_r. }
      rewrite Hks. rewrite SliceStable_small.
      2:{ rewrite length_app, isort_length, <- length_app, <- (assoc_L (++)).
          apply Hse; [done|congruence]. }
      rewrite (assoc_L (++)), !(isort_app _ _ (bindingEnv b)), isort_idemp by auto with go. done.
    + rewrite SliceStable_small.
      2:{ rewrite length_app, isort_length. cbn. specialize (Hsm Ht). lia. }
      rewrite !(isort_app _ _ [_]), isort_idemp by auto with go. done.
  - assert (restContainer b u c = c) as -> by (unfold restContainer; by rewrite Ht).
    by rewrite !bindContainer_other by done.
Qed.
End container.

(** ** The whole workload *)

(** What [Undo] leaves of a workload that [Do] has bound. *)
Definition rest b u : WithPod :=
  set_Containers (set_InitContainers
    (set_Volumes u (isort (lessVolume (knownVolumes b u)) (Volumes u)))
    (map (restContainer b u) (InitContainers u)))
    (map (restContainer b u) (Containers u)).

Lemma Undone_annotations b u :
  Undone b u → delete (annotationKey b) (default ∅ (Annotations u)) = default ∅ (Annotations u)
    ∧ Annotations u = Some (default ∅ (Annotations u)).
Proof. intros [(m & -> & Hm) _ _ _]. cbn. by rewrite delete_id. Qed.

Lemma delete_exposed b m :
  m !! (annotationKey b +:+ "-type") = None → m !! (annotationKey b +:+ "-provider") = None →
  delete (annotationKey b +:+ "-provider")
    (delete (annotationKey b +:+ "-type") (exposedAnnotations b m)) = m.
Proof.
  intros Ht Hp. apply map_eq. intros k. unfold exposedAnnotations.
  destruct (decide (k = annotationKey b +:+ "-provider")) as [->|Hnp];
    [by rewrite lookup_delete_eq|rewrite lookup_delete_ne by done].
  destruct (decide (k = annotationKey b +:+ "-type")) as [->|Hnt];
    [by rewrite lookup_delete_eq|rewrite lookup_delete_ne by done].
  repeat case_match; rewrite ?lookup_insert_ne by done; done.
Qed.

Lemma removedSecrets_inject b u : removedSecrets b (inject b u) = {[ secretName b ]}.
Proof.
  unfold removedSecrets, map_get, inject, Annotations. cbn [WithPod_ObjectMeta set_Containers
    set_InitContainers set_Annotations set_PodSpec Meta_set_Annotations Meta_Annotations].
  cbn -[insert lookup]. rewrite lookup_insert_eq. cbn. set_solver.
Qed.

Lemma inject_Volumes b u :
  Volumes (inject b u) =
  SliceStable (lessVolume (knownVolumes b u)) (Volumes u ++ [bindingVolume b]).
Proof. done. Qed.

Lemma undone_not_projected b u :
  Undone b u →
  filter (λ v, projectsSecret {[ secretName b ]} v = true) (Volumes u) = [].
Proof.
  intros [_ _ Hv _]. apply filter_False. eapply Forall_impl; [exact Hv|]. cbn. congruence.
Qed.

Lemma removedVolumes_inject b u :
  Undone b u → removedVolumes b (inject b u) = {[ bindingVolumeName (secretName b) ]}.
Proof.
  intros Hu. unfold removedVolumes. rewrite removedSecrets_inject, inject_Volumes.
  rewrite SliceStable_Permutation, filter_app, undone_not_projected by done.
  rewrite filter_cons_True by (rewrite bindingVolume_projects; apply bool_decide_eq_true; set_solver).
  cbn. set_solver.
Qed.

Lemma undo_volumes b u :
  Undone b u → length (Volumes u) < blockSize →
  filter (λ v, projectsSecret {[ secretName b ]} v = false) (Volumes (inject b u)) =
  isort (lessVolume (knownVolumes b u)) (Volumes u).
Proof.
  intros Hu Hlen. rewrite inject_Volumes, SliceStable_small by (rewrite length_app; cbn; lia).
  rewrite isort_app, filter_foldl_push_drop.
  - apply filter_True, Forall_forall. intros v. rewrite elem_of_isort.
    pose proof (undone_vols _ _ Hu) as Hv. rewrite Forall_forall in Hv. auto.
  - constructor; [|done]. rewrite bindingVolume_projects. unfold Has.
    rewrite bool_decide_eq_false. set_solver.
Qed.

Lemma Undo_inject b u : Undone b u → Fresh b u → Small b u → Undo b (inject b u) = rest b u.
Proof.
  intros Hu Hf Hs. pose proof (Undone_annotations _ _ Hu) as [Hda Ha].
  assert (∀ c, c ∈ allContainers u →
    undoContainer {[ secretName b ]} {[ bindingVolumeName (secretName b) ]}
      (bindContainer b u c) = restContainer b u c) as Hc.
  { intros c Hin. destruct Hu as [_ _ _ He], Hf as [_ Hm], Hs as [_ Hsm Hse].
    rewrite Forall_forall in He, Hm, Hsm, Hse. by apply undo_bindContainer; auto. }
  apply WithPod_ext.
  - by rewrite Undo_frame.
  - rewrite Undo_Annotations. unfold inject at 1. unfold Annotations. cbn -[insert delete].
    rewrite delete_insert_eq. fold (Annotations u). by rewrite Hda.
  - rewrite Undo_TemplateAnnotations. unfold inject, TemplateAnnotations at 1. cbn -[insert delete].
    destruct (undone_tann _ _ Hu) as (m & Hm & Ht & Hp). rewrite Hm. cbn -[delete].
    rewrite delete_exposed by done. by rewrite <- Hm.
  - rewrite Undo_Volumes, removedSecrets_inject. apply undo_volumes; [done|apply Hs].
  - rewrite Undo_InitContainers, removedSecrets_inject, removedVolumes_inject by done.
    unfold inject, InitContainers. cbn. rewrite map_map. apply map_ext_in. intros c Hin.
    apply Hc. apply elem_of_app. left. by apply list_elem_of_In.
  - rewrite Undo_Containers, removedSecrets_inject, removedVolumes_inject by done.
    unfold inject, Containers. cbn. rewrite map_map. apply map_ext_in. intros c Hin.
    apply Hc. apply elem_of_app. right. by apply list_elem_of_In.
Qed.

Lemma knownSecrets_rest b u : knownSecrets b (rest b u) = knownSecrets b u.
Proof. unfold knownSecrets, injectedValues. done. Qed.

Lemma knownVolumes_rest b u : knownVolumes b (rest b u) = knownVolumes b u.
Proof.
  unfold knownVolumes. f_equal. apply set_eq. intros x. rewrite !elem_of_injectedVolumes.
  assert ((injectedValues (rest b u)).1 = (injectedValues u).1) as -> by done.
  change (Volumes (rest b u)) with (isort (lessVolume (knownVolumes b u)) (Volumes u)).
  by setoid_rewrite elem_of_isort.
Qed.

Lemma inject_rest b u : Fresh b u → Undone b u → Small b u → Rooted b u →
  inject b (rest b u) = inject b u.
Proof.
  intros Hf Hu Hs Hr.
  assert (∀ c, c ∈ allContainers u →
    bindContainer b (rest b u) (restContainer b u c) = bindContainer b u c) as Hc.
  { intros c Hin. destruct Hs as [_ Hsm Hse]. unfold Rooted in Hr.
    rewrite Forall_forall in Hr, Hsm, Hse.
    apply rebind_container; eauto using knownSecrets_rest, knownVolumes_rest. }
  apply WithPod_ext.
  - done.
  - done.
  - done.
  - rewrite !inject_Volumes, knownVolumes_rest.
    change (Volumes (rest b u)) with (isort (lessVolume (knownVolumes b u)) (Volumes u)).
    pose proof (small_vols _ _ Hs).
    rewrite !SliceStable_small by (rewrite length_app, ?isort_length; cbn; lia).
    rewrite !(isort_app _ _ [_]), isort_idemp by auto with go. done.
  - unfold inject, InitContainers. cbn. rewrite map_map. apply map_ext_in. intros c Hin.
    apply Hc. apply elem_of_app. left. by apply list_elem_of_In.
  - unfold inject, Containers. cbn. rewrite map_map. apply map_ext_in. intros c Hin.
    apply Hc. apply elem_of_app. right. by apply list_elem_of_In.
Qed.
End cycle.
