(* ===== verification/ProjectionFacts.v ===== *)
(** * The projection: what injection and removal promise

    An abstract specification of [Do] and [Undo] as relations between a workload
    before and after ([Bound], [Unbound]), and the refinement theorems; then
    idempotence, the round trip, secret rotation, isolation between bindings, and
    the limits of these promises as counterexamples. *)
From S2P Require Import Prelude GoSort GoHash GoRegexp Api Conditions Projection ProjectionLemmas.
From S2P Require Import ProjectionCycle.

Section spec.
Context `{Opaque}.
Implicit Types (b : ServiceBindingProjection) (ps : WithPod) (c : Container).

(** ** The abstract specification *)

(** A container without the environment variables that refer to [secrets] (or to
    a projected annotation) and without the mounts of [volumes]; the others keep
    their order. *)
Definition keepContainer (secrets volumes : gset string) c : Container :=
  {| Container_Name := Container_Name c;
     Container_Env := filter (λ e, isInjectedEnv e secrets = false) (Container_Env c);
     Container_VolumeMounts :=
       filter (λ m, VolumeMount_Name m ∉ volumes) (Container_VolumeMounts c);
     Container_Rest := Container_Rest c |}.

Record Unbound b ps ps' : Prop := {
  unbound_frame : frame ps' = frame ps;
  unbound_annotations :
    Annotations ps' = Some (delete (annotationKey b) (default ∅ (Annotations ps)));
  unbound_template_annotations :
    TemplateAnnotations ps' = Some (delete (annotationKey b +:+ "-provider")
      (delete (annotationKey b +:+ "-type") (default ∅ (TemplateAnnotations ps))));
  unbound_volumes :
    Volumes ps' = filter (λ v, projectsSecret (removedSecrets b ps) v = false) (Volumes ps);
  unbound_init_containers :
    InitContainers ps' =
    map (keepContainer (removedSecrets b ps) (removedVolumes b ps)) (InitContainers ps);
  unbound_containers :
    Containers ps' =
    map (keepContainer (removedSecrets b ps) (removedVolumes b ps)) (Containers ps);
}.

(** Container [c'] is [c] bound to [b]. *)
Record BoundContainer b c c' : Prop := {
  bound_name : Container_Name c' = Container_Name c;
  bound_rest : Container_Rest c' = Container_Rest c;
  bound_env : Container_Env c' ≡ₚ Container_Env c ++ rootEnv c ++ bindingEnv b;
  bound_mounts : Container_VolumeMounts c' ≡ₚ Container_VolumeMounts c ++ [bindingMount b c];
}.

Definition BoundIfTarget b c c' : Prop :=
  if isTarget b c then BoundContainer b c c' else c' = c.

(** Workload [ps'] is [ps] bound to [b]. *)
Record Bound b ps ps' : Prop := {
  bound_frame : frame ps' = frame ps;
  bound_annotations :
    Annotations ps' = Some (<[annotationKey b := secretName b]> (default ∅ (Annotations ps)));
  bound_template_annotations :
    TemplateAnnotations ps' = Some (exposedAnnotations b (default ∅ (TemplateAnnotations ps)));
  bound_volumes : Volumes ps' ≡ₚ Volumes ps ++ [bindingVolume b];
  bound_init_containers : Forall2 (BoundIfTarget b) (InitContainers ps) (InitContainers ps');
  bound_containers : Forall2 (BoundIfTarget b) (Containers ps) (Containers ps');
}.

Lemma undoContainer_keep secrets volumes c :
  undoContainer secrets volumes c = keepContainer secrets volumes c.
Proof.
  rewrite undoContainer_eq. unfold keepContainer. f_equal. apply list_filter_iff.
  intros m. unfold Has. by rewrite bool_decide_eq_false.
Qed.

Lemma Undo_unbound b ps : Unbound b ps (Undo b ps).
Proof.
  split; rewrite ?Undo_frame, ?Undo_Annotations, ?Undo_TemplateAnnotations, ?Undo_Volumes,
    ?Undo_InitContainers, ?Undo_Containers; try done.
  all: apply map_ext; intros c; apply undoContainer_keep.
Qed.

Lemma bindContainer_bound b ps c : BoundIfTarget b c (bindContainer b ps c).
Proof.
  unfold BoundIfTarget. destruct (Sumbool.sumbool_of_bool (isTarget b c)) as [Ht|Ht]; rewrite Ht.
  - rewrite bindContainer_target by exact Ht. split; [reflexivity|reflexivity| |].
    + apply sortEnv_Permutation.
    + apply SliceStable_Permutation.
  - by apply bindContainer_other.
Qed.

Lemma inject_bound b ps : Bound b ps (inject b ps).
Proof.
  split; [done|done|done|apply SliceStable_Permutation| |].
  all: apply Forall2_fmap_r, Forall_Forall2_diag, Forall_forall; intros c _;
    apply bindContainer_bound.
Qed.
End spec.

(** ** Sample data, for the witnesses *)
Module Sample.
#[export] Existing Instance string_opaque.

Definition binding (name secret type provider : string) (targets : list string)
    (env : list EnvVar) : ServiceBindingProjection :=
  mkSBP (newMeta name "default")
    (mkSBPSpec name type provider (mkLocalObjectReference secret)
      (mkWorkloadReference (mkReference "apps/v1" "Deployment" "default" "app" None) targets) env)
    (mkSBPStatus zeroStatus).

Definition b1 : ServiceBindingProjection :=
  binding "my-binding" "my-secret" "mysql" "" [] [mkEnvVar "USER" "username"; mkEnvVar "KIND" "type"].
Definition b2 : ServiceBindingProjection :=
  binding "other" "other-secret" "" "" ["app"] [mkEnvVar "TOKEN" "token"].
(** [b1] after its service rotated the secret. *)
Definition b1' : ServiceBindingProjection :=
  binding "my-binding" "my-secret-2" "mysql" "" [] [mkEnvVar "USER" "username"; mkEnvVar "KIND" "type"].

Definition app : Container :=
  mkContainer "app" [mkCoreEnvVar "PORT" "8080" None] [mkVolumeMount "data" false "/data" ""] "image".
Definition sidecar : Container := mkContainer "sidecar" [] [] "proxy".

Definition workload : WithPod :=
  mkWithPod (Meta_set_Annotations (newMeta "app" "default") (Some ∅))
    (Meta_set_Annotations (newMeta "" "") (Some ∅))
    (mkPodSpec [mkVolume "data" None "emptyDir"] [] [app; sidecar] "") "replicas: 1".

Definition get {A} (d : A) (m : outcome A) : A := match m with Done a => a | Panic => d end.
(** The workload bound to [b2]. *)
Definition bound2 : WithPod := get workload (Do b2 workload).
(** The workload bound to [b1]. *)
Definition bound1 : WithPod := get workload (Do b1 workload).
(** Bound to both, in the two orders, and after the rotation. *)
Definition bound21 : WithPod := get workload (Do b1 bound2).
Definition bound12 : WithPod := get workload (Do b2 bound1).
Definition rotated : WithPod := get workload (Do b1' bound1).
End Sample.

Section facts.
Context `{Opaque}.
Implicit Types (b : ServiceBindingProjection) (ps u : WithPod) (c : Container).

(** C1: [Do] refines its specification: it never panics, and the workload it
    returns is the one [Undo] would leave ([Unbound]) with the binding's
    annotation, template annotations, volume, mounts and variables added, and
    nothing else changed ([Bound]). *)
Theorem Do_refines b ps :
  ∃ kept ps', Do b ps = Done ps' ∧ Unbound b ps kept ∧ Bound b kept ps'.
Proof.
  exists (Undo b ps), (inject b (Undo b ps)).
  split_and!; [apply Do_inject | apply Undo_unbound | apply inject_bound].
Qed.

(** C2: [Undo] removes what belongs to the binding, and only that.  It meets [Unbound]:
    the annotations lose the keys of the binding, the volumes, and the variables and
    mounts of every container, are the old ones in their order without those that are
    removed, and the rest is as it was.  Nothing of the binding is left: no annotation,
    no volume that projects its secret (the current one or the one the annotation
    records), no mount of such a volume, and no variable that refers to such a secret.
    Variables that expose a type or a provider go too, those of any binding.  Every
    annotation under another key is kept. *)
Theorem Undo_leaves_nothing b ps :
  let ps' := Undo b ps in
  Unbound b ps ps' ∧
  (∀ k, k ≠ annotationKey b → default ∅ (Annotations ps') !! k = default ∅ (Annotations ps) !! k) ∧
  (∀ k, k ≠ annotationKey b +:+ "-type" → k ≠ annotationKey b +:+ "-provider" →
    default ∅ (TemplateAnnotations ps') !! k = default ∅ (TemplateAnnotations ps) !! k) ∧
  default ∅ (Annotations ps') !! annotationKey b = None ∧
  (∀ f, f = "-type" ∨ f = "-provider" →
    default ∅ (TemplateAnnotations ps') !! (annotationKey b +:+ f) = None) ∧
  (∀ v, v ∈ Volumes ps' → projectsSecret (removedSecrets b ps) v = false) ∧
  (∀ c, c ∈ allContainers ps' →
    (∀ e, e ∈ Container_Env c → isInjectedEnv e (removedSecrets b ps) = false) ∧
    (∀ m v, m ∈ Container_VolumeMounts c → v ∈ Volumes ps →
      projectsSecret (removedSecrets b ps) v = true → VolumeMount_Name m ≠ Volume_Name v)).
Proof.
  cbn zeta. split; [apply Undo_unbound|]. pose proof (Undo_unbound b ps) as [].
  rewrite unbound_annotations0, unbound_template_annotations0, unbound_volumes0.
  unfold allContainers. rewrite unbound_init_containers0, unbound_containers0, <- map_app. cbn.
  split_and!.
  - intros k Hk. by apply lookup_delete_ne.
  - intros k Ht Hp. by rewrite !lookup_delete_ne.
  - apply lookup_delete_eq.
  - intros f [->| ->]; [|apply lookup_delete_eq].
    rewrite lookup_delete_ne by (intros Heq; by apply (type_provider_ne b)).
    apply lookup_delete_eq.
  - by intros v [? _]%list_elem_of_filter.
  - intros c (c0 & -> & _)%list_elem_of_fmap. cbn. split.
    + by intros e [? _]%list_elem_of_filter.
    + intros m v [Hm _]%list_elem_of_filter Hv Hp Heq. apply Hm. unfold removedVolumes.
      rewrite elem_of_list_to_set, list_elem_of_fmap. exists v.
      by rewrite list_elem_of_filter.
Qed.

(** C4: [Do] is idempotent: binding a bound workload again returns it
    unchanged, as long as no slice it sorts exceeds the insertion sort's block of
    twenty elements, the binding's volume name is not in use, and the containers
    that define [SERVICE_BINDING_ROOT] give it a literal value. *)
Theorem Do_idempotent b ps ps' :
  Small b (Undo b ps) → Fresh b (Undo b ps) → Rooted b (Undo b ps) →
  Do b ps = Done ps' → Do b ps' = Done ps'.
Proof.
  intros Hs Hf Hr Hdo. rewrite Do_inject in Hdo. injection Hdo as <-.
  pose proof (Undo_Undone b ps) as Hu. by rewrite Do_inject, Undo_inject, inject_rest.
Qed.

(** Nothing of [b] is in [u], and nothing in [u] refers to a secret without a
    name (which is what [Undo] looks for when [b] has left no annotation). *)
Record Clean b u : Prop := {
  clean_ann : ∃ m, Annotations u = Some m ∧ m !! annotationKey b = None;
  clean_tann : ∃ m, TemplateAnnotations u = Some m ∧
    m !! (annotationKey b +:+ "-type") = None ∧ m !! (annotationKey b +:+ "-provider") = None;
  clean_vols : Forall (λ v, projectsSecret {[ ""; secretName b ]} v = false) (Volumes u);
  clean_env : Forall (λ c, Forall (λ e, isInjectedEnv e {[ ""; secretName b ]} = false)
    (Container_Env c)) (allContainers u);
}.

(** A workload no binding has touched. *)
Record Pristine b u : Prop := {
  pristine_clean : Clean b u;
  pristine_annotations : ∀ k, HasPrefix k ServiceBindingProjectionAnnotationKey = true →
    default ∅ (Annotations u) !! k = None;
}.

Lemma Clean_Undone b u : Clean b u → Undone b u.
Proof.
  intros [Ha Ht Hv He]. split; [done|done| |].
  - eapply Forall_impl; [exact Hv|]. cbn. intros v Hf.
    destruct (projectsSecret {[_]} v) eqn:E; [|done].
    rewrite <- Hf. symmetry. eapply projectsSecret_mono; [|exact E]. set_solver.
  - eapply Forall_impl; [exact He|]. cbn. intros c Hc.
    eapply Forall_impl; [exact Hc|]. cbn. intros e Hf.
    destruct (isInjectedEnv e {[_]}) eqn:E; [|done].
    rewrite <- Hf. symmetry. eapply isInjectedEnv_mono; [|exact E]. set_solver.
Qed.

Lemma Clean_Undo b u : Clean b u → Undo b u = u.
Proof.
  intros [(m & Ha & Hm) (mt & Ht & Hmt & Hmp) Hv He].
  assert (removedSecrets b u = {[ ""; secretName b ]}) as Hrs
    by (unfold removedSecrets, map_get; rewrite Ha; cbn; by rewrite Hm).
  assert (removedVolumes b u = ∅) as Hrv.
  { unfold removedVolumes. rewrite Hrs, filter_False; [done|].
    eapply Forall_impl; [exact Hv|]. cbn. congruence. }
  assert (∀ c, c ∈ allContainers u → undoContainer {[ ""; secretName b ]} ∅ c = c) as Hc.
  { rewrite Forall_forall in He. intros c Hin. apply undoContainer_id; [by apply He|].
    apply Forall_forall. intros x _. apply bool_decide_eq_false. set_solver. }
  apply WithPod_ext.
  - by rewrite Undo_frame.
  - rewrite Undo_Annotations, Ha. cbn. by rewrite delete_id.
  - rewrite Undo_TemplateAnnotations, Ht. cbn. by rewrite !delete_id by (rewrite ?delete_id; done).
  - rewrite Undo_Volumes, Hrs. by apply filter_True.
  - rewrite Undo_InitContainers, Hrs, Hrv. rewrite <- (map_id (InitContainers u)) at 2.
    apply map_ext_in. intros c Hin. apply Hc, elem_of_app. left. by apply list_elem_of_In.
  - rewrite Undo_Containers, Hrs, Hrv. rewrite <- (map_id (Containers u)) at 2.
    apply map_ext_in. intros c Hin. apply Hc, elem_of_app. right. by apply list_elem_of_In.
Qed.

(** No volume or variable of [ps] names the empty secret. *)
Record NoEmptySecret ps : Prop := {
  noempty_vols : Forall (λ v, projectsSecret {[ "" ]} v = false) (Volumes ps);
  noempty_env : Forall (λ c, Forall (λ e, isInjectedEnv e {[ "" ]} = false ∨
    isInjectedEnv e ∅ = true) (Container_Env c)) (allContainers ps);
}.

Lemma Undo_Clean b ps : NoEmptySecret ps → Clean b (Undo b ps).
Proof.
  intros [Hv He]. pose proof (Undo_Undone b ps) as [Ha Ht Huv Hue]. split; [done|done| |].
  - rewrite Undo_Volumes in *. rewrite Forall_forall in Hv, Huv |- *. intros v Hin.
    rewrite projectsSecret_union, (Huv v Hin), orb_false_r.
    apply list_elem_of_filter in Hin as [_ Hin]. auto.
  - unfold allContainers in *. rewrite Undo_InitContainers, Undo_Containers, <- map_app in *.
    rewrite Forall_forall in He, Hue |- *. intros c Hin. pose proof (Hue c Hin) as Hc.
    apply list_elem_of_fmap in Hin as (c0 & -> & Hin). specialize (He c0 Hin).
    rewrite undoContainer_eq in *. cbn in *. rewrite Forall_forall in He, Hc |- *. intros e Hine.
    rewrite isInjectedEnv_union, (Hc e Hine), orb_false_r.
    pose proof Hine as [Hne Hin0]%list_elem_of_filter.
    destruct (He e Hin0) as [?|Hx]; [done|].
    by rewrite (isInjectedEnv_mono _ (removedSecrets b ps) e (empty_subseteq _) Hx) in Hne.
Qed.

(** [u] with the [SERVICE_BINDING_ROOT] variable in its target containers. *)
Definition rootContainer b c : Container :=
  if isTarget b c then set_Env c (Container_Env c ++ rootEnv c) else c.

Definition rooted b u : WithPod :=
  set_Containers (set_InitContainers u (map (rootContainer b) (InitContainers u)))
    (map (rootContainer b) (Containers u)).

Lemma pristine_knownSecrets b u : Pristine b u → knownSecrets b u = {[ secretName b ]}.
Proof.
  intros Hp. unfold knownSecrets. apply set_eq. intros x.
  rewrite elem_of_union, elem_of_injectedSecrets. split; [|auto].
  intros [?|(k & Hk & Hpre)]; [done|]. by rewrite (pristine_annotations _ _ Hp) in Hk.
Qed.

Lemma pristine_knownVolumes b u : Pristine b u → knownVolumes b u = {[ bindingVolumeName (secretName b) ]}.
Proof.
  intros Hp. unfold knownVolumes. apply set_eq. intros x.
  rewrite elem_of_union, elem_of_injectedVolumes. split; [|auto].
  intros [?|(v & _ & Hv & _)]; [done|]. apply projectsSecret_spec in Hv as (?&?&?&s&_&_&_&Hs).
  apply elem_of_injectedSecrets in Hs as (k & Hk & Hpre).
  by rewrite (pristine_annotations _ _ Hp) in Hk.
Qed.

Lemma isort_never {A} (less : A → A → bool) l :
  (∀ x y, x ∈ l → y ∈ l → less x y = false) → isort less l = l.
Proof.
  induction l as [|y l IH] using rev_ind; [done|]. intros Hl.
  rewrite isort_app, IH by set_solver. cbn.
  destruct l as [|x l _] using rev_ind; [done|]. rewrite push_snoc, Hl by set_solver.
  by rewrite <- (assoc_L (++)).
Qed.

Lemma pristine_rest b u :
  Pristine b u → Fresh b u → rest b u = rooted b u.
Proof.
  intros Hp [Hfv Hfm]. pose proof (undone_env _ _ (Clean_Undone _ _ (pristine_clean _ _ Hp))) as Henv.
  rewrite Forall_forall in Hfv. rewrite Forall_forall in Hfm, Henv.
  assert (∀ c, c ∈ allContainers u → restContainer b u c = rootContainer b c) as Hc.
  { intros c Hin. unfold restContainer, rootContainer. case_match; [|done].
    unfold set_Env, sortEnv'. rewrite pristine_knownSecrets, pristine_knownVolumes by done. f_equal.
    - case_match; [done|]. apply isort_never. intros x y Hx Hy. unfold lessEnv.
      pose proof (keep_env _ _ (Henv _ Hin)) as Hk. rewrite Forall_forall in Hk.
      by rewrite (Hk x Hx).
    - apply isort_never. intros x y Hx Hy. unfold lessMount.
      pose proof (Hfm _ Hin) as Hk. rewrite Forall_forall in Hk.
      replace (HasAll2 _ _ _) with false; [done|]. symmetry. apply HasAll2_false. set_solver. }
  unfold rest. apply WithPod_ext; try done.
  - change (isort (lessVolume (knownVolumes b u)) (Volumes u) = Volumes u).
    rewrite pristine_knownVolumes by done. apply isort_never. intros x y Hx Hy. unfold lessVolume.
    replace (HasAll2 _ _ _) with false; [done|]. symmetry. apply HasAll2_false. set_solver.
  - change (map (restContainer b u) (InitContainers u) = map (rootContainer b) (InitContainers u)).
    apply map_ext_in. intros c Hin. apply Hc, elem_of_app. left. by apply list_elem_of_In.
  - change (map (restContainer b u) (Containers u) = map (rootContainer b) (Containers u)).
    apply map_ext_in. intros c Hin. apply Hc, elem_of_app. right. by apply list_elem_of_In.
Qed.

(** C3: round trip: on a workload that no binding has touched ([Pristine]), in which the
    name of the binding's volume is free ([Fresh]) and in which no slice that [Do] sorts
    exceeds the twenty elements of an insertion sort block ([Small]), [Undo] after [Do]
    returns the workload, except for the [SERVICE_BINDING_ROOT] variable that [Do]
    gave to the target containers without one, which stays. *)
Theorem Undo_Do_roundtrip b u ps' :
  Pristine b u → Fresh b u → Small b u →
  Do b u = Done ps' → Undo b ps' = rooted b u.
Proof.
  intros Hp Hf Hs. pose proof (pristine_clean _ _ Hp) as Hc.
  rewrite Do_inject, (Clean_Undo _ _ Hc). intros [= <-].
  rewrite Undo_inject by auto using Clean_Undone. by apply pristine_rest.
Qed.

(** [Undo] is idempotent on workloads in which nothing names the empty
    secret. *)
Theorem Undo_idempotent b ps : NoEmptySecret ps → Undo b (Undo b ps) = Undo b ps.
Proof. intros Hn. by apply Clean_Undo, Undo_Clean. Qed.

(** ** Variables, and what they refer to *)
Definition secretRef (e : CoreEnvVar) : option string :=
  CoreEnvVar_ValueFrom e ≫= λ src, SecretKeySelector_Name <$> EnvVarSource_SecretKeyRef src.

Definition fieldRef (e : CoreEnvVar) : option string :=
  CoreEnvVar_ValueFrom e ≫= λ src, ObjectFieldSelector_FieldPath <$> EnvVarSource_FieldRef src.

Lemma isInjectedEnv_refs e s :
  isInjectedEnv e s =
  match secretRef e with Some n => Has s n | None => false end ||
  match fieldRef e with Some p => MatchString fieldPathAnnotationRe p | None => false end.
Proof.
  unfold isInjectedEnv, secretRef, fieldRef.
  destruct (CoreEnvVar_ValueFrom e) as [[[]  [] ?]|]; done.
Qed.

(** C23: [isInjectedEnv] recognizes exactly the variables that refer to one of the
    secrets, or whose field path is the annotation of the type or provider of
    some binding: [metadata.annotations['<key>-<hex digits>-type']] or [...-provider]. *)
Theorem isInjectedEnv_exact e s :
  isInjectedEnv e s = true ↔
  (∃ n, secretRef e = Some n ∧ n ∈ s) ∨
  (∃ h f, h ≠ "" ∧ str_all is_hex h = true ∧ (f = "type" ∨ f = "provider") ∧
    fieldRef e = Some (annotationFieldPath
      (ServiceBindingProjectionAnnotationKey +:+ "-" +:+ h +:+ "-" +:+ f))).
Proof.
  rewrite isInjectedEnv_refs, orb_true_iff. f_equiv.
  - destruct (secretRef e); [|naive_solver]. unfold Has. rewrite bool_decide_eq_true. naive_solver.
  - destruct (fieldRef e) as [p|]; [|naive_solver]. rewrite fieldPathAnnotationRe_spec.
    split; intros (h & f & ? & ? & ? & Heq); exists h, f; split_and!; try done; congruence.
Qed.

Lemma bindingEnv_secretRef b e n : e ∈ bindingEnv b → secretRef e = Some n → n = secretName b.
Proof.
  unfold bindingEnv. intros (x & -> & _)%list_elem_of_fmap. unfold injectedEnv.
  repeat case_match; cbn; congruence.
Qed.

Lemma rootEnv_refs c e : e ∈ rootEnv c → secretRef e = None ∧ fieldRef e = None.
Proof. unfold rootEnv. case_match; set_solver. Qed.

(** The variables of a workload after [Do]. *)
Lemma inject_env b u c' e :
  c' ∈ allContainers (inject b u) → e ∈ Container_Env c' →
  ∃ c, c ∈ allContainers u ∧
    (e ∈ Container_Env c ∨ isTarget b c = true ∧ (e ∈ rootEnv c ∨ e ∈ bindingEnv b)).
Proof.
  unfold allContainers, inject, InitContainers, Containers. cbn. rewrite <- map_app.
  intros (c & -> & Hin)%list_elem_of_fmap He. exists c. split; [done|].
  destruct (Sumbool.sumbool_of_bool (isTarget b c)) as [Ht|Ht].
  - rewrite bindContainer_target in He by exact Ht. cbn [Container_Env] in He.
    rewrite sortEnv_Permutation, !elem_of_app in He. tauto.
  - rewrite bindContainer_other in He by exact Ht. auto.
Qed.

Lemma inject_mounts b u c' m :
  c' ∈ allContainers (inject b u) → m ∈ Container_VolumeMounts c' →
  ∃ c, c ∈ allContainers u ∧
    (m ∈ Container_VolumeMounts c ∨ isTarget b c = true ∧ m = bindingMount b c).
Proof.
  unfold allContainers, inject, InitContainers, Containers. cbn. rewrite <- map_app.
  intros (c & -> & Hin)%list_elem_of_fmap He. exists c. split; [done|].
  destruct (Sumbool.sumbool_of_bool (isTarget b c)) as [Ht|Ht].
  - rewrite bindContainer_target in He by exact Ht. cbn [Container_VolumeMounts] in He.
    rewrite SliceStable_Permutation, elem_of_app, list_elem_of_singleton in He. tauto.
  - rewrite bindContainer_other in He by exact Ht. auto.
Qed.

Lemma Undo_env b ps c e :
  c ∈ allContainers (Undo b ps) → e ∈ Container_Env c →
  isInjectedEnv e (removedSecrets b ps) = false.
Proof.
  unfold allContainers. rewrite Undo_InitContainers, Undo_Containers, <- map_app.
  intros (c0 & -> & _)%list_elem_of_fmap. rewrite undoContainer_eq. cbn.
  by intros [? _]%list_elem_of_filter.
Qed.

Lemma Undo_mounts b ps c m :
  c ∈ allContainers (Undo b ps) → m ∈ Container_VolumeMounts c →
  VolumeMount_Name m ∉ removedVolumes b ps.
Proof.
  unfold allContainers. rewrite Undo_InitContainers, Undo_Containers, <- map_app.
  intros (c0 & -> & _)%list_elem_of_fmap. rewrite undoContainer_eq. cbn.
  intros [Hm _]%list_elem_of_filter. unfold Has in Hm. by apply bool_decide_eq_false in Hm.
Qed.

(** C22: rotation of a secret: when the workload's annotation records another
    secret [s] for the binding than the one it has now, after [Do] no volume
    projects [s], no variable refers to it, and no container mounts a volume that
    projected it (unless it has the name of the binding's new volume). *)
Theorem Do_drops_recorded_secret b ps ps' s :
  map_get (Annotations ps) (annotationKey b) = s → s ≠ secretName b →
  Do b ps = Done ps' →
  (∀ v, v ∈ Volumes ps' → projectsSecret {[ s ]} v = false) ∧
  (∀ c e, c ∈ allContainers ps' → e ∈ Container_Env c → secretRef e ≠ Some s) ∧
  (∀ c m v, c ∈ allContainers ps' → m ∈ Container_VolumeMounts c →
    v ∈ Volumes ps → projectsSecret {[ s ]} v = true →
    Volume_Name v ≠ bindingVolumeName (secretName b) → VolumeMount_Name m ≠ Volume_Name v).
Proof.
  intros Hs Hne Hdo. rewrite Do_inject in Hdo. injection Hdo as <-.
  assert ({[ s ]} ⊆ removedSecrets b ps) as Hsub by (unfold removedSecrets; set_solver).
  split_and!.
  - intros v. rewrite inject_Volumes, SliceStable_Permutation, Undo_Volumes.
    intros [[Hv _]%list_elem_of_filter|Hv]%elem_of_app.
    + destruct (projectsSecret {[_]} v) eqn:E; [|done].
      by rewrite (projectsSecret_mono _ _ _ Hsub E) in Hv.
    + apply list_elem_of_singleton in Hv as ->. rewrite bindingVolume_projects.
      apply bool_decide_eq_false. set_solver.
  - intros c e Hc He Hr. destruct (inject_env _ _ _ _ Hc He) as (c0 & Hc0 & [Hk|[_ [Hk|Hk]]]).
    + pose proof (Undo_env _ _ _ _ Hc0 Hk) as Hf. rewrite isInjectedEnv_refs, Hr in Hf.
      apply orb_false_iff in Hf as [Hf%bool_decide_eq_false _]. set_solver.
    + by destruct (rootEnv_refs _ _ Hk); congruence.
    + pose proof (bindingEnv_secretRef _ _ _ Hk Hr). congruence.
  - intros c m v Hc Hm Hv Hp Hn Heq.
    destruct (inject_mounts _ _ _ _ Hc Hm) as (c0 & Hc0 & [Hk|[_ ->]]); [|done].
    apply (Undo_mounts _ _ _ _ Hc0 Hk). rewrite Heq. unfold removedVolumes.
    rewrite elem_of_list_to_set, list_elem_of_fmap. exists v. split; [done|].
    apply list_elem_of_filter. split; [|done]. by apply (projectsSecret_mono {[ s ]}).
Qed.

(** ** Several bindings on one workload *)
Lemma removedSecrets_hit b ps v n :
  projectsSecret {[ n ]} v = true → n ∉ removedSecrets b ps →
  projectsSecret (removedSecrets b ps) v = false.
Proof.
  intros (p & src & rest & sec & Hp & Hs & Hv & Hn)%projectsSecret_spec Hnot.
  apply elem_of_singleton in Hn as <-.
  unfold projectsSecret. rewrite Hp, Hs, Hv. by apply bool_decide_eq_false.
Qed.

Lemma exposedAnnotations_other b m k :
  k ≠ annotationKey b +:+ "-type" → k ≠ annotationKey b +:+ "-provider" →
  exposedAnnotations b m !! k = m !! k.
Proof.
  intros Ht Hp. unfold exposedAnnotations.
  repeat case_match; by rewrite ?lookup_insert_ne by done.
Qed.

(** What a container keeps through [Do b]: the variables that refer to secret
    [n], and the mounts of volumes that are not removed. *)
Definition Keeps b ps n c c' : Prop :=
  (∀ e, e ∈ Container_Env c → secretRef e = Some n → fieldRef e = None → e ∈ Container_Env c') ∧
  (∀ m, m ∈ Container_VolumeMounts c → VolumeMount_Name m ∉ removedVolumes b ps →
    m ∈ Container_VolumeMounts c').

Lemma bind_undo_keeps b ps u n c :
  n ∉ removedSecrets b ps →
  Keeps b ps n c (bindContainer b u
    (undoContainer (removedSecrets b ps) (removedVolumes b ps) c)).
Proof.
  intros Hn. set (k := undoContainer _ _ c).
  assert (∀ e, e ∈ Container_Env c → secretRef e = Some n → fieldRef e = None →
    e ∈ Container_Env k) as He.
  { intros e Hin Hr Hf. unfold k. rewrite undoContainer_eq. cbn [Container_Env].
    apply list_elem_of_filter. split; [|done]. rewrite isInjectedEnv_refs, Hr, Hf, orb_false_r.
    by apply bool_decide_eq_false. }
  assert (∀ m, m ∈ Container_VolumeMounts c → VolumeMount_Name m ∉ removedVolumes b ps →
    m ∈ Container_VolumeMounts k) as Hm.
  { intros m Hin Hr. unfold k. rewrite undoContainer_eq. cbn [Container_VolumeMounts].
    apply list_elem_of_filter. split; [|done]. by apply bool_decide_eq_false. }
  pose proof (bindContainer_bound b u k) as Hb. unfold BoundIfTarget in Hb. clearbody k.
  case_match; [destruct Hb as [_ _ Hbe Hbm]|rewrite Hb; by split].
  split; intros ? **; [rewrite Hbe|rewrite Hbm]; apply elem_of_app; left; auto.
Qed.

Lemma Forall2_map_r {A B} (P : A → B → Prop) (f : A → B) (l : list A) :
  (∀ x, P x (f x)) → Forall2 P l (map f l).
Proof. intros Hf. induction l; constructor; auto. Qed.

(** C21: isolation: let [b'] be a binding with another key, whose secret is neither the one
    of [b] nor the one that the workload's annotation records for [b].  Binding to [b]
    leaves alone what [b'] has injected: its annotations, its volume, the variables that
    refer to its secret, and every mount of a volume that is not removed with [b]'s own
    (those of a secret of [b], by name). *)
Theorem Do_isolated b b' ps ps' :
  annotationKey b' ≠ annotationKey b → secretName b' ∉ removedSecrets b ps →
  Do b ps = Done ps' →
  default ∅ (Annotations ps') !! annotationKey b' =
    default ∅ (Annotations ps) !! annotationKey b' ∧
  (∀ f, default ∅ (TemplateAnnotations ps') !! (annotationKey b' +:+ f) =
    default ∅ (TemplateAnnotations ps) !! (annotationKey b' +:+ f)) ∧
  (∀ v, v ∈ Volumes ps → projectsSecret {[ secretName b' ]} v = true → v ∈ Volumes ps') ∧
  Forall2 (Keeps b ps (secretName b')) (InitContainers ps) (InitContainers ps') ∧
  Forall2 (Keeps b ps (secretName b')) (Containers ps) (Containers ps').
Proof.
  intros Hk Hn Hdo. rewrite Do_inject in Hdo. injection Hdo as <-.
  pose proof (inject_bound b (Undo b ps)) as [_ Ha Ht Hv _ _].
  rewrite Ha, Ht, Undo_Annotations, Undo_TemplateAnnotations. cbn [default from_option id].
  split_and!.
  - by rewrite lookup_insert_ne, lookup_delete_ne by done.
  - intros f. rewrite exposedAnnotations_other, !lookup_delete_ne; [done|..];
      intros Heq; by apply key_field_inj in Heq as [? _].
  - intros v Hin Hp. rewrite Hv, Undo_Volumes. apply elem_of_app. left.
    apply list_elem_of_filter. split; [|done]. by eapply removedSecrets_hit.
  - unfold inject. change (InitContainers _) with
      (map (bindContainer b (Undo b ps)) (InitContainers (Undo b ps))) at 2.
    rewrite Undo_InitContainers, map_map. apply Forall2_map_r. intros c. by apply bind_undo_keeps.
  - unfold inject. change (Containers _) with
      (map (bindContainer b (Undo b ps)) (Containers (Undo b ps))) at 2.
    rewrite Undo_Containers, map_map. apply Forall2_map_r. intros c. by apply bind_undo_keeps.
Qed.

Lemma bindingEnv_fieldRef b e p :
  e ∈ bindingEnv b → fieldRef e = Some p →
  p = annotationFieldPath (annotationKey b +:+ "-type") ∨
  p = annotationFieldPath (annotationKey b +:+ "-provider").
Proof.
  unfold bindingEnv. intros (x & -> & _)%list_elem_of_fmap. unfold injectedEnv.
  repeat case_match; cbn; intros [= <-]; auto.
Qed.

Lemma annotationFieldPath_inj k k' : annotationFieldPath k = annotationFieldPath k' → k = k'.
Proof.
  unfold annotationFieldPath. intros Heq%str_app_inj_l.
  pose proof (f_equal String.length Heq) as Hl. rewrite !str_length_app in Hl.
  apply str_app_inj_length in Heq as [? _]; [done|lia].
Qed.

(** After [Do b], every variable that exposes a type or a provider is [b]'s. *)
Lemma inject_field_variables b ps c e p :
  c ∈ allContainers (inject b (Undo b ps)) → e ∈ Container_Env c →
  fieldRef e = Some p → MatchString fieldPathAnnotationRe p = true → e ∈ bindingEnv b.
Proof.
  intros Hc He Hf Hm. destruct (inject_env _ _ _ _ Hc He) as (c0 & Hc0 & [Hk|[_ [Hk|Hk]]]).
  - pose proof (Undo_env _ _ _ _ Hc0 Hk) as Hx. rewrite isInjectedEnv_refs, Hf, Hm in Hx.
    by rewrite orb_true_r in Hx.
  - destruct (rootEnv_refs _ _ Hk); congruence.
  - done.
Qed.

(** The variables that expose a type or a provider are not isolated: [Do b]
    removes, from every container, the ones that another binding [b'] injected. *)
Theorem Do_removes_foreign_field_variables b b' ps ps' c n f :
  annotationKey b' ≠ annotationKey b → f = "type" ∨ f = "provider" →
  Do b ps = Done ps' → c ∈ allContainers ps' →
  fieldRefEnv n (annotationKey b' +:+ "-" +:+ f) ∉ Container_Env c.
Proof.
  intros Hk Hf Hdo Hc He. rewrite Do_inject in Hdo. injection Hdo as <-.
  set (e := fieldRefEnv _ _) in He.
  assert (fieldRef e = Some (annotationFieldPath (annotationKey b' +:+ "-" +:+ f))) as Hr by done.
  pose proof (isInjectedEnv_fieldRefEnv ∅ n b' f Hf) as Hi.
  fold e in Hi. rewrite isInjectedEnv_refs, Hr in Hi. cbn [orb secretRef] in Hi.
  pose proof (inject_field_variables _ _ _ _ _ Hc He Hr Hi) as Hb.
  clearbody e. destruct (bindingEnv_fieldRef _ _ _ Hb Hr) as [Heq|Heq];
    by apply annotationFieldPath_inj, key_field_inj in Heq as [? _].
Qed.

(** ** The order of what is not injected *)
Lemma bind_order b u c :
  (isTarget b c = true → SBPSpec_Env (SBP_Spec b) ≠ [] →
    length (Container_Env c ++ rootEnv c ++ bindingEnv b) ≤ blockSize) →
  (isTarget b c = true → length (Container_VolumeMounts c) < blockSize) →
  filter (λ e, isInjectedEnv e (knownSecrets b u) = false) (Container_Env (bindContainer b u c)) =
    filter (λ e, isInjectedEnv e (knownSecrets b u) = false) (Container_Env c) ++
    (if isTarget b c then rootEnv c else []) ∧
  filter (λ m, VolumeMount_Name m ∉ knownVolumes b u) (Container_VolumeMounts (bindContainer b u c)) =
    filter (λ m, VolumeMount_Name m ∉ knownVolumes b u) (Container_VolumeMounts c).
Proof.
  intros He Hm. destruct (Sumbool.sumbool_of_bool (isTarget b c)) as [Ht|Ht]; rewrite Ht;
    [|rewrite bindContainer_other, app_nil_r by exact Ht; done].
  rewrite bindContainer_target by exact Ht. cbn [Container_Env Container_VolumeMounts]. split.
  - transitivity (filter (λ e, isInjectedEnv e (knownSecrets b u) = false)
      (Container_Env c ++ rootEnv c ++ bindingEnv b)).
    + unfold sortEnv. destruct (SBPSpec_Env (SBP_Spec b)) eqn:E; [done|].
      rewrite SliceStable_small by (apply He; [exact Ht | discriminate]).
      apply filter_isort_keep. intros y z Hlt Hy Hz. unfold lessEnv in Hlt. by rewrite Hy in Hlt.
    + rewrite !filter_app, (filter_True _ (rootEnv c)) by apply rootEnv_not_injected.
      rewrite (filter_False _ (bindingEnv b)), app_nil_r; [done|].
      eapply Forall_impl; [apply (bindingEnv_injected b (knownSecrets b u));
        unfold knownSecrets; set_solver|]. cbn. congruence.
  - rewrite SliceStable_small by (rewrite length_app; cbn; specialize (Hm Ht); lia).
    rewrite filter_isort_keep.
    + rewrite filter_app, (filter_False _ [_]), app_nil_r; [done|].
      constructor; [|done]. cbn. unfold knownVolumes. set_solver.
    + intros y z Hlt Hy Hz. unfold lessMount in Hlt.
      replace (HasAll2 _ _ _) with false in Hlt; [done|]. symmetry. apply HasAll2_false. auto.
Qed.

(** The elements a container or a workload has that no binding injected. *)
Definition userEnv b u c : list CoreEnvVar :=
  filter (λ e, isInjectedEnv e (knownSecrets b u) = false) (Container_Env c).
Definition userMounts b u c : list VolumeMount :=
  filter (λ m, VolumeMount_Name m ∉ knownVolumes b u) (Container_VolumeMounts c).

(** Order: while no slice exceeds the twenty elements of an insertion sort
    block, [Do] keeps the variables and the mounts that no binding injected in
    their order (after the removal of the binding's old ones), with
    [SERVICE_BINDING_ROOT] at the end of the variables when it is missing. *)
Theorem Do_keeps_user_order b ps ps' :
  let u := Undo b ps in
  Small b u → Do b ps = Done ps' →
  Forall2 (λ c c', userEnv b u c' = userEnv b u c ++ (if isTarget b c then rootEnv c else []) ∧
                   userMounts b u c' = userMounts b u c)
    (allContainers u) (allContainers ps').
Proof.
  intros u [_ Hm He] Hdo. rewrite Do_inject in Hdo. injection Hdo as <-. fold u.
  unfold allContainers at 2, inject, InitContainers at 1, Containers at 1. cbn.
  rewrite <- map_app. fold (InitContainers u) (Containers u) (allContainers u).
  rewrite Forall_forall in Hm, He. clearbody u. revert Hm He.
  induction (allContainers u) as [|c cs IH]; intros Hm He; constructor.
  - apply bind_order; [apply He | apply Hm]; left.
  - apply IH; intros c' Hin; [apply Hm | apply He]; by right.
Qed.
End facts.

(** ** Status *)
Section status_facts.
Context `{ConditionManagerLaws}.

(** [MarkBindingUnavailable] makes the binding not ready: the conditions
    [WorkloadAvailable] and [Ready] are false with the message given and the
    reason given, in which knative's prefix [Subject] is renamed [Workload]; the
    rest of the status is kept.  The message must have no percent sign: the code passes it
    where a format is expected. *)
Theorem MarkBindingUnavailable_not_ready now reason msg bs :
  verbatim msg →
  let bs' := MarkBindingUnavailable now reason msg bs in
  ∃ reason', has_condition (SBPStatus_Status bs') ServiceBindingProjectionConditionWorkloadAvailable
      ConditionFalse reason' msg ∧
    has_condition (SBPStatus_Status bs') ServiceBindingProjectionConditionReady
      ConditionFalse reason' msg ∧
    Status_ObservedGeneration (SBPStatus_Status bs') =
      Status_ObservedGeneration (SBPStatus_Status bs) ∧
    Status_Annotations (SBPStatus_Status bs') = Status_Annotations (SBPStatus_Status bs) ∧
    (∀ t, reason = "Subject" +:+ t → reason' = "Workload" +:+ t) ∧
    (HasPrefix reason "Subject" = false → reason' = reason).
Proof.
  intros Hmsg. cbn zeta. unfold MarkBindingUnavailable, sbpCondSet. cbn [SBPStatus_Status].
  set (reason' := if HasPrefix reason "Subject" then _ else _). exists reason'.
  destruct (cm_frame [ServiceBindingProjectionConditionWorkloadAvailable] now
    ServiceBindingProjectionConditionWorkloadAvailable reason' msg (SBPStatus_Status bs) _
    (or_intror (or_intror eq_refl))) as [Hg Ha].
  split_and!; [by apply MarkFalse_false; [left|] | by apply MarkFalse_happy; [left|] | exact Hg | exact Ha | |].
  - intros t Ht. unfold reason'. by rewrite Ht, HasPrefix_app, ReplaceFirst_prefix.
  - intros Hp. unfold reason'. by rewrite Hp.
Qed.

(** [MarkBindingAvailable] makes the binding ready: [WorkloadAvailable] is
    its only dependent condition. *)
Theorem MarkBindingAvailable_ready now bs :
  is_true (SBPStatus_Status (MarkBindingAvailable now bs))
    ServiceBindingProjectionConditionWorkloadAvailable ∧
  is_true (SBPStatus_Status (MarkBindingAvailable now bs)) ServiceBindingProjectionConditionReady.
Proof.
  unfold MarkBindingAvailable, sbpCondSet. cbn [SBPStatus_Status]. split.
  - apply MarkTrue_true. by left.
  - apply MarkTrue_happy. intros d ->%list_elem_of_singleton. by left.
Qed.
End status_facts.

(** ** Limits, as counterexamples *)
Module Limits.
Import Sample.

(** A binding with two variables, on a container with eleven variables of its
    own around ten that another binding injected. *)
Definition b : ServiceBindingProjection :=
  binding "b" "s-b" "" "" [] [mkEnvVar "E07" "x"; mkEnvVar "E04" "y"].
Definition user (n : string) : CoreEnvVar := mkCoreEnvVar n "v" None.
Definition injected (n : string) : CoreEnvVar := secretKeyEnv n "s-other" "k".
Definition busy : Container :=
  mkContainer "c" (map user ["SERVICE_BINDING_ROOT"; "U01"; "U02"] ++
    map injected ["E00"; "E01"; "E02"; "E03"; "E05"; "E06"; "E08"; "E09"; "E10"; "E11"] ++
    map user ["U03"; "U04"; "U05"; "U06"; "U07"; "U08"; "U09"; "U10"]) [] "".
Definition crowded : WithPod :=
  mkWithPod (Meta_set_Annotations (newMeta "app" "default")
      (Some {[ ServiceBindingProjectionAnnotationKey +:+ "-0" := "s-other" ]}))
    (newMeta "" "") (mkPodSpec [] [] [busy] "") "".

(** A container whose [SERVICE_BINDING_ROOT] takes its value from a config map. *)
Definition indirect : Container :=
  mkContainer "c" [mkCoreEnvVar ServiceBindingRootEnv ""
    (Some (mkEnvVarSource None None "configMapKeyRef"))] [] "".
Definition indirectly : WithPod :=
  mkWithPod (newMeta "app" "default") (newMeta "" "") (mkPodSpec [] [] [indirect] "") "".

Definition envNames (ps : WithPod) : list string :=
  concat (map (λ c, map CoreEnvVar_Name (Container_Env c)) (Containers ps)).
End Limits.

(** ** Witnesses *)
#[local] Existing Instance string_opaque.

(** [Do] returns, so the sample workloads are what it returns. *)
Lemma Do_get b ps d : Do b ps = Done (Sample.get d (Do b ps)).
Proof. by rewrite Do_inject. Qed.

Lemma Do_idempotent_witness : Do Sample.b1 Sample.bound21 = Done Sample.bound21.
Proof.
  apply (Do_idempotent Sample.b1 Sample.bound2).
  - split; compute_decide.
  - split; compute_decide.
  - compute_decide.
  - apply Do_get.
Defined.

Lemma sample_pristine : Pristine Sample.b1 Sample.workload.
Proof.
  split; [split|].
  - exists ∅. split; reflexivity.
  - exists ∅. split_and!; reflexivity.
  - compute_decide.
  - compute_decide.
  - intros k _. reflexivity.
Qed.

Lemma Undo_Do_roundtrip_witness :
  Undo Sample.b1 Sample.bound1 = rooted Sample.b1 Sample.workload ∧
  Sample.bound1 ≠ Sample.workload.
Proof.
  split; [|compute_decide].
  apply (Undo_Do_roundtrip Sample.b1 Sample.workload Sample.bound1).
  - exact sample_pristine.
  - split; compute_decide.
  - split; compute_decide.
  - apply Do_get.
Defined.

Lemma Undo_idempotent_witness :
  Undo Sample.b1 (Undo Sample.b1 Sample.bound1) = Undo Sample.b1 Sample.bound1.
Proof. apply (Undo_idempotent Sample.b1 Sample.bound1). split; compute_decide. Defined.

Lemma Do_drops_recorded_secret_witness :
  ¬ Forall (λ v, projectsSecret {[ "my-secret" ]} v = false) (Volumes Sample.bound1) ∧
  (∀ v, v ∈ Volumes Sample.rotated → projectsSecret {[ "my-secret" ]} v = false).
Proof.
  split; [compute_decide|].
  apply (Do_drops_recorded_secret Sample.b1' Sample.bound1 Sample.rotated "my-secret");
    [compute_decide | compute_decide | apply Do_get].
Defined.

Lemma Do_isolated_witness :
  Forall2 (Keeps Sample.b1 Sample.bound2 (secretName Sample.b2))
    (Containers Sample.bound2) (Containers Sample.bound21).
Proof.
  apply (Do_isolated Sample.b1 Sample.b2 Sample.bound2 Sample.bound21);
    [compute_decide | compute_decide | apply Do_get].
Defined.

(** [b2] removes the variable [KIND] of [b1]. *)
Lemma Do_removes_foreign_field_variables_witness :
  let kind := fieldRefEnv "KIND" (annotationKey Sample.b1 +:+ "-type") in
  Exists (λ c, kind ∈ Container_Env c) (allContainers Sample.bound1) ∧
  ∀ c, c ∈ allContainers Sample.bound12 → kind ∉ Container_Env c.
Proof.
  split; [compute_decide|]. intros c.
  apply (Do_removes_foreign_field_variables Sample.b2 Sample.b1 Sample.bound1 Sample.bound12 c
    "KIND" "type"); [compute_decide | left; reflexivity | apply Do_get].
Defined.

Lemma Do_keeps_user_order_witness :
  Forall2 (λ c c',
      userEnv Sample.b1 (Undo Sample.b1 Sample.bound2) c' =
        userEnv Sample.b1 (Undo Sample.b1 Sample.bound2) c ++
        (if isTarget Sample.b1 c then rootEnv c else []) ∧
      userMounts Sample.b1 (Undo Sample.b1 Sample.bound2) c' =
        userMounts Sample.b1 (Undo Sample.b1 Sample.bound2) c)
    (allContainers (Undo Sample.b1 Sample.bound2)) (allContainers Sample.bound21).
Proof.
  apply (Do_keeps_user_order Sample.b1 Sample.bound2);
    [split; compute_decide | apply Do_get].
Defined.

Lemma MarkBindingUnavailable_not_ready_witness :
  let bs' := MarkBindingUnavailable 7%Z "SubjectMissing" "gone" (mkSBPStatus zeroStatus) in
  ∃ reason', has_condition (SBPStatus_Status bs') "WorkloadAvailable" ConditionFalse reason' "gone" ∧
    reason' = "WorkloadMissing".
Proof.
  destruct (MarkBindingUnavailable_not_ready 7%Z "SubjectMissing" "gone" (mkSBPStatus zeroStatus) eq_refl)
    as (reason' & Hc & _ & _ & _ & Hr & _).
  exists reason'. split; [exact Hc|]. apply (Hr "Missing"). reflexivity.
Defined.

(** Past twenty elements [Do] moves variables that no binding injected: the
    comparison it gives to the merge sort is not a weak order, and the variable
    [U10], last before, ends up before [U03]. *)
Theorem Do_reorders_user_variables :
  ∃ ps', Do Limits.b Limits.crowded = Done ps' ∧
  map (userEnv Limits.b Limits.crowded) (Containers ps') ≠
  map (userEnv Limits.b Limits.crowded) (Containers Limits.crowded) ∧
  ∃ before middle after, Limits.envNames ps' = before ++ "U10" :: middle ++ "U03" :: after.
Proof.
  exists (Sample.get Limits.crowded (Do Limits.b Limits.crowded)).
  split; [apply Do_get|]. split; [compute_decide|].
  exists ["SERVICE_BINDING_ROOT"; "U01"; "U02"; "E00"; "E01"; "E02"; "E03"; "E05"],
    ["E04"; "E06"; "E08"; "E09"; "E10"; "E11"], ["U04"; "U05"; "U06"; "U07"; "U08"; "U09"; "E07"].
  compute_decide.
Qed.

(** Idempotence needs a literal root: when [SERVICE_BINDING_ROOT] takes its
    value from elsewhere, every [Do] appends another [SERVICE_BINDING_ROOT]
    variable to the container, although the sizes and names are those idempotence asks for. *)
Theorem Do_appends_roots :
  Small Sample.b1 (Undo Sample.b1 Limits.indirectly) ∧
  Fresh Sample.b1 (Undo Sample.b1 Limits.indirectly) ∧
  ∃ ps1 ps2, Do Sample.b1 Limits.indirectly = Done ps1 ∧ Do Sample.b1 ps1 = Done ps2 ∧
    let roots ps := length (filter (λ n, n = ServiceBindingRootEnv) (Limits.envNames ps)) in
    roots Limits.indirectly = 1 ∧ roots ps1 = 2 ∧ roots ps2 = 3 ∧ roots (Undo Sample.b1 ps2) = 3.
Proof.
  split; [split; compute_decide|]. split; [split; compute_decide|].
  set (ps1 := Sample.get Limits.indirectly (Do Sample.b1 Limits.indirectly)).
  exists ps1, (Sample.get ps1 (Do Sample.b1 ps1)).
  split; [apply Do_get|]. split; [apply Do_get|]. split_and!; compute_decide.
Qed.
