(* ===== verification/Binding.v ===== *)
(** * [ServiceBinding]: data, defaults and status

    The types of [pkg/apis/servicebinding/v1alpha3/servicebinding_types.go] and
    the status methods of [servicebinding_lifecycle.go], which keep the three
    conditions of a binding as a slice: 0 is [Ready], 1 is [ServiceAvailable] and 2
    is [ProjectionReady].  The methods index that slice, and an index out of range
    panics, so they return an [outcome]. *)
From S2P Require Import Prelude Api Conditions Projection.

(** [metav1.Condition]: unlike [apis.Condition], with an observed generation and
    no severity. *)
Record MetaCondition := mkMetaCondition {
  MC_Type : string;
  MC_Status : string;
  MC_ObservedGeneration : Z;
  MC_LastTransitionTime : Time;
  MC_Reason : string;
  MC_Message : string;
}.

#[export] Instance MetaCondition_eq_dec : EqDecision MetaCondition.
Proof. solve_decision. Defined.

Record ServiceBindingSpec := mkSBSpec {
  SBSpec_Name : string;
  SBSpec_Type : string;
  SBSpec_Provider : string;
  SBSpec_Workload : option WorkloadReference;
  SBSpec_Service : option Reference;
  SBSpec_Env : list EnvVar;
}.

#[export] Instance ServiceBindingSpec_eq_dec : EqDecision ServiceBindingSpec.
Proof. solve_decision. Defined.

Record ServiceBindingStatus := mkSBStatus {
  SBStatus_ObservedGeneration : Z;
  SBStatus_Conditions : list MetaCondition;
  SBStatus_Binding : option LocalObjectReference;
}.

#[export] Instance ServiceBindingStatus_eq_dec : EqDecision ServiceBindingStatus.
Proof. solve_decision. Defined.

Record ServiceBinding `{Opaque} := mkSB {
  SB_Meta : ObjectMeta;
  SB_Spec : ServiceBindingSpec;
  SB_Status : ServiceBindingStatus;
}.

Arguments mkSB {_} _ _ _.

#[export] Instance ServiceBinding_eq_dec `{Opaque} : EqDecision ServiceBinding.
Proof. solve_decision. Defined.

Module SB.
Definition GroupName : string := "servicebinding.io".
Definition SchemeGroupVersion : GroupVersion := mkGroupVersion GroupName "v1alpha3".
Definition ServiceBindingAnnotationKey : string := GroupName +:+ "/service-binding".

Definition ServiceBindingConditionReady : string := "Ready".
Definition ServiceBindingConditionServiceAvailable : string := "ServiceAvailable".
Definition ServiceBindingConditionProjectionReady : string := "ProjectionReady".
Definition InitializeConditionReason : string := "Unknown".

Definition set_Conditions (bs : ServiceBindingStatus) (cs : list MetaCondition) : ServiceBindingStatus :=
  mkSBStatus (SBStatus_ObservedGeneration bs) cs (SBStatus_Binding bs).
Definition set_Binding (bs : ServiceBindingStatus) (r : option LocalObjectReference) : ServiceBindingStatus :=
  mkSBStatus (SBStatus_ObservedGeneration bs) (SBStatus_Conditions bs) r.
Definition set_ObservedGeneration (bs : ServiceBindingStatus) (g : Z) : ServiceBindingStatus :=
  mkSBStatus g (SBStatus_Conditions bs) (SBStatus_Binding bs).

Definition MC_set_Status (s : string) (c : MetaCondition) : MetaCondition :=
  mkMetaCondition (MC_Type c) s (MC_ObservedGeneration c) (MC_LastTransitionTime c)
    (MC_Reason c) (MC_Message c).
Definition MC_set_Time (t : Time) (c : MetaCondition) : MetaCondition :=
  mkMetaCondition (MC_Type c) (MC_Status c) (MC_ObservedGeneration c) t (MC_Reason c) (MC_Message c).
Definition MC_set_Reason (r : string) (c : MetaCondition) : MetaCondition :=
  mkMetaCondition (MC_Type c) (MC_Status c) (MC_ObservedGeneration c) (MC_LastTransitionTime c)
    r (MC_Message c).
Definition MC_set_Message (m : string) (c : MetaCondition) : MetaCondition :=
  mkMetaCondition (MC_Type c) (MC_Status c) (MC_ObservedGeneration c) (MC_LastTransitionTime c)
    (MC_Reason c) m.

Definition unknownCondition (now : Time) (t : string) : MetaCondition :=
  mkMetaCondition t ConditionUnknown 0 now InitializeConditionReason "".

Definition InitializeConditions (now : Time) (bs : ServiceBindingStatus) : ServiceBindingStatus :=
  let '(ready, serviceAvailable, projectionReady) :=
    foldl (λ '(ready, serviceAvailable, projectionReady) c,
      if bool_decide (MC_Type c = ServiceBindingConditionReady)
      then (c, serviceAvailable, projectionReady)
      else if bool_decide (MC_Type c = ServiceBindingConditionServiceAvailable)
      then (ready, c, projectionReady)
      else if bool_decide (MC_Type c = ServiceBindingConditionProjectionReady)
      then (ready, serviceAvailable, c)
      else (ready, serviceAvailable, projectionReady))
    (unknownCondition now ServiceBindingConditionReady,
     unknownCondition now ServiceBindingConditionServiceAvailable,
     unknownCondition now ServiceBindingConditionProjectionReady)
    (SBStatus_Conditions bs) in
  set_Conditions bs [ready; serviceAvailable; projectionReady].

(** [bs.Conditions[i]] *)
Definition cond (bs : ServiceBindingStatus) (i : nat) : outcome MetaCondition :=
  deref (SBStatus_Conditions bs !! i).

(** [bs.Conditions[i].F = x], where [f] sets field [F] to [x]. *)
Definition update (i : nat) (f : MetaCondition → MetaCondition) (bs : ServiceBindingStatus)
    : outcome ServiceBindingStatus :=
  obind (cond bs i) (λ c,
  obind (list_set (SBStatus_Conditions bs) i (f c)) (λ cs, Done (set_Conditions bs cs))).

(** The guarded assignment [if bs.Conditions[i].Status != s { ....LastTransitionTime = now }]. *)
Definition touch (i : nat) (s : string) (now : Time) (bs : ServiceBindingStatus)
    : outcome ServiceBindingStatus :=
  obind (cond bs i) (λ c,
  if negb (bool_decide (MC_Status c = s)) then update i (MC_set_Time now) bs else Done bs).

Local Open Scope go_scope.

(** The three assignments of each branch of [aggregateReadyCondition]. *)
Definition setReady (status reason message : string) (bs : ServiceBindingStatus)
    : outcome ServiceBindingStatus :=
  let! bs := update 0 (MC_set_Status status) bs in
  let! bs := update 0 (MC_set_Reason reason) bs in
  update 0 (MC_set_Message message) bs.

(** [bs.Conditions[i].Status == s] *)
Definition statusIs (bs : ServiceBindingStatus) (i : nat) (s : string) : outcome bool :=
  let! c := cond bs i in Done (bool_decide (MC_Status c = s)).

Definition aggregateReadyCondition (now : Time) (bs : ServiceBindingStatus)
    : outcome ServiceBindingStatus :=
  let! ready := cond bs 0 in
  let currentStatus := MC_Status ready in
  let! service_true := statusIs bs 1 ConditionTrue in
  let! both_true := if service_true : bool then statusIs bs 2 ConditionTrue else Done false in
  let! bs :=
    if both_true : bool then setReady ConditionTrue "Ready" "" bs
    else
      let! s := cond bs 1 in
      if bool_decide (MC_Status s = ConditionFalse) then
        setReady ConditionFalse (ServiceBindingConditionServiceAvailable +:+ MC_Reason s) (MC_Message s) bs
      else
        let! p := cond bs 2 in
        if bool_decide (MC_Status p = ConditionFalse) then
          setReady ConditionFalse (ServiceBindingConditionProjectionReady +:+ MC_Reason p) (MC_Message p) bs
        else if bool_decide (MC_Status s = ConditionUnknown) then
          setReady ConditionUnknown (ServiceBindingConditionServiceAvailable +:+ MC_Reason s) (MC_Message s) bs
        else if bool_decide (MC_Status p = ConditionUnknown) then
          setReady ConditionUnknown (ServiceBindingConditionProjectionReady +:+ MC_Reason p) (MC_Message p) bs
        else Done bs in
  let! ready := cond bs 0 in
  if negb (bool_decide (MC_Status ready = currentStatus))
  then update 0 (MC_set_Time now) bs else Done bs.

Definition MarkServiceAvailable (now : Time) (bs : ServiceBindingStatus)
    : outcome ServiceBindingStatus :=
  let! bs := touch 1 ConditionTrue now bs in
  let! bs := update 1 (MC_set_Status ConditionTrue) bs in
  let! bs := update 1 (MC_set_Reason "Available") bs in
  let! bs := update 1 (MC_set_Message "") bs in
  aggregateReadyCondition now bs.

Definition MarkServiceUnavailable (reason message : string) (now : Time) (bs : ServiceBindingStatus)
    : outcome ServiceBindingStatus :=
  let! bs := touch 1 ConditionFalse now bs in
  let! bs := update 1 (MC_set_Status ConditionFalse) bs in
  let! bs := update 1 (MC_set_Reason reason) bs in
  let! bs := update 1 (MC_set_Message message) bs in
  aggregateReadyCondition now bs.

Section propagate.
Context `{Opaque, ConditionManager}.

Definition PropagateServiceBindingProjectionStatus (bp : option ServiceBindingProjection)
    (now : Time) (bs : ServiceBindingStatus) : outcome ServiceBindingStatus :=
  match bp with
  | None => Done bs
  | Some bp =>
      let sbpready := default zeroCondition
        (GetCondition (SBPStatus_Status (SBP_Status bp)) ServiceBindingProjectionConditionReady) in
      let newStatus :=
        if bool_decide (Condition_Status sbpready = "") then ConditionUnknown
        else Condition_Status sbpready in
      let! bs := touch 2 newStatus now bs in
      let! bs := update 2 (MC_set_Status newStatus) bs in
      let! bs :=
        if negb (bool_decide (Condition_Reason sbpready = ""))
        then update 2 (MC_set_Reason (Condition_Reason sbpready)) bs
        else
          let! projected := statusIs bs 2 ConditionTrue in
          if projected : bool then update 2 (MC_set_Reason "Projected") bs
          else update 2 (MC_set_Reason "Unknown") bs in
      let! bs := update 2 (MC_set_Message (Condition_Message sbpready)) bs in
      aggregateReadyCondition now bs
  end.

(** Required by knative, not used. *)
Definition GetStatus (b : ServiceBinding) : duckStatus := zeroStatus.
Definition GetConditionSet (b : ServiceBinding) : ConditionSet := NewLivingConditionSet [].

Definition SetDefaults (b : ServiceBinding) : ServiceBinding :=
  if bool_decide (SBSpec_Name (SB_Spec b) = "") then
    mkSB (SB_Meta b)
      (mkSBSpec (Meta_Name (SB_Meta b)) (SBSpec_Type (SB_Spec b)) (SBSpec_Provider (SB_Spec b))
        (SBSpec_Workload (SB_Spec b)) (SBSpec_Service (SB_Spec b)) (SBSpec_Env (SB_Spec b)))
      (SB_Status b)
  else b.

Definition GetGroupVersionKind (b : ServiceBinding) : GroupVersionKind :=
  WithKind SchemeGroupVersion "ServiceBinding".
End propagate.
End SB.
