(* ===== verification/BindingFacts.v ===== *)
(** * The conditions of a [ServiceBinding]

    The status methods of [Binding] in closed form on a well-formed slice of
    conditions, the states they reach from [InitializeConditions] as an inductive
    relation, and their invariant. *)
From S2P Require Import Prelude Api Conditions Projection Binding.

Section conditions.
Context `{Opaque, ConditionManager}.
Implicit Types (bs : ServiceBindingStatus) (c r s p : MetaCondition) (now : Time).

(** ** Closed forms *)

(** What [Ready] says, given [ServiceAvailable] and [ProjectionReady]: status,
    reason and message. *)
Definition summary s p : option (string * string * string) :=
  if decide (MC_Status s = ConditionTrue ∧ MC_Status p = ConditionTrue)
  then Some (ConditionTrue, "Ready", "")
  else if decide (MC_Status s = ConditionFalse)
  then Some (ConditionFalse, "ServiceAvailable" +:+ MC_Reason s, MC_Message s)
  else if decide (MC_Status p = ConditionFalse)
  then Some (ConditionFalse, "ProjectionReady" +:+ MC_Reason p, MC_Message p)
  else if decide (MC_Status s = ConditionUnknown)
  then Some (ConditionUnknown, "ServiceAvailable" +:+ MC_Reason s, MC_Message s)
  else if decide (MC_Status p = ConditionUnknown)
  then Some (ConditionUnknown, "ProjectionReady" +:+ MC_Reason p, MC_Message p)
  else None.

(** A condition given a new status, reason and message: its transition time
    moves when its status does. *)
Definition mark now (v : string * string * string) c : MetaCondition :=
  mkMetaCondition (MC_Type c) v.1.1 (MC_ObservedGeneration c)
    (if decide (v.1.1 = MC_Status c) then MC_LastTransitionTime c else now) v.1.2 v.2.

Definition markReady now s p r : MetaCondition :=
  match summary s p with Some v => mark now v r | None => r end.

Definition conds3 bs r s p : Prop := SBStatus_Conditions bs = [r; s; p].

Lemma set_Conditions_id bs cs : SBStatus_Conditions bs = cs → SB.set_Conditions bs cs = bs.
Proof. destruct bs. cbn. by intros <-. Qed.

Lemma cond_eq bs cs i c : SBStatus_Conditions bs = cs → cs !! i = Some c → SB.cond bs i = Done c.
Proof. intros Hcs Hi. unfold SB.cond. by rewrite Hcs, Hi. Qed.

Lemma update_eq bs cs i c f :
  SBStatus_Conditions bs = cs → cs !! i = Some c →
  SB.update i f bs = Done (SB.set_Conditions bs (<[i := f c]> cs)).
Proof.
  intros Hcs Hi. unfold SB.update. rewrite (cond_eq _ _ _ _ Hcs Hi). cbn. unfold list_set.
  rewrite decide_True; [by rewrite Hcs|]. rewrite Hcs. by eapply lookup_lt_Some.
Qed.

Lemma setReady_eq bs r s p st re ms :
  conds3 bs r s p →
  SB.setReady st re ms bs =
  Done (SB.set_Conditions bs
    [mkMetaCondition (MC_Type r) st (MC_ObservedGeneration r) (MC_LastTransitionTime r) re ms; s; p]).
Proof.
  intros Hc. unfold SB.setReady. rewrite (update_eq bs _ 0 r _ Hc eq_refl). cbn [obind].
  erewrite (update_eq _ _ 0) by reflexivity. cbn [obind]. by erewrite (update_eq _ _ 0) by reflexivity.
Qed.

(** The last statement of [aggregateReadyCondition]. *)
Lemma transition_eq now bs r s p st v :
  obind (SB.cond (SB.set_Conditions bs
      [mkMetaCondition (MC_Type r) v.1.1 (MC_ObservedGeneration r) (MC_LastTransitionTime r) v.1.2 v.2; s; p]) 0)
    (λ ready, if negb (bool_decide (MC_Status ready = st))
      then SB.update 0 (SB.MC_set_Time now) (SB.set_Conditions bs
        [mkMetaCondition (MC_Type r) v.1.1 (MC_ObservedGeneration r) (MC_LastTransitionTime r) v.1.2 v.2; s; p])
      else Done (SB.set_Conditions bs
        [mkMetaCondition (MC_Type r) v.1.1 (MC_ObservedGeneration r) (MC_LastTransitionTime r) v.1.2 v.2; s; p])) =
  Done (SB.set_Conditions bs
    [mkMetaCondition (MC_Type r) v.1.1 (MC_ObservedGeneration r)
      (if decide (v.1.1 = st) then MC_LastTransitionTime r else now) v.1.2 v.2; s; p]).
Proof. cbn. by case_decide; case_bool_decide. Qed.

Lemma aggregate_eq now bs r s p :
  conds3 bs r s p →
  SB.aggregateReadyCondition now bs = Done (SB.set_Conditions bs [markReady now s p r; s; p]).
Proof.
  intros Hc. unfold SB.aggregateReadyCondition, SB.statusIs.
  rewrite !(cond_eq bs _ 0 r Hc eq_refl), !(cond_eq bs _ 1 s Hc eq_refl),
    !(cond_eq bs _ 2 p Hc eq_refl). cbn [obind].
  assert (∀ st re ms, SB.setReady st re ms bs = Done (SB.set_Conditions bs
    [mkMetaCondition (MC_Type r) st (MC_ObservedGeneration r) (MC_LastTransitionTime r) re ms; s; p]))
    as Hset by (intros; by apply setReady_eq).
  assert (∀ b : bool, b = bool_decide (MC_Status s = ConditionTrue ∧ MC_Status p = ConditionTrue) →
    (if bool_decide (MC_Status s = ConditionTrue) then Done (bool_decide (MC_Status p = ConditionTrue))
     else Done false) = Done b) as Hboth.
  { intros b ->. rewrite bool_decide_and. by destruct (bool_decide (MC_Status s = _)). }
  rewrite (Hboth _ eq_refl). cbn [obind]. clear Hboth. unfold markReady, summary.
  repeat case_bool_decide; case_decide; try done; repeat (rewrite decide_False by done);
    rewrite ?decide_True by done; rewrite ?Hset; cbn [obind];
    try (by apply (transition_eq now bs r s p (MC_Status r) (_, _, _))).
  all: repeat case_decide; try done.
  cbn [obind]. rewrite (cond_eq bs _ 0 r Hc eq_refl). cbn [obind].
  by rewrite bool_decide_eq_true_2, set_Conditions_id.
Qed.

(** The four assignments of a mark; the reason may depend on the new status. *)
Lemma mark_eq i now st re ms bs cs c
    (reason k : ServiceBindingStatus → outcome ServiceBindingStatus) :
  SBStatus_Conditions bs = cs → cs !! i = Some c →
  (∀ bs' c', SBStatus_Conditions bs' !! i = Some c' → MC_Status c' = st →
    reason bs' = SB.update i (SB.MC_set_Reason re) bs') →
  obind (SB.touch i st now bs) (λ bs,
  obind (SB.update i (SB.MC_set_Status st) bs) (λ bs,
  obind (reason bs) (λ bs, obind (SB.update i (SB.MC_set_Message ms) bs) k))) =
  k (SB.set_Conditions bs (<[i := mark now (st, re, ms) c]> cs)).
Proof.
  intros Hcs Hi Hre. pose proof (lookup_lt_Some _ _ _ Hi) as Hlt.
  assert (SB.touch i st now bs = Done (SB.set_Conditions bs
    (<[i := if decide (st = MC_Status c) then c else SB.MC_set_Time now c]> cs))) as ->.
  { unfold SB.touch. rewrite (cond_eq _ _ _ _ Hcs Hi). cbn.
    rewrite (bool_decide_ext _ (st = MC_Status c)) by done.
    case_bool_decide; cbn; [rewrite decide_True by done | rewrite decide_False by done].
    - by rewrite list_insert_id, set_Conditions_id.
    - by apply update_eq. }
  cbn [obind]. erewrite (update_eq _ _ i); [|reflexivity|by apply list_lookup_insert_eq].
  cbn [obind]. erewrite Hre; [|apply list_lookup_insert_eq; cbn; by rewrite length_insert|done].
  erewrite (update_eq _ _ i); [|reflexivity|apply list_lookup_insert_eq; cbn; by rewrite length_insert].
  cbn [obind]. erewrite (update_eq _ _ i);
    [|reflexivity|apply list_lookup_insert_eq; cbn; by rewrite !length_insert].
  cbn [obind SBStatus_Conditions SB.set_Conditions].
  rewrite !list_insert_insert_eq. unfold mark. cbn. by case_decide.
Qed.

Lemma MarkServiceAvailable_eq now bs r s p :
  conds3 bs r s p →
  SB.MarkServiceAvailable now bs =
  let s' := mark now (ConditionTrue, "Available", "") s in
  Done (SB.set_Conditions bs [markReady now s' p r; s'; p]).
Proof.
  intros Hc. unfold SB.MarkServiceAvailable.
  rewrite (mark_eq 1 now _ "Available" "" bs _ s _ _ Hc) by done. by erewrite aggregate_eq by reflexivity.
Qed.

Lemma MarkServiceUnavailable_eq reason msg now bs r s p :
  conds3 bs r s p →
  SB.MarkServiceUnavailable reason msg now bs =
  let s' := mark now (ConditionFalse, reason, msg) s in
  Done (SB.set_Conditions bs [markReady now s' p r; s'; p]).
Proof.
  intros Hc. unfold SB.MarkServiceUnavailable.
  rewrite (mark_eq 1 now _ reason msg bs _ s _ _ Hc) by done. by erewrite aggregate_eq by reflexivity.
Qed.

(** What a projection's [Ready] condition says of [ProjectionReady]. *)
Definition projected (bp : ServiceBindingProjection) : string * string * string :=
  let c := default zeroCondition
    (GetCondition (SBPStatus_Status (SBP_Status bp)) ServiceBindingProjectionConditionReady) in
  let status := if decide (Condition_Status c = "") then ConditionUnknown else Condition_Status c in
  let reason := if decide (Condition_Reason c = "")
    then if decide (status = ConditionTrue) then "Projected" else "Unknown"
    else Condition_Reason c in
  (status, reason, Condition_Message c).

Lemma Propagate_eq bp now bs r s p :
  conds3 bs r s p →
  SB.PropagateServiceBindingProjectionStatus (Some bp) now bs =
  let p' := mark now (projected bp) p in
  Done (SB.set_Conditions bs [markReady now s p' r; s; p']).
Proof.
  intros Hc. unfold SB.PropagateServiceBindingProjectionStatus, projected.
  set (c := default zeroCondition _). clearbody c.
  set (st := if bool_decide (Condition_Status c = "") then ConditionUnknown else Condition_Status c).
  assert (st = if decide (Condition_Status c = "") then ConditionUnknown else Condition_Status c) as <-
    by (unfold st; case_bool_decide; by case_decide).
  set (re := if decide (Condition_Reason c = "") then _ else _).
  rewrite (mark_eq 2 now st re (Condition_Message c) bs _ p _ _ Hc eq_refl); [by erewrite aggregate_eq by reflexivity|].
  intros bs' c' Hl Hst. unfold re, SB.statusIs, SB.cond. rewrite Hl. cbn. rewrite Hst.
  repeat case_bool_decide; cbn; repeat case_decide; done.
Qed.

(** ** Operations and reachable states *)
Inductive op : Type :=
| OpInitialize
| OpAvailable
| OpUnavailable (reason message : string)
| OpPropagate (bp : ServiceBindingProjection).

Definition run (o : op) now bs : outcome ServiceBindingStatus :=
  match o with
  | OpInitialize => Done (SB.InitializeConditions now bs)
  | OpAvailable => SB.MarkServiceAvailable now bs
  | OpUnavailable reason message => SB.MarkServiceUnavailable reason message now bs
  | OpPropagate bp => SB.PropagateServiceBindingProjectionStatus (Some bp) now bs
  end.

Definition valid_status (st : string) : Prop :=
  st = ConditionTrue ∨ st = ConditionFalse ∨ st = ConditionUnknown.

Definition op_valid (o : op) : Prop :=
  match o with OpPropagate bp => valid_status (projected bp).1.1 | _ => True end.

(** The statuses a binding goes through: initialized, from any valid stored
    status, then changed by the operations at any instants. *)
Inductive reachable : ServiceBindingStatus → Prop :=
| reach_init now bs :
    Forall (λ c, valid_status (MC_Status c)) (SBStatus_Conditions bs) →
    reachable (SB.InitializeConditions now bs)
| reach_op o now bs bs' :
    reachable bs → op_valid o → run o now bs = Done bs' → reachable bs'.

(** ... and with at least one mark since the first initialization. *)
Inductive settled : ServiceBindingStatus → Prop :=
| settle_op o now bs bs' :
    reachable bs → op_valid o → o ≠ OpInitialize → run o now bs = Done bs' → settled bs'
| settle_more o now bs bs' :
    settled bs → op_valid o → run o now bs = Done bs' → settled bs'.

(** ** The invariant *)
Record WF bs r s p : Prop := {
  wf_conds : conds3 bs r s p;
  wf_types : MC_Type r = "Ready" ∧ MC_Type s = "ServiceAvailable" ∧ MC_Type p = "ProjectionReady";
  wf_status : valid_status (MC_Status r) ∧ valid_status (MC_Status s) ∧ valid_status (MC_Status p);
}.

Lemma Initialize_WF now bs :
  Forall (λ c, valid_status (MC_Status c)) (SBStatus_Conditions bs) →
  ∃ r s p, WF (SB.InitializeConditions now bs) r s p.
Proof.
  unfold SB.InitializeConditions. set (f := λ '(_, _, _), _).
  intros Hv.
  assert (∀ cs acc, Forall (λ c, valid_status (MC_Status c)) cs →
    (let '(r, s, p) := acc in WF (SB.set_Conditions bs [r; s; p]) r s p) →
    let '(r, s, p) := foldl f acc cs in WF (SB.set_Conditions bs [r; s; p]) r s p) as Hfold.
  { clear Hv. induction cs as [|c cs IH]; intros [[r s] p] Hcs Hwf; [done|].
    inversion_clear Hcs. cbn. apply IH; [done|].
    destruct Hwf as [_ (? & ? & ?) (? & ? & ?)]. unfold f.
    repeat case_bool_decide; by split. }
  specialize (Hfold (SBStatus_Conditions bs) (SB.unknownCondition now "Ready",
    SB.unknownCondition now "ServiceAvailable", SB.unknownCondition now "ProjectionReady") Hv).
  unfold SB.ServiceBindingConditionReady, SB.ServiceBindingConditionServiceAvailable,
    SB.ServiceBindingConditionProjectionReady in *.
  destruct (foldl f _ _) as [[r s] p]. exists r, s, p. apply Hfold.
  split; [done|done|]. unfold valid_status. cbn. auto.
Qed.

Definition lastOfType (d : MetaCondition) (t : string) (cs : list MetaCondition) : MetaCondition :=
  default d (last (filter (λ c, MC_Type c = t) cs)).

Lemma lastOfType_cons d t c cs :
  lastOfType d t (c :: cs) = lastOfType (if decide (MC_Type c = t) then c else d) t cs.
Proof.
  unfold lastOfType. rewrite filter_cons. case_decide; [|done].
  rewrite last_cons. by destruct (last _).
Qed.

Lemma lastOfType_Type d t cs : MC_Type d = t → MC_Type (lastOfType d t cs) = t.
Proof.
  revert d. induction cs as [|c cs IH]; intros d Hd; [done|].
  rewrite lastOfType_cons. apply IH. by case_decide.
Qed.

Lemma foldl_lastOfType cs r s p :
  foldl (λ '(ready, serviceAvailable, projectionReady) c,
      if bool_decide (MC_Type c = SB.ServiceBindingConditionReady)
      then (c, serviceAvailable, projectionReady)
      else if bool_decide (MC_Type c = SB.ServiceBindingConditionServiceAvailable)
      then (ready, c, projectionReady)
      else if bool_decide (MC_Type c = SB.ServiceBindingConditionProjectionReady)
      then (ready, serviceAvailable, c)
      else (ready, serviceAvailable, projectionReady)) (r, s, p) cs =
  (lastOfType r "Ready" cs, lastOfType s "ServiceAvailable" cs, lastOfType p "ProjectionReady" cs).
Proof.
  revert r s p. induction cs as [|c cs IH]; intros r s p; [done|]. cbn [foldl].
  rewrite !lastOfType_cons. unfold SB.ServiceBindingConditionReady,
    SB.ServiceBindingConditionServiceAvailable, SB.ServiceBindingConditionProjectionReady in *.
  repeat case_bool_decide; rewrite IH; repeat case_decide; congruence.
Qed.

Lemma lastOfType_three d1 d2 d3 r s p :
  MC_Type r = "Ready" ∧ MC_Type s = "ServiceAvailable" ∧ MC_Type p = "ProjectionReady" →
  lastOfType d1 "Ready" [r; s; p] = r ∧ lastOfType d2 "ServiceAvailable" [r; s; p] = s ∧
  lastOfType d3 "ProjectionReady" [r; s; p] = p.
Proof.
  intros (Hr & Hs & Hp). rewrite !lastOfType_cons, Hr, Hs, Hp. done.
Qed.

Definition says c (v : string * string * string) : Prop :=
  MC_Status c = v.1.1 ∧ MC_Reason c = v.1.2 ∧ MC_Message c = v.2.

Lemma mark_says now v c : says (mark now v c) v.
Proof. done. Qed.

Lemma summary_valid s p :
  valid_status (MC_Status s) → valid_status (MC_Status p) →
  ∃ v, summary s p = Some v ∧ valid_status v.1.1 ∧
    (v.1.1 = ConditionTrue ↔ MC_Status s = ConditionTrue ∧ MC_Status p = ConditionTrue).
Proof.
  unfold summary, valid_status. intros Hs Hp.
  destruct Hs as [-> | [-> | ->]], Hp as [-> | [-> | ->]];
    eexists; (split; [vm_compute; reflexivity|]); cbn; split_and!; auto; by intuition.
Qed.

Lemma markReady_WF now bs r s p :
  MC_Type r = "Ready" ∧ MC_Type s = "ServiceAvailable" ∧ MC_Type p = "ProjectionReady" →
  valid_status (MC_Status s) → valid_status (MC_Status p) →
  ∃ v, summary s p = Some v ∧ says (markReady now s p r) v ∧
    WF (SB.set_Conditions bs [markReady now s p r; s; p]) (markReady now s p r) s p.
Proof.
  intros (Hr & Hs & Hp) Hvs Hvp. destruct (summary_valid _ _ Hvs Hvp) as (v & Hv & Hvv & _).
  exists v. unfold markReady. rewrite Hv. by split_and!.
Qed.

Lemma Initialize_WF_id now bs r s p : WF bs r s p → SB.InitializeConditions now bs = bs.
Proof.
  intros [Hc Ht _]. unfold SB.InitializeConditions. rewrite foldl_lastOfType, Hc.
  edestruct (lastOfType_three) as (-> & -> & ->); [exact Ht|]. by apply set_Conditions_id.
Qed.

Lemma run_WF o now bs r s p :
  WF bs r s p → op_valid o →
  ∃ bs' r' s' p', run o now bs = Done bs' ∧ WF bs' r' s' p' ∧
    match o with
    | OpInitialize => bs' = bs ∧ r' = r ∧ s' = s ∧ p' = p
    | OpAvailable => s' = mark now (ConditionTrue, "Available", "") s ∧ p' = p
    | OpUnavailable reason message => s' = mark now (ConditionFalse, reason, message) s ∧ p' = p
    | OpPropagate bp => s' = s ∧ p' = mark now (projected bp) p
    end ∧
    (o ≠ OpInitialize → r' = markReady now s' p' r ∧ ∃ v, summary s' p' = Some v ∧ says r' v).
Proof.
  intros Hwf Hop. pose proof Hwf as [Hc Ht (_ & Hvs & Hvp)].
  destruct o as [| |reason message|bp]; cbn [run].
  - exists bs, r, s, p. rewrite (Initialize_WF_id _ _ _ _ _ Hwf). by split_and!.
  - rewrite (MarkServiceAvailable_eq _ _ _ _ _ Hc). cbn zeta.
    edestruct (markReady_WF now bs r (mark now (ConditionTrue, "Available", "") s) p)
      as (v & Hv & Hsay & Hwf'); [done|unfold valid_status; cbn; auto|done|].
    do 4 eexists. split_and!; try done. eauto.
  - rewrite (MarkServiceUnavailable_eq _ _ _ _ _ _ _ Hc). cbn zeta.
    edestruct (markReady_WF now bs r (mark now (ConditionFalse, reason, message) s) p)
      as (v & Hv & Hsay & Hwf'); [done|unfold valid_status; cbn; auto|done|].
    do 4 eexists. split_and!; try done. eauto.
  - rewrite (Propagate_eq _ _ _ _ _ _ Hc). cbn zeta.
    edestruct (markReady_WF now bs r s (mark now (projected bp) p))
      as (v & Hv & Hsay & Hwf'); [done|done|done|].
    do 4 eexists. split_and!; try done. eauto.
Qed.

Lemma reachable_WF bs : reachable bs → ∃ r s p, WF bs r s p.
Proof.
  induction 1 as [now bs Hv|o now bs bs' _ (r & s & p & Hwf) Hop Hrun].
  - by apply Initialize_WF.
  - destruct (run_WF o now _ _ _ _ Hwf Hop) as (bs'' & r' & s' & p' & Hrun' & Hwf' & _).
    rewrite Hrun in Hrun'. injection Hrun' as ->. eauto.
Qed.

Lemma settled_reachable bs : settled bs → reachable bs.
Proof. induction 1; eauto using reachable. Qed.

(** ** Properties *)

(** C18: once its conditions are initialized, no status method of a binding
    panics, whatever the sequence of methods before it, and the slice stays well
    formed: [Ready], [ServiceAvailable] and [ProjectionReady] in this order, each
    [True], [False] or [Unknown]. *)
Theorem reachable_safe bs :
  reachable bs →
  (∃ r s p, WF bs r s p) ∧ ∀ o now, op_valid o → ∃ bs', run o now bs = Done bs' ∧ reachable bs'.
Proof.
  intros Hr. destruct (reachable_WF _ Hr) as (r & s & p & Hwf). split; [eauto|].
  intros o now Hop. destruct (run_WF o now _ _ _ _ Hwf Hop) as (bs' & _ & _ & _ & Hrun & _).
  eauto using reachable.
Qed.

(** C17: after any marks, [Ready] is true exactly when [ServiceAvailable] and
    [ProjectionReady] both are, and its status, reason and message are those of
    the condition that [summary] picks. *)
Theorem settled_ready bs :
  settled bs →
  ∃ r s p, conds3 bs r s p ∧
    (MC_Status r = ConditionTrue ↔ MC_Status s = ConditionTrue ∧ MC_Status p = ConditionTrue) ∧
    ∃ v, summary s p = Some v ∧ says r v.
Proof.
  intros Hs. assert (∃ r s p, WF bs r s p ∧ ∃ v, summary s p = Some v ∧ says r v)
    as (r & s & p & Hwf & v & Hv & Hsay).
  { induction Hs as [o now bs bs' Hr Hop Hne Hrun|o now bs bs' _ IH Hop Hrun].
    - destruct (reachable_WF _ Hr) as (r & s & p & Hwf).
      destruct (run_WF o now _ _ _ _ Hwf Hop) as (bs'' & r' & s' & p' & Hrun' & Hwf' & _ & Hv).
      rewrite Hrun in Hrun'. injection Hrun' as ->. destruct (Hv Hne) as [_ ?]. eauto.
    - destruct IH as (r & s & p & Hwf & v & Hv & Hsay).
      destruct (run_WF o now _ _ _ _ Hwf Hop) as (bs'' & r' & s' & p' & Hrun' & Hwf' & He & Hnew).
      rewrite Hrun in Hrun'. injection Hrun' as ->.
      destruct o; [destruct He as (-> & -> & -> & ->); eauto 10|..];
        (destruct Hnew as [_ ?]; [done|]; eauto). }
  destruct Hwf as [Hc _ (_ & Hvs & Hvp)].
  destruct (summary_valid _ _ Hvs Hvp) as (v' & Hv' & _ & Hiff).
  assert (v = v') as <- by congruence.
  exists r, s, p. split_and!; [done|by destruct Hsay as [-> _]|eauto].
Qed.

(** C36: transition times: an operation at [now] sets a condition's
    [LastTransitionTime] to [now] exactly when it changes the condition's status,
    and never changes its type. *)
Theorem transition_times bs o now bs' i c c' :
  reachable bs → op_valid o → run o now bs = Done bs' →
  SBStatus_Conditions bs !! i = Some c → SBStatus_Conditions bs' !! i = Some c' →
  MC_Type c' = MC_Type c ∧
  MC_LastTransitionTime c' =
    (if decide (MC_Status c' = MC_Status c) then MC_LastTransitionTime c else now).
Proof.
  intros Hr Hop Hrun. destruct (reachable_WF _ Hr) as (r & s & p & Hwf).
  destruct (run_WF o now _ _ _ _ Hwf Hop) as (bs'' & r' & s' & p' & Hrun' & Hwf' & He & Hnew).
  rewrite Hrun in Hrun'. injection Hrun' as <-.
  rewrite (wf_conds _ _ _ _ Hwf), (wf_conds _ _ _ _ Hwf').
  assert (∀ c, MC_Type c = MC_Type c ∧ MC_LastTransitionTime c =
    if decide (MC_Status c = MC_Status c) then MC_LastTransitionTime c else now) as Hid
    by (intros; by case_decide).
  assert (o = OpInitialize ∨ r' = markReady now s' p' r) as Hr'
    by (destruct o; [by left|right; by apply Hnew..]).
  destruct i as [|[|[|i]]]; cbn; intros [= <-] [= <-]; [|destruct o; naive_solver..].
  destruct Hr' as [->| ->]; [destruct He as (_ & -> & _); apply Hid|].
  unfold markReady. destruct (summary s' p'); [done|apply Hid].
Qed.

(** [InitializeConditions] keeps, of each of the three types, the last
    condition stored, adds the missing ones as unknown since [now], drops every
    other condition, and is idempotent. *)
Theorem InitializeConditions_normalizes now bs :
  let last t := lastOfType (SB.unknownCondition now t) t (SBStatus_Conditions bs) in
  SBStatus_Conditions (SB.InitializeConditions now bs) =
    [last "Ready"; last "ServiceAvailable"; last "ProjectionReady"] ∧
  ∀ now', SB.InitializeConditions now' (SB.InitializeConditions now bs) =
          SB.InitializeConditions now bs.
Proof.
  cbn zeta. split.
  - unfold SB.InitializeConditions. by rewrite foldl_lastOfType.
  - intros now'. unfold SB.InitializeConditions. rewrite !foldl_lastOfType.
    cbn [SBStatus_Conditions SB.set_Conditions].
    edestruct (lastOfType_three) as (-> & -> & ->); [|done].
    by split_and!; apply lastOfType_Type.
Qed.

(** [PropagateServiceBindingProjectionStatus]: without a projection nothing
    changes; otherwise [ProjectionReady] takes the projection's [Ready] status
    ([Unknown] when there is none), message and reason ([Projected] or [Unknown]
    when it gives none), and [ServiceAvailable] is left alone. *)
Theorem Propagate_effect bs bp now :
  reachable bs →
  SB.PropagateServiceBindingProjectionStatus None now bs = Done bs ∧
  ∃ r s p bs' r' p', conds3 bs r s p ∧
    SB.PropagateServiceBindingProjectionStatus (Some bp) now bs = Done bs' ∧
    conds3 bs' r' s p' ∧ says p' (projected bp).
Proof.
  intros Hr. destruct (reachable_WF _ Hr) as (r & s & p & [Hc _ _]). split; [done|].
  rewrite (Propagate_eq _ _ _ _ _ _ Hc). do 6 eexists. by split_and!.
Qed.
End conditions.

(** ** Witnesses *)
#[local] Existing Instance string_opaque.

Definition empty_status : ServiceBindingStatus := mkSBStatus 0 [] None.
Definition sample_status : ServiceBindingStatus := SB.InitializeConditions 10%Z empty_status.
Definition sample_available : ServiceBindingStatus :=
  match SB.MarkServiceAvailable 20%Z sample_status with Done bs => bs | Panic => empty_status end.
(** A projection that knative has marked ready. *)
Definition ready_projection : ServiceBindingProjection :=
  mkSBP (newMeta "b" "default")
    (mkSBPSpec "b" "" "" (mkLocalObjectReference "s")
      (mkWorkloadReference (mkReference "" "" "" "" None) []) [])
    (mkSBPStatus (put 15%Z "Ready" ConditionTrue "" "" zeroStatus)).
Definition sample_ready : ServiceBindingStatus :=
  match SB.PropagateServiceBindingProjectionStatus (Some ready_projection) 30%Z sample_available with
  | Done bs => bs | Panic => empty_status end.

Lemma sample_reachable : reachable sample_status.
Proof. apply reach_init. constructor. Qed.

Lemma sample_settled : settled sample_ready.
Proof.
  apply (settle_more (OpPropagate ready_projection) 30%Z sample_available);
    [|left; reflexivity|reflexivity].
  apply (settle_op OpAvailable 20%Z sample_status); [apply sample_reachable|exact I|discriminate|reflexivity].
Qed.

Lemma reachable_safe_witness :
  (∃ r s p, WF sample_status r s p) ∧ ∃ bs', run (OpPropagate ready_projection) 5%Z sample_status = Done bs'.
Proof.
  pose proof (reachable_safe sample_status sample_reachable) as [Hwf Hrun].
  split; [exact Hwf|]. destruct (Hrun (OpPropagate ready_projection) 5%Z) as (bs' & Hbs' & _);
    [left; reflexivity|]. exists bs'. exact Hbs'.
Defined.

Lemma settled_ready_witness :
  map MC_Status (SBStatus_Conditions sample_ready) = [ConditionTrue; ConditionTrue; ConditionTrue] ∧
  ∃ r s p, conds3 sample_ready r s p ∧
    (MC_Status r = ConditionTrue ↔ MC_Status s = ConditionTrue ∧ MC_Status p = ConditionTrue) ∧
    ∃ v, summary s p = Some v ∧ says r v.
Proof. split; [reflexivity|]. apply (settled_ready sample_ready), sample_settled. Defined.

Lemma transition_times_witness :
  map MC_LastTransitionTime (SBStatus_Conditions sample_available) = [10%Z; 20%Z; 10%Z] ∧
  ∀ c c', SBStatus_Conditions sample_status !! 1 = Some c →
    SBStatus_Conditions sample_available !! 1 = Some c' →
    MC_Type c' = MC_Type c ∧ MC_LastTransitionTime c' =
      (if decide (MC_Status c' = MC_Status c) then MC_LastTransitionTime c else 20%Z).
Proof.
  split; [reflexivity|]. intros c c'.
  apply (transition_times sample_status OpAvailable 20%Z sample_available 1);
    [apply sample_reachable|exact I|reflexivity].
Defined.

Lemma Propagate_effect_witness :
  SB.PropagateServiceBindingProjectionStatus (H := string_opaque) None 5%Z sample_status = Done sample_status ∧
  ∃ r s p bs' r' p', conds3 sample_status r s p ∧
    SB.PropagateServiceBindingProjectionStatus (Some ready_projection) 5%Z sample_status = Done bs' ∧
    conds3 bs' r' s p' ∧ says p' (projected ready_projection).
Proof. apply (Propagate_effect sample_status ready_projection 5%Z), sample_reachable. Defined.
