(* ===== verification/Validation.v ===== *)
(** * Validation of the three kinds

    The [Validate] methods of [servicebinding_types.go],
    [servicebindingprojection_types.go] and [provisionedservice_types.go].

    [apis.FieldError] is knative's: it is the class [FieldErrors], the
    constructors and combinators the methods call, with the errors a value reports
    as laws.  [tracker.Reference.Validate] is knative's too and is a parameter.
    Go iterates over a map in an arbitrary order: the order is an argument of the
    model, any permutation of the entries. *)
From S2P Require Import Prelude Api Conditions Projection Binding.

(** ** The interface of field errors *)
Inductive problem := Missing | Disallowed | MultipleOneOf | OtherProblem (message : string).

(** An error: what is wrong and the paths of the fields. *)
Definition ferror : Type := problem * list string.

#[export] Instance problem_eq_dec : EqDecision problem.
Proof. solve_decision. Defined.

Class FieldErrors := {
  FieldError : Type;
  (** The nil [*FieldError]. *)
  no_error : FieldError;
  Also : FieldError → FieldError → FieldError;
  ErrMissingField : string → FieldError;
  ErrDisallowedFields : string → FieldError;
  ErrMultipleOneOf : list string → FieldError;
  ViaField : string → FieldError → FieldError;
  ViaFieldIndex : string → nat → FieldError → FieldError;
}.

(** A field path that is not empty and does not start with an index. *)
Definition plain (q : string) : Prop := q ≠ "" ∧ HasPrefix q "[" = false.

Definition index (f : string) (i : nat) : string := f +:+ "[" +:+ pretty i +:+ "]".

Class FieldErrorsLaws `{FieldErrors} := {
  reports : FieldError → ferror → Prop;
  via : string → ferror → ferror;
  via_plain f k q : f ≠ "" → plain q → via f (k, [q]) = (k, [f +:+ "." +:+ q]);
  reports_nil x : ¬ reports no_error x;
  reports_Also e f x : reports (Also e f) x ↔ reports e x ∨ reports f x;
  reports_Missing p x : reports (ErrMissingField p) x ↔ x = (Missing, [p]);
  reports_Disallowed p x : reports (ErrDisallowedFields p) x ↔ x = (Disallowed, [p]);
  reports_MultipleOneOf ps x : reports (ErrMultipleOneOf ps) x ↔ x = (MultipleOneOf, ps);
  reports_ViaField f e x : reports (ViaField f e) x ↔ ∃ y, reports e y ∧ x = via f y;
  reports_ViaFieldIndex f i e x :
    reports (ViaFieldIndex f i e) x ↔ ∃ y, reports e y ∧ x = via (index f i) y;
}.

(** Lists of errors, for the examples. *)
#[export] Instance list_errors : FieldErrors := {|
  FieldError := list ferror;
  no_error := [];
  Also e f := e ++ f;
  ErrMissingField p := [(Missing, [p])];
  ErrDisallowedFields p := [(Disallowed, [p])];
  ErrMultipleOneOf ps := [(MultipleOneOf, ps)];
  ViaField f e := map (λ x, (x.1, map (λ q, f +:+ "." +:+ q) x.2)) e;
  ViaFieldIndex f i e := map (λ x, (x.1, map (λ q, index f i +:+ "." +:+ q) x.2)) e;
|}.

#[export] Instance list_errors_laws : FieldErrorsLaws.
Proof.
  refine {| reports e x := x ∈ e;
    via f (x : ferror) := (x.1, map (λ q, f +:+ "." +:+ q) x.2) |}; cbn.
  - done.
  - intros x. apply not_elem_of_nil.
  - intros. apply elem_of_app.
  - intros. apply list_elem_of_singleton.
  - intros. apply list_elem_of_singleton.
  - intros. apply list_elem_of_singleton.
  - intros f e x. etrans; [apply list_elem_of_fmap|]. split; intros (y & ? & ?); eauto.
  - intros f i e x. etrans; [apply list_elem_of_fmap|]. split; intros (y & ? & ?); eauto.
Defined.

(** ** The methods *)
Section validate.
Context `{Opaque, FieldErrors}.
(** [tracker.Reference.Validate]. *)
Variable Reference_Validate : Reference → FieldError.
(** The order in which a [range] over a map meets its entries. *)
Variable iterate : gmap string (list nat) → list (string * list nat).

Local Open Scope go_scope.

Definition EnvVar_Validate (e : EnvVar) : FieldError :=
  let errs := no_error in
  let errs := if bool_decide (EnvVar_Name e = "") then Also errs (ErrMissingField "name") else errs in
  if bool_decide (EnvVar_Key e = "") then Also errs (ErrMissingField "key") else errs.

(** One round of the loop over [b.Spec.Env]: validate the entry and record its
    index under its name. *)
Definition envStep (st : FieldError * gmap string (list nat)) (ie : nat * EnvVar)
    : FieldError * gmap string (list nat) :=
  let '(errs, envSet) := st in
  let '(i, e) := ie in
  let errs := Also errs (ViaField "spec" (ViaFieldIndex "env" i (EnvVar_Validate e))) in
  let envSet := match envSet !! EnvVar_Name e with
                | None => <[EnvVar_Name e := []]> envSet
                | Some _ => envSet
                end in
  (errs, <[EnvVar_Name e := default [] (envSet !! EnvVar_Name e) ++ [i]]> envSet).

(** [paths := make([]string, len(v)); for pi, i := range v { paths[i] = ... pi }] *)
Definition conflictPaths (v : list nat) : outcome (list string) :=
  foldl (λ paths '(pi, i), let! paths := paths in
           list_set paths i ("spec.env[" +:+ pretty pi +:+ "].name"))
    (Done (replicate (length v) "")) (imap pair v).

Definition conflictStep (errs : outcome FieldError) (kv : string * list nat) : outcome FieldError :=
  let! errs := errs in
  let v := kv.2 in
  if negb (bool_decide (length v = 1)) then
    let! paths := conflictPaths v in Done (Also errs (ErrMultipleOneOf paths))
  else Done errs.

(** The part the two [Validate] methods share: the entries, then the
    conflicting names. *)
Definition validateEnv (errs : FieldError) (env : list EnvVar) : outcome FieldError :=
  let '(errs, envSet) := foldl envStep (errs, ∅) (imap pair env) in
  foldl conflictStep (Done errs) (iterate envSet).

Definition ServiceBinding_Validate (b : ServiceBinding) : outcome FieldError :=
  let errs := no_error in
  let errs :=
    match SBSpec_Workload (SB_Spec b) with
    | None => Also errs (ErrMissingField "spec.workload")
    | Some w =>
        let a := Reference_set_Namespace (Workload_Reference w) "fake" in
        let errs := Also errs (ViaField "spec.workload" (Reference_Validate a)) in
        if negb (bool_decide (Reference_Namespace (Workload_Reference w) = ""))
        then Also errs (ErrDisallowedFields "spec.workload.namespace") else errs
    end in
  let errs :=
    match SBSpec_Service (SB_Spec b) with
    | None => Also errs (ErrMissingField "spec.service")
    | Some s =>
        let errs := Also errs
          (ViaField "spec.service" (Reference_Validate (Reference_set_Namespace s "fake"))) in
        let errs := if negb (bool_decide (Reference_Namespace s = ""))
          then Also errs (ErrDisallowedFields "spec.service.namespace") else errs in
        if bool_decide (Reference_Name s = "")
        then Also errs (ErrMissingField "spec.service.name") else errs
    end in
  validateEnv errs (SBSpec_Env (SB_Spec b)).

Definition Projection_Validate (b : ServiceBindingProjection) : outcome FieldError :=
  let errs := no_error in
  let errs := if bool_decide (SBPSpec_Name (SBP_Spec b) = "")
    then Also errs (ErrMissingField "spec.name") else errs in
  let errs := if bool_decide (LocalObjectReference_Name (SBPSpec_Binding (SBP_Spec b)) = "")
    then Also errs (ErrMissingField "spec.binding") else errs in
  let w := Workload_Reference (SBPSpec_Workload (SBP_Spec b)) in
  let a := Reference_set_Namespace w "fake" in
  let errs := Also errs (ViaField "spec.workload" (Reference_Validate a)) in
  let errs := if negb (bool_decide (Reference_Namespace w = ""))
    then Also errs (ErrDisallowedFields "spec.workload.namespace") else errs in
  let! errs := validateEnv errs (SBPSpec_Env (SBP_Spec b)) in
  Done (match Status_Annotations (SBPStatus_Status (SBP_Status b)) with
        | Some _ => Also errs (ErrDisallowedFields "status.annotations")
        | None => errs
        end).
End validate.
