(* ===== verification/ValidationFacts.v ===== *)
(** * What validation reports, and when it panics

    The loop over the environment variables gathers the positions of each name;
    the loop over the conflicting names then indexes a slice of [len(positions)]
    paths with the positions themselves.  The lemmas give both loops in closed form
    for every order of the map's entries. *)
From S2P Require Import Prelude Api Conditions Projection Binding Validation.

(** ** Positions of a name *)
Definition positions (n : string) (env : list EnvVar) : list nat :=
  (filter (λ ie, EnvVar_Name ie.2 = n) (imap pair env)).*1.

Lemma imap_pair_snoc {A} (l : list A) x : imap pair (l ++ [x]) = imap pair l ++ [(length l, x)].
Proof. rewrite imap_app. cbn. by rewrite Nat.add_0_r. Qed.

Lemma positions_snoc n env e :
  positions n (env ++ [e]) = positions n env ++ (if decide (EnvVar_Name e = n) then [length env] else []).
Proof.
  unfold positions. rewrite imap_pair_snoc, filter_app, fmap_app. f_equal.
  rewrite filter_cons. cbn. by case_decide.
Qed.

Lemma positions_lt n env i : i ∈ positions n env → i < length env.
Proof.
  induction env as [|e env IH] using rev_ind; [by rewrite elem_of_nil|].
  rewrite positions_snoc, length_app. cbn. intros [?%IH|Hi]%elem_of_app; [lia|].
  case_decide; [apply list_elem_of_singleton in Hi; lia|by apply elem_of_nil in Hi].
Qed.

(** Positions are increasing: they are the first [k] numbers, or one of them is
    not below [k]. *)
Lemma positions_seq n env :
  let k := length (positions n env) in
  positions n env = seq 0 k ∨ ∃ i, i ∈ positions n env ∧ k ≤ i.
Proof.
  cbn zeta. induction env as [|e env IH] using rev_ind; [by left|].
  rewrite positions_snoc. case_decide; [|by rewrite app_nil_r].
  rewrite length_app. cbn [length]. destruct IH as [IH|(i & Hi & Hk)].
  - destruct (decide (length (positions n env) = length env)) as [Heq|Hne].
    + left. rewrite Nat.add_1_r, seq_S, <- IH, <- Heq. done.
    + right. exists (length env). split; [set_solver|].
      assert (length (positions n env) ≤ length env) as Hle; [|lia].
      rewrite IH in *. rewrite length_seq in *.
      destruct (length (positions n env)) as [|k] eqn:Ek; [lia|].
      assert (k ∈ positions n env) as Hin by (rewrite IH; apply elem_of_seq; lia).
      apply positions_lt in Hin. lia.
  - right. exists (length env). split; [set_solver|]. apply positions_lt in Hi. lia.
Qed.

Section env.
Context `{FieldErrorsLaws}.
Implicit Types (env : list EnvVar) (errs : FieldError) (x : ferror) (v : list nat).

(** ** The first loop *)
Definition envPath (i : nat) (f : string) : string := "spec.env[" +:+ pretty i +:+ "]." +:+ f.

Definition entryError env x : Prop :=
  ∃ i e, env !! i = Some e ∧
    (EnvVar_Name e = "" ∧ x = (Missing, [envPath i "name"]) ∨
     EnvVar_Key e = "" ∧ x = (Missing, [envPath i "key"])).

Lemma reports_if (c : bool) errs e x :
  reports (if c then Also errs e else errs) x ↔ reports errs x ∨ (c = true ∧ reports e x).
Proof. destruct c; [rewrite reports_Also|]; naive_solver. Qed.

Lemma EnvVar_Validate_reports e x :
  reports (EnvVar_Validate e) x ↔
  EnvVar_Name e = "" ∧ x = (Missing, ["name"]) ∨ EnvVar_Key e = "" ∧ x = (Missing, ["key"]).
Proof.
  unfold EnvVar_Validate. rewrite !reports_if, !reports_Missing, !bool_decide_eq_true.
  pose proof (reports_nil x). tauto.
Qed.

Lemma via_env i f :
  plain f → via "spec" (via (index "env" i) (Missing, [f])) = (Missing, [envPath i f]).
Proof.
  intros Hf. rewrite (via_plain (index _ _)) by done.
  rewrite via_plain by (done || by split).
  unfold index, envPath. do 2 f_equal. by rewrite !str_app_assoc.
Qed.

Lemma via_entry i e x :
  reports (ViaField "spec" (ViaFieldIndex "env" i (EnvVar_Validate e))) x ↔
  EnvVar_Name e = "" ∧ x = (Missing, [envPath i "name"]) ∨
  EnvVar_Key e = "" ∧ x = (Missing, [envPath i "key"]).
Proof.
  assert (plain "name" ∧ plain "key") as [Hn Hk] by (by repeat split).
  rewrite <- (via_env i "name" Hn), <- (via_env i "key" Hk).
  rewrite reports_ViaField. setoid_rewrite reports_ViaFieldIndex.
  setoid_rewrite EnvVar_Validate_reports. split.
  - intros (y & (z & [[? ->]|[? ->]] & ->) & ->); auto.
  - intros [[? ->]|[? ->]]; eauto 10.
Qed.

Definition envLoop errs env : FieldError * gmap string (list nat) :=
  foldl envStep (errs, ∅) (imap pair env).

Lemma envLoop_snoc errs env e :
  envLoop errs (env ++ [e]) = envStep (envLoop errs env) (length env, e).
Proof. unfold envLoop. by rewrite imap_pair_snoc, foldl_app. Qed.

Lemma envLoop_positions errs env n :
  (envLoop errs env).2 !! n =
  match positions n env with [] => None | v => Some v end.
Proof.
  induction env as [|e env IH] using rev_ind; [apply lookup_empty|].
  rewrite envLoop_snoc, positions_snoc. destruct (envLoop errs env) as [errs' m]. cbn in *.
  destruct (decide (EnvVar_Name e = n)) as [->|Hne].
  - rewrite lookup_insert_eq.
    destruct (m !! n) as [v|] eqn:E; rewrite ?E, ?lookup_insert_eq; cbn;
      destruct (positions n env); naive_solver.
  - rewrite lookup_insert_ne, app_nil_r by done.
    destruct (m !! EnvVar_Name e); by rewrite ?lookup_insert_ne.
Qed.

Lemma envLoop_reports errs env x :
  reports (envLoop errs env).1 x ↔ reports errs x ∨ entryError env x.
Proof.
  induction env as [|e env IH] using rev_ind.
  { cbn. split; [by left|]. by intros [?|(i & e & ? & _)]. }
  rewrite envLoop_snoc. destruct (envLoop errs env) as [errs' m]. cbn in *.
  rewrite reports_Also, via_entry, IH. unfold entryError. split.
  - intros [[?|(i & e' & Hi & Hx)]|Hx]; [by left|right..].
    + exists i, e'. by rewrite lookup_app_l by (by eapply lookup_lt_Some).
    + exists (length env), e. by rewrite lookup_app_r, Nat.sub_diag.
  - intros [?|(i & e' & Hi & Hx)]; [by left; left|].
    apply lookup_app_Some in Hi as [Hi|[Hle Hi]]; [left; right; eauto|right].
    apply list_lookup_singleton_Some in Hi as [Hz ->].
    by replace i with (length env) in Hx by lia.
Qed.

(** ** The second loop *)
Definition conflictPath (i : nat) : string := "spec.env[" +:+ pretty i +:+ "].name".

Definition setPath (paths : outcome (list string)) (e : nat * nat) : outcome (list string) :=
  obind paths (λ paths, list_set paths e.2 (conflictPath e.1)).

Lemma conflictPaths_eq v : conflictPaths v = foldl setPath (Done (replicate (length v) "")) (imap pair v).
Proof.
  unfold conflictPaths. generalize (Done (replicate (length v) "")).
  induction (imap pair v) as [|[pi i] es IH]; intros paths; [done|]. apply IH.
Qed.

Lemma foldl_setPath_Panic es : foldl setPath Panic es = Panic.
Proof. by induction es. Qed.

Lemma setPath_out paths es :
  (∃ e, e ∈ es ∧ length paths ≤ e.2) → foldl setPath (Done paths) es = Panic.
Proof.
  revert paths. induction es as [|e es IH]; intros paths (e' & Hin & Hle);
    [by apply elem_of_nil in Hin|].
  cbn. unfold list_set. case_decide as Hlt; [|apply foldl_setPath_Panic].
  apply elem_of_cons in Hin as [->|Hin]; [lia|].
  apply IH. exists e'. by rewrite length_insert.
Qed.

Lemma setPath_seq j k :
  foldl setPath (Done (replicate (j + k) "")) (imap pair (seq 0 j)) =
  Done (map conflictPath (seq 0 j) ++ replicate k "").
Proof.
  revert k. induction j as [|j IH]; intros k; [done|].
  rewrite seq_S, imap_pair_snoc, foldl_app, length_seq.
  replace (S j + k) with (j + S k) by lia. rewrite IH. cbn. unfold list_set.
  rewrite length_app, length_map, length_seq, decide_True by (cbn; lia).
  rewrite insert_app_r_alt by (rewrite length_map, length_seq; lia).
  rewrite length_map, length_seq, Nat.sub_diag, map_app. cbn.
  by rewrite <- (assoc_L (++)).
Qed.

Lemma conflictPaths_seq k : conflictPaths (seq 0 k) = Done (map conflictPath (seq 0 k)).
Proof.
  rewrite conflictPaths_eq, length_seq.
  pose proof (setPath_seq k 0) as Hs. by rewrite Nat.add_0_r, app_nil_r in Hs.
Qed.

Lemma conflictPaths_out v : (∃ i, i ∈ v ∧ length v ≤ i) → conflictPaths v = Panic.
Proof.
  intros (i & Hi & Hle). rewrite conflictPaths_eq. apply setPath_out.
  apply list_elem_of_lookup in Hi as [pi Hpi]. exists (pi, i).
  rewrite length_replicate. split; [|done].
  apply list_elem_of_lookup. exists pi. by rewrite list_lookup_imap, Hpi.
Qed.

(** A name occurs more than once, and not exactly at the first positions. *)
Definition misplaced n env : Prop :=
  2 ≤ length (positions n env) ∧
  positions n env ≠ seq 0 (length (positions n env)).

(** A name occurs more than once, at the first positions. *)
Definition leading n env (k : nat) : Prop := 2 ≤ k ∧ positions n env = seq 0 k.

Definition conflictError env x : Prop :=
  ∃ n k, leading n env k ∧ x = (MultipleOneOf, map conflictPath (seq 0 k)).

Definition good (kv : string * list nat) : Prop := kv.2 = seq 0 (length kv.2).
Definition bad (kv : string * list nat) : Prop := ∃ i, i ∈ kv.2 ∧ length kv.2 ≤ i.

Lemma conflictLoop_Panic kvs : foldl conflictStep Panic kvs = Panic.
Proof. by induction kvs. Qed.

Lemma conflictLoop_bad errs kvs :
  Exists (λ kv, length kv.2 ≠ 1 ∧ bad kv) kvs → foldl conflictStep (Done errs) kvs = Panic.
Proof.
  intros Hex. revert errs. induction Hex as [kv kvs [Hne Hb]|kv kvs _ IH]; intros errs; cbn.
  - rewrite bool_decide_eq_false_2, conflictPaths_out by done. apply conflictLoop_Panic.
  - case_bool_decide; cbn; [apply IH|].
    destruct (conflictPaths _); [apply IH | apply conflictLoop_Panic].
Qed.

Lemma conflictLoop_good errs kvs :
  Forall (λ kv, length kv.2 = 1 ∨ good kv) kvs →
  ∃ errs', foldl conflictStep (Done errs) kvs = Done errs' ∧
    ∀ x, reports errs' x ↔ reports errs x ∨
      ∃ kv, kv ∈ kvs ∧ length kv.2 ≠ 1 ∧ x = (MultipleOneOf, map conflictPath (seq 0 (length kv.2))).
Proof.
  intros Hall. revert errs. induction Hall as [|kv kvs Hg _ IH]; intros errs; cbn.
  - exists errs. split; [done|]. intros x. setoid_rewrite elem_of_nil. naive_solver.
  - setoid_rewrite elem_of_cons. case_bool_decide as Hl; cbn.
    + destruct (IH errs) as (errs' & Hf & Hx). exists errs'. split; [done|].
      intros x. rewrite Hx. naive_solver.
    + destruct Hg as [?|Hg]; [done|]. 
      assert (conflictPaths kv.2 = Done (map conflictPath (seq 0 (length kv.2)))) as ->.
      { unfold good in Hg. set (k := length kv.2) in *. rewrite Hg. apply conflictPaths_seq. }
      cbn.
      destruct (IH (Also errs (ErrMultipleOneOf (map conflictPath (seq 0 (length kv.2))))))
        as (errs' & Hf & Hx). exists errs'. split; [done|].
      intros x. rewrite Hx, reports_Also, reports_MultipleOneOf. naive_solver.
Qed.
End env.

Section validate.
Context `{Opaque, FieldErrorsLaws}.
Variable Reference_Validate : Reference → FieldError.
Variable iterate : gmap string (list nat) → list (string * list nat).
(** A [range] over a map meets every entry once. *)
Hypothesis iterate_all : ∀ m, iterate m ≡ₚ map_to_list m.

Lemma elem_of_entries errs env n v :
  (n, v) ∈ iterate (envLoop errs env).2 ↔ positions n env = v ∧ v ≠ [].
Proof.
  rewrite iterate_all, elem_of_map_to_list, envLoop_positions.
  destruct (positions n env); naive_solver.
Qed.

Lemma validateEnv_misplaced errs env n :
  misplaced n env → validateEnv iterate errs env = Panic.
Proof.
  intros [Hk Hne]. unfold validateEnv. fold (envLoop errs env).
  pose proof (elem_of_entries errs env n (positions n env)) as He.
  destruct (envLoop errs env) as [errs' m]. cbn [snd] in He.
  apply conflictLoop_bad, Exists_exists. exists (n, positions n env). split; [|split; cbn].
  - apply He. split; [done|]. by destruct (positions n env); cbn in Hk; [lia|].
  - lia.
  - by destruct (positions_seq n env) as [?|?].
Qed.

Lemma validateEnv_placed errs env :
  (∀ n, ¬ misplaced n env) →
  ∃ errs', validateEnv iterate errs env = Done errs' ∧
    ∀ x, reports errs' x ↔ reports errs x ∨ entryError env x ∨ conflictError env x.
Proof.
  intros Hm. unfold validateEnv. fold (envLoop errs env).
  pose proof (elem_of_entries errs env) as He. pose proof (envLoop_reports errs env) as Hr.
  destruct (envLoop errs env) as [errs0 m]. cbn [fst snd] in *.
  edestruct (conflictLoop_good errs0 (iterate m)) as (errs' & Hf & Hx).
  { apply Forall_forall. intros [n v] [<- Hv]%He. cbn.
    destruct (decide (length (positions n env) = 1)) as [?|Hlen]; [by left|right].
    destruct (decide (good (n, positions n env))) as [?|Hg]; [done|].
    destruct (Hm n). split; [|done].
    destruct (positions n env) as [|i [|j v]]; cbn in *; [done|lia|lia]. }
  exists errs'. split; [done|]. intros x. rewrite Hx, Hr.
  assert ((∃ kv, kv ∈ iterate m ∧ length kv.2 ≠ 1 ∧
      x = (MultipleOneOf, map conflictPath (seq 0 (length kv.2)))) ↔ conflictError env x) as ->; [|tauto].
  unfold conflictError, leading. split.
  - intros ([n v] & [<- Hv]%He & Hl & ->). cbn in *. exists n, (length (positions n env)).
    assert (2 ≤ length (positions n env)) as Hk
      by (destruct (positions n env) as [|i [|j v]]; cbn in *; [done|lia|lia]).
    split_and!; try done. destruct (decide (positions n env = seq 0 (length (positions n env)))); [done|].
    by destruct (Hm n).
  - intros (n & k & [Hk Hp] & ->). exists (n, seq 0 k). rewrite He. cbn. rewrite length_seq.
    split_and!; [done|by destruct k; [lia|]|lia|done].
Qed.

Lemma validateEnv_cases errs env :
  (∃ n, misplaced n env) ∧ validateEnv iterate errs env = Panic ∨
  (∀ n, ¬ misplaced n env) ∧ ∃ errs', validateEnv iterate errs env = Done errs' ∧
    ∀ x, reports errs' x ↔ reports errs x ∨ entryError env x ∨ conflictError env x.
Proof.
  destruct (decide (Exists (λ e, 2 ≤ length (positions (EnvVar_Name e) env) ∧
    positions (EnvVar_Name e) env ≠ seq 0 (length (positions (EnvVar_Name e) env))) env)) as [Hex|Hno].
  - left. apply Exists_exists in Hex as (e & _ & Hm).
    split; [by exists (EnvVar_Name e) | by eapply validateEnv_misplaced].
  - right. assert (∀ n, ¬ misplaced n env) as Hm; [|split; [done|by apply validateEnv_placed]].
    intros n [Hk Hne]. apply Hno, Exists_exists.
    destruct (positions n env) as [|i v] eqn:E; cbn in Hk; [lia|].
    assert (i ∈ positions n env) as Hi by (rewrite E; set_solver).
    unfold positions in Hi. apply list_elem_of_fmap in Hi as ([i' e] & -> & Hi).
    apply list_elem_of_filter in Hi as [<- Hi]. cbn in *.
    exists e. rewrite E. split; [|done].
    apply elem_of_lookup_imap in Hi as (j & e' & [= -> ->] & Hj). by eapply list_elem_of_lookup_2.
Qed.

(** The errors of a binding's fields other than [env]. *)
Definition bindingError (b : ServiceBinding) (x : ferror) : Prop :=
  match SBSpec_Workload (SB_Spec b) with
  | None => x = (Missing, ["spec.workload"])
  | Some w =>
      (∃ y, reports (Reference_Validate (Reference_set_Namespace (Workload_Reference w) "fake")) y ∧
            x = via "spec.workload" y) ∨
      (Reference_Namespace (Workload_Reference w) ≠ "" ∧ x = (Disallowed, ["spec.workload.namespace"]))
  end ∨
  match SBSpec_Service (SB_Spec b) with
  | None => x = (Missing, ["spec.service"])
  | Some s =>
      (∃ y, reports (Reference_Validate (Reference_set_Namespace s "fake")) y ∧
            x = via "spec.service" y) ∨
      (Reference_Namespace s ≠ "" ∧ x = (Disallowed, ["spec.service.namespace"])) ∨
      (Reference_Name s = "" ∧ x = (Missing, ["spec.service.name"]))
  end.

(** The errors of a projection's fields other than [env]. *)
Definition projectionError (b : ServiceBindingProjection) (x : ferror) : Prop :=
  let w := Workload_Reference (SBPSpec_Workload (SBP_Spec b)) in
  (SBPSpec_Name (SBP_Spec b) = "" ∧ x = (Missing, ["spec.name"])) ∨
  (LocalObjectReference_Name (SBPSpec_Binding (SBP_Spec b)) = "" ∧ x = (Missing, ["spec.binding"])) ∨
  (∃ y, reports (Reference_Validate (Reference_set_Namespace w "fake")) y ∧ x = via "spec.workload" y) ∨
  (Reference_Namespace w ≠ "" ∧ x = (Disallowed, ["spec.workload.namespace"])) ∨
  (Status_Annotations (SBPStatus_Status (SBP_Status b)) ≠ None ∧ x = (Disallowed, ["status.annotations"])).

Lemma bool_false_iff (P : Prop) `{Decision P} : negb (bool_decide P) = true ↔ ¬ P.
Proof. rewrite negb_true_iff. apply bool_decide_eq_false. Qed.

Lemma ServiceBinding_Validate_cases b :
  (∃ n, misplaced n (SBSpec_Env (SB_Spec b))) ∧
    ServiceBinding_Validate Reference_Validate iterate b = Panic ∨
  (∀ n, ¬ misplaced n (SBSpec_Env (SB_Spec b))) ∧
    ∃ errs, ServiceBinding_Validate Reference_Validate iterate b = Done errs ∧
      ∀ x, reports errs x ↔ bindingError b x ∨ entryError (SBSpec_Env (SB_Spec b)) x ∨
                            conflictError (SBSpec_Env (SB_Spec b)) x.
Proof.
  unfold ServiceBinding_Validate.
  match goal with |- context [validateEnv _ ?errs ?env] => destruct (validateEnv_cases errs env) as
    [[Hex ->]|[Hno (errs' & -> & Hx)]] end; [by left|right].
  split; [done|]. exists errs'. split; [done|]. intros x. rewrite Hx. f_equiv. clear Hx Hno errs'.
  pose proof (reports_nil x). unfold bindingError.
  destruct (SBSpec_Service (SB_Spec b)), (SBSpec_Workload (SB_Spec b));
    rewrite ?reports_if, ?reports_Also, ?reports_if, ?reports_Also, ?reports_Missing,
      ?reports_Disallowed, ?reports_ViaField, ?bool_false_iff, ?bool_decide_eq_true; tauto.
Qed.

Lemma Projection_Validate_cases b :
  (∃ n, misplaced n (SBPSpec_Env (SBP_Spec b))) ∧
    Projection_Validate Reference_Validate iterate b = Panic ∨
  (∀ n, ¬ misplaced n (SBPSpec_Env (SBP_Spec b))) ∧
    ∃ errs, Projection_Validate Reference_Validate iterate b = Done errs ∧
      ∀ x, reports errs x ↔ projectionError b x ∨ entryError (SBPSpec_Env (SBP_Spec b)) x ∨
                            conflictError (SBPSpec_Env (SBP_Spec b)) x.
Proof.
  unfold Projection_Validate.
  match goal with |- context [validateEnv _ ?errs ?env] => destruct (validateEnv_cases errs env) as
    [[Hex ->]|[Hno (errs' & -> & Hx)]] end; cbn [obind]; [by left|right].
  split; [done|]. eexists. split; [done|]. intros x.
  pose proof (reports_nil x). unfold projectionError.
  destruct (Status_Annotations _);
    rewrite ?reports_Also, Hx, !reports_if, reports_Also, !reports_if, ?reports_Missing,
      ?reports_Disallowed, ?reports_ViaField, ?bool_false_iff, ?bool_decide_eq_true;
    intuition (congruence || eauto 10).
Qed.

(** C29: [ServiceBinding.Validate] panics exactly when some variable name occurs
    [k >= 2] times and not just at the indices [0] to [k-1]: for any order of the
    iteration over the names, it indexes the [k] paths with the position of the
    variable. *)
Theorem ServiceBinding_Validate_panics b :
  ServiceBinding_Validate Reference_Validate iterate b = Panic ↔
  ∃ n, misplaced n (SBSpec_Env (SB_Spec b)).
Proof.
  destruct (ServiceBinding_Validate_cases b) as [[? ->]|[Hno (errs & -> & _)]]; [done|].
  split; [done|]. by intros (n & ?%Hno).
Qed.

(** C28: when it does not panic, [ServiceBinding.Validate] reports exactly: the
    missing workload or service, the errors of their references below their
    paths, their namespaces, the service's missing name, each variable without
    name or key, and the name that several leading variables share. *)
Theorem ServiceBinding_Validate_reports b :
  (∀ n, ¬ misplaced n (SBSpec_Env (SB_Spec b))) →
  ∃ errs, ServiceBinding_Validate Reference_Validate iterate b = Done errs ∧
    ∀ x, reports errs x ↔ bindingError b x ∨ entryError (SBSpec_Env (SB_Spec b)) x ∨
                          conflictError (SBSpec_Env (SB_Spec b)) x.
Proof.
  intros Hm. destruct (ServiceBinding_Validate_cases b) as [[[n Hn] _]|[_ ?]]; [by destruct (Hm n)|done].
Qed.

(** The same for [ServiceBindingProjection.Validate], which also reports a
    missing name or binding, and status annotations; it panics in the same case. *)
Theorem Projection_Validate_reports b :
  (Projection_Validate Reference_Validate iterate b = Panic ↔
   ∃ n, misplaced n (SBPSpec_Env (SBP_Spec b))) ∧
  ∀ errs, Projection_Validate Reference_Validate iterate b = Done errs →
    ∀ x, reports errs x ↔ projectionError b x ∨ entryError (SBPSpec_Env (SBP_Spec b)) x ∨
                          conflictError (SBPSpec_Env (SBP_Spec b)) x.
Proof.
  destruct (Projection_Validate_cases b) as [[? ->]|[Hno (errs & -> & Hx)]]; [done|].
  split; [split; [done|by intros (n & ?%Hno)]|]. by intros errs' [= <-].
Qed.
End validate.

(** ** Witnesses *)
#[local] Existing Instance string_opaque.

Definition sample_validate (r : Reference) : FieldError :=
  if bool_decide (Reference_Kind r = "") then ErrMissingField "kind" else no_error.

Definition sample_binding (env : list EnvVar) : ServiceBinding :=
  mkSB (newMeta "b" "default")
    (mkSBSpec "b" "" "" (Some (mkWorkloadReference (mkReference "apps/v1" "Deployment" "" "app" None) []))
      (Some (mkReference "v1" "" "ns" "" None)) env) (mkSBStatus 0 [] None).

Definition sample_projection (env : list EnvVar) : ServiceBindingProjection :=
  mkSBP (newMeta "b" "default")
    (mkSBPSpec "b" "" "" (mkLocalObjectReference "")
      (mkWorkloadReference (mkReference "apps/v1" "Deployment" "" "app" None) []) env)
    (mkSBPStatus zeroStatus).

Lemma ServiceBinding_Validate_panics_witness :
  ServiceBinding_Validate sample_validate map_to_list
    (sample_binding [mkEnvVar "A" "a"; mkEnvVar "B" "b"; mkEnvVar "A" "c"]) = Panic.
Proof.
  apply (ServiceBinding_Validate_panics sample_validate map_to_list (λ m, Permutation_refl _)).
  exists "A". split; [compute_decide|]. vm_compute. discriminate.
Defined.

Lemma leading_not_misplaced n :
  ¬ misplaced n [mkEnvVar "A" "a"; mkEnvVar "A" ""; mkEnvVar "B" "b"].
Proof.
  intros [Hk Hne]. unfold positions in *. cbn in *.
  destruct (decide ("A" = n)), (decide ("B" = n)); cbn in *; first [congruence | lia].
Qed.

Lemma ServiceBinding_Validate_reports_witness :
  ∃ errs, ServiceBinding_Validate sample_validate map_to_list
      (sample_binding [mkEnvVar "A" "a"; mkEnvVar "A" ""; mkEnvVar "B" "b"]) = Done errs ∧
    reports errs (MultipleOneOf, ["spec.env[0].name"; "spec.env[1].name"]) ∧
    reports errs (Missing, ["spec.env[1].key"]) ∧
    reports errs (Disallowed, ["spec.service.namespace"]) ∧
    reports errs (Missing, ["spec.service.name"]).
Proof.
  destruct (ServiceBinding_Validate_reports sample_validate map_to_list (λ m, Permutation_refl _)
    (sample_binding [mkEnvVar "A" "a"; mkEnvVar "A" ""; mkEnvVar "B" "b"])
    leading_not_misplaced) as (errs & He & Hx).
  exists errs. split; [exact He|]. rewrite !Hx. split_and!.
  - right. right. exists "A", 2. split; [split; [lia|reflexivity]|reflexivity].
  - right. left. exists 1, (mkEnvVar "A" ""). split; [reflexivity|]. right. split; reflexivity.
  - left. right. right. left. split; [discriminate|reflexivity].
  - left. right. right. right. split; reflexivity.
Defined.

Lemma Projection_Validate_reports_witness :
  (Projection_Validate sample_validate map_to_list
    (sample_projection [mkEnvVar "A" "a"; mkEnvVar "B" "b"; mkEnvVar "A" "c"]) = Panic ↔
   ∃ n, misplaced n [mkEnvVar "A" "a"; mkEnvVar "B" "b"; mkEnvVar "A" "c"]) ∧
  ∃ errs, Projection_Validate sample_validate map_to_list (sample_projection []) = Done errs ∧
    reports errs (Missing, ["spec.binding"]).
Proof.
  split.
  - apply (Projection_Validate_reports sample_validate map_to_list (λ m, Permutation_refl _)
      (sample_projection [mkEnvVar "A" "a"; mkEnvVar "B" "b"; mkEnvVar "A" "c"])).
  - eexists. split; [reflexivity|].
    apply (Projection_Validate_reports sample_validate map_to_list (λ m, Permutation_refl _)
      (sample_projection [])); [reflexivity|]. left. right. left. split; reflexivity.
Defined.
