(* ===== verification/Provisioned.v ===== *)
(** * [ProvisionedService]

    The kind of [pkg/apis/labs/v1alpha1] (types, validation, status) and its
    reconciler, [pkg/reconciler/provisionedservice]: a service that publishes the
    name of its binding secret in its status. *)
From S2P Require Import Prelude Api Conditions Effects Validation.

Record ProvisionedServiceSpec := mkPSSpec { PSSpec_Binding : LocalObjectReference }.

Record ProvisionedServiceStatus := mkPSStatus {
  PSStatus_Status : duckStatus;
  PSStatus_Binding : LocalObjectReference;
}.

Record ProvisionedService `{Opaque} := mkPS {
  PS_Meta : ObjectMeta;
  PS_Spec : ProvisionedServiceSpec;
  PS_Status : ProvisionedServiceStatus;
}.

Arguments mkPS {_} _ _ _.

#[export] Instance ProvisionedServiceSpec_eq_dec : EqDecision ProvisionedServiceSpec.
Proof. solve_decision. Defined.
#[export] Instance ProvisionedServiceStatus_eq_dec : EqDecision ProvisionedServiceStatus.
Proof. solve_decision. Defined.
#[export] Instance ProvisionedService_eq_dec `{Opaque} : EqDecision ProvisionedService.
Proof. solve_decision. Defined.

Module PS.
Definition GroupName : string := "bindings.labs.vmware.com".
Definition SchemeGroupVersion : GroupVersion := mkGroupVersion GroupName "v1alpha1".
Definition ProvisionedServiceAnnotationKey : string := GroupName +:+ "/provisioned-service".
Definition ProvisionedServiceConditionReady : string := ConditionReady.

Section methods.
Context `{Opaque, FieldErrors}.

Definition Validate (p : ProvisionedService) : FieldError :=
  let errs := no_error in
  if bool_decide (LocalObjectReference_Name (PSSpec_Binding (PS_Spec p)) = "")
  then Also errs (ErrMissingField "spec.binding.name") else errs.

Definition SetDefaults (p : ProvisionedService) : ProvisionedService := p.

Definition GetGroupVersionKind (p : ProvisionedService) : GroupVersionKind :=
  WithKind SchemeGroupVersion "ProvisionedService".

Definition GetStatus (p : ProvisionedService) : duckStatus := PSStatus_Status (PS_Status p).
End methods.

Section status.
Context `{ConditionManager}.

Definition psCondSet : ConditionSet := NewLivingConditionSet [].

Definition GetConditionSet : ConditionSet := psCondSet.

Definition set_Status (ps : ProvisionedServiceStatus) (s : duckStatus) : ProvisionedServiceStatus :=
  mkPSStatus s (PSStatus_Binding ps).

Definition MarkReady (now : Time) (ps : ProvisionedServiceStatus) : ProvisionedServiceStatus :=
  set_Status ps (cm_MarkTrue psCondSet now ProvisionedServiceConditionReady (PSStatus_Status ps)).

Definition InitializeConditions (now : Time) (ps : ProvisionedServiceStatus) : ProvisionedServiceStatus :=
  set_Status ps (cm_InitializeConditions psCondSet now (PSStatus_Status ps)).
End status.

Section reconcile.
Context `{Opaque, ConditionManager}.

Definition newReconciledNormal (namespace name : string) : Event :=
  AnEvent (mkReconcilerEvent EventTypeNormal "Reconciled"
    ("ProvisionedService reconciled: " +:+ quoted (namespace +:+ "/" +:+ name))).

(** [now] is the clock the condition manager reads. *)
Definition ReconcileKind (now : Time) (o : ProvisionedService) : ProvisionedService * option Event :=
  match Meta_DeletionTimestamp (PS_Meta o) with
  | Some _ => (o, None)
  | None =>
      let status := InitializeConditions now (PS_Status o) in
      let status := mkPSStatus (PSStatus_Status status) (PSSpec_Binding (PS_Spec o)) in
      let status := set_Status status
        (Status_set_ObservedGeneration (PSStatus_Status status) (Meta_Generation (PS_Meta o))) in
      let status := MarkReady now status in
      (mkPS (PS_Meta o) (PS_Spec o) status,
       Some (newReconciledNormal (Meta_Namespace (PS_Meta o)) (Meta_Name (PS_Meta o))))
  end.
End reconcile.
End PS.

Section facts.
Context `{Opaque, ConditionManagerLaws}.

Lemma MarkReady_frame now ps :
  Status_ObservedGeneration (PSStatus_Status (PS.MarkReady now ps)) =
    Status_ObservedGeneration (PSStatus_Status ps) ∧
  PSStatus_Binding (PS.MarkReady now ps) = PSStatus_Binding ps.
Proof.
  split; [|done]. unfold PS.MarkReady, PS.psCondSet. cbn.
  edestruct (cm_frame [] now PS.ProvisionedServiceConditionReady "" "" (PSStatus_Status ps))
    as [Hg _]; [right; left; reflexivity|]. exact Hg.
Qed.

(** Reconciling a live [ProvisionedService] publishes the secret of its spec,
    records its generation and makes it ready, and changes neither its metadata
    nor its spec; one that is being deleted is left unchanged, without an event. *)
Theorem ProvisionedService_reconciled now o :
  let '(o', ev) := PS.ReconcileKind now o in
  PS_Meta o' = PS_Meta o ∧ PS_Spec o' = PS_Spec o ∧
  match Meta_DeletionTimestamp (PS_Meta o) with
  | Some _ => o' = o ∧ ev = None
  | None =>
      PSStatus_Binding (PS_Status o') = PSSpec_Binding (PS_Spec o) ∧
      Status_ObservedGeneration (PSStatus_Status (PS_Status o')) = Meta_Generation (PS_Meta o) ∧
      is_true (PSStatus_Status (PS_Status o')) PS.ProvisionedServiceConditionReady ∧
      (∃ e, ev = Some (AnEvent e) ∧ Event_EventType e = EventTypeNormal)
  end.
Proof.
  unfold PS.ReconcileKind. destruct (Meta_DeletionTimestamp (PS_Meta o)); [done|].
  cbn [PS_Meta PS_Spec PS_Status].
  match goal with |- context [PS.MarkReady now ?s] =>
    destruct (MarkReady_frame now s) as [-> ->]; set (st := s) end.
  split_and!; try done; [|by eexists].
  unfold PS.MarkReady. cbn. apply MarkTrue_happy. by intros d ?%elem_of_nil.
Qed.
End facts.

(** ** Witness *)
#[local] Existing Instance string_opaque.

Definition sample_service : ProvisionedService :=
  mkPS (newMeta "db" "default") (mkPSSpec (mkLocalObjectReference "my-secret"))
    (mkPSStatus zeroStatus (mkLocalObjectReference "")).

Lemma ProvisionedService_reconciled_witness :
  let '(o', ev) := PS.ReconcileKind 7%Z sample_service in
  LocalObjectReference_Name (PSStatus_Binding (PS_Status o')) = "my-secret" ∧
  is_true (PSStatus_Status (PS_Status o')) "Ready".
Proof.
  destruct (ProvisionedService_reconciled 7%Z sample_service) as (_ & _ & Hb & _ & Hr & _).
  split; [exact (f_equal LocalObjectReference_Name Hb)|exact Hr].
Defined.
