(* ===== verification/Resolver.v ===== *)
(** * Resolving a service reference to its binding secret

    [pkg/resolver/serviceable_resolver.go] and the duck type of
    [pkg/apis/duck/v1alpha3].  The tracker, the informer factory and its listers are
    calls to the environment; [GroupVersionKind()] and [UnsafeGuessKindToResource]
    are Kubernetes' and are parameters, as is the text [fmt] gives for a structure. *)
From S2P Require Import Prelude Api Effects.

Record Serviceable := mkServiceable { Serviceable_Binding : LocalObjectReference }.

#[export] Instance Serviceable_eq_dec : EqDecision Serviceable.
Proof. solve_decision. Defined.

Record ServiceableType `{Opaque} := mkServiceableType {
  ServiceableType_Meta : ObjectMeta;
  ServiceableType_Status : Serviceable;
}.
Arguments mkServiceableType {_} _ _.

(** What a lister returns, as a [runtime.Object]: a [*ServiceableType], or a value
    of another type. *)
Inductive RuntimeObject `{Opaque} : Type :=
| AServiceable (t : ServiceableType)
| AnotherObject.

Definition Populate `{Opaque} (t : ServiceableType) : ServiceableType :=
  mkServiceableType (ServiceableType_Meta t) (mkServiceable (mkLocalObjectReference "my-secret")).

(** What the packages called by the resolver provide. *)
Class SchemaGuess := {
  Reference_GroupVersionKind : Reference → GroupVersionKind;
  UnsafeGuessKindToResource : GroupVersionKind → GroupVersionResource;
  format_reference : Reference → string;
  format_resource : GroupVersionResource → string;
}.

Inductive resolver_event `{Opaque} : Type :=
| EvTrackReference (ref : Reference) (parent : ObjectMeta) (r : option error)
| EvInformer (gvr : GroupVersionResource) (r : option error)
| EvLookup (gvr : GroupVersionResource) (namespace name : string) (r : result error RuntimeObject).

(** The environment's answers to the resolver's calls. *)
Record ResolverEnv `{Opaque} (E : Type) := {
  env_TrackReference : Reference → ObjectMeta → list E → option error;
  env_Informer : GroupVersionResource → list E → option error;
  env_Lookup : GroupVersionResource → string → string → list E → result error RuntimeObject;
}.
Arguments env_TrackReference {_ _} _ _ _ _.
Arguments env_Informer {_ _} _ _ _.
Arguments env_Lookup {_ _} _ _ _ _ _.

(** Every event of an explicit list is an answer that a hypothesis gives. *)
Ltac solve_answers :=
  repeat (apply Forall_cons; split); try apply Forall_nil; cbn; eauto.

Section resolver.
Context `{Opaque, SchemaGuess} {E : Type} (emit : resolver_event → E) (env : ResolverEnv E).

Local Open Scope effect_scope.

Definition TrackReference (ref : Reference) (parent : ObjectMeta) : M E (option error) :=
  call (env_TrackReference env ref parent) (λ r, emit (EvTrackReference ref parent r)).
Definition informer_Get (gvr : GroupVersionResource) : M E (option error) :=
  call (env_Informer env gvr) (λ r, emit (EvInformer gvr r)).
Definition lister_Get (gvr : GroupVersionResource) (ns name : string) : M E (result error RuntimeObject) :=
  call (env_Lookup env gvr ns name) (λ r, emit (EvLookup gvr ns name r)).

(** The resource of a reference, with the fix for Postgres. *)
Definition resourceFor (ref : Reference) : GroupVersionResource :=
  let gvr := UnsafeGuessKindToResource (Reference_GroupVersionKind ref) in
  if bool_decide (GVR_Resource gvr = "postgreses") && bool_decide (GVR_Group gvr = "sql.tanzu.vmware.com")
  then mkGVR (GVR_Group gvr) (GVR_Version gvr) "postgres" else gvr.

(** The result is a pointer and an error; [parent] is the object that asks. *)
Definition ServiceableFromObjectReference (ref : option Reference) (parent : ObjectMeta)
    : M E (result error (option LocalObjectReference)) :=
  match ref with
  | None => ret (Err (PlainError "ref is nil"))
  | Some ref =>
      if bool_decide (Reference_APIVersion ref = "v1") && bool_decide (Reference_Kind ref = "Secret")
      then ret (Ok (Some (mkLocalObjectReference (Reference_Name ref))))
      else
        do! tracked := TrackReference ref parent in
        match tracked with
        | Some err =>
            ret (Err (PlainError ("failed to track " +:+ format_reference ref +:+ ": " +:+ Error err)))
        | None =>
            let gvr := resourceFor ref in
            do! informed := informer_Get gvr in
            match informed with
            | Some err => ret (Err err)
            | None =>
                do! obj := lister_Get gvr (Reference_Namespace ref) (Reference_Name ref) in
                match obj with
                | Err err =>
                    ret (Err (PlainError
                      ("failed to get resource for " +:+ format_resource gvr +:+ ": " +:+ Error err)))
                | Ok AnotherObject =>
                    ret (Err (PlainError (format_reference ref +:+ " (*tracker.Reference) is not an ServiceableType")))
                | Ok (AServiceable serviceable) =>
                    ret (Ok (Some (Serviceable_Binding (ServiceableType_Status serviceable))))
                end
            end
        end
  end.

(** ** Properties *)

Definition is_secret (ref : Reference) : Prop :=
  Reference_APIVersion ref = "v1" ∧ Reference_Kind ref = "Secret".

(** The runs of the resolver: what it calls, in order, and what it returns. *)
Inductive resolves (ref : Reference) (parent : ObjectMeta)
    : list resolver_event → result error (option LocalObjectReference) → Prop :=
| resolves_secret :
    is_secret ref →
    resolves ref parent [] (Ok (Some (mkLocalObjectReference (Reference_Name ref))))
| resolves_untracked err :
    ¬ is_secret ref →
    resolves ref parent [EvTrackReference ref parent (Some err)]
      (Err (PlainError ("failed to track " +:+ format_reference ref +:+ ": " +:+ Error err)))
| resolves_no_informer err :
    ¬ is_secret ref →
    resolves ref parent [EvTrackReference ref parent None; EvInformer (resourceFor ref) (Some err)] (Err err)
| resolves_missing err :
    ¬ is_secret ref →
    resolves ref parent
      [EvTrackReference ref parent None; EvInformer (resourceFor ref) None;
       EvLookup (resourceFor ref) (Reference_Namespace ref) (Reference_Name ref) (Err err)]
      (Err (PlainError ("failed to get resource for " +:+ format_resource (resourceFor ref) +:+
        ": " +:+ Error err)))
| resolves_other :
    ¬ is_secret ref →
    resolves ref parent
      [EvTrackReference ref parent None; EvInformer (resourceFor ref) None;
       EvLookup (resourceFor ref) (Reference_Namespace ref) (Reference_Name ref) (Ok AnotherObject)]
      (Err (PlainError (format_reference ref +:+ " (*tracker.Reference) is not an ServiceableType")))
| resolves_service t :
    ¬ is_secret ref →
    resolves ref parent
      [EvTrackReference ref parent None; EvInformer (resourceFor ref) None;
       EvLookup (resourceFor ref) (Reference_Namespace ref) (Reference_Name ref) (Ok (AServiceable t))]
      (Ok (Some (Serviceable_Binding (ServiceableType_Status t)))).

(** The result of a call is the environment's answer at some time. *)
Definition resolver_answers (e : resolver_event) : Prop :=
  match e with
  | EvTrackReference ref parent r => ∃ log, env_TrackReference env ref parent log = r
  | EvInformer gvr r => ∃ log, env_Informer env gvr log = r
  | EvLookup gvr ns name r => ∃ log, env_Lookup env gvr ns name log = r
  end.

#[export] Instance is_secret_dec ref : Decision (is_secret ref).
Proof. unfold is_secret. apply _. Defined.

Lemma resolve_run ref parent log :
  ∃ new r, ServiceableFromObjectReference (Some ref) parent log = (Done r, log ++ map emit new) ∧
    resolves ref parent new r ∧ Forall resolver_answers new.
Proof.
  unfold ServiceableFromObjectReference. destruct (decide (is_secret ref)) as [Hs|Hs].
  { rewrite !bool_decide_eq_true_2 by apply Hs. eexists [], _.
    split_and!; [by rewrite app_nil_r|by constructor|constructor]. }
  assert (bool_decide (Reference_APIVersion ref = "v1") && bool_decide (Reference_Kind ref = "Secret")
    = false) as ->.
  { apply not_true_iff_false. rewrite andb_true_iff, !bool_decide_eq_true. exact Hs. }
  unfold TrackReference, informer_Get, lister_Get. rewrite bind_call.
  destruct (env_TrackReference _ _ _ _) eqn:Et.
  { eexists [EvTrackReference _ _ (Some _)], _.
    split_and!; [done|by constructor|solve_answers]. }
  rewrite bind_call. destruct (env_Informer _ _ _) eqn:Ei.
  { eexists [EvTrackReference _ _ None; EvInformer _ (Some _)], _.
    split_and!; [by rewrite <- (assoc_L (++))|by constructor|solve_answers]. }
  rewrite bind_call. destruct (env_Lookup _ _ _ _ _) as [[t|]|err] eqn:El;
    eexists [EvTrackReference _ _ None; EvInformer _ None; EvLookup _ _ _ _], _;
    (split_and!; [by rewrite <- !(assoc_L (++))|by constructor|solve_answers]).
Qed.

(** Secret [s] is what the environment publishes for [ref], at any time. *)
Definition publishes (ref : Reference) (parent : ObjectMeta) (s : LocalObjectReference) : Prop :=
  (is_secret ref ∧ s = mkLocalObjectReference (Reference_Name ref)) ∨
  (¬ is_secret ref ∧ ∃ t, s = Serviceable_Binding (ServiceableType_Status t) ∧ ∀ log,
    env_TrackReference env ref parent log = None ∧
    env_Informer env (resourceFor ref) log = None ∧
    env_Lookup env (resourceFor ref) (Reference_Namespace ref) (Reference_Name ref) log =
      Ok (AServiceable t)).

Lemma resolves_published ref parent s calls r :
  publishes ref parent s → resolves ref parent calls r → Forall resolver_answers calls →
  r = Ok (Some s).
Proof.
  intros [[Hsec ->]|(Hsec & t & -> & Henv)] Hres Hans; destruct Hres; try done.
  all: rewrite ?Forall_cons in Hans; cbn in Hans;
    repeat match goal with
    | H : _ ∧ _ |- _ => destruct H
    | H : ∃ log, _ = _ |- _ => destruct H as [? H]
    end.
  all: repeat match goal with
    | H : env_TrackReference _ _ _ ?l = _ |- _ => rewrite (proj1 (Henv l)) in H
    | H : env_Informer _ _ ?l = _ |- _ => rewrite (proj1 (proj2 (Henv l))) in H
    | H : env_Lookup _ _ _ _ ?l = _ |- _ => rewrite (proj2 (proj2 (Henv l))) in H
    end; congruence.
Qed.

(** C25: the resolver answers for a nil reference without calling anything; for
    any other reference it behaves as [resolves] says: a secret resolves to
    itself without a call; anything else is tracked on behalf of the parent
    before it is looked up under the guessed resource, in the reference's
    namespace; the answer is what the service publishes, and the first failing
    call ends the resolution with an error. *)
Theorem ServiceableFromObjectReference_resolves parent log :
  ServiceableFromObjectReference None parent log = (Done (Err (PlainError "ref is nil")), log) ∧
  ∀ ref, ∃ new r,
    ServiceableFromObjectReference (Some ref) parent log = (Done r, log ++ map emit new) ∧
    resolves ref parent new r ∧
    (is_secret ref ↔ new = []).
Proof.
  split; [done|]. intros ref. destruct (resolve_run ref parent log) as (new & r & Hrun & Hres & _).
  exists new, r. split_and!; [done|done|]. destruct Hres; done.
Qed.
End resolver.
