(* ===== verification/Resources.v ===== *)
(** * The projection a binding asks for

    [pkg/reconciler/servicebinding/resources]: the [ServiceBindingProjection] that
    the [ServiceBinding] controller creates.  [kmeta] and [metav1.IsControlledBy] are
    knative's and Kubernetes': the class [Kmeta], with the documented behaviour as
    laws. *)
From S2P Require Import Prelude Api Conditions Projection Binding Validation ValidationFacts.

Class Kmeta `{Opaque} := {
  UnionMaps : option smap → option smap → option smap;
  NewControllerRef : ObjectMeta → GroupVersionKind → OwnerReference;
  IsControlledBy : ObjectMeta → ObjectMeta → bool;
}.

Class KmetaLaws `{Kmeta} := {
  (** The later map wins. *)
  UnionMaps_lookup m1 m2 k :
    default ∅ (UnionMaps m1 m2) !! k =
    match default ∅ m2 !! k with Some v => Some v | None => default ∅ m1 !! k end;
  (** The object that [NewControllerRef] refers to is the controller, and the only
      one with its UID. *)
  IsControlledBy_new m owner owner' gvk :
    Meta_OwnerReferences m = [NewControllerRef owner gvk] →
    IsControlledBy m owner' = bool_decide (Meta_UID owner' = Meta_UID owner);
  (** Only the owner references matter. *)
  IsControlledBy_refs m m' owner :
    Meta_OwnerReferences m = Meta_OwnerReferences m' →
    IsControlledBy m owner = IsControlledBy m' owner;
  (** Owners are compared by their UID. *)
  IsControlledBy_uid m owner owner' :
    Meta_UID owner = Meta_UID owner' → IsControlledBy m owner = IsControlledBy m owner';
}.

(** What the packages do, for the examples. *)
#[export] Instance real_kmeta `{Opaque} : Kmeta := {|
  UnionMaps m1 m2 := Some (default ∅ m2 ∪ default ∅ m1);
  NewControllerRef m gvk :=
    mkOwnerReference (GVK_Group gvk +:+ "/" +:+ GVK_Version gvk) (GVK_Kind gvk) (Meta_Name m)
      (Meta_UID m) (Some true) (Some true);
  IsControlledBy m owner :=
    match List.find (λ r, bool_decide (OwnerReference_Controller r = Some true)) (Meta_OwnerReferences m) with
    | Some r => bool_decide (OwnerReference_UID r = Meta_UID owner)
    | None => false
    end;
|}.

#[export] Instance real_kmeta_laws `{Opaque} : KmetaLaws.
Proof.
  split.
  - intros m1 m2 k. cbn. destruct (default ∅ m2 !! k) eqn:E.
    + by apply lookup_union_Some_l.
    + by rewrite lookup_union_r.
  - intros m owner owner' gvk Hm. cbn. rewrite Hm. cbn.
    rewrite bool_decide_eq_true_2 by done. cbn. apply bool_decide_ext. by split; intros ->.
  - intros m m' owner Hm. cbn. by rewrite Hm.
  - intros m owner owner' Hu. cbn. by rewrite Hu.
Qed.

(** [ServiceBindingLabelKey] of register.go. *)
Definition ServiceBindingLabelKey : string := SB.GroupName +:+ "/servicebinding".

Section resources.
Context `{Kmeta}.

(** [resourcenames.ServiceBindingProjection] *)
Definition ServiceBindingProjectionName (binding : ServiceBinding) : string :=
  Meta_Name (SB_Meta binding).

(** The loop that copies the annotations of the group forward. *)
Definition copyAnnotations (annotations : option smap) : smap :=
  map_fold (λ (k v : string) (acc : smap),
    if Contains k SB.GroupName then <[k := v]> acc else acc) ∅ (default ∅ annotations).

Definition MakeServiceBindingProjection {Err : Type} (binding : ServiceBinding)
    : outcome (result Err ServiceBindingProjection) :=
  obind (deref (SBStatus_Binding (SB_Status binding))) (λ secret,
  obind (deref (SBSpec_Workload (SB_Spec binding))) (λ workload,
  let meta := Meta_set_OwnerReferences
    (Meta_set_Labels
      (Meta_set_Annotations
        (newMeta (ServiceBindingProjectionName binding) (Meta_Namespace (SB_Meta binding)))
        (Some ∅))
      (UnionMaps (Meta_Labels (SB_Meta binding))
        (Some {[ ServiceBindingLabelKey := Meta_Name (SB_Meta binding) ]})))
    [NewControllerRef (SB_Meta binding) (SB.GetGroupVersionKind binding)] in
  let projection := mkSBP meta
    (mkSBPSpec (SBSpec_Name (SB_Spec binding)) (SBSpec_Type (SB_Spec binding))
      (SBSpec_Provider (SB_Spec binding)) secret workload (SBSpec_Env (SB_Spec binding)))
    (mkSBPStatus zeroStatus) in
  Done (Ok (mkSBP
    (Meta_set_Annotations meta (Some (copyAnnotations (Meta_Annotations (SB_Meta binding)))))
    (SBP_Spec projection) (SBP_Status projection))))).
End resources.

Lemma copyAnnotations_lookup m k :
  copyAnnotations m !! k = if Contains k SB.GroupName then default ∅ m !! k else None.
Proof.
  unfold copyAnnotations. generalize (default ∅ m). clear m. intros m.
  apply (map_fold_weak_ind (λ (acc m : smap),
    acc !! k = if Contains k SB.GroupName then m !! k else None)).
  - by case_match.
  - intros i v m' acc _ IH. destruct (decide (i = k)) as [->|Hne].
    + destruct (Contains k SB.GroupName) eqn:E; [by rewrite !lookup_insert_eq|by rewrite IH].
    + destruct (Contains i SB.GroupName); rewrite ?lookup_insert_ne by done; done.
Qed.

Section facts.
Context `{KmetaLaws}.

Lemma Make_Done {Err} binding secret workload :
  SBStatus_Binding (SB_Status binding) = Some secret → SBSpec_Workload (SB_Spec binding) = Some workload →
  ∃ p, MakeServiceBindingProjection (Err := Err) binding = Done (Ok p) ∧
    SBP_Spec p = mkSBPSpec (SBSpec_Name (SB_Spec binding)) (SBSpec_Type (SB_Spec binding))
      (SBSpec_Provider (SB_Spec binding)) secret workload (SBSpec_Env (SB_Spec binding)) ∧
    SBP_Status p = mkSBPStatus zeroStatus ∧
    Meta_Name (SBP_Meta p) = Meta_Name (SB_Meta binding) ∧
    Meta_Namespace (SBP_Meta p) = Meta_Namespace (SB_Meta binding) ∧
    Meta_Labels (SBP_Meta p) = UnionMaps (Meta_Labels (SB_Meta binding))
        (Some {[ ServiceBindingLabelKey := Meta_Name (SB_Meta binding) ]}) ∧
    Meta_Annotations (SBP_Meta p) = Some (copyAnnotations (Meta_Annotations (SB_Meta binding))) ∧
    Meta_OwnerReferences (SBP_Meta p) = [NewControllerRef (SB_Meta binding) (SB.GetGroupVersionKind binding)].
Proof.
  intros Hs Hw. unfold MakeServiceBindingProjection. rewrite Hs, Hw. cbn [deref obind].
  eexists. split; [reflexivity|]. by split_and!.
Qed.

(** C26: the projection of a binding with a secret and a workload has the
    binding's name and namespace, is controlled by the binding, carries its
    labels with the binding's name under [servicebinding.io/servicebinding], the
    annotations whose key contains the group and no other, and the spec of the
    binding with that secret; without a secret or a workload the code panics. *)
Theorem MakeServiceBindingProjection_spec (Err : Type) binding :
  (MakeServiceBindingProjection (Err := Err) binding = Panic ↔
   SBStatus_Binding (SB_Status binding) = None ∨ SBSpec_Workload (SB_Spec binding) = None) ∧
  (∀ secret workload,
    SBStatus_Binding (SB_Status binding) = Some secret → SBSpec_Workload (SB_Spec binding) = Some workload →
    ∃ p, MakeServiceBindingProjection (Err := Err) binding = Done (Ok p) ∧
      SBP_Spec p = mkSBPSpec (SBSpec_Name (SB_Spec binding)) (SBSpec_Type (SB_Spec binding))
        (SBSpec_Provider (SB_Spec binding)) secret workload (SBSpec_Env (SB_Spec binding)) ∧
      Meta_Name (SBP_Meta p) = Meta_Name (SB_Meta binding) ∧
      Meta_Namespace (SBP_Meta p) = Meta_Namespace (SB_Meta binding) ∧
      IsControlledBy (SBP_Meta p) (SB_Meta binding) = true ∧
      (∀ k, default ∅ (Meta_Labels (SBP_Meta p)) !! k =
        if decide (k = ServiceBindingLabelKey) then Some (Meta_Name (SB_Meta binding))
        else default ∅ (Meta_Labels (SB_Meta binding)) !! k) ∧
      (∀ k, default ∅ (Meta_Annotations (SBP_Meta p)) !! k =
        if Contains k SB.GroupName then default ∅ (Meta_Annotations (SB_Meta binding)) !! k else None)).
Proof.
  split.
  - unfold MakeServiceBindingProjection.
    destruct (SBStatus_Binding (SB_Status binding)), (SBSpec_Workload (SB_Spec binding));
      cbn [deref obind]; split; auto; try done; by intros [?|?].
  - intros secret workload Hs Hw.
    destruct (Make_Done (Err := Err) _ _ _ Hs Hw) as (p & Hp & Hspec & _ & Hn & Hns & Hl & Ha & Ho).
    exists p. split_and!; try done.
    + erewrite IsControlledBy_new by exact Ho. by apply bool_decide_eq_true.
    + intros k. rewrite Hl, UnionMaps_lookup. cbn [default from_option id].
      case_decide; [subst; by rewrite lookup_singleton_eq|by rewrite lookup_singleton_ne by done].
    + intros k. rewrite Ha. cbn [default from_option id]. apply copyAnnotations_lookup.
Qed.
End facts.

(** ** Validity is passed on *)
Section validity.
Context `{KmetaLaws, FieldErrorsLaws}.
Variable Reference_Validate : Reference → FieldError.
Variable iterate : gmap string (list nat) → list (string * list nat).
Hypothesis iterate_all : ∀ m, iterate m ≡ₚ map_to_list m.

Definition accepted (o : outcome FieldError) : Prop :=
  ∃ errs, o = Done errs ∧ ∀ x, ¬ reports errs x.

(** C27: validity is passed on: the projection made of an accepted binding, after
    its defaults, is accepted too, when the binding and its secret have names and
    there is a secret. *)
Theorem accepted_projection (Err : Type) binding secret :
  accepted (ServiceBinding_Validate Reference_Validate iterate binding) →
  Meta_Name (SB_Meta binding) ≠ "" → LocalObjectReference_Name secret ≠ "" →
  SBStatus_Binding (SB_Status binding) = Some secret →
  ∃ p, MakeServiceBindingProjection (Err := Err) (SB.SetDefaults binding) = Done (Ok p) ∧
    accepted (Projection_Validate Reference_Validate iterate p).
Proof.
  intros (errs & Hv & Hno) Hname Hsecret Hstatus.
  destruct (ServiceBinding_Validate_cases Reference_Validate iterate iterate_all binding)
    as [[_ ?]|(Hm & errs' & Hv' & Hx)]; [congruence|].
  assert (errs' = errs) as -> by congruence. clear Hv Hv'.
  destruct (SBSpec_Workload (SB_Spec binding)) as [workload|] eqn:Hw.
  2: { destruct (Hno (Missing, ["spec.workload"])). apply Hx. left.
       unfold bindingError. rewrite Hw. by left. }
  assert (SBSpec_Name (SB_Spec (SB.SetDefaults binding)) ≠ "" ∧
    SBSpec_Workload (SB_Spec (SB.SetDefaults binding)) = Some workload ∧
    SBSpec_Env (SB_Spec (SB.SetDefaults binding)) = SBSpec_Env (SB_Spec binding) ∧
    SBStatus_Binding (SB_Status (SB.SetDefaults binding)) = Some secret)
    as (Hn & Hw' & He & Hs') by (unfold SB.SetDefaults; case_bool_decide; by split_and!).
  destruct (Make_Done (Err := Err) _ _ _ Hs' Hw') as (p & Hp & Hspec & Hst & _).
  exists p. split; [done|].
  destruct (Projection_Validate_cases Reference_Validate iterate iterate_all p)
    as [[[n Hn'] _]|(_ & perrs & Hpv & Hpx)].
  { rewrite Hspec, He in Hn'. cbn in Hn'. by destruct (Hm n). }
  exists perrs. split; [done|]. intros x Hrep. apply Hpx in Hrep. rewrite Hspec, He in Hrep.
  apply (Hno x), Hx. destruct Hrep as [Hpe|Hrep]; [left|by right].
  unfold projectionError in Hpe. rewrite Hspec, Hst in Hpe. unfold bindingError. rewrite Hw. left.
  cbn in Hpe. tauto.
Qed.
End validity.

(** ** Witnesses *)
#[local] Existing Instance string_opaque.

Definition bound_binding : ServiceBinding :=
  mkSB (Meta_set_Annotations (newMeta "b" "default")
      (Some {[ "servicebinding.io/x" := "1"; "other" := "2" ]}))
    (mkSBSpec "" "mysql" "" (Some (mkWorkloadReference (mkReference "apps/v1" "Deployment" "" "app" None) []))
      (Some (mkReference "v1" "Secret" "" "my-secret" None)) [mkEnvVar "A" "a"])
    (mkSBStatus 0 [] (Some (mkLocalObjectReference "my-secret"))).

Lemma MakeServiceBindingProjection_spec_witness :
  ∃ p, MakeServiceBindingProjection (Err := unit) bound_binding = Done (Ok p) ∧
    IsControlledBy (SBP_Meta p) (SB_Meta bound_binding) = true ∧
    default ∅ (Meta_Annotations (SBP_Meta p)) !! "other" = None.
Proof.
  destruct (MakeServiceBindingProjection_spec unit bound_binding) as [_ Hmake].
  destruct (Hmake _ _ eq_refl eq_refl) as (p & Hp & _ & _ & _ & Hc & _ & Ha).
  exists p. split; [exact Hp|]. split; [exact Hc|]. exact (Ha "other").
Defined.

Lemma single_placed e n : ¬ misplaced n [e].
Proof.
  unfold misplaced, positions. cbn. intros [Hk _]. destruct (decide _); cbn in Hk; lia.
Qed.

Lemma bound_binding_accepted :
  accepted (ServiceBinding_Validate sample_validate map_to_list bound_binding).
Proof.
  destruct (ServiceBinding_Validate_cases sample_validate map_to_list (λ m, Permutation_refl _) bound_binding)
    as [[[n Hn] _]|(_ & errs & He & Hx)].
  - by apply single_placed in Hn.
  - exists errs. split; [exact He|]. intros x Hr. vm_compute in He. injection He as <-.
    by apply elem_of_nil in Hr.
Qed.

Lemma accepted_projection_witness :
  ∃ p, MakeServiceBindingProjection (Err := unit) (SB.SetDefaults bound_binding) = Done (Ok p) ∧
    accepted (Projection_Validate sample_validate map_to_list p).
Proof.
  apply (accepted_projection sample_validate map_to_list (λ m, Permutation_refl _) unit bound_binding
    (mkLocalObjectReference "my-secret"));
    [exact bound_binding_accepted | discriminate | discriminate | reflexivity].
Defined.
