(* ===== verification/BindingReconciler.v ===== *)
(** * The [ServiceBinding] reconciler

    [pkg/reconciler/servicebinding/servicebinding.go]: [ReconcileKind] resolves the
    service's secret, then creates, updates or adopts the projection of the binding,
    and reports both in the binding's conditions.  The clock, the resolver's calls,
    the lister, the client and the recorder are calls to the environment. *)
From S2P Require Import Prelude Api Conditions Effects Projection Binding Resolver Resources.

(** [equality.Semantic.DeepEqual], at the types the reconciler compares. *)
Class SemanticEquality := {
  spec_equal : ServiceBindingProjectionSpec → ServiceBindingProjectionSpec → bool;
  map_equal : option smap → option smap → bool;
}.

(** Maps with the same entries: a nil map has none, like an empty one. *)
Definition same_map (m m' : option smap) : Prop := default ∅ m = default ∅ m'.

#[export] Instance same_map_equivalence : Equivalence same_map.
Proof. unfold same_map. split; congruence. Qed.

(** It does not tell a nil map from an empty one, unlike [reflect.DeepEqual]. *)
Class SemanticEqualityLaws `{SemanticEquality} := {
  spec_equal_refl s : spec_equal s s = true;
  map_equal_spec m m' : map_equal m m' = true ↔ same_map m m';
}.

#[export] Instance map_equal_proper `{SemanticEqualityLaws} :
  Proper (same_map ==> same_map ==> (=)) map_equal.
Proof. intros m1 m2 Hm n1 n2 Hn. apply eq_true_iff_eq. by rewrite !map_equal_spec, Hm, Hn. Qed.

(** For the examples: nil and empty maps are equal. *)
#[export] Instance real_equality : SemanticEquality := {|
  spec_equal s s' := bool_decide (s = s');
  map_equal m m' := bool_decide (default ∅ m = default ∅ m');
|}.

#[export] Instance real_equality_laws : SemanticEqualityLaws.
Proof. split; intros; apply bool_decide_eq_true. done. Qed.

Inductive binding_event `{Opaque} : Type :=
| EvNow (t : Time)
| EvResolver (e : resolver_event)
| EvGetProjection (namespace name : string) (r : result error ServiceBindingProjection)
| EvCreateProjection (namespace : string) (p : ServiceBindingProjection)
    (r : result error ServiceBindingProjection)
| EvUpdateProjection (namespace : string) (p : ServiceBindingProjection)
    (r : result error ServiceBindingProjection)
| EvRecord (eventtype reason message : string).

Record BindingEnv `{Opaque} (E : Type) := {
  env_now : list E → Time;
  env_resolver : ResolverEnv E;
  env_GetProjection : string → string → list E → result error ServiceBindingProjection;
  env_CreateProjection : string → ServiceBindingProjection → list E → result error ServiceBindingProjection;
  env_UpdateProjection : string → ServiceBindingProjection → list E → result error ServiceBindingProjection;
}.
Arguments env_now {_ _} _ _.
Arguments env_resolver {_ _} _.
Arguments env_GetProjection {_ _} _ _ _ _.
Arguments env_CreateProjection {_ _} _ _ _ _.
Arguments env_UpdateProjection {_ _} _ _ _ _.

Section reconciler.
Context `{Kmeta, !SchemaGuess, !SemanticEquality, !ConditionManager}.
Context {E : Type} (emit : binding_event → E) (env : BindingEnv E).
Implicit Types (binding : ServiceBinding) (projection : ServiceBindingProjection).

Local Open Scope effect_scope.

(** *** Calls *)
Definition now : M E Time := call (env_now env) (λ t, emit (EvNow t)).
Definition resolve : option Reference → ObjectMeta → M E (result error (option LocalObjectReference)) :=
  ServiceableFromObjectReference (λ e, emit (EvResolver e)) (env_resolver env).
Definition GetProjection (ns name : string) : M E (result error ServiceBindingProjection) :=
  call (env_GetProjection env ns name) (λ r, emit (EvGetProjection ns name r)).
Definition CreateProjection (ns : string) (p : ServiceBindingProjection)
    : M E (result error ServiceBindingProjection) :=
  call (env_CreateProjection env ns p) (λ r, emit (EvCreateProjection ns p r)).
Definition UpdateProjection (ns : string) (p : ServiceBindingProjection)
    : M E (result error ServiceBindingProjection) :=
  call (env_UpdateProjection env ns p) (λ r, emit (EvUpdateProjection ns p r)).
Definition Eventf (eventtype reason message : string) : M E unit :=
  call (λ _, tt) (λ _, emit (EvRecord eventtype reason message)).

Definition newReconciledNormal (namespace name : string) : Event :=
  AnEvent (mkReconcilerEvent EventTypeNormal "Reconciled"
    ("ServiceBinding reconciled: " +:+ quoted (namespace +:+ "/" +:+ name))).

(** The copy of a nil reference is nil, and the assignment to its field panics. *)
Definition provisionedSecret binding : M E (result error (option LocalObjectReference)) :=
  do! service := pure (deref (SBSpec_Service (SB_Spec binding))) in
  let serviceRef := Reference_set_Namespace service (Meta_Namespace (SB_Meta binding)) in
  resolve (Some serviceRef) (SB_Meta binding).

Definition createServiceBindingProjection binding : M E (result error ServiceBindingProjection) :=
  do! made := pure (MakeServiceBindingProjection binding) in
  match made with
  | Err err => ret (Err err)
  | Ok projection => CreateProjection (Meta_Namespace (SB_Meta binding)) projection
  end.

Definition serviceBindingProjectionSemanticEquals (desired existing : ServiceBindingProjection)
    : result error bool :=
  Ok (spec_equal (SBP_Spec desired) (SBP_Spec existing) &&
      map_equal (Meta_Labels (SBP_Meta desired)) (Meta_Labels (SBP_Meta existing)) &&
      map_equal (Meta_Annotations (SBP_Meta desired)) (Meta_Annotations (SBP_Meta existing))).

(** [existing] with the spec, the labels and the annotations of [desired]. *)
Definition withDesired (desired existing : ServiceBindingProjection) : ServiceBindingProjection :=
  mkSBP (Meta_set_Annotations
      (Meta_set_Labels (SBP_Meta existing) (Meta_Labels (SBP_Meta desired)))
      (Meta_Annotations (SBP_Meta desired)))
    (SBP_Spec desired) (SBP_Status existing).

Definition reconcileServiceBindingProjection binding projection
    : M E (result error ServiceBindingProjection) :=
  let existing := projection in
  do! made := pure (MakeServiceBindingProjection binding) in
  match made with
  | Err err => ret (Err err)
  | Ok desired =>
      match serviceBindingProjectionSemanticEquals desired existing with
      | Err err => ret (Err err)
      | Ok true => ret (Ok projection)
      | Ok false => UpdateProjection (Meta_Namespace (SB_Meta binding)) (withDesired desired existing)
      end
  end.

Definition serviceBindingProjection binding
    : M E (result error (option ServiceBindingProjection)) :=
  match SBStatus_Binding (SB_Status binding) with
  | None => ret (Ok None)
  | Some _ =>
      let name := ServiceBindingProjectionName binding in
      do! found := GetProjection (Meta_Namespace (SB_Meta binding)) name in
      match found with
      | Err err =>
          if IsNotFound err then
            do! created := createServiceBindingProjection binding in
            match created with
            | Err err =>
                do! _ := Eventf EventTypeWarning "CreationFailed"
                  ("Failed to create ServiceBindingProjection " +:+ quoted name +:+ ": " +:+ Error err) in
                ret (Err (Wrapped "failed to create ServiceBindingProjection: " err))
            | Ok projection =>
                do! _ := Eventf EventTypeNormal "Created"
                  ("Created ServiceBindingProjection " +:+ quoted name) in
                ret (Ok (Some projection))
            end
          else ret (Err (Wrapped "failed to get ServiceBindingProjection: " err))
      | Ok projection =>
          if negb (IsControlledBy (SBP_Meta projection) (SB_Meta binding)) then
            ret (Err (PlainError ("ServiceBinding " +:+ quoted (Meta_Name (SB_Meta binding)) +:+
              " does not own ServiceBindingProjection: " +:+ quoted name)))
          else
            do! reconciled := reconcileServiceBindingProjection binding projection in
            match reconciled with
            | Err err => ret (Err (Wrapped "failed to reconcile ServiceBindingProjection: " err))
            | Ok projection => ret (Ok (Some projection))
            end
      end
  end.

Definition set_SB_Status binding (status : ServiceBindingStatus) : ServiceBinding :=
  mkSB (SB_Meta binding) (SB_Spec binding) status.

(** The binding is the object the pointer leads to, as the call leaves it. *)
Definition ReconcileKind binding : M E (ServiceBinding * option Event) :=
  match Meta_DeletionTimestamp (SB_Meta binding) with
  | Some _ => ret (binding, None)
  | None =>
      do! t := now in
      let binding := set_SB_Status binding (SB.InitializeConditions t (SB_Status binding)) in
      do! resolved := provisionedSecret binding in
      match resolved with
      | Err err => ret (binding, Some (AnError err))
      | Ok secretRef =>
          let binding := set_SB_Status binding (SB.set_Binding (SB_Status binding) None) in
          do! binding :=
            match secretRef with
            | None => ret binding
            | Some secret =>
                let status := SB.set_Binding (SB_Status binding)
                  (Some (mkLocalObjectReference (LocalObjectReference_Name secret))) in
                do! status := pure (SB.MarkServiceAvailable t status) in
                ret (set_SB_Status binding status)
            end in
          do! projected := serviceBindingProjection binding in
          match projected with
          | Err err => ret (binding, Some (AnError err))
          | Ok projection =>
              do! status :=
                match projection with
                | None => ret (SB_Status binding)
                | Some _ =>
                    pure (SB.PropagateServiceBindingProjectionStatus projection t (SB_Status binding))
                end in
              let status := SB.set_ObservedGeneration status (Meta_Generation (SB_Meta binding)) in
              ret (set_SB_Status binding status,
                   Some (newReconciledNormal (Meta_Namespace (SB_Meta binding)) (Meta_Name (SB_Meta binding))))
          end
      end
  end.
End reconciler.
