(* ===== verification/BindingReconcilerFacts.v ===== *)
(** * What the [ServiceBinding] reconciler does

    The runs of the reconciler as relations between a binding, the calls it makes
    with their answers, and what it leaves: every branch, errors included.  The
    properties follow from the refinement of these relations. *)
From S2P Require Import Prelude Api Conditions Effects Projection Binding BindingFacts Resolver.
From S2P Require Import Resources Validation ValidationFacts BindingReconciler.

Section spec.
Context `{Kmeta, !SchemaGuess, !SemanticEquality, !ConditionManager}.
Implicit Types (binding : ServiceBinding) (p : ServiceBindingProjection).

Definition same_projection (desired existing : ServiceBindingProjection) : bool :=
  spec_equal (SBP_Spec desired) (SBP_Spec existing) &&
  map_equal (Meta_Labels (SBP_Meta desired)) (Meta_Labels (SBP_Meta existing)) &&
  map_equal (Meta_Annotations (SBP_Meta desired)) (Meta_Annotations (SBP_Meta existing)).

Definition ns binding : string := Meta_Namespace (SB_Meta binding).
Definition name binding : string := Meta_Name (SB_Meta binding).

(** The runs of [serviceBindingProjection] for a binding with a secret, when the
    projection to create is [desired]. *)
Inductive projects binding (desired : ServiceBindingProjection)
    : list binding_event → result error ServiceBindingProjection → Prop :=
| projects_created e p :
    IsNotFound e = true →
    projects binding desired
      [EvGetProjection (ns binding) (name binding) (Err e);
       EvCreateProjection (ns binding) desired (Ok p);
       EvRecord EventTypeNormal "Created" ("Created ServiceBindingProjection " +:+ quoted (name binding))]
      (Ok p)
| projects_create_failed e err :
    IsNotFound e = true →
    projects binding desired
      [EvGetProjection (ns binding) (name binding) (Err e);
       EvCreateProjection (ns binding) desired (Err err);
       EvRecord EventTypeWarning "CreationFailed"
         ("Failed to create ServiceBindingProjection " +:+ quoted (name binding) +:+ ": " +:+ Error err)]
      (Err (Wrapped "failed to create ServiceBindingProjection: " err))
| projects_get_failed e :
    IsNotFound e = false →
    projects binding desired [EvGetProjection (ns binding) (name binding) (Err e)]
      (Err (Wrapped "failed to get ServiceBindingProjection: " e))
| projects_foreign p :
    IsControlledBy (SBP_Meta p) (SB_Meta binding) = false →
    projects binding desired [EvGetProjection (ns binding) (name binding) (Ok p)]
      (Err (PlainError ("ServiceBinding " +:+ quoted (name binding) +:+
        " does not own ServiceBindingProjection: " +:+ quoted (name binding))))
| projects_current p :
    IsControlledBy (SBP_Meta p) (SB_Meta binding) = true → same_projection desired p = true →
    projects binding desired [EvGetProjection (ns binding) (name binding) (Ok p)] (Ok p)
| projects_updated p p' :
    IsControlledBy (SBP_Meta p) (SB_Meta binding) = true → same_projection desired p = false →
    projects binding desired
      [EvGetProjection (ns binding) (name binding) (Ok p);
       EvUpdateProjection (ns binding) (withDesired desired p) (Ok p')] (Ok p')
| projects_update_failed p err :
    IsControlledBy (SBP_Meta p) (SB_Meta binding) = true → same_projection desired p = false →
    projects binding desired
      [EvGetProjection (ns binding) (name binding) (Ok p);
       EvUpdateProjection (ns binding) (withDesired desired p) (Err err)]
      (Err (Wrapped "failed to reconcile ServiceBindingProjection: " err)).

(** The binding once its service is resolved to secret [s] at time [t]. *)
Definition available binding (t : Time) (s : LocalObjectReference) binding' : Prop :=
  ∃ status, SB.MarkServiceAvailable t (SB.set_Binding
      (SB.InitializeConditions t (SB_Status binding)) (Some (mkLocalObjectReference (LocalObjectReference_Name s))))
    = Done status ∧ binding' = set_SB_Status binding status.

(** The service the binding refers to, in the binding's namespace. *)
Definition serviceRef binding (service : Reference) : Reference :=
  Reference_set_Namespace service (ns binding).

(** The runs of [ReconcileKind]. *)
Inductive reconciles binding (service : Reference)
    : list binding_event → ServiceBinding → option Event → Prop :=
| reconciles_deleted d :
    Meta_DeletionTimestamp (SB_Meta binding) = Some d →
    reconciles binding service [] binding None
| reconciles_unresolved t calls err :
    Meta_DeletionTimestamp (SB_Meta binding) = None →
    resolves (serviceRef binding service) (SB_Meta binding) calls (Err err) →
    reconciles binding service (EvNow t :: map EvResolver calls)
      (set_SB_Status binding (SB.InitializeConditions t (SB_Status binding))) (Some (AnError err))
| reconciles_unprojected t calls s binding' desired calls' err :
    Meta_DeletionTimestamp (SB_Meta binding) = None →
    resolves (serviceRef binding service) (SB_Meta binding) calls (Ok (Some s)) →
    available binding t s binding' →
    MakeServiceBindingProjection (Err := error) binding' = Done (Ok desired) →
    projects binding' desired calls' (Err err) →
    reconciles binding service (EvNow t :: map EvResolver calls ++ calls') binding' (Some (AnError err))
| reconciles_projected t calls s binding' desired calls' p status :
    Meta_DeletionTimestamp (SB_Meta binding) = None →
    resolves (serviceRef binding service) (SB_Meta binding) calls (Ok (Some s)) →
    available binding t s binding' →
    MakeServiceBindingProjection (Err := error) binding' = Done (Ok desired) →
    projects binding' desired calls' (Ok p) →
    SB.PropagateServiceBindingProjectionStatus (Some p) t (SB_Status binding') = Done status →
    reconciles binding service (EvNow t :: map EvResolver calls ++ calls')
      (set_SB_Status binding' (SB.set_ObservedGeneration status (Meta_Generation (SB_Meta binding'))))
      (Some (newReconciledNormal (ns binding') (name binding'))).
End spec.

(** The run in the goal is the one that constructor [c] describes. *)
Ltac run_case c :=
  do 2 eexists; (split; [|split; [eapply c; eassumption|solve_answers]]);
  cbn; rewrite <- ?(assoc_L (++)); reflexivity.

Section refinement.
Context `{KmetaLaws, !SchemaGuess, !SemanticEquality, !ConditionManager}.
Context {E : Type} (emit : binding_event → E) (env : BindingEnv E).
Implicit Types (binding : ServiceBinding) (p : ServiceBindingProjection).

(** The result of a call is the environment's answer at some time. *)
Definition answers (e : binding_event) : Prop :=
  match e with
  | EvNow t => ∃ log, env_now env log = t
  | EvResolver e => resolver_answers (env_resolver env) e
  | EvGetProjection ns name r => ∃ log, env_GetProjection env ns name log = r
  | EvCreateProjection ns p r => ∃ log, env_CreateProjection env ns p log = r
  | EvUpdateProjection ns p r => ∃ log, env_UpdateProjection env ns p log = r
  | EvRecord _ _ _ => True
  end.

Lemma projection_run binding desired log :
  is_Some (SBStatus_Binding (SB_Status binding)) →
  MakeServiceBindingProjection (Err := error) binding = Done (Ok desired) →
  ∃ new r, serviceBindingProjection emit env binding log =
      (Done (match r with Ok p => Ok (Some p) | Err e => Err e end), log ++ map emit new) ∧
    projects binding desired new r ∧ Forall answers new.
Proof.
  intros [s Hs] Hmake. unfold serviceBindingProjection. rewrite Hs.
  unfold GetProjection. rewrite bind_call.
  change (ServiceBindingProjectionName binding) with (name binding). fold (ns binding).
  destruct (env_GetProjection _ _ _ _) as [p|e] eqn:Hget.
  - destruct (IsControlledBy (SBP_Meta p) (SB_Meta binding)) eqn:Hc; cbn [negb];
      [|by run_case projects_foreign].
    unfold reconcileServiceBindingProjection. rewrite Hmake, bind_pure_l.
    unfold serviceBindingProjectionSemanticEquals. fold (same_projection desired p).
    destruct (same_projection desired p) eqn:He; [by run_case projects_current|].
    unfold UpdateProjection. rewrite bind_call.
    destruct (env_UpdateProjection _ _ _ _) as [p'|err] eqn:Hu;
      [by run_case projects_updated|by run_case projects_update_failed].
  - destruct (IsNotFound e) eqn:Hn; [|by run_case projects_get_failed].
    unfold createServiceBindingProjection. rewrite Hmake, bind_pure_l.
    unfold CreateProjection. rewrite bind_call.
    destruct (env_CreateProjection _ _ _ _) as [p'|err] eqn:Hcr;
      [by run_case projects_created|by run_case projects_create_failed].
Qed.

Lemma initialize_conds t bs : ∃ r s pr, conds3 (SB.InitializeConditions t bs) r s pr.
Proof. unfold conds3, SB.InitializeConditions. rewrite foldl_lastOfType. eauto. Qed.

Lemma available_Done binding t s :
  ∃ status r c pr, SB.MarkServiceAvailable t (SB.set_Binding
      (SB.InitializeConditions t (SB_Status binding)) (Some s)) = Done status ∧
    conds3 status r c pr ∧ MC_Status c = ConditionTrue ∧ SBStatus_Binding status = Some s ∧
    SBStatus_ObservedGeneration status = SBStatus_ObservedGeneration (SB_Status binding).
Proof.
  destruct (initialize_conds t (SB_Status binding)) as (r & c & pr & Hc).
  rewrite (MarkServiceAvailable_eq t _ r c pr) by exact Hc. do 4 eexists. split; [reflexivity|].
  split_and!; [reflexivity|reflexivity|reflexivity|].
  unfold SB.InitializeConditions. by rewrite foldl_lastOfType.
Qed.

Lemma available_frame binding t s b' :
  available binding t s b' →
  SB_Meta b' = SB_Meta binding ∧ SB_Spec b' = SB_Spec binding ∧
  SBStatus_Binding (SB_Status b') = Some (mkLocalObjectReference (LocalObjectReference_Name s)) ∧
  SBStatus_ObservedGeneration (SB_Status b') = SBStatus_ObservedGeneration (SB_Status binding) ∧
  ∃ r c pr, conds3 (SB_Status b') r c pr ∧ MC_Status c = ConditionTrue.
Proof.
  intros (status & Hst & ->).
  destruct (available_Done binding t (mkLocalObjectReference (LocalObjectReference_Name s)))
    as (status' & r & c & pr & Hst' & Hc & Ht & Hb & Hg).
  assert (status' = status) as -> by congruence. split_and!; try done. eauto.
Qed.

Lemma reconcile_run binding service workload log :
  SBSpec_Service (SB_Spec binding) = Some service →
  SBSpec_Workload (SB_Spec binding) = Some workload →
  ∃ new binding' ev, ReconcileKind emit env binding log = (Done (binding', ev), log ++ map emit new) ∧
    reconciles binding service new binding' ev ∧ Forall answers new.
Proof.
  intros Hsvc Hwl. unfold ReconcileKind.
  destruct (Meta_DeletionTimestamp (SB_Meta binding)) as [d|] eqn:Hd.
  { exists [], binding, None. rewrite app_nil_r. split_and!; [done|by econstructor|constructor]. }
  unfold now. rewrite bind_call. set (t := env_now env log).
  unfold provisionedSecret. cbn [SB_Spec set_SB_Status SB_Meta]. rewrite Hsvc. cbn [deref]. rewrite bind_pure_l.
  fold (ns binding) (serviceRef binding service). unfold resolve.
  destruct (resolve_run (λ e, emit (EvResolver e)) (env_resolver env) (serviceRef binding service)
    (SB_Meta binding) (log ++ [emit (EvNow t)])) as (calls & r & Hrun & Hres & Hans).
  assert (Forall answers (EvNow t :: map EvResolver calls)) as Hans'
    by (constructor; [by eexists|by apply Forall_map]).
  rewrite (bind_Done _ _ _ _ _ Hrun). clear Hrun.
  destruct r as [[s|]|err]; [|by inversion Hres|].
  2: { do 3 eexists. split; [|split; [by eapply reconciles_unresolved|done]].
       cbn. by rewrite map_map, <- (assoc_L (++)). }
  destruct (available_Done binding t (mkLocalObjectReference (LocalObjectReference_Name s)))
    as (status & r & c & p & Hst & Hconds & _ & Hb & _).
  match type of Hst with ?marked = _ =>
    match goal with |- context [@pure _ _ ?m] => change m with marked end end.
  rewrite Hst, bind_pure_l.
  match goal with |- context [@ret _ _ (set_SB_Status ?b status)] =>
    change (set_SB_Status b status) with (set_SB_Status binding status) end.
  rewrite bind_ret.
  set (binding' := set_SB_Status binding status).
  assert (available binding t s binding') as Hav by (by exists status).
  destruct (Make_Done (Err := error) binding' _ workload Hb Hwl) as (desired & Hmake & _).
  destruct (projection_run binding' desired
    ((log ++ [emit (EvNow t)]) ++ map (λ e, emit (EvResolver e)) calls)) as (calls' & r' & Hrun & Hprj & Hans'');
    [by eexists|done|].
  rewrite (bind_Done _ _ _ _ _ Hrun). clear Hrun.
  assert (∀ new, ((log ++ [emit (EvNow t)]) ++ map (λ e, emit (EvResolver e)) calls) ++ map emit new =
    log ++ map emit (EvNow t :: map EvResolver calls ++ new)) as Hlog.
  { intros new. cbn. rewrite map_app, map_map, <- !(assoc_L (++)). done. }
  assert (Forall answers (EvNow t :: map EvResolver calls ++ calls')) as Hall
    by (change (Forall answers ((EvNow t :: map EvResolver calls) ++ calls')); by apply Forall_app).
  destruct r' as [p'|err].
  - pose proof (Propagate_eq p' t status _ _ _ Hconds) as Hprop.
    change (SB_Status binding') with status. rewrite Hprop.
    rewrite bind_pure. do 3 eexists. split; [by rewrite Hlog|].
    split; [by eapply reconciles_projected|done].
  - do 3 eexists. split; [by rewrite Hlog|]. split; [by eapply reconciles_unprojected|done].
Qed.

(** ** Properties *)

(** C5: refinement: for a binding with a service and a workload, as validation
    demands, [ReconcileKind] never panics, whatever the environment answers; its
    calls, the binding it leaves and its event are one of the runs of
    [reconciles].  Without a service it panics. *)
Theorem ReconcileKind_refines binding log :
  (∀ service workload,
    SBSpec_Service (SB_Spec binding) = Some service →
    SBSpec_Workload (SB_Spec binding) = Some workload →
    ∃ new binding' ev,
      ReconcileKind emit env binding log = (Done (binding', ev), log ++ map emit new) ∧
      reconciles binding service new binding' ev) ∧
  (SBSpec_Service (SB_Spec binding) = None → Meta_DeletionTimestamp (SB_Meta binding) = None →
    (ReconcileKind emit env binding log).1 = Panic).
Proof.
  split.
  - intros service workload Hs Hw.
    destruct (reconcile_run binding service workload log Hs Hw) as (new & b' & ev & Hrun & Hrec & _).
    eauto.
  - intros Hs Hd. unfold ReconcileKind. rewrite Hd. unfold now. rewrite bind_call.
    unfold provisionedSecret. cbn [SB_Spec set_SB_Status]. by rewrite Hs.
Qed.

Definition is_write (e : binding_event) : bool :=
  match e with EvCreateProjection _ _ _ | EvUpdateProjection _ _ _ => true | _ => false end.

Definition writes (es : list binding_event) : list binding_event := List.filter is_write es.

Lemma writes_calls t calls calls' : writes (EvNow t :: map EvResolver calls ++ calls') = writes calls'.
Proof.
  unfold writes. cbn. rewrite List.filter_app. induction calls as [|c calls IH]; [done|exact IH].
Qed.

(** What the binding asks of its projection, with [secret] as the secret of its service. *)
Record wanted binding (secret : LocalObjectReference) p : Prop := {
  wanted_spec : ∃ workload, SBSpec_Workload (SB_Spec binding) = Some workload ∧
    SBP_Spec p = mkSBPSpec (SBSpec_Name (SB_Spec binding)) (SBSpec_Type (SB_Spec binding))
      (SBSpec_Provider (SB_Spec binding)) secret workload (SBSpec_Env (SB_Spec binding));
  wanted_labels : ∀ k, default ∅ (Meta_Labels (SBP_Meta p)) !! k =
    if decide (k = ServiceBindingLabelKey) then Some (name binding)
    else default ∅ (Meta_Labels (SB_Meta binding)) !! k;
  wanted_annotations : ∀ k, default ∅ (Meta_Annotations (SBP_Meta p)) !! k =
    if Contains k SB.GroupName then default ∅ (Meta_Annotations (SB_Meta binding)) !! k else None;
}.

Lemma Make_wanted binding secret p :
  SBStatus_Binding (SB_Status binding) = Some secret →
  MakeServiceBindingProjection (Err := error) binding = Done (Ok p) →
  wanted binding secret p ∧ Meta_Name (SBP_Meta p) = name binding ∧
  Meta_Namespace (SBP_Meta p) = ns binding ∧ IsControlledBy (SBP_Meta p) (SB_Meta binding) = true.
Proof.
  intros Hs Hm. destruct (SBSpec_Workload (SB_Spec binding)) as [w|] eqn:Hw;
    [|by unfold MakeServiceBindingProjection in Hm; rewrite Hs, Hw in Hm].
  destruct (Make_Done (Err := error) _ _ _ Hs Hw) as (q & Hq & Hspec & _ & Hn & Hns & Hl & Ha & Ho).
  assert (q = p) as -> by congruence. split_and!; [split|done|done|].
  - by exists w.
  - intros k. rewrite Hl, UnionMaps_lookup. cbn [default from_option id].
    case_decide; [subst; by rewrite lookup_singleton_eq|by rewrite lookup_singleton_ne by done].
  - intros k. rewrite Ha. cbn [default from_option id]. apply copyAnnotations_lookup.
  - erewrite IsControlledBy_new by exact Ho. by apply bool_decide_eq_true.
Qed.

(** A write is a creation of what the binding asks for, after the lookup found nothing,
    or an update of a projection that the lookup found and the binding controls, to what
    the binding asks for when that differs; its status and its other metadata are sent
    back as they were found. *)
Definition write_allowed binding (secret : LocalObjectReference) (es : list binding_event)
    (e : binding_event) : Prop :=
  match e with
  | EvCreateProjection n p _ =>
      n = ns binding ∧ Meta_Name (SBP_Meta p) = name binding ∧ Meta_Namespace (SBP_Meta p) = ns binding ∧
      IsControlledBy (SBP_Meta p) (SB_Meta binding) = true ∧ wanted binding secret p ∧
      ∃ err, EvGetProjection (ns binding) (name binding) (Err err) ∈ es ∧ IsNotFound err = true
  | EvUpdateProjection n p _ =>
      n = ns binding ∧ wanted binding secret p ∧
      ∃ existing, EvGetProjection (ns binding) (name binding) (Ok existing) ∈ es ∧
        IsControlledBy (SBP_Meta existing) (SB_Meta binding) = true ∧ same_projection p existing = false ∧
        SBP_Status p = SBP_Status existing ∧
        Meta_set_Labels (Meta_set_Annotations (SBP_Meta p) None) None =
          Meta_set_Labels (Meta_set_Annotations (SBP_Meta existing) None) None
  | _ => True
  end.

Lemma wanted_ext b b' secret p :
  SB_Meta b = SB_Meta b' → SB_Spec b = SB_Spec b' → wanted b secret p → wanted b' secret p.
Proof. intros Hm Hs [Hspec Hl Ha]. unfold name in *. rewrite Hm in *. rewrite Hs in *. by split. Qed.

Lemma write_allowed_weaken b b' secret es es' e :
  SB_Meta b = SB_Meta b' → SB_Spec b = SB_Spec b' → (∀ x, x ∈ es → x ∈ es') →
  write_allowed b secret es e → write_allowed b' secret es' e.
Proof.
  intros Hm Hs Hsub. destruct e; cbn; try done.
  - intros (? & ? & ? & ? & ?%(wanted_ext _ _ _ _ Hm Hs) & err & Hin & ?). unfold ns, name in *. rewrite <- Hm.
    split_and!; try done. exists err. auto.
  - intros (? & ?%(wanted_ext _ _ _ _ Hm Hs) & existing & Hin & ? & ? & ?). unfold ns, name in *. rewrite <- Hm.
    split_and!; [done|done|]. exists existing. auto.
Qed.

Lemma projects_writes binding secret desired new r :
  SBStatus_Binding (SB_Status binding) = Some secret →
  MakeServiceBindingProjection (Err := error) binding = Done (Ok desired) →
  projects binding desired new r →
  length (writes new) ≤ 1 ∧ Forall (write_allowed binding secret new) (writes new).
Proof.
  intros Hs Hmake Hp. destruct (Make_wanted _ _ _ Hs Hmake) as (Hwant & Hn & Hns & Hc).
  assert (∀ q, wanted binding secret (withDesired desired q)) as Hwith by (intros q; by destruct Hwant).
  destruct Hp; unfold writes; cbn [List.filter is_write length]; (split; [lia|]);
    first [by apply Forall_nil | apply Forall_cons; split; [|by apply Forall_nil]]; cbn [write_allowed].
  - split_and!; try done. eexists. split; [by left|done].
  - split_and!; try done. eexists. split; [by left|done].
  - split; [done|]. split; [done|]. exists p. split_and!; [by left|done|done|done|done].
  - split; [done|]. split; [done|]. exists p. split_and!; [by left|done|done|done|done].
Qed.

(** The calls of the resolver among those of a reconciliation. *)
Definition resolver_calls (es : list binding_event) : list resolver_event :=
  omap (λ e, match e with EvResolver e => Some e | _ => None end) es.

(** These calls found the secret of the service. *)
Definition resolved_to binding service (es : list binding_event) (secret : LocalObjectReference) : Prop :=
  resolves (serviceRef binding service) (SB_Meta binding) (resolver_calls es) (Ok (Some secret)).

Lemma projects_resolver_calls binding desired new r :
  projects binding desired new r → resolver_calls new = [].
Proof. by intros []. Qed.

Lemma resolver_calls_run t calls b desired new r :
  projects b desired new r → resolver_calls (EvNow t :: map EvResolver calls ++ new) = calls.
Proof.
  intros Hp. unfold resolver_calls. cbn. rewrite omap_app. fold (resolver_calls new).
  rewrite (projects_resolver_calls _ _ _ _ Hp), app_nil_r. by induction calls as [|c calls IH]; cbn; f_equal.
Qed.

(** C15: safety of the writes: reconciling a binding writes at most one projection, and
    that only after the service was resolved to a secret.  It creates one only after the
    lookup found none, and then one with the binding's name and namespace that the
    binding controls, whose spec, labels and annotations are those that the binding asks
    for with that secret; it updates one only if the lookup found it, the binding
    controls it and it differs from what the binding asks for, and then sends it back
    with that spec and those labels and annotations, and nothing else changed.  A
    projection that another object controls is never written. *)
Theorem ReconcileKind_writes binding service workload log :
  SBSpec_Service (SB_Spec binding) = Some service →
  SBSpec_Workload (SB_Spec binding) = Some workload →
  ∃ new, (ReconcileKind emit env binding log).2 = log ++ map emit new ∧
    length (writes new) ≤ 1 ∧
    ∀ e, e ∈ writes new → ∃ s, resolved_to binding service new s ∧
      write_allowed binding (mkLocalObjectReference (LocalObjectReference_Name s)) new e.
Proof.
  intros Hs Hw. destruct (reconcile_run binding service workload log Hs Hw)
    as (new & b' & ev & Hrun & Hrec & _).
  exists new. rewrite Hrun. split; [done|].
  assert (∀ t calls s b' desired calls' r,
    resolves (serviceRef binding service) (SB_Meta binding) calls (Ok (Some s)) → available binding t s b' →
    MakeServiceBindingProjection (Err := error) b' = Done (Ok desired) → projects b' desired calls' r →
    length (writes (EvNow t :: map EvResolver calls ++ calls')) ≤ 1 ∧
    ∀ e, e ∈ writes (EvNow t :: map EvResolver calls ++ calls') →
      ∃ s, resolved_to binding service (EvNow t :: map EvResolver calls ++ calls') s ∧
        write_allowed binding (mkLocalObjectReference (LocalObjectReference_Name s))
          (EvNow t :: map EvResolver calls ++ calls') e) as Hend.
  { intros t calls s b2 desired calls' r Hres Hav Hm Hp.
    destruct (available_frame _ _ _ _ Hav) as (Hmeta & Hspec & Hb & _).
    destruct (projects_writes _ _ _ _ _ Hb Hm Hp) as [Hlen Hall]. rewrite writes_calls. split; [done|].
    intros e He. rewrite Forall_forall in Hall. exists s. split.
    - unfold resolved_to. by rewrite (resolver_calls_run _ _ _ _ _ _ Hp).
    - apply (write_allowed_weaken b2 _ _ calls'); [done|done| |by apply Hall].
      intros x Hx. right. apply elem_of_app. by right. }
  destruct Hrec as [d Hd|t calls err Hd Hres|t calls s b' desired calls' err Hd Hres Hav Hm Hp
    |t calls s b' desired calls' p status Hd Hres Hav Hm Hp Hprop].
  - split; [cbn; lia|]. by intros e ?%elem_of_nil.
  - rewrite <- (app_nil_r (map EvResolver calls)), writes_calls.
    split; [cbn; lia|]. by intros e ?%elem_of_nil.
  - by eapply Hend.
  - by eapply Hend.
Qed.

(** What the projection asked for depends on: metadata, spec and secret. *)
Lemma Make_ext {Err} b b' :
  SB_Meta b = SB_Meta b' → SB_Spec b = SB_Spec b' →
  SBStatus_Binding (SB_Status b) = SBStatus_Binding (SB_Status b') →
  MakeServiceBindingProjection (Err := Err) b = MakeServiceBindingProjection b'.
Proof.
  intros Hm Hs Hb. unfold MakeServiceBindingProjection, ServiceBindingProjectionName,
    SB.GetGroupVersionKind. by rewrite Hm, Hs, Hb.
Qed.

Lemma propagate_frame bp t bs bs' r c pr :
  conds3 bs r c pr → SB.PropagateServiceBindingProjectionStatus (Some bp) t bs = Done bs' →
  SBStatus_Binding bs' = SBStatus_Binding bs ∧ ∃ r' pr', conds3 bs' r' c pr' ∧ says pr' (projected bp).
Proof.
  intros Hc Hp. rewrite (Propagate_eq _ _ _ _ _ _ Hc) in Hp. injection Hp as <-.
  split; [done|]. do 2 eexists. split; [reflexivity|]. done.
Qed.
End refinement.

(** The API server stored what was sent: the fields the controller compares, and
    the owner references.  Of an empty map it may store none: its fields are left out of
    the JSON when they are empty. *)
Definition persisted `{Opaque} (sent stored : ServiceBindingProjection) : Prop :=
  SBP_Spec stored = SBP_Spec sent ∧
  same_map (Meta_Labels (SBP_Meta stored)) (Meta_Labels (SBP_Meta sent)) ∧
  same_map (Meta_Annotations (SBP_Meta stored)) (Meta_Annotations (SBP_Meta sent)) ∧
  Meta_OwnerReferences (SBP_Meta stored) = Meta_OwnerReferences (SBP_Meta sent).

Section convergence.
Context `{KmetaLaws, !SchemaGuess, SE : SemanticEquality, !SemanticEqualityLaws, !ConditionManager}.
Context {E : Type} (emit : binding_event → E).
Implicit Types (binding : ServiceBinding) (p : ServiceBindingProjection).

(** The projection [p] is what binding [b] asks for. *)
Definition up_to_date b p : Prop :=
  IsControlledBy (SBP_Meta p) (SB_Meta b) = true ∧
  ∃ desired, MakeServiceBindingProjection (Err := error) b = Done (Ok desired) ∧
    SBP_Spec p = SBP_Spec desired ∧ same_map (Meta_Labels (SBP_Meta p)) (Meta_Labels (SBP_Meta desired)) ∧
    same_map (Meta_Annotations (SBP_Meta p)) (Meta_Annotations (SBP_Meta desired)).

Lemma projects_up_to_date binding desired new r sent stored :
  MakeServiceBindingProjection (Err := error) binding = Done (Ok desired) →
  projects binding desired new r →
  EvCreateProjection (ns binding) sent (Ok stored) ∈ new ∨
    EvUpdateProjection (ns binding) sent (Ok stored) ∈ new →
  persisted sent stored → up_to_date binding stored.
Proof.
  intros Hmake Hp Hin (Hspec & Hl & Ha & Ho).
  destruct (SBStatus_Binding (SB_Status binding)) as [secret|] eqn:Hs;
    [|by unfold MakeServiceBindingProjection in Hmake; rewrite Hs in Hmake].
  pose proof (projects_writes _ _ _ _ _ Hs Hmake Hp) as [_ Hall].
  destruct Hp; repeat setoid_rewrite elem_of_cons in Hin; setoid_rewrite elem_of_nil in Hin;
    destruct Hin as [Hin|Hin]; repeat (destruct Hin as [Hin|Hin]; try discriminate Hin);
    try done; injection Hin as -> ->; unfold writes in Hall; cbn in Hall;
    apply Forall_cons in Hall as [Hw _]; cbn in Hw; split.
  - rewrite (IsControlledBy_refs _ _ _ Ho). apply Hw.
  - by exists desired.
  - rewrite (IsControlledBy_refs _ (SBP_Meta p) _ Ho). done.
  - by exists desired.
Qed.

Lemma answers_calls (env : BindingEnv E) calls :
  Forall (answers env) (map EvResolver calls) ↔ Forall (resolver_answers (env_resolver env)) calls.
Proof.
  induction calls as [|c calls IH]; [done|]. cbn [map]. by rewrite !Forall_cons, IH.
Qed.

Lemma up_to_date_same b p desired :
  up_to_date b p → MakeServiceBindingProjection (Err := error) b = Done (Ok desired) →
  same_projection desired p = true.
Proof.
  intros [_ (d & Hd & Hspec & Hl & Ha)] Hm. assert (d = desired) as -> by congruence.
  unfold same_projection. rewrite Hspec, spec_equal_refl.
  by rewrite !(proj2 (map_equal_spec _ _)) by (symmetry; done).
Qed.

Lemma projects_found (env : BindingEnv E) binding desired new r p :
  projects binding desired new r → Forall (answers env) new →
  (∀ log, env_GetProjection env (ns binding) (name binding) log = Ok p) →
  IsControlledBy (SBP_Meta p) (SB_Meta binding) = true → same_projection desired p = true →
  r = Ok p ∧ writes new = [].
Proof.
  intros Hp Hans Hget Hc Hsame.
  destruct Hp; apply Forall_cons in Hans as [[l Hl] _]; rewrite Hget in Hl;
    injection Hl as <- || discriminate Hl; try congruence; done.
Qed.

Lemma reconcile_up_to_date (env : BindingEnv E) binding service workload s p log :
  SBSpec_Service (SB_Spec binding) = Some service →
  SBSpec_Workload (SB_Spec binding) = Some workload →
  Meta_DeletionTimestamp (SB_Meta binding) = None →
  publishes (env_resolver env) (serviceRef binding service) (SB_Meta binding) s →
  SBStatus_Binding (SB_Status binding) = Some (mkLocalObjectReference (LocalObjectReference_Name s)) →
  (∀ log, env_GetProjection env (ns binding) (name binding) log = Ok p) →
  up_to_date binding p →
  ∃ new binding', ReconcileKind emit env binding log =
      (Done (binding', Some (newReconciledNormal (ns binding) (name binding))), log ++ map emit new) ∧
    writes new = [].
Proof.
  intros Hs Hw Hd Hpub Hb Hget Hup. pose proof Hup as [Hc _].
  destruct (reconcile_run emit env binding service workload log Hs Hw)
    as (new & b' & ev & Hrun & Hrec & Hans).
  assert (∀ t calls s' b' desired calls' r,
    Forall (answers env) (EvNow t :: map EvResolver calls ++ calls') →
    resolves (serviceRef binding service) (SB_Meta binding) calls (Ok (Some s')) →
    available binding t s' b' → MakeServiceBindingProjection (Err := error) b' = Done (Ok desired) →
    projects b' desired calls' r → r = Ok p ∧ writes calls' = []) as Hend.
  { clear Hrun Hrec Hans new b' ev. intros t calls s' b' desired calls' r Hans Hres Hav Hm Hp.
    apply Forall_cons in Hans as [_ [Hans%answers_calls Hans']%Forall_app].
    pose proof (resolves_published _ _ _ _ _ _ Hpub Hres Hans) as [= ->].
    destruct (available_frame _ _ _ _ Hav) as (Hmeta & Hspec & Hb' & _).
    rewrite (Make_ext b' binding Hmeta Hspec) in Hm by congruence.
    eapply (projects_found env b' desired); eauto using up_to_date_same;
      unfold ns, name; by rewrite Hmeta. }
  destruct Hrec as [d Hd'|t calls err _ Hres|t calls s' b' desired calls' err _ Hres Hav Hm Hp
    |t calls s' b' desired calls' p' status _ Hres Hav Hm Hp Hprop].
  - congruence.
  - apply Forall_cons in Hans as [_ Hans%answers_calls].
    by pose proof (resolves_published _ _ _ _ _ _ Hpub Hres Hans).
  - by destruct (Hend _ _ _ _ _ _ _ Hans Hres Hav Hm Hp).
  - destruct (Hend _ _ _ _ _ _ _ Hans Hres Hav Hm Hp) as [_ Hwr].
    destruct (available_frame _ _ _ _ Hav) as (Hmeta & _).
    do 2 eexists. rewrite writes_calls. split; [|exact Hwr].
    unfold ns, name in *. rewrite <- Hmeta. exact Hrun.
Qed.

(** Convergence: once the API server has stored what a reconciliation wrote,
    and while the service publishes the same secret, reconciling the binding
    again writes nothing and succeeds. *)
Theorem ReconcileKind_converges (env : BindingEnv E) binding service workload log :
  SBSpec_Service (SB_Spec binding) = Some service →
  SBSpec_Workload (SB_Spec binding) = Some workload →
  Meta_DeletionTimestamp (SB_Meta binding) = None →
  ∃ new b1 ev, ReconcileKind emit env binding log = (Done (b1, ev), log ++ map emit new) ∧
    ∀ sent stored,
      EvCreateProjection (ns binding) sent (Ok stored) ∈ new ∨
        EvUpdateProjection (ns binding) sent (Ok stored) ∈ new →
      persisted sent stored →
      ∀ env' s log',
        publishes (env_resolver env') (serviceRef binding service) (SB_Meta binding) s →
        SBStatus_Binding (SB_Status b1) = Some (mkLocalObjectReference (LocalObjectReference_Name s)) →
        (∀ log, env_GetProjection env' (ns binding) (name binding) log = Ok stored) →
        ∃ new' b2, ReconcileKind emit env' b1 log' =
            (Done (b2, Some (newReconciledNormal (ns binding) (name binding))), log' ++ map emit new') ∧
          writes new' = [].
Proof.
  intros Hs Hw Hd. destruct (reconcile_run emit env binding service workload log Hs Hw)
    as (new & b1 & ev & Hrun & Hrec & _).
  exists new, b1, ev. split; [exact Hrun|]. intros sent stored Hin Hper env' s log' Hpub Hb Hget.
  assert (∃ t calls s' b' desired calls' r, new = EvNow t :: map EvResolver calls ++ calls' ∧
    available binding t s' b' ∧ MakeServiceBindingProjection (Err := error) b' = Done (Ok desired) ∧
    projects b' desired calls' r ∧ SB_Meta b1 = SB_Meta b' ∧ SB_Spec b1 = SB_Spec b' ∧
    SBStatus_Binding (SB_Status b1) = SBStatus_Binding (SB_Status b'))
    as (t & calls & s' & b' & desired & calls' & r & -> & Hav & Hm & Hp & Hm1 & Hs1 & Hb1).
  { clear Hrun. destruct Hrec as [d Hd'|t calls err _ Hres|t calls s' b' desired calls' err _ Hres Hav Hm Hp
      |t calls s' b' desired calls' p' status _ Hres Hav Hm Hp Hprop].
    - destruct Hin as [?%elem_of_nil|?%elem_of_nil]; done.
    - exfalso. rewrite !elem_of_cons, !list_elem_of_fmap in Hin. naive_solver.
    - do 7 eexists. by split_and!.
    - do 7 eexists. split_and!; [reflexivity|exact Hav|exact Hm|exact Hp|done|done|].
      destruct (available_frame _ _ _ _ Hav) as (_ & _ & _ & _ & r & c & pr & Hc & _).
      by destruct (propagate_frame _ _ _ _ _ _ _ Hc Hprop) as [Heq _]. }
  destruct (available_frame _ _ _ _ Hav) as (Hmeta & Hspec & _ & _ & _).
  assert (up_to_date b' stored) as [Hc (d & Hd' & Hrest)].
  { eapply projects_up_to_date; [exact Hm|exact Hp| |exact Hper].
    rewrite !elem_of_cons, !elem_of_app, !list_elem_of_fmap in Hin.
    unfold ns, name in *. rewrite Hmeta. naive_solver. }
  assert (SB_Meta b1 = SB_Meta binding) as Hm1' by congruence.
  assert (SB_Spec b1 = SB_Spec binding) as Hs1' by congruence.
  pose proof (reconcile_up_to_date env' b1 service workload s stored log') as Hgo.
  unfold serviceRef, ns, name in *. rewrite Hm1', Hs1' in Hgo.
  refine (Hgo Hs Hw Hd Hpub Hb Hget _). split; [congruence|]. exists d. split; [|done].
  by rewrite (Make_ext b1 b').
Qed.
End convergence.
Section status.
Context `{KmetaLaws, !SchemaGuess, SE : SemanticEquality, !ConditionManager}.
Context {E : Type} (emit : binding_event → E).
Implicit Types (binding : ServiceBinding).

(** The projection that a reconciliation ends with: the one that the server answered to
    its write, or, without a write, the one that the lookup found. *)
Definition ends_with binding (es : list binding_event) (p : ServiceBindingProjection) : Prop :=
  match writes es with
  | [] => EvGetProjection (ns binding) (name binding) (Ok p) ∈ es
  | EvCreateProjection _ _ r :: _ | EvUpdateProjection _ _ r :: _ => r = Ok p
  | _ => False
  end.

Lemma projects_ends_with b desired t calls new p :
  projects b desired new (Ok p) → ends_with b (EvNow t :: map EvResolver calls ++ new) p.
Proof.
  intros Hp. unfold ends_with. rewrite writes_calls. inversion Hp; subst; cbn; try done.
  right. apply elem_of_app. right. by left.
Qed.

(** C16: status: reconciling never changes a binding's metadata or spec.  When it
    succeeds, the service was resolved to a secret, and the status has the observed
    generation, that secret and [ServiceAvailable], and [ProjectionReady] says what the
    [Ready] condition of the projection does that the server returned for the write, or
    that the lookup found when nothing was written.  When it fails, the observed
    generation is kept. *)
Theorem ReconcileKind_status (env : BindingEnv E) binding service workload log :
  SBSpec_Service (SB_Spec binding) = Some service →
  SBSpec_Workload (SB_Spec binding) = Some workload →
  ∃ b' ev new, ReconcileKind emit env binding log = (Done (b', ev), log ++ map emit new) ∧
    SB_Meta b' = SB_Meta binding ∧ SB_Spec b' = SB_Spec binding ∧
    match ev with
    | None => b' = binding
    | Some (AnError _) =>
        SBStatus_ObservedGeneration (SB_Status b') = SBStatus_ObservedGeneration (SB_Status binding)
    | Some _ =>
        SBStatus_ObservedGeneration (SB_Status b') = Meta_Generation (SB_Meta binding) ∧
        ∃ s p r c pr, resolved_to binding service new s ∧
          SBStatus_Binding (SB_Status b') = Some (mkLocalObjectReference (LocalObjectReference_Name s)) ∧
          ends_with binding new p ∧
          conds3 (SB_Status b') r c pr ∧ MC_Status c = ConditionTrue ∧ says pr (projected p)
    end.
Proof.
  intros Hs Hw. destruct (reconcile_run emit env binding service workload log Hs Hw)
    as (new & b' & ev & Hrun & Hrec & _).
  exists b', ev, new. split; [exact Hrun|]. clear Hrun.
  destruct Hrec as [d Hd|t calls err Hd Hres|t calls s b' desired calls' err Hd Hres Hav Hm Hp
    |t calls s b' desired calls' p status Hd Hres Hav Hm Hp Hprop].
  - done.
  - split_and!; [done|done|]. cbn. unfold SB.InitializeConditions. by rewrite foldl_lastOfType.
  - destruct (available_frame _ _ _ _ Hav) as (Hmeta & Hspec & _ & Hg & _). by split_and!.
  - destruct (available_frame _ _ _ _ Hav) as (Hmeta & Hspec & Hb & Hg & r & c & pr & Hc & Ht).
    destruct (propagate_frame _ _ _ _ _ _ _ Hc Hprop) as (Hb' & r' & pr' & Hc' & Hsay).
    cbn. split_and!; [done|done|by rewrite Hmeta|].
    exists s, p, r', c, pr'. split_and!; [|by rewrite Hb', Hb| |done|done|done].
    + unfold resolved_to. by rewrite (resolver_calls_run _ _ _ _ _ _ Hp).
    + pose proof (projects_ends_with _ _ t calls _ _ Hp) as He. unfold ends_with, ns, name in *.
      by rewrite <- Hmeta.
Qed.

(** C37: a service that cannot be resolved never makes a binding unavailable: when
    the resolution fails, the binding is left exactly as it was, also when its
    status says that the service is available and the binding ready. *)
Theorem ReconcileKind_unresolved_keeps_binding (env : BindingEnv E) binding service log err log' r c pr :
  Meta_DeletionTimestamp (SB_Meta binding) = None →
  SBSpec_Service (SB_Spec binding) = Some service →
  WF (SB_Status binding) r c pr →
  resolve emit env (Some (serviceRef binding service)) (SB_Meta binding)
    (log ++ [emit (EvNow (env_now env log))]) = (Done (Err err), log') →
  ReconcileKind emit env binding log = (Done (binding, Some (AnError err)), log').
Proof.
  intros Hd Hs Hwf Hres. unfold ReconcileKind. rewrite Hd. unfold now. rewrite bind_call.
  rewrite (Initialize_WF_id _ _ _ _ _ Hwf).
  assert (set_SB_Status binding (SB_Status binding) = binding) as -> by (by destruct binding).
  unfold provisionedSecret. rewrite Hs. cbn [deref]. rewrite bind_pure_l.
  fold (ns binding) (serviceRef binding service). by rewrite (bind_Done _ _ _ _ _ Hres).
Qed.

Lemma projects_missing (env : BindingEnv E) binding desired new r t :
  projects binding desired new r → Forall (answers env) new →
  (∀ l, env_GetProjection env (ns binding) (name binding) l = Err (ApiError "NotFound" t)) →
  ∃ answer, EvCreateProjection (ns binding) desired answer ∈ new.
Proof.
  intros Hp Hans Hget.
  destruct Hp; apply Forall_cons in Hans as [[l Hl] _]; rewrite Hget in Hl;
    first [discriminate Hl | injection Hl as <-]; try discriminate;
    eexists; right; by left.
Qed.

(** A service that has published no secret yet is taken for available: when
    the resolver answers with the empty name and there is no projection,
    [ReconcileKind] sets [ServiceAvailable] to true and creates a projection of
    the secret with the empty name, which the projection's own validation
    rejects. *)
Theorem ReconcileKind_unpublished_secret `{FieldErrorsLaws} (validate : Reference → FieldError)
    (env : BindingEnv E) binding service workload t log :
  Meta_DeletionTimestamp (SB_Meta binding) = None →
  SBSpec_Service (SB_Spec binding) = Some service →
  SBSpec_Workload (SB_Spec binding) = Some workload →
  ¬ is_secret (serviceRef binding service) →
  publishes (env_resolver env) (serviceRef binding service) (SB_Meta binding) (mkLocalObjectReference "") →
  (∀ l, env_GetProjection env (ns binding) (name binding) l = Err (ApiError "NotFound" t)) →
  ∃ new b' ev desired answer,
    ReconcileKind emit env binding log = (Done (b', ev), log ++ map emit new) ∧
    EvCreateProjection (ns binding) desired answer ∈ new ∧
    LocalObjectReference_Name (SBPSpec_Binding (SBP_Spec desired)) = "" ∧
    projectionError validate desired (Missing, ["spec.binding"]) ∧
    ∃ r c pr, conds3 (SB_Status b') r c pr ∧ MC_Status c = ConditionTrue.
Proof.
  intros Hd Hs Hw Hsec Hpub Hget.
  destruct (reconcile_run emit env binding service workload log Hs Hw)
    as (new & b' & ev & Hrun & Hrec & Hans).
  assert (∀ s' b1 desired calls calls' r,
    Forall (answers env) (EvNow r :: map EvResolver calls ++ calls') →
    resolves (serviceRef binding service) (SB_Meta binding) calls (Ok (Some s')) →
    available binding r s' b1 → MakeServiceBindingProjection (Err := error) b1 = Done (Ok desired) →
    (∃ out, projects b1 desired calls' out) →
    (∃ answer, EvCreateProjection (ns binding) desired answer ∈ EvNow r :: map EvResolver calls ++ calls') ∧
    LocalObjectReference_Name (SBPSpec_Binding (SBP_Spec desired)) = "") as Hend.
  { clear Hrun Hrec Hans new b' ev. intros s' b1 desired calls calls' r Hans Hres Hav Hm [out Hp].
    apply Forall_cons in Hans as [_ [Hans%answers_calls Hans']%Forall_app].
    pose proof (resolves_published _ _ _ _ _ _ Hpub Hres Hans) as [= ->].
    destruct (available_frame _ _ _ _ Hav) as (Hmeta & Hspec & Hb & _).
    destruct (projects_missing env b1 desired calls' out t Hp Hans') as [answer Hin];
      [unfold ns, name in *; by rewrite Hmeta|].
    rewrite <- Hspec in Hw.
    destruct (Make_Done (Err := error) _ _ _ Hb Hw) as (p & Hp' & Hps & _).
    assert (p = desired) as -> by congruence. rewrite Hps. split; [|done].
    exists answer. right. apply elem_of_app. right. unfold ns in *. by rewrite <- Hmeta. }
  destruct Hrec as [d Hd'|r calls err _ Hres|r calls s' b1 desired calls' err _ Hres Hav Hm Hp
    |r calls s' b1 desired calls' p status _ Hres Hav Hm Hp Hprop].
  - congruence.
  - apply Forall_cons in Hans as [_ Hans%answers_calls].
    by pose proof (resolves_published _ _ _ _ _ _ Hpub Hres Hans).
  - destruct (Hend _ _ _ _ _ _ Hans Hres Hav Hm (ex_intro _ _ Hp)) as [[answer Hin] Hempty].
    destruct (available_frame _ _ _ _ Hav) as (_ & _ & _ & _ & Hc).
    do 5 eexists. split_and!; [exact Hrun|exact Hin|exact Hempty|right; left; by split|exact Hc].
  - destruct (Hend _ _ _ _ _ _ Hans Hres Hav Hm (ex_intro _ _ Hp)) as [[answer Hin] Hempty].
    destruct (available_frame _ _ _ _ Hav) as (_ & _ & _ & _ & r' & c & pr & Hc & Ht).
    destruct (propagate_frame _ _ _ _ _ _ _ Hc Hprop) as (_ & r'' & pr'' & Hc'' & _).
    do 5 eexists. split_and!; [exact Hrun|exact Hin|exact Hempty|right; left; by split|eauto].
Qed.
End status.
(** ** Witnesses *)
#[local] Existing Instance string_opaque.

(** The plural is the kind in lower case with an [s]; here for one kind. *)
#[local] Instance sample_guess : SchemaGuess := {|
  Reference_GroupVersionKind r := mkGVK "" (Reference_APIVersion r) (Reference_Kind r);
  UnsafeGuessKindToResource k := mkGVR (GVK_Group k) (GVK_Version k) "databases";
  format_reference r := Reference_Name r;
  format_resource r := GVR_Resource r;
|}.

Definition database (secret : string) : RuntimeObject :=
  AServiceable (mkServiceableType (newMeta "db" "default") (mkServiceable (mkLocalObjectReference secret))).

(** Services answer [service], the lookup of the projection [found], and the API
    server stores what it is sent. *)
Definition sample_env {E : Type} (service : result error RuntimeObject)
    (found : result error ServiceBindingProjection) : BindingEnv E := {|
  env_now _ := 50%Z;
  env_resolver := {| env_TrackReference _ _ _ := None; env_Informer _ _ := None;
                     env_Lookup _ _ _ _ := service |};
  env_GetProjection _ _ _ := found;
  env_CreateProjection _ p _ := Ok p;
  env_UpdateProjection _ p _ := Ok p;
|}.

Definition not_found : error := ApiError "NotFound" "not found".

Definition db_ref : Reference := mkReference "v1" "Database" "" "db" None.
Definition app_ref : WorkloadReference :=
  mkWorkloadReference (mkReference "apps/v1" "Deployment" "" "app" None) [].
Definition db_binding : ServiceBinding :=
  mkSB (newMeta "b" "default") (mkSBSpec "b" "" "" (Some app_ref) (Some db_ref) []) (mkSBStatus 0 [] None).
(** The binding after it was ready. *)
Definition db_binding_ready : ServiceBinding := set_SB_Status db_binding sample_ready.

Definition fresh_env : BindingEnv binding_event := sample_env (Ok (database "my-secret")) (Err not_found).

Lemma ReconcileKind_refines_witness :
  ∃ new b' ev, ReconcileKind id fresh_env db_binding [] = (Done (b', ev), [] ++ map id new) ∧
    reconciles db_binding db_ref new b' ev.
Proof.
  apply (ReconcileKind_refines id fresh_env db_binding []) with (workload := app_ref); reflexivity.
Defined.

Lemma ReconcileKind_writes_witness :
  ∃ new, (ReconcileKind id fresh_env db_binding []).2 = [] ++ map id new ∧
    length (writes new) ≤ 1 ∧
    ∀ e, e ∈ writes new → ∃ s, resolved_to db_binding db_ref new s ∧
      write_allowed db_binding (mkLocalObjectReference (LocalObjectReference_Name s)) new e.
Proof.
  apply (ReconcileKind_writes id fresh_env db_binding db_ref app_ref []); reflexivity.
Defined.

Definition stored : ServiceBindingProjection :=
  match MakeServiceBindingProjection (Err := error)
    (set_SB_Status db_binding (SB.set_Binding sample_status (Some (mkLocalObjectReference "my-secret"))))
  with Done (Ok p) => p | _ => ready_projection end.

Definition sample_result : ServiceBinding :=
  match (ReconcileKind id fresh_env db_binding []).1 with Done (b, _) => b | Panic => db_binding end.

Lemma ReconcileKind_converges_witness :
  ∃ new b1 ev, ReconcileKind id fresh_env db_binding [] = (Done (b1, ev), [] ++ map id new) ∧
    EvCreateProjection "default" stored (Ok stored) ∈ new ∧
    ∃ new' b2, ReconcileKind id (sample_env (Ok (database "my-secret")) (Ok stored)) b1 [] =
        (Done (b2, Some (newReconciledNormal "default" "b")), [] ++ map id new') ∧ writes new' = [].
Proof.
  destruct (ReconcileKind_converges id fresh_env db_binding db_ref app_ref [])
    as (new & b1 & ev & Hrun & Hagain); [reflexivity|reflexivity|reflexivity|].
  exists new, b1, ev. split; [exact Hrun|].
  assert (EvCreateProjection "default" stored (Ok stored) ∈ new) as Hin.
  { assert (new = (ReconcileKind id fresh_env db_binding []).2) as ->
      by (rewrite Hrun; cbn [snd app]; symmetry; apply map_id).
    apply list_elem_of_lookup. exists 5. vm_compute. reflexivity. }
  split; [exact Hin|].
  apply (Hagain stored stored) with (s := mkLocalObjectReference "my-secret").
  - left. exact Hin.
  - split_and!; reflexivity.
  - right. split; [intros [_ ?]; discriminate|].
    exists (mkServiceableType (newMeta "db" "default") (mkServiceable (mkLocalObjectReference "my-secret"))).
    split; [reflexivity|]. intros l. split_and!; reflexivity.
  - assert (b1 = sample_result) as -> by (unfold sample_result; by rewrite Hrun).
    vm_compute. reflexivity.
  - reflexivity.
Defined.

Lemma ReconcileKind_status_witness :
  ∃ b' ev new, ReconcileKind id fresh_env db_binding [] = (Done (b', ev), [] ++ map id new) ∧
    SB_Meta b' = SB_Meta db_binding ∧ SB_Spec b' = SB_Spec db_binding.
Proof.
  destruct (ReconcileKind_status id fresh_env db_binding db_ref app_ref [])
    as (b' & ev & new & Hrun & Hm & Hs & _); [reflexivity|reflexivity|].
  exists b', ev, new. split_and!; assumption.
Defined.

(** A ready binding stays ready when its service is gone. *)
Lemma ReconcileKind_unresolved_keeps_binding_witness :
  map MC_Status (SBStatus_Conditions (SB_Status db_binding_ready)) =
    [ConditionTrue; ConditionTrue; ConditionTrue] ∧
  ∃ err log', ReconcileKind id (sample_env (Err not_found) (Err not_found)) db_binding_ready [] =
    (Done (db_binding_ready, Some (AnError err)), log').
Proof.
  split; [reflexivity|]. do 2 eexists.
  eapply (ReconcileKind_unresolved_keeps_binding id _ db_binding_ready db_ref []);
    [reflexivity|reflexivity| |vm_compute; reflexivity].
  split; [reflexivity|split_and!; reflexivity|split_and!; left; reflexivity].
Defined.

Lemma ReconcileKind_unpublished_secret_witness :
  ∃ new b' ev desired answer,
    ReconcileKind id (sample_env (Ok (database "")) (Err not_found)) db_binding [] =
      (Done (b', ev), [] ++ map id new) ∧
    EvCreateProjection "default" desired answer ∈ new ∧
    projectionError sample_validate desired (Missing, ["spec.binding"]).
Proof.
  destruct (ReconcileKind_unpublished_secret id sample_validate
    (sample_env (Ok (database "")) (Err not_found)) db_binding db_ref app_ref "not found" [])
    as (new & b' & ev & desired & answer & Hrun & Hin & _ & Herr & _);
    [reflexivity|reflexivity|reflexivity|intros [_ ?]; discriminate| |reflexivity|].
  - right. split; [intros [_ ?]; discriminate|].
    exists (mkServiceableType (newMeta "db" "default") (mkServiceable (mkLocalObjectReference ""))).
    split; [reflexivity|]. intros l. split_and!; reflexivity.
  - exists new, b', ev, desired, answer. split_and!; assumption.
Defined.
