(* ===== verification/Cluster.v ===== *)
(** * The controller in a cluster

    The [ServiceBinding] reconciler composed with the API server that it writes to, the
    cache that it reads from and the other actors that write to the server as well.
    [ApiServer] is the interface: what Kubernetes documents of creations and updates under
    optimistic concurrency, for any server.  The theorems are proved against it, and
    [log_server] shows that it can be implemented.

    The cache may be arbitrarily old and may miss objects.  A reconciliation writes at most
    once, so it is one step of the cluster, at the time of that write; the other actors
    act between these steps. *)
From S2P Require Import Prelude Api Conditions Effects Projection Binding BindingFacts Resolver.
From S2P Require Import Resources BindingReconciler BindingReconcilerFacts.

(** The namespace and the name. *)
Definition object_name : Type := string * string.

(** ** The API server *)
Class ApiServer `{Opaque} (Server : Type) := {
  api_get : Server → object_name → option ServiceBindingProjection;
  api_create : Server → string → ServiceBindingProjection → Server * result error ServiceBindingProjection;
  api_update : Server → string → ServiceBindingProjection → Server * result error ServiceBindingProjection;
  (** The object was stored under the name, now or earlier. *)
  api_seen : Server → object_name → ServiceBindingProjection → Prop;
}.

Section server.
Context `{ApiServer Server}.
Implicit Types (s : Server) (k : object_name) (p q : ServiceBindingProjection).

Definition version p : string := Meta_ResourceVersion (SBP_Meta p).
Definition key_in (namespace : string) p : object_name := (namespace, Meta_Name (SBP_Meta p)).

(** Only what is stored under [k] changes, to [q]. *)
Definition stores s s' k q : Prop :=
  ∀ k', api_get s' k' = if decide (k' = k) then Some q else api_get s k'.

Definition same_objects s s' : Prop := ∀ k, api_get s' k = api_get s k.

(** What an update keeps of the [current] object: the status, which is a subresource, the
    identity and the mark of a deletion; the finalizers are those that were [sent]. *)
Record carried (current sent stored : ServiceBindingProjection) : Prop := {
  carried_status : SBP_Status stored = SBP_Status current;
  carried_uid : Meta_UID (SBP_Meta stored) = Meta_UID (SBP_Meta current);
  carried_deletion : Meta_DeletionTimestamp (SBP_Meta stored) = Meta_DeletionTimestamp (SBP_Meta current);
  carried_finalizers : Meta_Finalizers (SBP_Meta stored) = Meta_Finalizers (SBP_Meta sent);
}.
End server.

(** A creation succeeds only where there is no object; an update only if it carries the
    stored version.  A failed write
    changes nothing, and nothing that was stored is forgotten.  Two objects that were
    stored under one name with the same version are the same. *)
Class ApiServerLaws `{ApiServer Server} := {
  get_seen s k p : api_get s k = Some p → api_seen s k p;
  seen_named s k p : api_seen s k p → (Meta_Namespace (SBP_Meta p), Meta_Name (SBP_Meta p)) = k;
  seen_version s k p p' : api_seen s k p → api_seen s k p' → version p = version p' → p = p';
  seen_create s namespace p k q : api_seen s k q → api_seen (api_create s namespace p).1 k q;
  seen_update s namespace p k q : api_seen s k q → api_seen (api_update s namespace p).1 k q;
  create_result s namespace p :
    match api_create s namespace p with
    | (s', Ok q) =>
        api_get s (key_in namespace p) = None ∧ persisted p q ∧ stores s s' (key_in namespace p) q
    | (s', Err _) => same_objects s s'
    end;
  update_result s namespace p :
    match api_update s namespace p with
    | (s', Ok q) =>
        (∃ current, api_get s (key_in namespace p) = Some current ∧ version current = version p ∧
          carried current p q) ∧
        persisted p q ∧ stores s s' (key_in namespace p) q
    | (s', Err _) => same_objects s s'
    end;
}.

(** ** The controller *)
Section cluster.
Context `{Kmeta, !SchemaGuess, !SemanticEquality, !ConditionManager}.
Context {Server : Type} `{!ApiServer Server}.
Implicit Types (b : ServiceBinding) (p : ServiceBindingProjection) (s : Server).

(** What the controller's lookups answer. *)
Definition cache : Type := object_name → result error ServiceBindingProjection.

(** The calls of a reconciliation that makes its write in state [s]. *)
Definition cluster_env {E : Type} s (cached : cache) (clock : Time) (resolver : ResolverEnv E) :
    BindingEnv E := {|
  env_now _ := clock;
  env_resolver := resolver;
  env_GetProjection namespace name _ := cached (namespace, name);
  env_CreateProjection namespace p _ := (api_create s namespace p).2;
  env_UpdateProjection namespace p _ := (api_update s namespace p).2;
|}.

Definition apply_event s (e : binding_event) : Server :=
  match e with
  | EvCreateProjection namespace p _ => (api_create s namespace p).1
  | EvUpdateProjection namespace p _ => (api_update s namespace p).1
  | _ => s
  end.

Definition reconcile_in s (cached : cache) (clock : Time) (resolver : ResolverEnv binding_event) b : Server :=
  foldl apply_event s (ReconcileKind id (cluster_env s cached clock resolver) b []).2.

(** The cache has only objects that were stored at some time. *)
Definition observed s (cached : cache) : Prop := ∀ k p, cached k = Ok p → api_seen s k p.

(** A cache that has caught up. *)
Definition fresh_cache s : cache := λ k,
  match api_get s k with Some p => Ok p | None => Err (ApiError "NotFound" "not found") end.

(** The server takes every write that its versions allow. *)
Definition accepting s : Prop := ∀ namespace p,
  (api_get s (key_in namespace p) = None → ∃ q, (api_create s namespace p).2 = Ok q) ∧
  (∀ current, api_get s (key_in namespace p) = Some current → version current = version p →
    ∃ q, (api_update s namespace p).2 = Ok q).

(** A binding that validation accepts. *)
Definition complete b : Prop :=
  is_Some (SBSpec_Service (SB_Spec b)) ∧ is_Some (SBSpec_Workload (SB_Spec b)).

(** The binding once its service is resolved to the secret. *)
Definition with_secret b (secret : LocalObjectReference) : ServiceBinding :=
  set_SB_Status b (SB.set_Binding (SB_Status b)
    (Some (mkLocalObjectReference (LocalObjectReference_Name secret)))).

Definition asks b (secret : LocalObjectReference) (desired : ServiceBindingProjection) : Prop :=
  MakeServiceBindingProjection (Err := error) (with_secret b secret) = Done (Ok desired).

Definition key_of b : object_name := (ns b, name b).

(** The projection [p] is the binding's, and what it asks for with the secret. *)
Definition settled b secret p : Prop :=
  IsControlledBy (SBP_Meta p) (SB_Meta b) = true ∧
  ∃ desired, asks b secret desired ∧ same_projection desired p = true.

(** The service that [b] refers to publishes the secret. *)
Definition resolver_publishes {E : Type} (resolver : ResolverEnv E) b (secret : LocalObjectReference) : Prop :=
  ∃ service, SBSpec_Service (SB_Spec b) = Some service ∧
    publishes resolver (serviceRef b service) (SB_Meta b) secret.

(** The same binding at another time: what is not listed, such as its version and its
    status, may differ. *)
Record same_binding b b' : Prop := {
  same_key : key_of b' = key_of b;
  same_uid : Meta_UID (SB_Meta b') = Meta_UID (SB_Meta b);
  same_labels : Meta_Labels (SB_Meta b') = Meta_Labels (SB_Meta b);
  same_annotations : Meta_Annotations (SB_Meta b') = Meta_Annotations (SB_Meta b);
  same_spec : SB_Spec b' = SB_Spec b;
}.

(** ** Runs

    The controller reconciles any bindings, whatever its cache and its clock; the service
    of binding [b] publishes [secret], and other actors keep the fields of the projection
    of [b] that the controller manages. *)
Inductive cluster_step b secret : Server → Server → Prop :=
| step_reconcile s cached clock resolver b' :
    complete b' → observed s cached →
    (key_of b' = key_of b → same_binding b b' ∧ resolver_publishes resolver b' secret) →
    cluster_step b secret s (reconcile_in s cached clock resolver b')
| step_others s s' :
    (∀ p, api_get s (key_of b) = Some p → ∃ p', api_get s' (key_of b) = Some p' ∧ persisted p p') →
    cluster_step b secret s s'.
End cluster.
