(* ===== verification/ClusterFacts.v ===== *)
(** * What the controller does to a cluster

    No update is lost, stale caches do no harm, one reconciliation with a current cache
    brings the projection to what its binding asks for, and the binding then reports its
    readiness. *)
From S2P Require Import Prelude Api Conditions Effects Projection Binding BindingFacts Resolver.
From S2P Require Import Resources BindingReconciler BindingReconcilerFacts Cluster.

Section facts.
Context `{KmetaLaws, !SchemaGuess, SE : SemanticEquality, !SemanticEqualityLaws, !ConditionManager}.
Context {Server : Type} `{!ApiServer Server, !ApiServerLaws}.
Implicit Types (b : ServiceBinding) (p q desired : ServiceBindingProjection) (s : Server).

(** What a run of [projects] changes: the projection of [b] at most, and that only by
    creating [desired] where there was none, or by bringing the current object, which
    [b] controls, to [desired]. *)
Inductive effect s b desired : Server → Prop :=
| effect_none s' : same_objects s s' → effect s b desired s'
| effect_create q s' :
    api_get s (key_of b) = None → IsControlledBy (SBP_Meta desired) (SB_Meta b) = true →
    persisted desired q → stores s s' (key_of b) q → effect s b desired s'
| effect_update current q s' :
    api_get s (key_of b) = Some current → IsControlledBy (SBP_Meta current) (SB_Meta b) = true →
    same_projection desired current = false → carried current (withDesired desired current) q →
    persisted (withDesired desired current) q → stores s s' (key_of b) q → effect s b desired s'.

Lemma projects_ext b b' desired new r :
  SB_Meta b = SB_Meta b' → projects b desired new r → projects b' desired new r.
Proof.
  intros Hm Hp. assert (ns b = ns b' ∧ name b = name b') as [Hns Hn] by (unfold ns, name; by rewrite Hm).
  destruct Hp; rewrite ?Hns, ?Hn; econstructor; rewrite <- ?Hm; done.
Qed.

Lemma asks_owned b secret desired :
  asks b secret desired →
  Meta_Name (SBP_Meta desired) = name b ∧ IsControlledBy (SBP_Meta desired) (SB_Meta b) = true.
Proof.
  intros Hask.
  by destruct (Make_wanted (with_secret b secret) _ desired eq_refl Hask) as (_ & Hn & _ & Hc).
Qed.

Lemma create_effect s b desired :
  Meta_Name (SBP_Meta desired) = name b → IsControlledBy (SBP_Meta desired) (SB_Meta b) = true →
  effect s b desired (api_create s (ns b) desired).1.
Proof.
  intros Hn Hc. pose proof (create_result s (ns b) desired) as Hr.
  destruct (api_create s (ns b) desired) as [s' [q|e]]; [|by apply effect_none].
  unfold key_in in Hr. rewrite Hn in Hr. destruct Hr as (Hg & Hp & Hs). by eapply effect_create.
Qed.

Lemma seen_key s b desired p :
  api_seen s (key_of b) p → key_in (ns b) (withDesired desired p) = key_of b.
Proof. intros Hseen. pose proof (seen_named _ _ _ Hseen) as [= _ Hn]. unfold key_in, key_of. by rewrite <- Hn. Qed.

Lemma update_effect s b desired p :
  api_seen s (key_of b) p → IsControlledBy (SBP_Meta p) (SB_Meta b) = true →
  same_projection desired p = false →
  effect s b desired (api_update s (ns b) (withDesired desired p)).1.
Proof.
  intros Hseen Hc Hsame. pose proof (update_result s (ns b) (withDesired desired p)) as Hr.
  destruct (api_update _ _ _) as [s' [q|e]]; [|by apply effect_none].
  pose proof (seen_key s b desired p Hseen) as Hk.
  rewrite Hk in Hr. destruct Hr as ((current & Hg & Hv & Hst) & Hp & Hs).
  assert (current = p) as -> by (eapply seen_version; [by apply get_seen|done|done]).
  by eapply effect_update.
Qed.

Lemma projects_effect {E} s cached clock (resolver : ResolverEnv E) b secret desired new r :
  observed s cached → asks b secret desired → projects b desired new r →
  Forall (answers (cluster_env s cached clock resolver)) new →
  effect s b desired (foldl apply_event s new).
Proof.
  intros Hobs Hask Hp Hans. destruct (asks_owned _ _ _ Hask) as [Hn Hc].
  destruct Hp; apply Forall_cons in Hans as [[l Hl] _]; cbn in Hl |- *.
  1,2: by apply create_effect.
  1,2,3: by apply effect_none.
  all: apply update_effect; [by apply Hobs|done|done].
Qed.

Lemma apply_resolver s calls : foldl apply_event s (map EvResolver calls) = s.
Proof. by induction calls as [|e calls IH]. Qed.

Lemma available_asks b t secret b' desired :
  available b t secret b' → MakeServiceBindingProjection (Err := error) b' = Done (Ok desired) →
  SB_Meta b' = SB_Meta b ∧ asks b secret desired.
Proof.
  intros Hav Hm. destruct (available_frame _ _ _ _ Hav) as (Hmeta & Hspec & Hb & _).
  split; [done|]. unfold asks. rewrite <- Hm. symmetry. by apply Make_ext.
Qed.

(** A reconciliation either ends before the projection, or projects the secret that the
    resolver answered. *)
Lemma reconcile_projects s cached clock resolver b :
  complete b →
  let s' := reconcile_in s cached clock resolver b in
  (s' = s ∧ ∀ secret, Meta_DeletionTimestamp (SB_Meta b) = None → ¬ resolver_publishes resolver b secret) ∨
  ∃ secret desired new r, asks b secret desired ∧ projects b desired new r ∧
    Forall (answers (cluster_env s cached clock resolver)) new ∧ s' = foldl apply_event s new ∧
    ∀ secret', resolver_publishes resolver b secret' → secret' = secret.
Proof.
  intros [[service Hs] [workload Hw]]. unfold reconcile_in.
  destruct (reconcile_run id (cluster_env s cached clock resolver) b service workload [] Hs Hw)
    as (new & b' & ev & Hrun & Hrec & Hans). rewrite Hrun. clear Hrun. cbn [snd app]. rewrite map_id.
  assert (∀ calls secret secret', Forall (answers (cluster_env s cached clock resolver)) (map EvResolver calls) →
    resolves (serviceRef b service) (SB_Meta b) calls secret → resolver_publishes resolver b secret' →
    secret = Ok (Some secret')) as Hpub.
  { intros calls secret secret' Hc%answers_calls Hr (service' & Hs' & Hp).
    assert (service' = service) as -> by congruence. by eapply resolves_published. }
  assert (∀ t calls secret b' desired calls' r,
    Forall (answers (cluster_env s cached clock resolver)) (EvNow t :: map EvResolver calls ++ calls') →
    resolves (serviceRef b service) (SB_Meta b) calls (Ok (Some secret)) → available b t secret b' →
    MakeServiceBindingProjection (Err := error) b' = Done (Ok desired) → projects b' desired calls' r →
    ∃ secret desired new r, asks b secret desired ∧ projects b desired new r ∧
      Forall (answers (cluster_env s cached clock resolver)) new ∧
      foldl apply_event s (EvNow t :: map EvResolver calls ++ calls') = foldl apply_event s new ∧
      ∀ secret', resolver_publishes resolver b secret' → secret' = secret) as Hend.
  { intros t calls secret b2 desired calls' r [_ [Hc Hc']%Forall_app]%Forall_cons Hr Hav Hm Hp.
    destruct (available_asks _ _ _ _ _ Hav Hm) as [Hmeta Hask].
    exists secret, desired, calls', r. split_and!; [done|by eapply projects_ext|done| |].
    - cbn. by rewrite foldl_app, apply_resolver.
    - intros secret' Hs'. pose proof (Hpub _ _ _ Hc Hr Hs'). congruence. }
  destruct Hrec as [d Hd|t calls err Hd Hr|t calls secret b' desired calls' err Hd Hr Hav Hm Hp
    |t calls secret b' desired calls' p status Hd Hr Hav Hm Hp _].
  - left. split; [done|]. congruence.
  - left. cbn. rewrite apply_resolver. split; [done|]. intros secret _ Hs'.
    apply Forall_cons in Hans as [_ Hans]. by pose proof (Hpub _ _ _ Hans Hr Hs').
  - right. by eapply Hend.
  - right. by eapply Hend.
Qed.

Lemma reconcile_effect s cached clock resolver b :
  complete b → observed s cached →
  let s' := reconcile_in s cached clock resolver b in
  same_objects s s' ∨
  ∃ secret desired, asks b secret desired ∧ effect s b desired s' ∧
    ∀ secret', resolver_publishes resolver b secret' → secret' = secret.
Proof.
  intros Hb Hobs s'.
  destruct (reconcile_projects s cached clock resolver b Hb)
    as [[Heq _]|(secret & desired & new & r & Hask & Hp & Hans & Heq & Hpub)]; fold s' in Heq; rewrite Heq.
  - by left.
  - right. exists secret, desired. split_and!; [done|by eapply projects_effect|done].
Qed.

Lemma effect_frame s b desired s' k :
  effect s b desired s' → k ≠ key_of b → api_get s' k = api_get s k.
Proof. intros Heff Hk. destruct Heff as [s' Hs|q s' _ _ _ Hs|current q s' _ _ _ _ _ Hs]; rewrite Hs; by try case_decide. Qed.

Lemma reconcile_frame s cached clock resolver b k :
  complete b → observed s cached → k ≠ key_of b →
  api_get (reconcile_in s cached clock resolver b) k = api_get s k.
Proof.
  intros Hb Hobs Hk.
  destruct (reconcile_effect s cached clock resolver b Hb Hobs) as [Hs|(secret & desired & _ & Heff & _)];
    [apply Hs|by eapply effect_frame].
Qed.

Lemma asks_unique b secret desired desired' :
  asks b secret desired → asks b secret desired' → desired = desired'.
Proof. unfold asks. congruence. Qed.

Lemma persisted_same desired p q :
  persisted p q → same_projection desired q = same_projection desired p.
Proof. intros (Hs & Hl & Ha & _). unfold same_projection. by rewrite Hs, Hl, Ha. Qed.

Lemma asks_wanted b secret desired :
  asks b secret desired → wanted b (mkLocalObjectReference (LocalObjectReference_Name secret)) desired.
Proof.
  intros Hask. destruct (Make_wanted (with_secret b secret) _ desired eq_refl Hask) as [Hw _].
  by eapply wanted_ext; [..|exact Hw].
Qed.

Lemma persisted_wanted b secret p q : wanted b secret p → persisted p q → wanted b secret q.
Proof.
  unfold persisted, same_map. intros [Hs Hl Ha] (Hs' & Hl' & Ha' & _). split; [by rewrite Hs'|..]; intros k.
  - by rewrite Hl'.
  - by rewrite Ha'.
Qed.

(** [current] after an update to what binding [b] asks for: the spec, all the labels and
    all the annotations are those of the binding, and the rest is kept. *)
Record brought b (secret : LocalObjectReference) (current q : ServiceBindingProjection) : Prop := {
  brought_wanted : wanted b (mkLocalObjectReference (LocalObjectReference_Name secret)) q;
  brought_status : SBP_Status q = SBP_Status current;
  brought_uid : Meta_UID (SBP_Meta q) = Meta_UID (SBP_Meta current);
  brought_deletion : Meta_DeletionTimestamp (SBP_Meta q) = Meta_DeletionTimestamp (SBP_Meta current);
  brought_finalizers : Meta_Finalizers (SBP_Meta q) = Meta_Finalizers (SBP_Meta current);
  brought_owners : Meta_OwnerReferences (SBP_Meta q) = Meta_OwnerReferences (SBP_Meta current);
}.

Lemma update_brings b secret desired current q :
  asks b secret desired → carried current (withDesired desired current) q →
  persisted (withDesired desired current) q → brought b secret current q.
Proof.
  intros Hask%asks_wanted [Hst Hu Hd Hf] Hp. split; try done; [|apply Hp].
  apply (persisted_wanted _ _ (withDesired desired current)); [|done]. by destruct Hask.
Qed.

Lemma persisted_owner p q owner :
  persisted p q → IsControlledBy (SBP_Meta q) owner = IsControlledBy (SBP_Meta p) owner.
Proof. intros (_ & _ & _ & Ho). by apply IsControlledBy_refs. Qed.

(** What a binding asks for does not depend on its version or its status, up to the
    reference to it. *)
Lemma asks_same b b' secret desired :
  same_binding b b' → asks b secret desired →
  ∃ desired', asks b' secret desired' ∧ ∀ p, same_projection desired' p = same_projection desired p.
Proof.
  intros [[= Hns Hn] _ Hl Ha Hs] Hask. unfold asks in *.
  destruct (SBSpec_Workload (SB_Spec b)) as [workload|] eqn:Hw;
    [|by unfold MakeServiceBindingProjection in Hask; cbn in Hask; rewrite Hw in Hask].
  destruct (Make_Done (Err := error) (with_secret b secret) _ workload eq_refl Hw)
    as (d & Hd & Hspec & _ & _ & _ & Hlabels & Hann & _). assert (d = desired) as -> by congruence.
  assert (SBSpec_Workload (SB_Spec b') = Some workload) as Hw' by by rewrite Hs.
  destruct (Make_Done (Err := error) (with_secret b' secret) _ workload eq_refl Hw')
    as (d' & Hd' & Hspec' & _ & _ & _ & Hlabels' & Hann' & _).
  exists d'. split; [exact Hd'|]. intros p. unfold same_projection.
  rewrite Hspec, Hspec', Hlabels, Hlabels', Hann, Hann'. cbn.
  unfold name, ns in Hn. by rewrite Hs, Hl, Ha, Hn.
Qed.

Lemma settled_same b b' secret p : same_binding b b' → settled b secret p → settled b' secret p.
Proof.
  intros Hb [Hc (desired & Hask & Hsame)]. split.
  - rewrite <- Hc. apply IsControlledBy_uid, (same_uid _ _ Hb).
  - destruct (asks_same _ _ _ _ Hb Hask) as (desired' & Hask' & Heq). exists desired'. by rewrite Heq.
Qed.

Lemma persisted_settled b secret p q : settled b secret p → persisted p q → settled b secret q.
Proof.
  intros [Hc (desired & Hask & Hsame)] Hp. split; [by rewrite (persisted_owner _ _ _ Hp)|].
  exists desired. by rewrite (persisted_same _ _ _ Hp).
Qed.

(** C12: no lost updates: however old the controller's cache is, reconciling a binding
    changes no object but its projection.  A projection that is there is left alone or,
    if the binding controls it and it differs from what the binding asks for, is brought
    to that: it gets the spec of the binding with the secret, and the labels and the
    annotations of the binding in place of its own; the status, the UID, the finalizers,
    the owners and the mark of a deletion stay those that it has now, not those that the
    cache had.  Where there is none, what appears is what the binding asks for, with the
    binding as its controller. *)
Theorem reconcile_no_lost_update s cached clock resolver b :
  complete b → observed s cached →
  let s' := reconcile_in s cached clock resolver b in
  (∀ k, k ≠ key_of b → api_get s' k = api_get s k) ∧
  (api_get s' (key_of b) = api_get s (key_of b) ∨
   ∃ secret q, api_get s' (key_of b) = Some q ∧
     match api_get s (key_of b) with
     | None => wanted b (mkLocalObjectReference (LocalObjectReference_Name secret)) q ∧
         IsControlledBy (SBP_Meta q) (SB_Meta b) = true
     | Some current =>
         IsControlledBy (SBP_Meta current) (SB_Meta b) = true ∧ same_projection q current = false ∧
         brought b secret current q
     end).
Proof.
  intros Hb Hobs s'. split; [intros k Hk; by apply reconcile_frame|].
  destruct (reconcile_effect s cached clock resolver b Hb Hobs) as [Hs|(secret & desired & Hask & Heff & _)];
    [by left|].
  fold s' in Heff. clearbody s'. destruct Heff as [s' Hs|q s' Hg Hc Hp Hs|current q s' Hg Hc Hne Hcar Hp Hs];
    [by left| |]; right; exists secret, q; rewrite Hg; split_and!.
  - rewrite Hs. by rewrite decide_True.
  - by eapply persisted_wanted; [apply asks_wanted|].
  - by rewrite (persisted_owner _ _ _ Hp).
  - rewrite Hs. by rewrite decide_True.
  - done.
  - rewrite <- Hne. destruct Hp as (Hsp & Hl & Ha & _). unfold same_projection. by rewrite Hsp, Hl, Ha.
  - by eapply update_brings.
Qed.

Lemma reconcile_settled s cached clock resolver b secret p :
  complete b → observed s cached → resolver_publishes resolver b secret →
  api_get s (key_of b) = Some p → settled b secret p →
  same_objects s (reconcile_in s cached clock resolver b).
Proof.
  intros Hb Hobs Hpub Hg [_ (d & Hask & Hsame)].
  destruct (reconcile_effect s cached clock resolver b Hb Hobs)
    as [Hs|(secret' & desired & Hask' & Heff & Hsec)]; [done|].
  rewrite <- (Hsec _ Hpub) in Hask'. assert (desired = d) as -> by (by eapply asks_unique).
  destruct Heff; [done|congruence|congruence].
Qed.

Lemma settled_kept b secret s s' p :
  rtc (cluster_step b secret) s s' →
  api_get s (key_of b) = Some p → settled b secret p →
  ∃ p', api_get s' (key_of b) = Some p' ∧ settled b secret p'.
Proof.
  intros Hrun. revert p. induction Hrun as [s|s s1 s2 Hstep _ IH]; [by eauto|]. intros p Hg Hset.
  destruct Hstep as [s cached clock resolver b' Hb Hobs Hkey|s s1 Hothers].
  - apply (IH p); [|done]. destruct (decide (key_of b' = key_of b)) as [Hk|Hk].
    + destruct (Hkey Hk) as [Hsame Hpub]. rewrite <- Hk in *.
      rewrite (reconcile_settled s cached clock resolver b' secret p); [done|done|done|done|done|].
      by eapply settled_same.
    + rewrite <- Hg. apply reconcile_frame; [done|done|congruence].
  - destruct (Hothers p Hg) as (p' & Hg' & Hp). apply (IH p' Hg'). by eapply persisted_settled.
Qed.

(** invariant: once the projection of a binding is settled, it stays settled in every
    run: stale caches, repeated, interleaved and concurrent reconciliations, also those of
    other bindings, and other actors that leave the managed fields alone never make the
    controller undo it. *)
Theorem settled_invariant b secret s s' p :
  rtc (cluster_step b secret) s s' →
  api_get s (key_of b) = Some p → settled b secret p →
  ∃ p', api_get s' (key_of b) = Some p' ∧ settled b secret p'.
Proof. apply settled_kept. Qed.

Lemma fresh_observed s : observed s (fresh_cache s).
Proof.
  intros k p. unfold fresh_cache. destruct (api_get s k) as [q|] eqn:Hg; intros [= <-]. by apply get_seen.
Qed.

Section liveness.
Lemma same_projection_refl p : same_projection p p = true.
Proof. unfold same_projection. by rewrite spec_equal_refl, !(proj2 (map_equal_spec _ _)). Qed.

Lemma desired_settled b secret desired q :
  asks b secret desired → IsControlledBy (SBP_Meta desired) (SB_Meta b) = true →
  persisted desired q → settled b secret q.
Proof.
  intros Hask Hc Hp. apply (persisted_settled _ _ desired); [|done]. split; [done|].
  exists desired. split; [done|].
  apply same_projection_refl.
Qed.

Lemma withDesired_settled b secret desired current q :
  asks b secret desired → IsControlledBy (SBP_Meta current) (SB_Meta b) = true →
  persisted (withDesired desired current) q → settled b secret q.
Proof.
  intros Hask Hc Hp. apply (persisted_settled _ _ (withDesired desired current)); [|done].
  split; [by rewrite <- Hc; apply IsControlledBy_refs|].
  exists desired. split; [done|].
  apply (same_projection_refl desired).
Qed.

Lemma create_settles s b secret desired :
  accepting s → asks b secret desired → api_get s (key_of b) = None →
  ∃ q, (api_create s (ns b) desired).2 = Ok q ∧
    api_get (api_create s (ns b) desired).1 (key_of b) = Some q ∧ settled b secret q.
Proof.
  intros Hacc Hask Hg. destruct (asks_owned _ _ _ Hask) as [Hn Hc].
  assert (key_in (ns b) desired = key_of b) as Hk by (unfold key_in; by rewrite Hn).
  pose proof (create_result s (ns b) desired) as Hr.
  destruct (proj1 (Hacc (ns b) desired)) as [q Hq]; [by rewrite Hk|].
  destruct (api_create s (ns b) desired) as [s' r]. cbn in Hq |- *. subst r. rewrite Hk in Hr.
  destruct Hr as (_ & Hper & Hs). exists q. split; [done|].
  split; [by rewrite Hs, decide_True|by eapply desired_settled].
Qed.

Lemma update_accepted s b desired current :
  accepting s → api_get s (key_of b) = Some current →
  key_in (ns b) (withDesired desired current) = key_of b ∧
  ∃ q, (api_update s (ns b) (withDesired desired current)).2 = Ok q.
Proof.
  intros Hacc Hg.
  pose proof (seen_key s b desired current (get_seen _ _ _ Hg)) as Hk.
  split; [done|]. apply (proj2 (Hacc (ns b) _) current); [by rewrite Hk|done].
Qed.

Lemma update_settles s b secret desired current :
  accepting s → asks b secret desired → api_get s (key_of b) = Some current →
  IsControlledBy (SBP_Meta current) (SB_Meta b) = true →
  ∃ q, (api_update s (ns b) (withDesired desired current)).2 = Ok q ∧
    api_get (api_update s (ns b) (withDesired desired current)).1 (key_of b) = Some q ∧ settled b secret q.
Proof.
  intros Hacc Hask Hg Hc. destruct (update_accepted s b desired current Hacc Hg) as [Hk [q Hq]].
  pose proof (update_result s (ns b) (withDesired desired current)) as Hr.
  destruct (api_update s (ns b) _) as [s' r]. cbn in Hq |- *. subst r. rewrite Hk in Hr.
  destruct Hr as (_ & Hper & Hs). exists q. split; [done|].
  split; [by rewrite Hs, decide_True|by eapply withDesired_settled].
Qed.

(** With a current cache and a server that takes the write, the projection is settled
    afterwards. *)
Lemma projects_settles {E} s clock (resolver : ResolverEnv E) b secret desired new r :
  accepting s → asks b secret desired → projects b desired new r →
  Forall (answers (cluster_env s (fresh_cache s) clock resolver)) new →
  (∀ p, api_get s (key_of b) = Some p → IsControlledBy (SBP_Meta p) (SB_Meta b) = true) →
  ∃ p, r = Ok p ∧ api_get (foldl apply_event s new) (key_of b) = Some p ∧ settled b secret p.
Proof.
  intros Hacc Hask Hp Hans Hown. destruct (asks_owned _ _ _ Hask) as [Hn Hc].
  assert (key_in (ns b) desired = key_of b) as Hk by (unfold key_in; by rewrite Hn).
  assert (∀ x, env_GetProjection (cluster_env s (fresh_cache s) clock resolver) (ns b) (name b) x =
    fresh_cache s (key_of b)) as Hget by done. unfold fresh_cache in Hget.
  destruct Hp; apply Forall_cons in Hans as [[l Hl] Hans]; rewrite Hget in Hl; clear l Hget;
    destruct (api_get s (key_of b)) as [p0|] eqn:Hg; try discriminate Hl; injection Hl as <-;
    try discriminate; cbn [foldl apply_event].
  - apply Forall_cons in Hans as [[l Hl] _]. cbn in Hl.
    destruct (create_settles s b secret desired Hacc Hask Hg) as (q & Hq & Hsettled).
    assert (q = p) as -> by congruence. by exists p.
  - apply Forall_cons in Hans as [[l Hl] _]. cbn in Hl.
    destruct (proj1 (Hacc (ns b) desired)) as [q Hq]; [by rewrite Hk|]. congruence.
  - specialize (Hown _ eq_refl). congruence.
  - exists p0. split; [done|]. split; [done|]. split; [done|]. by exists desired.
  - apply Forall_cons in Hans as [[l Hl] _]. cbn in Hl.
    destruct (update_settles s b secret desired p0 Hacc Hask Hg) as (q & Hq & Hsettled); [done|].
    assert (q = p') as -> by congruence. by exists p'.
  - apply Forall_cons in Hans as [[l Hl] _]. cbn in Hl.
    destruct (update_accepted s b desired p0 Hacc Hg) as [_ [q Hq]]. congruence.
Qed.

Lemma reconcile_reaches s clock resolver b secret :
  complete b → Meta_DeletionTimestamp (SB_Meta b) = None → resolver_publishes resolver b secret →
  accepting s →
  (∀ p, api_get s (key_of b) = Some p → IsControlledBy (SBP_Meta p) (SB_Meta b) = true) →
  ∃ p, api_get (reconcile_in s (fresh_cache s) clock resolver b) (key_of b) = Some p ∧ settled b secret p.
Proof.
  intros Hb Hd Hpub Hacc Hown.
  destruct (reconcile_projects s (fresh_cache s) clock resolver b Hb)
    as [[_ Hno]|(secret' & desired & new & r & Hask & Hp & Hans & Heq & Hsec)];
    [by destruct (Hno secret Hd)|].
  rewrite <- (Hsec _ Hpub) in Hask. rewrite Heq.
  destruct (projects_settles s clock resolver b secret desired new r) as (p & _ & Hp'); eauto.
Qed.

(** C13: convergence: when the service publishes its secret, the projection's name is free
    or the binding's own, and the controller's cache is current, then one reconciliation
    that the API server accepts settles the projection; further reconciliations then
    change nothing, whatever their cache. *)
Theorem reconcile_settles s clock resolver b secret :
  complete b → Meta_DeletionTimestamp (SB_Meta b) = None → resolver_publishes resolver b secret →
  accepting s →
  (∀ p, api_get s (key_of b) = Some p → IsControlledBy (SBP_Meta p) (SB_Meta b) = true) →
  let s' := reconcile_in s (fresh_cache s) clock resolver b in
  (∃ p, api_get s' (key_of b) = Some p ∧ settled b secret p) ∧
  ∀ cached' clock', observed s' cached' → same_objects s' (reconcile_in s' cached' clock' resolver b).
Proof.
  intros Hb Hd Hpub Hacc Hown s'.
  destruct (reconcile_reaches s clock resolver b secret Hb Hd Hpub Hacc Hown) as (p & Hg & Hset).
  split; [by exists p|]. intros cached' clock' Hobs. by eapply reconcile_settled.
Qed.
End liveness.

(** ** Reporting *)

(** With [ServiceAvailable] true, [Ready] has the status of [ProjectionReady]. *)
Lemma markReady_available now c pr r :
  MC_Status c = ConditionTrue → valid_status (MC_Status pr) → MC_Status (markReady now c pr r) = MC_Status pr.
Proof.
  intros Hc Hpr. unfold markReady, summary. rewrite Hc.
  destruct Hpr as [-> | [-> | ->]]; reflexivity.
Qed.

Lemma propagated_status p t status r c pr status' :
  conds3 status r c pr → MC_Status c = ConditionTrue →
  SB.PropagateServiceBindingProjectionStatus (Some p) t status = Done status' →
  SBStatus_Binding status' = SBStatus_Binding status ∧
  ∃ r' pr', conds3 status' r' c pr' ∧ says pr' (projected p) ∧
    (valid_status (projected p).1.1 → MC_Status r' = (projected p).1.1).
Proof.
  intros Hconds Hc Hprop. rewrite (Propagate_eq _ _ _ _ _ _ Hconds) in Hprop. injection Hprop as <-.
  split; [done|]. do 2 eexists. split_and!; [reflexivity|apply mark_says|].
  intros Hv. by apply markReady_available.
Qed.

(** C14: readiness is reported: when the projection is settled and the controller's cache
    is current, reconciling the binding succeeds without a write, and the binding's status
    has the secret, the observed generation, [ServiceAvailable], and in [ProjectionReady]
    and [Ready] the status of the stored projection's [Ready] condition. *)
Theorem binding_reports_projection s clock resolver b secret p :
  complete b → Meta_DeletionTimestamp (SB_Meta b) = None → resolver_publishes resolver b secret →
  api_get s (key_of b) = Some p → settled b secret p → valid_status (projected p).1.1 →
  ∃ b' new, ReconcileKind id (cluster_env s (fresh_cache s) clock resolver) b [] =
      (Done (b', Some (newReconciledNormal (ns b) (name b))), new) ∧
    writes new = [] ∧ SB_Meta b' = SB_Meta b ∧ SB_Spec b' = SB_Spec b ∧
    SBStatus_Binding (SB_Status b') = SBStatus_Binding (SB_Status (with_secret b secret)) ∧
    SBStatus_ObservedGeneration (SB_Status b') = Meta_Generation (SB_Meta b) ∧
    ∃ r c pr, conds3 (SB_Status b') r c pr ∧ MC_Status c = ConditionTrue ∧
      says pr (projected p) ∧ MC_Status r = (projected p).1.1.
Proof.
  intros [[service Hs] [workload Hw]] Hd (service' & Hs' & Hpub) Hg [Hown (d & Hask & Hsame)] Hv.
  assert (service' = service) as -> by congruence.
  set (env := cluster_env s (fresh_cache s) clock resolver).
  destruct (reconcile_run id env b service workload [] Hs Hw) as (new & b' & ev & Hrun & Hrec & Hans).
  rewrite app_nil_l, map_id in Hrun.
  assert (∀ t calls secret' b1 desired calls' r,
    Forall (answers env) (EvNow t :: map EvResolver calls ++ calls') →
    resolves (serviceRef b service) (SB_Meta b) calls (Ok (Some secret')) → available b t secret' b1 →
    MakeServiceBindingProjection (Err := error) b1 = Done (Ok desired) → projects b1 desired calls' r →
    secret' = secret ∧ r = Ok p ∧ writes calls' = []) as Hfound.
  { intros t calls secret' b1 desired calls' r [_ [Hc%answers_calls Hc']%Forall_app]%Forall_cons Hr Hav Hm Hp.
    pose proof (resolves_published _ _ _ _ _ _ Hpub Hr Hc) as [= ->].
    destruct (available_asks _ _ _ _ _ Hav Hm) as [Hmeta Hask1].
    assert (desired = d) as -> by (by eapply asks_unique). split; [done|].
    apply (projects_ext _ b) in Hp; [|done].
    eapply (projects_found env); [exact Hp|exact Hc'| |done|done].
    intros l. change (fresh_cache s (key_of b) = Ok p). unfold fresh_cache. by rewrite Hg. }
  destruct Hrec as [d' Hd'|t calls err _ Hr|t calls secret' b' desired calls' err _ Hr Hav Hm Hp
    |t calls secret' b' desired calls' p' status _ Hr Hav Hm Hp Hprop].
  - congruence.
  - apply Forall_cons in Hans as [_ Hans%answers_calls].
    by pose proof (resolves_published _ _ _ _ _ _ Hpub Hr Hans).
  - by destruct (Hfound _ _ _ _ _ _ _ Hans Hr Hav Hm Hp) as (_ & ? & _).
  - destruct (Hfound _ _ _ _ _ _ _ Hans Hr Hav Hm Hp) as (-> & [= ->] & Hwrites).
    destruct (available_frame _ _ _ _ Hav) as (Hmeta & Hspec & Hb & _ & r & c & pr & Hconds & Hc).
    destruct (propagated_status _ _ _ _ _ _ _ Hconds Hc Hprop) as (Hb' & r' & pr' & Hconds' & Hsay & Hready).
    unfold ns, name in *. rewrite Hmeta in Hrun. do 2 eexists. split; [exact Hrun|].
    split_and!; [by rewrite writes_calls|done|done|by cbn; rewrite Hb', Hb|done|].
    exists r', c, pr'. auto.
Qed.
End facts.

(** ** A server

    The log of all writes and deletions, the newest first; the version of an object is its
    place in the log. *)
Section log_server.
Context `{Opaque}.
Implicit Types (k : object_name) (p q : ServiceBindingProjection).

Record log_server := mkLog { entries : list (object_name * option ServiceBindingProjection) }.

(** An empty map is left out of the JSON that is stored. *)
Definition omitempty (m : option smap) : option smap :=
  match m with Some m => if decide (m = ∅) then None else Some m | None => None end.

Lemma omitempty_same m : same_map (omitempty m) m.
Proof. destruct m as [m|]; [|done]. cbn. by case_decide as Hm; [subst|]. Qed.

(** The object as the [n]th write stores it under [k]. *)
Definition stamp k (n : nat) p : ServiceBindingProjection :=
  let m := SBP_Meta p in
  mkSBP {| Meta_Name := k.2; Meta_Namespace := k.1; Meta_UID := Meta_UID m;
           Meta_ResourceVersion := pretty n; Meta_Generation := Meta_Generation m;
           Meta_DeletionTimestamp := Meta_DeletionTimestamp m; Meta_Labels := omitempty (Meta_Labels m);
           Meta_Annotations := omitempty (Meta_Annotations m); Meta_OwnerReferences := Meta_OwnerReferences m;
           Meta_Finalizers := Meta_Finalizers m; Meta_Rest := Meta_Rest m |}
    (SBP_Spec p) (SBP_Status p).

Fixpoint latest (es : list (object_name * option ServiceBindingProjection)) k :
    option ServiceBindingProjection :=
  match es with
  | [] => None
  | (k', o) :: es => if decide (k = k') then stamp k (length es) <$> o else latest es k
  end.

Fixpoint recorded (es : list (object_name * option ServiceBindingProjection)) k p : Prop :=
  match es with
  | [] => False
  | (k', o) :: es => (k = k' ∧ stamp k (length es) <$> o = Some p) ∨ recorded es k p
  end.

Definition push (s : log_server) k p : log_server * result error ServiceBindingProjection :=
  (mkLog ((k, Some p) :: entries s), Ok (stamp k (length (entries s)) p)).

Definition log_delete (s : log_server) k : log_server := mkLog ((k, None) :: entries s).

(** What an update of [current] to [p] stores. *)
Definition over (current p : ServiceBindingProjection) : ServiceBindingProjection :=
  let m := SBP_Meta p in
  mkSBP {| Meta_Name := Meta_Name m; Meta_Namespace := Meta_Namespace m;
           Meta_UID := Meta_UID (SBP_Meta current); Meta_ResourceVersion := Meta_ResourceVersion m;
           Meta_Generation := Meta_Generation m;
           Meta_DeletionTimestamp := Meta_DeletionTimestamp (SBP_Meta current);
           Meta_Labels := Meta_Labels m; Meta_Annotations := Meta_Annotations m;
           Meta_OwnerReferences := Meta_OwnerReferences m;
           Meta_Finalizers := Meta_Finalizers m; Meta_Rest := Meta_Rest m |}
    (SBP_Spec p) (SBP_Status current).

#[export] Instance log_api : ApiServer log_server := {|
  api_get s := latest (entries s);
  api_create s namespace p :=
    match latest (entries s) (key_in namespace p) with
    | Some _ => (s, Err (ApiError "AlreadyExists" "already exists"))
    | None => push s (key_in namespace p) p
    end;
  api_update s namespace p :=
    match latest (entries s) (key_in namespace p) with
    | None => (s, Err (ApiError "NotFound" "not found"))
    | Some current =>
        if decide (version current = version p)
        then push s (key_in namespace p) (over current p)
        else (s, Err (ApiError "Conflict" "the object has been modified"))
    end;
  api_seen s := recorded (entries s);
|}.

Lemma latest_recorded es k p : latest es k = Some p → recorded es k p.
Proof.
  induction es as [|[k' o] es IH]; [done|]. cbn. case_decide as Hk; [by left|]. right. auto.
Qed.

Lemma recorded_stamped es k p :
  recorded es k p → ∃ n q, n < length es ∧ p = stamp k n q.
Proof.
  induction es as [|[k' o] es IH]; [done|]. cbn. intros [[_ Hp]|Hp].
  - destruct o as [q|]; [|done]. injection Hp as <-. exists (length es), q. auto with lia.
  - destruct (IH Hp) as (n & q & Hn & ->). exists n, q. auto with lia.
Qed.

Lemma recorded_version es k p p' :
  recorded es k p → recorded es k p' → version p = version p' → p = p'.
Proof.
  induction es as [|[k' o] es IH]; [done|]. cbn.
  assert (∀ x y, stamp k (length es) <$> o = Some x → recorded es k y → version x = version y → x = y) as Hnew.
  { intros x y Hx (n & q & Hn & ->)%recorded_stamped Hv. destruct o as [z|]; [|done].
    injection Hx as <-. cbn in Hv. apply (inj pretty) in Hv. lia. }
  intros [[_ Hp]|Hp] [[_ Hp']|Hp'] Hv; [congruence| | |by apply IH]; [|symmetry]; eapply Hnew; eauto.
Qed.

(** Versions and statuses do not count. *)
Lemma stamp_persisted k n p : persisted p (stamp k n p).
Proof. split_and!; [done|apply omitempty_same|apply omitempty_same|done]. Qed.

Lemma status_persisted k n p status :
  persisted p (stamp k n (mkSBP (SBP_Meta p) (SBP_Spec p) status)).
Proof. exact (stamp_persisted k n (mkSBP (SBP_Meta p) (SBP_Spec p) status)). Qed.

Lemma push_stores s k p :
  stores s (push s k p).1 k (stamp k (length (entries s)) p).
Proof. intros k'. cbn. case_decide as Hk; [by subst|done]. Qed.

#[export] Instance log_api_laws : ApiServerLaws.
Proof.
  split.
  - intros s k p. apply latest_recorded.
  - intros s [ns n] p (m & q & _ & ->)%recorded_stamped. done.
  - intros s k p p'. apply recorded_version.
  - intros s namespace p k q Hq. cbn. case_match; [done|]. by right.
  - intros s namespace p k q Hq. cbn. do 2 (case_match; [|done]). by right.
  - intros s namespace p. cbn. destruct (latest _ _) as [current|] eqn:Hg; [done|].
    split_and!; [done|apply stamp_persisted|apply push_stores].
  - intros s namespace p. cbn. destruct (latest _ _) as [current|] eqn:Hg; [|done].
    case_decide as Hv; [|done]. split_and!; [by exists current| |apply push_stores].
    exact (stamp_persisted _ _ (over current p)).
Qed.

Lemma log_accepting (s : log_server) : accepting s.
Proof.
  intros namespace p. split; cbn.
  - intros ->. by eexists.
  - intros current -> Hv. rewrite decide_True by done. by eexists.
Qed.
End log_server.

(** ** Witnesses *)
#[local] Existing Instance string_opaque.
#[local] Existing Instance sample_guess.

Definition my_secret : LocalObjectReference := mkLocalObjectReference "my-secret".
Definition empty_server : log_server := mkLog [].
Definition sample_resolver : ResolverEnv binding_event := env_resolver fresh_env.

(** The server after the first reconciliation. *)
Definition bound_server : log_server :=
  reconcile_in empty_server (fresh_cache empty_server) 50%Z sample_resolver db_binding.

(** A cache that has not seen the projection yet. *)
Definition stale_cache : cache := fresh_cache empty_server.

Lemma stale_observed (s : log_server) : observed s stale_cache.
Proof. by intros k p. Qed.

Lemma db_publishes : resolver_publishes sample_resolver db_binding my_secret.
Proof.
  exists db_ref. split; [reflexivity|]. right. split; [intros [_ ?]; discriminate|].
  exists (mkServiceableType (newMeta "db" "default") (mkServiceable my_secret)).
  split; [reflexivity|]. intros l. split_and!; reflexivity.
Qed.

Lemma db_complete : complete db_binding.
Proof. split; by eexists. Qed.

Definition bound_projection : ServiceBindingProjection :=
  match api_get bound_server (key_of db_binding) with Some p => p | None => stored end.

Lemma bound_get : api_get bound_server (key_of db_binding) = Some bound_projection.
Proof. vm_compute. reflexivity. Qed.

Lemma reconcile_no_lost_update_witness :
  let s' := reconcile_in bound_server stale_cache 60%Z sample_resolver db_binding in
  api_get s' (key_of db_binding) = api_get bound_server (key_of db_binding) ∨
  ∃ secret q, api_get s' (key_of db_binding) = Some q ∧ brought db_binding secret bound_projection q.
Proof.
  destruct (reconcile_no_lost_update bound_server stale_cache 60%Z sample_resolver db_binding
    db_complete (stale_observed _)) as [_ [Hs|(secret & q & Hg & Hp)]]; [left; exact Hs|].
  right. exists secret, q. split; [exact Hg|].
  rewrite bound_get in Hp. apply Hp.
Defined.

Lemma bound_settled : settled db_binding my_secret bound_projection.
Proof. split; [vm_compute; reflexivity|]. exists stored. split; vm_compute; reflexivity. Qed.

(** The projection is deployed: another actor writes its status. *)
Definition deployed_projection : ServiceBindingProjection :=
  mkSBP (SBP_Meta bound_projection) (SBP_Spec bound_projection) (SBP_Status ready_projection).
Definition deployed_server : log_server := (push bound_server (key_of db_binding) deployed_projection).1.

Lemma deployed_persisted :
  persisted bound_projection (stamp (key_of db_binding) (length (entries bound_server)) deployed_projection).
Proof. apply status_persisted. Qed.

Lemma deployed_step : cluster_step db_binding my_secret bound_server deployed_server.
Proof.
  apply step_others. intros p Hg. rewrite bound_get in Hg. apply (inj Some) in Hg as <-.
  exists (stamp (key_of db_binding) (length (entries bound_server)) deployed_projection).
  split; [exact (push_stores bound_server (key_of db_binding) deployed_projection (key_of db_binding))|].
  exact deployed_persisted.
Qed.

Definition deployed_stored : ServiceBindingProjection :=
  stamp (key_of db_binding) (length (entries bound_server)) deployed_projection.

Lemma deployed_get : api_get deployed_server (key_of db_binding) = Some deployed_stored.
Proof. exact (push_stores bound_server (key_of db_binding) deployed_projection (key_of db_binding)). Qed.

Lemma deployed_settled : settled db_binding my_secret deployed_stored.
Proof. exact (persisted_settled _ _ _ _ bound_settled deployed_persisted). Qed.

Lemma settled_invariant_witness :
  ∃ p, api_get (reconcile_in deployed_server stale_cache 60%Z sample_resolver db_binding) (key_of db_binding)
      = Some p ∧ settled db_binding my_secret p.
Proof.
  apply (settled_invariant db_binding my_secret bound_server) with (p := bound_projection).
  - apply rtc_l with deployed_server; [|apply rtc_once].
    + exact deployed_step.
    + apply step_reconcile; [exact db_complete|apply stale_observed|].
      intros _. split; [by split|exact db_publishes].
  - exact bound_get.
  - exact bound_settled.
Defined.

Lemma reconcile_settles_witness :
  (∃ p, api_get bound_server (key_of db_binding) = Some p ∧ settled db_binding my_secret p) ∧
  same_objects bound_server (reconcile_in bound_server stale_cache 60%Z sample_resolver db_binding).
Proof.
  destruct (reconcile_settles empty_server 50%Z sample_resolver db_binding my_secret db_complete eq_refl
    db_publishes (log_accepting _)) as [Hset Hagain]; [discriminate|].
  split; [exact Hset|]. apply (Hagain stale_cache 60%Z), stale_observed.
Defined.

Lemma binding_reports_projection_witness :
  ∃ b' new, ReconcileKind id (cluster_env deployed_server (fresh_cache deployed_server) 60%Z sample_resolver)
      db_binding [] = (Done (b', Some (newReconciledNormal "default" "b")), new) ∧
    writes new = [] ∧
    ∃ r c pr, conds3 (SB_Status b') r c pr ∧ MC_Status r = ConditionTrue.
Proof.
  destruct (binding_reports_projection deployed_server 60%Z sample_resolver db_binding my_secret
    deployed_stored db_complete eq_refl db_publishes deployed_get deployed_settled)
    as (b' & new & Hrun & Hwr & _ & _ & _ & _ & r & c & pr & Hconds & _ & _ & Hr).
  - left. vm_compute. reflexivity.
  - exists b', new. split; [exact Hrun|]. split; [exact Hwr|]. exists r, c, pr. split; [exact Hconds|].
    rewrite Hr. vm_compute. reflexivity.
Defined.
