(* ===== verification/KindReconciler.v ===== *)
(** * The generated reconcilers

    [pkg/client/injection/reconciler/*/*/*/{reconciler,state,controller}.go] are the
    same code at three kinds.  They are modelled once, over the operations of a
    kind ([Kind]), and instantiated in [Kinds].

    The lister, the client and the recorder are calls to the environment.  The
    functions of [knative.dev/pkg/reconciler] and of [k8s.io] they call are the class
    [KnativeReconciler].  Logging and the context are left out. *)
From stdpp Require Import sorting.
From S2P Require Import Prelude Api Effects.

(** What the code uses of a kind [K] with status [Status]. *)
Class Kind `{Opaque} (K Status : Type) := {
  kind_meta : K → ObjectMeta;
  kind_set_meta : K → ObjectMeta → K;
  kind_status : K → Status;
  kind_set_status : K → Status → K;
}.

Class KindLaws `{Kind} := {
  kind_meta_set_meta k m : kind_meta (kind_set_meta k m) = m;
  kind_meta_set_status k s : kind_meta (kind_set_status k s) = kind_meta k;
  kind_status_set_status k s : kind_status (kind_set_status k s) = s;
  kind_status_set_meta k m : kind_status (kind_set_meta k m) = kind_status k;
}.

Inductive kind_event (K : Type) : Type :=
| EvListerGet (namespace name : string) (r : result error K)
| EvClientGet (namespace name : string) (r : result error K)
| EvUpdateStatus (namespace : string) (k : K) (r : result error K)
| EvPatchFinalizers (namespace name : string) (finalizers : list string) (resourceVersion : string)
    (r : result error K)
| EvKindRecord (eventtype reason message : string).
Arguments EvListerGet {K} _ _ _.
Arguments EvClientGet {K} _ _ _.
Arguments EvUpdateStatus {K} _ _ _.
Arguments EvPatchFinalizers {K} _ _ _ _ _.
Arguments EvKindRecord {K} _ _ _.

Record KindEnv (E K : Type) := {
  env_ListerGet : string → string → list E → result error K;
  env_ClientGet : string → string → list E → result error K;
  env_UpdateStatus : string → K → list E → result error K;
  env_PatchFinalizers : string → string → list string → string → list E → result error K;
}.
Arguments env_ListerGet {E K} _ _ _ _.
Arguments env_ClientGet {E K} _ _ _ _.
Arguments env_UpdateStatus {E K} _ _ _ _.
Arguments env_PatchFinalizers {E K} _ _ _ _ _ _.

(** The functions of other packages.  [RetryUpdateConflicts f s] runs [f] with the
    number of the attempt and the variable [s] it captures. *)
Class KnativeReconciler (E K Status : Type) := {
  SplitMetaNamespaceKey : string → result error (string * string);
  PreProcessReconcile : K → K;
  PostProcessReconcile : K → K → K;
  Semantic_DeepEqual : Status → Status → bool;
  reflect_DeepEqual : Status → Status → bool;
  RetryUpdateConflicts : (nat → K → M E (option error * K)) → K → M E (option error);
}.

(** *** [sets.String] *)
Definition NewString (l : list string) : gset string := list_to_set l.

(** [List]: the elements in order. *)
Definition str_le (a b : string) : Prop := str_lt b a = false.

#[export] Instance str_le_dec : RelDecision str_le.
Proof. intros a b. unfold str_le. apply _. Defined.

Definition StringSet_List (s : gset string) : list string := merge_sort str_le (elements s).

(** What [Reconcile] returns when it does not return nil. *)
Inductive failure : Type :=
| FError (e : error)
| FSkipKey (key : string)   (** [controller.NewSkipKey] *)
| FEvent (e : Event).

Section reconciler.
Context `{Opaque} {K Status : Type} `{!Kind K Status} {E : Type}.
Context (emit : kind_event K → E) (env : KindEnv E K) `{!KnativeReconciler E K Status}.

Local Open Scope effect_scope.

(** The implementation the reconciler delegates to: [ReconcileKind], and the
    methods of the optional interfaces, when it has them. *)
Record Interface := {
  ReconcileKind : K → M E (K * option Event);
  Finalizer : option (K → M E (K * option Event));
  ReadOnlyInterface : option (K → M E (K * option Event));
  ReadOnlyFinalizer : option (K → M E (K * option Event));
}.

Record reconcilerImpl := {
  IsLeaderFor : string → string → bool;
  reconciler : Interface;
  finalizerName : string;
  skipStatusUpdates : bool;
}.

(** [controller.Options], the fields the code reads. *)
Record Options := {
  Options_FinalizerName : string;
  Options_AgentName : string;
  Options_SkipStatusUpdates : bool;
}.

(** [NewReconciler] and [NewImpl] override the defaults with the options; with
    more than one they log a fatal error, which ends the process. *)
Definition NewReconciler (leader : string → string → bool) (r : Interface)
    (defaultFinalizerName : string) (options : list Options) : outcome reconcilerImpl :=
  if bool_decide (1 < length options) then Panic
  else Done (foldl (λ rec opts,
    {| IsLeaderFor := IsLeaderFor rec; reconciler := reconciler rec;
       finalizerName := if negb (bool_decide (Options_FinalizerName opts = ""))
                        then Options_FinalizerName opts else finalizerName rec;
       skipStatusUpdates := if Options_SkipStatusUpdates opts then true else skipStatusUpdates rec |})
    {| IsLeaderFor := leader; reconciler := r; finalizerName := defaultFinalizerName;
       skipStatusUpdates := false |} options).

(** [PromoteFunc], for what the lister lists: the keys it enqueues, and its error. *)
Definition PromoteFunc (listed : list K * option error) : list (string * string) * option error :=
  let '(all, err) := listed in
  match err with
  | Some err => ([], Some err)
  | None => (foldl (λ keys elt, keys ++ [(Meta_Namespace (kind_meta elt), Meta_Name (kind_meta elt))]) [] all, None)
  end.

(** *** state.go *)
Record state := {
  state_key : string;
  state_namespace : string;
  state_name : string;
  state_isROI : bool;
  state_isROF : bool;
  state_isLeader : bool;
}.

Definition newState (key : string) (r : reconcilerImpl) : result error state :=
  match SplitMetaNamespaceKey key with
  | Err _ => Err (PlainError ("invalid resource key: " +:+ key))
  | Ok (namespace, name) =>
      Ok {| state_key := key; state_namespace := namespace; state_name := name;
            state_isROI := bool_decide (is_Some (ReadOnlyInterface (reconciler r)));
            state_isROF := bool_decide (is_Some (ReadOnlyFinalizer (reconciler r)));
            state_isLeader := IsLeaderFor r namespace name |}
  end.

Definition isNotLeaderNorObserver (s : state) : bool :=
  negb (state_isLeader s) && negb (state_isROI s) && negb (state_isROF s).

Inductive method := DoReconcileKind | DoObserveKind | DoFinalizeKind | DoObserveFinalizeKind | DoUnknown.

Definition reconcileMethodFor (r : reconcilerImpl) (s : state) (o : K)
    : method * option (K → M E (K * option Event)) :=
  if IsZero (Meta_DeletionTimestamp (kind_meta o)) then
    if state_isLeader s then (DoReconcileKind, Some (ReconcileKind (reconciler r)))
    else if state_isROI s then (DoObserveKind, ReadOnlyInterface (reconciler r))
    else (DoUnknown, None)
  else
    match Finalizer (reconciler r) with
    | Some fin => if state_isLeader s then (DoFinalizeKind, Some fin)
                  else if state_isROF s then (DoObserveFinalizeKind, ReadOnlyFinalizer (reconciler r))
                  else (DoUnknown, None)
    | None => if negb (state_isLeader s) && state_isROF s
              then (DoObserveFinalizeKind, ReadOnlyFinalizer (reconciler r))
              else (DoUnknown, None)
    end.

(** *** Calls *)
Definition Lister_Get (ns name : string) : M E (result error K) :=
  call (env_ListerGet env ns name) (λ r, emit (EvListerGet ns name r)).
Definition Client_Get (ns name : string) : M E (result error K) :=
  call (env_ClientGet env ns name) (λ r, emit (EvClientGet ns name r)).
Definition Client_UpdateStatus (ns : string) (k : K) : M E (result error K) :=
  call (env_UpdateStatus env ns k) (λ r, emit (EvUpdateStatus ns k r)).
Definition Client_PatchFinalizers (ns name : string) (fs : list string) (rv : string) : M E (result error K) :=
  call (env_PatchFinalizers env ns name fs rv) (λ r, emit (EvPatchFinalizers ns name fs rv r)).
Definition Recorder_Eventf (eventtype reason message : string) : M E unit :=
  call (λ _, tt) (λ _, emit (EvKindRecord eventtype reason message)).

Notation meta := kind_meta.

(** *** Status *)

(** One attempt of [updateStatus]; [existing] is the captured variable. *)
Definition updateStatusAttempt (desired : K) (attempts : nat) (existing : K) : M E (option error * K) :=
  do! latest :=
    if bool_decide (0 < attempts)
    then Client_Get (Meta_Namespace (meta desired)) (Meta_Name (meta desired))
    else ret (Ok existing) in
  match latest with
  | Err err => ret (Some err, existing)
  | Ok existing =>
      if reflect_DeepEqual (kind_status existing) (kind_status desired) then ret (None, existing)
      else
        let existing := kind_set_status existing (kind_status desired) in
        do! updated := Client_UpdateStatus (Meta_Namespace (meta existing)) existing in
        ret (match updated with Ok _ => None | Err err => Some err end, existing)
  end.

Definition updateStatus (existing desired : K) : M E (option error) :=
  RetryUpdateConflicts (updateStatusAttempt desired) existing.

(** *** Finalizers *)
Definition set_Finalizers (k : K) (fs : list string) : K :=
  kind_set_meta k (Meta_set_Finalizers (meta k) fs).

(** The finalizers to write, when there is something to do. *)
Definition filteredFinalizers (finalizerName : string) (existing resource : K) : option (list string) :=
  let existingFinalizers := NewString (Meta_Finalizers (meta existing)) in
  let desiredFinalizers := NewString (Meta_Finalizers (meta resource)) in
  if bool_decide (finalizerName ∈ desiredFinalizers) then
    if bool_decide (finalizerName ∈ existingFinalizers) then None
    else Some (Meta_Finalizers (meta existing) ++ [finalizerName])
  else if negb (bool_decide (finalizerName ∈ existingFinalizers)) then None
  else Some (StringSet_List (existingFinalizers ∖ {[ finalizerName ]})).

Definition updateFinalizersFiltered (r : reconcilerImpl) (resource : K) : M E (result error K) :=
  let ns := Meta_Namespace (meta resource) in
  do! got := Lister_Get ns (Meta_Name (meta resource)) in
  match got with
  | Err err => ret (Err err)
  | Ok existing =>
      match filteredFinalizers (finalizerName r) existing resource with
      | None => ret (Ok resource)
      | Some finalizers =>
          let resourceName := Meta_Name (meta resource) in
          do! patched := Client_PatchFinalizers ns resourceName finalizers
            (Meta_ResourceVersion (meta existing)) in
          match patched with
          | Err err =>
              do! _ := Recorder_Eventf EventTypeWarning "FinalizerUpdateFailed"
                ("Failed to update finalizers for " +:+ quoted resourceName +:+ ": " +:+ Error err) in
              ret (Err err)
          | Ok updated =>
              do! _ := Recorder_Eventf EventTypeNormal "FinalizerUpdate"
                ("Updated " +:+ quoted (Meta_Name (meta resource)) +:+ " finalizers") in
              ret (Ok updated)
          end
      end
  end.

Definition setFinalizerIfFinalizer (r : reconcilerImpl) (resource : K) : M E (result error K) :=
  match Finalizer (reconciler r) with
  | None => ret (Ok resource)
  | Some _ =>
      let finalizers := NewString (Meta_Finalizers (meta resource)) in
      let finalizers :=
        if IsZero (Meta_DeletionTimestamp (meta resource))
        then {[ finalizerName r ]} ∪ finalizers else finalizers in
      updateFinalizersFiltered r (set_Finalizers resource (StringSet_List finalizers))
  end.

Definition clearFinalizer (r : reconcilerImpl) (resource : K) (reconcileEvent : option Event)
    : M E (result error K) :=
  match Finalizer (reconciler r) with
  | None => ret (Ok resource)
  | Some _ =>
      if IsZero (Meta_DeletionTimestamp (meta resource)) then ret (Ok resource)
      else
        let finalizers := NewString (Meta_Finalizers (meta resource)) in
        let finalizers :=
          match reconcileEvent with
          | Some ev =>
              match EventAs ev with
              | Some event =>
                  if bool_decide (Event_EventType event = EventTypeNormal)
                  then finalizers ∖ {[ finalizerName r ]} else finalizers
              | None => finalizers
              end
          | None => finalizers ∖ {[ finalizerName r ]}
          end in
        updateFinalizersFiltered r (set_Finalizers resource (StringSet_List finalizers))
  end.

(** *** Reconcile *)

(** The last part of [Reconcile]: report the event, if any. *)
Definition reportEvent (reconcileEvent : option Event) : M E (option failure) :=
  match reconcileEvent with
  | None => ret None
  | Some ev =>
      match EventAs ev with
      | Some event =>
          do! _ := Recorder_Eventf (Event_EventType event) (Event_Reason event) (Event_Message event) in
          match ev with AnEvent _ => ret None | _ => ret (Some (FEvent ev)) end
      | None =>
          do! _ := Recorder_Eventf EventTypeWarning "InternalError" (Event_Error ev) in
          ret (Some (FEvent ev))
      end
  end.

(** The switch on the method: the resource and the event after it, or an error. *)
Definition runMethod (r : reconcilerImpl) (s : state) (original resource : K)
    : M E (result error (K * option Event)) :=
  let '(name, doReconcile) := reconcileMethodFor r s resource in
  match name with
  | DoReconcileKind =>
      do! set := setFinalizerIfFinalizer r resource in
      match set with
      | Err err => ret (Err (Wrapped "failed to set finalizers: " err))
      | Ok resource =>
          let resource := if skipStatusUpdates r then resource else PreProcessReconcile resource in
          do! run := pure (deref doReconcile) in
          do! (resource, ev) := run resource in
          let resource := if skipStatusUpdates r then resource else PostProcessReconcile resource original in
          ret (Ok (resource, ev))
      end
  | DoFinalizeKind =>
      do! run := pure (deref doReconcile) in
      do! (resource, ev) := run resource in
      do! cleared := clearFinalizer r resource ev in
      match cleared with
      | Err err => ret (Err (Wrapped "failed to clear finalizers: " err))
      | Ok resource => ret (Ok (resource, ev))
      end
  | DoObserveKind | DoObserveFinalizeKind =>
      do! run := pure (deref doReconcile) in
      do! (resource, ev) := run resource in
      ret (Ok (resource, ev))
  | DoUnknown => ret (Ok (resource, None))
  end.

(** Synchronize the status: the error that ends the reconciliation, if any. *)
Definition syncStatus (r : reconcilerImpl) (s : state) (original resource : K) : M E (option error) :=
  if skipStatusUpdates r then ret None
  else if Semantic_DeepEqual (kind_status original) (kind_status resource) then ret None
  else if negb (state_isLeader s) then ret None
  else
    do! err := updateStatus original resource in
    match err with
    | None => ret None
    | Some err =>
        do! _ := Recorder_Eventf EventTypeWarning "UpdateFailed"
          ("Failed to update status for " +:+ quoted (Meta_Name (meta resource)) +:+ ": " +:+ Error err) in
        ret (Some err)
    end.

Definition Reconcile (r : reconcilerImpl) (key : string) : M E (option failure) :=
  match newState key r with
  | Err _ => ret None
  | Ok s =>
      if isNotLeaderNorObserver s then ret (Some (FSkipKey key))
      else
        do! got := Lister_Get (state_namespace s) (state_name s) in
        match got with
        | Err err => if IsNotFound err then ret None else ret (Some (FError err))
        | Ok original =>
            do! ran := runMethod r s original original in
            match ran with
            | Err err => ret (Some (FError err))
            | Ok (resource, reconcileEvent) =>
                do! failed := syncStatus r s original resource in
                match failed with
                | Some err => ret (Some (FError err))
                | None => reportEvent reconcileEvent
                end
            end
        end
  end.
End reconciler.
