(* ===== verification/Kinds.v ===== *)
(** * The three kinds and their controllers

    The generated reconciler of [KindReconciler] at each kind, under the names of
    the generated packages, and the two controllers of [pkg/reconciler] that run it:
    [servicebinding] and [provisionedservice].  (The projections are reconciled by
    knative's [psbinding], with [Do] and [Undo] of [Projection].) *)
From S2P Require Import Prelude Api Conditions Effects Projection Binding Provisioned Resolver.
From S2P Require Import Resources BindingReconciler KindReconciler.

(** ** The kinds *)
#[export] Instance ServiceBinding_Kind `{Opaque} : Kind ServiceBinding ServiceBindingStatus := {|
  kind_meta := SB_Meta;
  kind_set_meta k m := mkSB m (SB_Spec k) (SB_Status k);
  kind_status := SB_Status;
  kind_set_status k s := mkSB (SB_Meta k) (SB_Spec k) s;
|}.

#[export] Instance ProvisionedService_Kind `{Opaque} : Kind ProvisionedService ProvisionedServiceStatus := {|
  kind_meta := PS_Meta;
  kind_set_meta k m := mkPS m (PS_Spec k) (PS_Status k);
  kind_status := PS_Status;
  kind_set_status k s := mkPS (PS_Meta k) (PS_Spec k) s;
|}.

#[export] Instance ServiceBindingProjection_Kind `{Opaque} :
    Kind ServiceBindingProjection ServiceBindingProjectionStatus := {|
  kind_meta := SBP_Meta;
  kind_set_meta k m := mkSBP m (SBP_Spec k) (SBP_Status k);
  kind_status := SBP_Status;
  kind_set_status k s := mkSBP (SBP_Meta k) (SBP_Spec k) s;
|}.

#[export] Instance ServiceBinding_KindLaws `{Opaque} : @KindLaws _ _ _ ServiceBinding_Kind.
Proof. by split. Qed.
#[export] Instance ProvisionedService_KindLaws `{Opaque} : @KindLaws _ _ _ ProvisionedService_Kind.
Proof. by split. Qed.
#[export] Instance ServiceBindingProjection_KindLaws `{Opaque} :
  @KindLaws _ _ _ ServiceBindingProjection_Kind.
Proof. by split. Qed.

(** ** The generated packages *)

(** [pkg/client/injection/reconciler/servicebinding/v1alpha3/servicebinding] *)
Module servicebinding.
Definition defaultControllerAgentName : string := "servicebinding-controller".
Definition defaultFinalizerName : string := "servicebindings.servicebinding.io".

Section reconciler.
Context `{Opaque} {E : Type} (emit : kind_event ServiceBinding → E) (env : KindEnv E ServiceBinding).
Context `{!KnativeReconciler E ServiceBinding ServiceBindingStatus}.

Definition NewImpl (leader : string → string → bool)
    (r : Interface (K := ServiceBinding) (E := E)) (options : list Options) : outcome reconcilerImpl :=
  KindReconciler.NewReconciler leader r defaultFinalizerName options.

Definition Reconcile : reconcilerImpl → string → M E (option failure) := KindReconciler.Reconcile emit env.
End reconciler.
End servicebinding.

(** [pkg/client/injection/reconciler/labs/v1alpha1/provisionedservice] *)
Module provisionedservice.
Definition defaultControllerAgentName : string := "provisionedservice-controller".
Definition defaultFinalizerName : string := "provisionedservices.bindings.labs.vmware.com".

Section reconciler.
Context `{Opaque} {E : Type} (emit : kind_event ProvisionedService → E) (env : KindEnv E ProvisionedService).
Context `{!KnativeReconciler E ProvisionedService ProvisionedServiceStatus}.

(** The interfaces and structs of the package. *)
Definition Interface : Type := KindReconciler.Interface (K := ProvisionedService) (E := E).
Definition reconcilerImpl : Type := KindReconciler.reconcilerImpl (K := ProvisionedService) (E := E).
Definition state : Type := KindReconciler.state.

Definition NewReconciler (leader : string → string → bool)
    (r : Interface) (options : list Options) : outcome reconcilerImpl :=
  KindReconciler.NewReconciler leader r defaultFinalizerName options.

Definition NewImpl (leader : string → string → bool)
    (r : Interface) (options : list Options) : outcome reconcilerImpl :=
  KindReconciler.NewReconciler leader r defaultFinalizerName options.

Definition newState : string → reconcilerImpl → result error state := KindReconciler.newState.
Definition isNotLeaderNorObserver : state → bool := KindReconciler.isNotLeaderNorObserver.
Definition reconcileMethodFor : reconcilerImpl → state → ProvisionedService → method * _ :=
  KindReconciler.reconcileMethodFor (E := E).
Definition updateStatus : ProvisionedService → ProvisionedService → M E (option error) :=
  KindReconciler.updateStatus emit env.
Definition updateFinalizersFiltered : reconcilerImpl → ProvisionedService → M E (result error ProvisionedService) :=
  KindReconciler.updateFinalizersFiltered emit env.
Definition setFinalizerIfFinalizer : reconcilerImpl → ProvisionedService → M E (result error ProvisionedService) :=
  KindReconciler.setFinalizerIfFinalizer emit env.
Definition clearFinalizer :
    reconcilerImpl → ProvisionedService → option Event → M E (result error ProvisionedService) :=
  KindReconciler.clearFinalizer emit env.
Definition Reconcile : reconcilerImpl → string → M E (option failure) := KindReconciler.Reconcile emit env.
End reconciler.
End provisionedservice.

(** [pkg/client/injection/reconciler/labsinternal/v1alpha1/servicebindingprojection] *)
Module servicebindingprojection.
Definition defaultControllerAgentName : string := "servicebindingprojection-controller".
Definition defaultFinalizerName : string := "servicebindingprojections.internal.bindings.labs.vmware.com".

Section reconciler.
Context `{Opaque} {E : Type} (emit : kind_event ServiceBindingProjection → E).
Context (env : KindEnv E ServiceBindingProjection).
Context `{!KnativeReconciler E ServiceBindingProjection ServiceBindingProjectionStatus}.

(** The interfaces and structs of the package. *)
Definition Interface : Type := KindReconciler.Interface (K := ServiceBindingProjection) (E := E).
Definition reconcilerImpl : Type := KindReconciler.reconcilerImpl (K := ServiceBindingProjection) (E := E).
Definition state : Type := KindReconciler.state.

Definition NewReconciler (leader : string → string → bool)
    (r : Interface) (options : list Options) : outcome reconcilerImpl :=
  KindReconciler.NewReconciler leader r defaultFinalizerName options.

Definition NewImpl (leader : string → string → bool)
    (r : Interface) (options : list Options) : outcome reconcilerImpl :=
  KindReconciler.NewReconciler leader r defaultFinalizerName options.

Definition newState : string → reconcilerImpl → result error state := KindReconciler.newState.
Definition isNotLeaderNorObserver : state → bool := KindReconciler.isNotLeaderNorObserver.
Definition reconcileMethodFor : reconcilerImpl → state → ServiceBindingProjection → method * _ :=
  KindReconciler.reconcileMethodFor (E := E).
Definition updateStatus : ServiceBindingProjection → ServiceBindingProjection → M E (option error) :=
  KindReconciler.updateStatus emit env.
Definition updateFinalizersFiltered :
    reconcilerImpl → ServiceBindingProjection → M E (result error ServiceBindingProjection) :=
  KindReconciler.updateFinalizersFiltered emit env.
Definition setFinalizerIfFinalizer :
    reconcilerImpl → ServiceBindingProjection → M E (result error ServiceBindingProjection) :=
  KindReconciler.setFinalizerIfFinalizer emit env.
Definition clearFinalizer :
    reconcilerImpl → ServiceBindingProjection → option Event → M E (result error ServiceBindingProjection) :=
  KindReconciler.clearFinalizer emit env.
Definition Reconcile : reconcilerImpl → string → M E (option failure) := KindReconciler.Reconcile emit env.
End reconciler.
End servicebindingprojection.

(** ** The controllers *)

(** [pkg/reconciler/servicebinding.NewController]: the generated reconciler around
    [ReconcileKind], without finalizer, observers or options.  Its log has the
    calls of both. *)
Section servicebinding_controller.
Context `{Kmeta, !SchemaGuess, !SemanticEquality, !ConditionManager}.
Definition controller_event : Type := kind_event ServiceBinding + binding_event.
Context `{!KnativeReconciler controller_event ServiceBinding ServiceBindingStatus}.
Context (kenv : KindEnv controller_event ServiceBinding) (benv : BindingEnv controller_event).
Context (leader : string → string → bool).

Definition ServiceBinding_Interface : Interface (K := ServiceBinding) (E := controller_event) := {|
  KindReconciler.ReconcileKind := BindingReconciler.ReconcileKind inr benv;
  Finalizer := None; ReadOnlyInterface := None; ReadOnlyFinalizer := None |}.

Definition ServiceBinding_controller : outcome reconcilerImpl :=
  servicebinding.NewImpl leader ServiceBinding_Interface [].

Definition ServiceBinding_Reconcile : string → M controller_event (option failure) :=
  λ key, bind (pure ServiceBinding_controller) (λ rec, servicebinding.Reconcile inl kenv rec key).
End servicebinding_controller.

(** [pkg/reconciler/provisionedservice.NewController]; [clock] is the time the
    condition manager reads. *)
Section provisionedservice_controller.
Context `{Opaque, !ConditionManager}.
Context `{!KnativeReconciler (kind_event ProvisionedService) ProvisionedService ProvisionedServiceStatus}.
Context (kenv : KindEnv (kind_event ProvisionedService) ProvisionedService).
Context (clock : list (kind_event ProvisionedService) → Time) (leader : string → string → bool).

Definition ProvisionedService_Interface :
    Interface (K := ProvisionedService) (E := kind_event ProvisionedService) := {|
  KindReconciler.ReconcileKind o log := (Done (PS.ReconcileKind (clock log) o), log);
  Finalizer := None; ReadOnlyInterface := None; ReadOnlyFinalizer := None |}.

Definition ProvisionedService_controller : outcome reconcilerImpl :=
  provisionedservice.NewImpl leader ProvisionedService_Interface [].

Definition ProvisionedService_Reconcile : string → M (kind_event ProvisionedService) (option failure) :=
  λ key, bind (pure ProvisionedService_controller) (λ rec, provisionedservice.Reconcile id kenv rec key).
End provisionedservice_controller.
