(* ===== verification/Recorder.v ===== *)
(** * The recorders of the controllers

    [createRecorder] of the three generated [controller.go]: the recorder that the context
    has, or a new one on a broadcaster that logs the events and sends them to the API
    server until the context is done.  What [k8s.io/client-go/tools/record] does is a
    sequence of calls; its objects are of arbitrary types. *)
From S2P Require Import Prelude Api Effects Conditions KindReconciler Kinds.

(** [record.EventBroadcaster], [record.EventRecorder] and [watch.Interface]. *)
Class EventLibrary := {
  EventBroadcaster : Type;
  EventRecorder : Type;
  EventWatch : Type;
}.

Section recorder.
Context `{EventLibrary}.

Inductive recorder_event :=
| EvNewBroadcaster (b : EventBroadcaster)
| EvStartLogging (b : EventBroadcaster) (w : EventWatch)
(** Events of all namespaces. *)
| EvStartRecordingToSink (b : EventBroadcaster) (namespace : string) (w : EventWatch)
| EvNewRecorder (b : EventBroadcaster) (component : string) (r : EventRecorder)
(** The goroutine that waits for the context. *)
| EvGoStop (watches : list EventWatch)
| EvStop (w : EventWatch).

Record RecorderEnv := {
  env_NewBroadcaster : list recorder_event → EventBroadcaster;
  env_StartLogging : EventBroadcaster → list recorder_event → EventWatch;
  env_StartRecordingToSink : EventBroadcaster → string → list recorder_event → EventWatch;
  env_NewRecorder : EventBroadcaster → string → list recorder_event → EventRecorder;
}.

Context (env : RecorderEnv).
Local Open Scope effect_scope.

(** [GetEventRecorder] is what [controller.GetEventRecorder(ctx)] returns; [None] is nil. *)
Definition createRecorder (GetEventRecorder : option EventRecorder) (agentName : string) :
    M recorder_event EventRecorder :=
  match GetEventRecorder with
  | Some recorder => ret recorder
  | None =>
      do! eventBroadcaster := call (env_NewBroadcaster env) EvNewBroadcaster in
      do! logging := call (env_StartLogging env eventBroadcaster) (EvStartLogging eventBroadcaster) in
      do! sink := call (env_StartRecordingToSink env eventBroadcaster "")
        (EvStartRecordingToSink eventBroadcaster "") in
      let watches := [logging; sink] in
      do! recorder := call (env_NewRecorder env eventBroadcaster agentName)
        (EvNewRecorder eventBroadcaster agentName) in
      do! _ := call (λ _, tt) (λ _, EvGoStop watches) in
      ret recorder
  end.

(** The goroutine, once the context is done. *)
Fixpoint stopWatches (watches : list EventWatch) : M recorder_event unit :=
  match watches with
  | [] => ret tt
  | w :: watches => do! _ := call (λ _, tt) (λ _, EvStop w) in stopWatches watches
  end.

(** The name under which [NewImpl] records: the default, unless the options have one. *)
Definition agentName `{Opaque} (defaultControllerAgentName : string) (options : list Options) : string :=
  foldl (λ agentName opts,
    if negb (bool_decide (Options_AgentName opts = "")) then Options_AgentName opts else agentName)
    defaultControllerAgentName options.

Definition newRecorder `{Opaque} (defaultControllerAgentName : string) (GetEventRecorder : option EventRecorder)
    (options : list Options) : M recorder_event EventRecorder :=
  createRecorder GetEventRecorder (agentName defaultControllerAgentName options).

(** What is started and not stopped. *)
Definition started_watches (es : list recorder_event) : list EventWatch :=
  omap (λ e, match e with EvStartLogging _ w | EvStartRecordingToSink _ _ w => Some w | _ => None end) es.
Definition stopped_watches (es : list recorder_event) : list EventWatch :=
  omap (λ e, match e with EvStop w => Some w | _ => None end) es.

Lemma stopWatches_run watches log : stopWatches watches log = (Done tt, log ++ map EvStop watches).
Proof.
  revert log. induction watches as [|w watches IH]; intros log; cbn [stopWatches map].
  - by rewrite app_nil_r.
  - rewrite bind_call, IH. by rewrite <- (assoc_L (++)).
Qed.

(** A recorder of the context is used as it is, without any call.  Otherwise there is one
    broadcaster, the recorder records under the agent's name, and the goroutine that is
    started last stops exactly the watches that were started. *)
Theorem createRecorder_stops (agent : string) log :
  (∀ r, createRecorder (Some r) agent log = (Done r, log)) ∧
  ∃ b r watches new, createRecorder None agent log = (Done r, log ++ new) ∧
    EvNewRecorder b agent r ∈ new ∧ last new = Some (EvGoStop watches) ∧
    (∀ e, e ∈ new → match e with EvNewBroadcaster b' => b' = b | EvNewRecorder b' a _ => b' = b ∧ a = agent
                    | EvStartRecordingToSink b' ns _ => b' = b ∧ ns = "" | _ => True end) ∧
    ∀ log', ∃ new', stopWatches watches log' = (Done tt, log' ++ new') ∧
      stopped_watches new' = started_watches new.
Proof.
  split; [done|]. unfold createRecorder. rewrite !bind_call. cbn.
  do 4 eexists. split; [by rewrite <- !(assoc_L (++))|]. cbn [app]. split_and!.
  - do 3 right. by left.
  - reflexivity.
  - intros e He. repeat (apply elem_of_cons in He as [->|He]; [done|]). by apply elem_of_nil in He.
  - intros log'. eexists. split; [apply stopWatches_run|done].
Qed.
End recorder.

(** ** The generated packages *)
Module servicebinding.
Section recorder.
Context `{EventLibrary, Opaque} (env : RecorderEnv).
Definition createRecorder : option EventRecorder → string → M recorder_event EventRecorder := createRecorder env.
End recorder.
End servicebinding.

Module provisionedservice.
Section recorder.
Context `{EventLibrary, Opaque} (env : RecorderEnv).
Definition createRecorder : option EventRecorder → string → M recorder_event EventRecorder := createRecorder env.
End recorder.
End provisionedservice.

Module servicebindingprojection.
Section recorder.
Context `{EventLibrary, Opaque} (env : RecorderEnv).
Definition createRecorder : option EventRecorder → string → M recorder_event EventRecorder := createRecorder env.
End recorder.
End servicebindingprojection.
