(* ===== verification/KindReconcilerFacts.v ===== *)
(** * Properties of the generated reconcilers

    For every kind: only the leader writes; a status update changes nothing but the
    status, and is retried from the stored object on a conflict; a finalizer patch
    changes no other finalizer; and the composition [Reconcile] makes of the
    implementation's [ReconcileKind]. *)
From stdpp Require Import sorting.
From S2P Require Import Prelude Api Conditions Effects Provisioned KindReconciler Kinds.

(** The documented behaviour of the functions called: [RetryUpdateConflicts] runs
    the function until it returns something else than a conflict, again at
    most [retries] times, and returns its last error. *)
Fixpoint retry {E K : Type} (n attempt : nat) (f : nat → K → M E (option error * K)) (s : K)
    : M E (option error) :=
  bind (f attempt s) (λ '(err, s),
    match err, n with
    | Some e, S n' => if IsConflict e then retry n' (S attempt) f s else ret (Some e)
    | _, _ => ret err
    end).

Class KnativeReconcilerLaws (E K Status : Type) `{!KnativeReconciler E K Status} := {
  retries : nat;
  RetryUpdateConflicts_retry f (s : K) log : RetryUpdateConflicts f s log = retry retries 0 f s log;
  Semantic_DeepEqual_refl (s : Status) : Semantic_DeepEqual s s = true;
}.

Lemma elem_of_StringSet_List s x : x ∈ StringSet_List s ↔ x ∈ s.
Proof. unfold StringSet_List. by rewrite merge_sort_Permutation, elem_of_elements. Qed.

Section facts.
Context `{Opaque} {K Status : Type} `{!Kind K Status, !KindLaws} {E : Type}.
Context (emit : kind_event K → E) (env : KindEnv E K).
Context `{!KnativeReconciler E K Status, !KnativeReconcilerLaws E K Status}.
Implicit Types (r : reconcilerImpl (K := K) (E := E)) (k : K).

(** ** Only the leader writes *)
Definition kind_write (e : kind_event K) : bool :=
  match e with EvUpdateStatus _ _ _ | EvPatchFinalizers _ _ _ _ _ => true | _ => false end.

(** C34: a replica that is not the leader of the key it reconciles, whatever other keys it
    leads, never writes: every event of its reconciliation satisfies [P], as long as [P]
    holds of the lookups and the records, and of what its observers do.  With no observer
    it skips the key, or ignores it when it is malformed. *)
Theorem Reconcile_follower_never_writes (P : E → Prop) r key :
  (∀ e, kind_write e = false → P (emit e)) →
  (∀ f, ReadOnlyInterface (reconciler r) = Some f ∨ ReadOnlyFinalizer (reconciler r) = Some f →
    ∀ k, emits P (f k)) →
  (∀ ns name, SplitMetaNamespaceKey key = Ok (ns, name) → IsLeaderFor r ns name = false) →
  emits P (Reconcile emit env r key) ∧
  (ReadOnlyInterface (reconciler r) = None → ReadOnlyFinalizer (reconciler r) = None →
    ∀ log, Reconcile emit env r key log = (Done None, log) ∨
           Reconcile emit env r key log = (Done (Some (FSkipKey key)), log)).
Proof.
  intros HP Hobs Hlead. unfold Reconcile, newState.
  destruct (SplitMetaNamespaceKey key) as [[ns name]|err]; [|split; [apply emits_ret|by left]].
  unfold isNotLeaderNorObserver. cbn [state_isLeader state_isROI state_isROF].
  rewrite (Hlead ns name eq_refl).
  cbn [negb andb].
  split; [|intros Hroi Hrof log; rewrite Hroi, Hrof; cbn; by right].
  case_match; [apply emits_ret|].
  apply emits_bind; [by apply emits_call; intros; apply HP|]. intros [original|e];
    [|case_match; apply emits_ret].
  apply emits_bind; [|intros [[resource ev]|e]; [|apply emits_ret]].
  - unfold runMethod, reconcileMethodFor. cbn [state_isLeader state_isROI state_isROF negb andb].
    assert (∀ f, f = ReadOnlyInterface (reconciler r) ∨ f = ReadOnlyFinalizer (reconciler r) →
      emits P (bind (pure (deref f)) (λ run, bind (run original) (λ '(resource, ev),
        ret (E := E) (A := result error _) (Ok (resource, ev)))))) as Hrun.
    { intros [f|] Hf; [|apply emits_panic].
      cbn [deref]. rewrite bind_pure_l. apply emits_bind;
        [apply (Hobs f); destruct Hf as [<-|<-]; auto|intros [? ?]; apply emits_ret]. }
    destruct (IsZero _), (bool_decide (is_Some (ReadOnlyInterface _))),
      (bool_decide (is_Some (ReadOnlyFinalizer _))), (Finalizer (reconciler r));
      first [apply emits_ret | apply (Hrun _ (or_introl eq_refl)) | apply (Hrun _ (or_intror eq_refl))].
  - unfold syncStatus, reportEvent. cbn [state_isLeader negb].
    apply emits_bind; [repeat case_match; apply emits_ret|]. intros [e|]; [apply emits_ret|].
    solve_emits; by apply HP.
Qed.

(** ** Status updates *)
Definition status_write (e : kind_event K) : bool :=
  match e with EvUpdateStatus _ _ _ => true | _ => false end.

(** What the calls of [updateStatus existing desired] are: lookups of the desired
    object, and updates whose object is [existing] or a fetched one with the
    desired status and nothing else changed. *)
Definition update_call (existing desired : K) (es : list (kind_event K)) (e : kind_event K) : Prop :=
  match e with
  | EvClientGet ns name _ => ns = Meta_Namespace (kind_meta desired) ∧ name = Meta_Name (kind_meta desired)
  | EvUpdateStatus ns k _ =>
      ∃ base, k = kind_set_status base (kind_status desired) ∧ ns = Meta_Namespace (kind_meta base) ∧
        reflect_DeepEqual (kind_status base) (kind_status desired) = false ∧
        (base = existing ∨
         EvClientGet (Meta_Namespace (kind_meta desired)) (Meta_Name (kind_meta desired)) (Ok base) ∈ es)
  | _ => False
  end.

(** The status is stored: the reconciler saw it in the object that it loaded, which is the
    cache's and may be stale, or in one that it fetched again, or an update succeeded. *)
Definition status_stored (existing desired : K) (es : list (kind_event K)) : Prop :=
  (∃ base, reflect_DeepEqual (kind_status base) (kind_status desired) = true ∧
    (base = existing ∨
     EvClientGet (Meta_Namespace (kind_meta desired)) (Meta_Name (kind_meta desired)) (Ok base) ∈ es)) ∨
  ∃ ns k k', EvUpdateStatus ns k (Ok k') ∈ es.

Lemma update_call_weaken existing desired es es' e :
  (∀ x, x ∈ es → x ∈ es') → update_call existing desired es e → update_call existing desired es' e.
Proof.
  intros Hsub. destruct e; cbn; try done.
  intros (base & ? & ? & ? & [?|Hin]); exists base; split_and!; auto.
Qed.

Lemma status_stored_weaken existing desired es es' :
  (∀ x, x ∈ es → x ∈ es') → status_stored existing desired es → status_stored existing desired es'.
Proof.
  intros Hsub [(base & ? & [?|Hin])|(ns & k & k' & Hin)];
    [left; exists base; auto|left; exists base; auto|right; eauto].
Qed.

Definition get_desired desired (r : result error K) : kind_event K :=
  EvClientGet (Meta_Namespace (kind_meta desired)) (Meta_Name (kind_meta desired)) r.
Definition update_from desired base (r : result error K) : kind_event K :=
  EvUpdateStatus (Meta_Namespace (kind_meta base)) (kind_set_status base (kind_status desired)) r.
Definition error_of (r : result error K) : option error :=
  match r with Ok _ => None | Err e => Some e end.

(** The runs of one attempt on the captured object [s]; [fetch] for all but the
    first. *)
Inductive attempt desired (s : K) : bool → list (kind_event K) → option error → Prop :=
| attempt_fetch_failed e : attempt desired s true [get_desired desired (Err e)] (Some e)
| attempt_fetched_same base :
    reflect_DeepEqual (kind_status base) (kind_status desired) = true →
    attempt desired s true [get_desired desired (Ok base)] None
| attempt_fetched base (r : result error K) :
    reflect_DeepEqual (kind_status base) (kind_status desired) = false →
    attempt desired s true [get_desired desired (Ok base); update_from desired base r] (error_of r)
| attempt_same :
    reflect_DeepEqual (kind_status s) (kind_status desired) = true → attempt desired s false [] None
| attempt_first (r : result error K) :
    reflect_DeepEqual (kind_status s) (kind_status desired) = false →
    attempt desired s false [update_from desired s r] (error_of r).

(** The result of a call is the environment's answer at some time. *)
Definition kind_answers (e : kind_event K) : Prop :=
  match e with
  | EvListerGet ns name r => ∃ log, env_ListerGet env ns name log = r
  | EvClientGet ns name r => ∃ log, env_ClientGet env ns name log = r
  | EvUpdateStatus ns k r => ∃ log, env_UpdateStatus env ns k log = r
  | EvPatchFinalizers ns name fs version r => ∃ log, env_PatchFinalizers env ns name fs version log = r
  | EvKindRecord _ _ _ => True
  end.

Ltac solve_kind_answers := repeat (apply Forall_cons_2; [cbn; eexists; first [eassumption|reflexivity]|]); apply Forall_nil_2.

Lemma attempt_run desired a s log :
  ∃ new err s', updateStatusAttempt emit env desired a s log = (Done (err, s'), log ++ map emit new) ∧
    attempt desired s (bool_decide (0 < a)) new err ∧ Forall kind_answers new.
Proof.
  unfold updateStatusAttempt, Client_Get, Client_UpdateStatus. case_bool_decide as Ha.
  - rewrite bind_call. destruct (env_ClientGet _ _ _ _) as [base|err] eqn:Hget.
    2: { exists [get_desired desired (Err err)]. do 2 eexists.
         split; [done|]. split; [apply attempt_fetch_failed|solve_kind_answers]. }
    destruct (reflect_DeepEqual (kind_status base) (kind_status desired)) eqn:Hd.
    { exists [get_desired desired (Ok base)]. do 2 eexists.
      split; [done|]. split; [by eapply attempt_fetched_same|solve_kind_answers]. }
    rewrite bind_call, kind_meta_set_status. eexists [get_desired desired (Ok base); update_from desired base _].
    do 2 eexists. split; [cbn; by rewrite <- (assoc_L (++))|].
    split; [by eapply attempt_fetched|solve_kind_answers].
  - rewrite bind_ret. destruct (reflect_DeepEqual (kind_status s) (kind_status desired)) eqn:Hd.
    { exists []. do 2 eexists. split; [by rewrite app_nil_r|]. split; [by eapply attempt_same|constructor]. }
    rewrite bind_call, kind_meta_set_status. eexists [update_from desired s _]. do 2 eexists. split; [done|].
    split; [by eapply attempt_first|solve_kind_answers].
Qed.

(** What an attempt does, relative to the object [x] the update started from:
    the captured object is [x] in the first attempt and is not used later. *)
Lemma attempt_calls desired s x fetch new err :
  attempt desired s fetch new err → (fetch = false → s = x) →
  Forall (update_call x desired new) new ∧ length (List.filter status_write new) ≤ 1 ∧
  (err = None → status_stored x desired new).
Proof.
  intros Hat Hx. destruct Hat as [e|base Hd|base r Hd|Hd|r Hd].
  - split_and!; [by repeat constructor|cbn; lia|done].
  - split_and!; [by repeat constructor|cbn; lia|]. intros _. left. exists base.
    split; [done|right; by left].
  - split_and!; [|cbn; lia|].
    + constructor; [done|]. constructor; [|done]. exists base. split_and!; try done. right. by left.
    + destruct r as [k'|e]; [|done]. intros _. right. do 3 eexists. right. by left.
  - split_and!; [done|cbn; lia|]. intros _. left. exists s. split; [done|left; auto].
  - split_and!; [|cbn; lia|].
    + constructor; [|done]. exists s. split_and!; try done. left. auto.
    + destruct r as [k'|e]; [|done]. intros _. right. do 3 eexists. by left.
Qed.

Lemma retry_run desired x n : ∀ a s log,
  (a = 0 → s = x) →
  ∃ new err, retry n a (updateStatusAttempt emit env desired) s log = (Done err, log ++ map emit new) ∧
    Forall (update_call x desired new) new ∧ length (List.filter status_write new) ≤ S n ∧
    (err = None → status_stored x desired new).
Proof.
  induction n as [|n IH]; intros a s log Hx; cbn [retry];
    destruct (attempt_run desired a s log) as (new & err & s' & Hrun & Hat & _);
    rewrite (bind_Done _ _ _ _ _ Hrun);
    (destruct (attempt_calls desired s x _ new err Hat) as (Hcalls & Hlen & Hok);
      [rewrite bool_decide_eq_false; intros; apply Hx; lia|]).
  - exists new, err. split_and!; [by destruct err|done|lia|done].
  - destruct err as [e|]; [|exists new, None; split_and!; [done|done|lia|done]].
    destruct (IsConflict e); [|exists new, (Some e); split_and!; [done|done|lia|done]].
    destruct (IH (S a) s' (log ++ map emit new)) as (new' & err & Hrun' & Hcalls' & Hlen' & Hok'); [done|].
    exists (new ++ new'), err. rewrite Hrun', map_app, <- (assoc_L (++)). split; [done|]. split_and!.
    + apply Forall_app; split; (eapply Forall_impl; [eassumption|]); intros e';
        apply update_call_weaken; set_solver.
    + rewrite List.filter_app, length_app. lia.
    + intros Herr. eapply status_stored_weaken; [|by apply Hok']. set_solver.
Qed.

Lemma updateStatus_run existing desired log :
  ∃ new err, updateStatus emit env existing desired log = (Done err, log ++ map emit new) ∧
    (∀ e, e ∈ new → update_call existing desired new e) ∧
    length (List.filter status_write new) ≤ S (retries (E := E) (K := K) (Status := Status)) ∧
    (err = None → status_stored existing desired new).
Proof.
  unfold updateStatus. rewrite RetryUpdateConflicts_retry.
  destruct (retry_run desired existing (retries (E := E) (K := K) (Status := Status)) 0 existing log)
    as (new & err & Hrun & Hcalls & Hlen & Hok); [done|].
  exists new, err. rewrite Forall_forall in Hcalls. by split_and!.
Qed.

(** Which call of an update stores the status: the last one, or none. *)
Definition not_stored (e : kind_event K) : Prop :=
  match e with EvUpdateStatus _ _ (Ok _) => False | _ => True end.

Definition is_base existing desired (es : list (kind_event K)) (base : K) : Prop :=
  base = existing ∨ get_desired desired (Ok base) ∈ es.

Inductive update_shape existing desired : list (kind_event K) → option error → Prop :=
| shape_unstored new err :
    Forall not_stored new →
    (err = None → ∃ base, reflect_DeepEqual (kind_status base) (kind_status desired) = true ∧
      is_base existing desired new base) →
    update_shape existing desired new err
| shape_stored pre base (q : K) :
    Forall not_stored pre → is_base existing desired pre base →
    update_shape existing desired (pre ++ [update_from desired base (Ok q)]) None.

Lemma attempt_shape desired (s x : K) fetch new err :
  attempt desired s fetch new err → (fetch = false → s = x) → update_shape x desired new err.
Proof.
  intros Hat Hx. destruct Hat as [e|base Hd|base [q|e] Hd|Hd|[q|e] Hd].
  - by apply shape_unstored; [repeat constructor|].
  - apply shape_unstored; [repeat constructor|]. intros _. exists base. split; [done|]. right. by left.
  - apply (shape_stored x desired [_]); [repeat constructor|]. right. by left.
  - by apply shape_unstored; [repeat constructor|].
  - apply shape_unstored; [constructor|]. intros _. exists s. split; [done|]. left. auto.
  - apply (shape_stored x desired []); [constructor|]. left. auto.
  - by apply shape_unstored; [repeat constructor|].
Qed.

Lemma shape_after existing desired pre new err :
  Forall not_stored pre → update_shape existing desired new err → update_shape existing desired (pre ++ new) err.
Proof.
  intros Hpre Hsh. assert (∀ l base, is_base existing desired l base → is_base existing desired (pre ++ l) base) as Hbase.
  { intros l base [?|Hin]; [by left|right; apply elem_of_app; by right]. }
  destruct Hsh as [new err Hnew Herr|pre' base q Hpre' Hb].
  - apply shape_unstored; [by apply Forall_app|]. intros ->. destruct Herr as (base & ? & ?); [done|].
    exists base. auto.
  - rewrite (assoc_L (++)). apply shape_stored; [by apply Forall_app|auto].
Qed.

(** The runs of [updateStatus], for answers that come from the environment. *)
Lemma updateStatus_shape existing desired log :
  ∃ new err, updateStatus emit env existing desired log = (Done err, log ++ map emit new) ∧
    Forall kind_answers new ∧ update_shape existing desired new err.
Proof.
  unfold updateStatus. rewrite RetryUpdateConflicts_retry.
  generalize (retries (E := E) (K := K) (Status := Status)). intros n.
  assert (∀ a s log, (a = 0 → s = existing) →
    ∃ new err, retry n a (updateStatusAttempt emit env desired) s log = (Done err, log ++ map emit new) ∧
      Forall kind_answers new ∧ update_shape existing desired new err) as Hretry; [|by apply Hretry].
  induction n as [|n IH]; intros a s l Hx; cbn [retry];
    destruct (attempt_run desired a s l) as (new & err & s' & Hrun & Hat & Hans);
    rewrite (bind_Done _ _ _ _ _ Hrun);
    (assert (update_shape existing desired new err) as Hsh;
      [eapply attempt_shape; [exact Hat|]; rewrite bool_decide_eq_false; intros; apply Hx; lia|]).
  - exists new, err. by destruct err.
  - destruct err as [e|]; [|by exists new, None].
    destruct (IsConflict e); [|by exists new, (Some e)].
    destruct (IH (S a) s' (l ++ map emit new)) as (new' & err & Hrun' & Hans' & Hsh'); [done|].
    exists (new ++ new'), err. rewrite Hrun', map_app, <- (assoc_L (++)). split; [done|].
    split; [by apply Forall_app|]. apply shape_after; [|done].
    by inversion Hsh.
Qed.

(** An update that the server takes at once. *)
Lemma updateStatus_accepted existing desired log q :
  env_UpdateStatus env (Meta_Namespace (kind_meta existing)) (kind_set_status existing (kind_status desired)) log
    = Ok q →
  ∃ new, updateStatus emit env existing desired log = (Done None, log ++ map emit new) ∧
    (new = [] ∧ reflect_DeepEqual (kind_status existing) (kind_status desired) = true ∨
     new = [update_from desired existing (Ok q)]).
Proof.
  intros Hq. unfold updateStatus. rewrite RetryUpdateConflicts_retry.
  generalize (retries (E := E) (K := K) (Status := Status)). intros n.
  assert (retry n 0 (updateStatusAttempt emit env desired) existing log =
    bind (updateStatusAttempt emit env desired 0 existing) (λ '(err, s),
      match err, n with
      | Some e, S n' => if IsConflict e then retry n' 1 (updateStatusAttempt emit env desired) s else ret (Some e)
      | _, _ => ret err
      end) log) as -> by (by destruct n).
  unfold updateStatusAttempt. rewrite bool_decide_eq_false_2 by lia.
  unfold Client_UpdateStatus, bind, ret. destruct (reflect_DeepEqual _ _).
  - exists []. rewrite app_nil_r. split; [by destruct n|left; by split].
  - exists [update_from desired existing (Ok q)]. split; [|by right].
    rewrite kind_meta_set_status. unfold call. rewrite Hq. by destruct n.
Qed.

Lemma reportEvent_run ev log : ∃ res log', reportEvent emit ev log = (Done res, log').
Proof.
  unfold reportEvent. destruct ev as [ev|]; [|by do 2 eexists].
  destruct (EventAs ev); cbn; [destruct ev|]; by do 2 eexists.
Qed.

(** C33: status updates: [updateStatus] ends, without a panic, after at most
    [retries + 1] updates.  Each update sends the loaded object, or on a conflict the
    object fetched again, with the desired status and nothing else changed; and
    when it returns no error the last one stored the desired status, or the object it is
    compared with has it already: the loaded one, a cached copy that may be old, or the
    one fetched again. *)
Theorem updateStatus_safe existing desired log :
  ∃ new err, updateStatus emit env existing desired log = (Done err, log ++ map emit new) ∧
    (∀ e, e ∈ new → update_call existing desired new e) ∧
    length (List.filter status_write new) ≤ S (retries (E := E) (K := K) (Status := Status)) ∧
    (err = None → status_stored existing desired new).
Proof. apply updateStatus_run. Qed.

(** ** Finalizers *)

(** A finalizer patch changes no finalizer but the reconciler's own: it is
    sent only when the resource and the stored object disagree on that one, and
    then adds it to or removes it from the stored finalizers. *)
Theorem filteredFinalizers_own (name : string) existing resource :
  match filteredFinalizers name existing resource with
  | Some fs =>
      (name ∈ Meta_Finalizers (kind_meta resource) ↔ name ∉ Meta_Finalizers (kind_meta existing)) ∧
      (name ∈ fs ↔ name ∈ Meta_Finalizers (kind_meta resource)) ∧
      ∀ f, f ≠ name → (f ∈ fs ↔ f ∈ Meta_Finalizers (kind_meta existing))
  | None => name ∈ Meta_Finalizers (kind_meta resource) ↔ name ∈ Meta_Finalizers (kind_meta existing)
  end.
Proof.
  unfold filteredFinalizers, NewString.
  repeat case_bool_decide; cbn [negb]; rewrite ?elem_of_list_to_set in *; try tauto.
  - split_and!; [tauto|rewrite elem_of_app, list_elem_of_singleton; tauto|].
    intros f Hf. rewrite elem_of_app, list_elem_of_singleton. tauto.
  - split_and!; [tauto|rewrite elem_of_StringSet_List, elem_of_difference, elem_of_singleton; tauto|].
    intros f Hf. rewrite elem_of_StringSet_List, elem_of_difference, elem_of_singleton, elem_of_list_to_set.
    tauto.
Qed.

(** ** The composition *)

Lemma Reconcile_leader_eq r key ns name log :
  Finalizer (reconciler r) = None → skipStatusUpdates r = false →
  SplitMetaNamespaceKey key = Ok (ns, name) → IsLeaderFor r ns name = true →
  let answer := env_ListerGet env ns name log in
  Reconcile emit env r key log =
  match answer with
  | Err err => ret (if IsNotFound err then None else Some (FError err))
  | Ok original =>
      if negb (IsZero (Meta_DeletionTimestamp (kind_meta original))) then ret None
      else bind (ReconcileKind (reconciler r) (PreProcessReconcile original)) (λ '(resource, ev),
        let resource := PostProcessReconcile resource original in
        if Semantic_DeepEqual (kind_status original) (kind_status resource) then reportEvent emit ev
        else bind (updateStatus emit env original resource) (λ err,
          match err with
          | None => reportEvent emit ev
          | Some err => bind (Recorder_Eventf emit EventTypeWarning "UpdateFailed"
              ("Failed to update status for " +:+ quoted (Meta_Name (kind_meta resource)) +:+ ": " +:+ Error err))
              (λ _, ret (Some (FError err)))
          end))
  end (log ++ [emit (EvListerGet ns name answer)]).
Proof.
  intros Hfin Hskip Hkey Hlead. cbn zeta. unfold Reconcile, newState. rewrite Hkey.
  unfold isNotLeaderNorObserver. cbn [state_isLeader state_namespace state_name]. rewrite Hlead. cbn [negb andb].
  unfold Lister_Get. rewrite bind_call. destruct (env_ListerGet _ _ _ _) as [original|err]; [|by case_match].
  unfold runMethod, reconcileMethodFor, setFinalizerIfFinalizer, syncStatus.
  cbn [state_isLeader negb]. rewrite Hfin, Hskip.
  destruct (IsZero _); cbn [negb].
  - rewrite bind_ret_l. cbn [deref]. rewrite bind_pure_l. unfold bind, ret.
    destruct (ReconcileKind _ _ _) as [[[resource ev]|] log']; [|reflexivity].
    destruct (Semantic_DeepEqual _ _); [reflexivity|].
    destruct (updateStatus _ _ _ _ _) as [[[e|]|] log'']; reflexivity.
  - cbn [andb]. unfold bind, ret. by rewrite Semantic_DeepEqual_refl.
Qed.

(** What [reportEvent] returns, and what it records. *)
Definition event_result (ev : option Event) : option failure :=
  match ev with None | Some (AnEvent _) => None | Some ev => Some (FEvent ev) end.
Definition event_record (ev : Event) : kind_event K :=
  match EventAs ev with
  | Some e => EvKindRecord (Event_EventType e) (Event_Reason e) (Event_Message e)
  | None => EvKindRecord EventTypeWarning "InternalError" (Event_Error ev)
  end.
Definition event_records (ev : option Event) : list (kind_event K) :=
  match ev with None => [] | Some ev => [event_record ev] end.

Lemma reportEvent_eq ev log :
  reportEvent emit ev log = (Done (event_result ev), log ++ map emit (event_records ev)).
Proof.
  unfold reportEvent, event_result, event_records, event_record. destruct ev as [ev|];
    [|cbn; by rewrite app_nil_r]. by destruct ev.
Qed.

(** C32: the leader's reconciliation of a live object, for an implementation
    without finalizer and with the default options, as the repository's are: it
    ends when [ReconcileKind] does; its writes after that are updates of the
    object's status alone, and there are none when the status is as loaded; it
    returns and records the error of an update; otherwise the status
    [ReconcileKind] computed is stored, whatever event it returned, and that event
    is recorded last, once, and decides the result. *)
Theorem Reconcile_leader r key ns name log original resource ev log1 :
  Finalizer (reconciler r) = None → skipStatusUpdates r = false →
  SplitMetaNamespaceKey key = Ok (ns, name) → IsLeaderFor r ns name = true →
  env_ListerGet env ns name log = Ok original →
  IsZero (Meta_DeletionTimestamp (kind_meta original)) = true →
  ReconcileKind (reconciler r) (PreProcessReconcile original)
    (log ++ [emit (EvListerGet ns name (Ok original))]) = (Done (resource, ev), log1) →
  let desired := PostProcessReconcile resource original in
  let same := Semantic_DeepEqual (kind_status original) (kind_status desired) in
  ∃ new rep res, Reconcile emit env r key log = (Done res, log1 ++ map emit (new ++ rep)) ∧
    (∀ e, e ∈ new → update_call original desired new e) ∧
    (same = true → new = []) ∧
    ((∃ err, res = Some (FError err) ∧ rep = [EvKindRecord EventTypeWarning "UpdateFailed"
        ("Failed to update status for " +:+ quoted (Meta_Name (kind_meta desired)) +:+ ": " +:+ Error err)]) ∨
     (same = true ∨ status_stored original desired new) ∧
     rep = event_records ev ∧ res = event_result ev).
Proof.
  intros Hfin Hskip Hkey Hlead Hget Hlive Hrun. cbn zeta.
  rewrite (Reconcile_leader_eq r key ns name log) by done. cbn zeta. rewrite Hget, Hlive. cbn [negb].
  rewrite (bind_Done _ _ _ _ _ Hrun).
  destruct (Semantic_DeepEqual _ _).
  - exists [], (event_records ev). eexists. rewrite reportEvent_eq. split_and!; [done|by intros e ?%elem_of_nil|done|].
    right. auto.
  - destruct (updateStatus_run original (PostProcessReconcile resource original) log1)
      as (new & err & Hupd & Hcalls & _ & Hst).
    rewrite (bind_Done _ _ _ _ _ Hupd). destruct err as [err|].
    + exists new, [EvKindRecord EventTypeWarning "UpdateFailed" ("Failed to update status for " +:+
        quoted (Meta_Name (kind_meta (PostProcessReconcile resource original))) +:+ ": " +:+ Error err)].
      eexists. unfold Recorder_Eventf. rewrite bind_call, map_app, (assoc_L (++)).
      split_and!; [reflexivity|done|done|left; eauto].
    + exists new, (event_records ev). eexists. rewrite reportEvent_eq, map_app, (assoc_L (++)).
      split_and!; [reflexivity|done|done|right; auto].
Qed.
End facts.

(** ** Witnesses *)
#[local] Existing Instance string_opaque.

(** Keys are [namespace/name] or [name]; statuses are compared by equality; a
    conflict is retried four times, as knative does. *)
Definition split_key (key : string) : result error (string * string) :=
  match index 0 "/" key with
  | None => Ok ("", key)
  | Some i =>
      let name := substring (S i) (String.length key) key in
      match index 0 "/" name with
      | None => Ok (substring 0 i key, name)
      | Some _ => Err (PlainError ("unexpected key format: " +:+ quoted key))
      end
  end.

Definition sample_knative {E K Status : Type} `{!EqDecision Status} : KnativeReconciler E K Status := {|
  SplitMetaNamespaceKey := split_key;
  PreProcessReconcile k := k;
  PostProcessReconcile k _ := k;
  Semantic_DeepEqual a b := bool_decide (a = b);
  reflect_DeepEqual a b := bool_decide (a = b);
  RetryUpdateConflicts := retry 4 0;
|}.

Definition sample_knative_laws {E K Status : Type} `{!EqDecision Status} :
    @KnativeReconcilerLaws E K Status sample_knative.
Proof.
  refine (@Build_KnativeReconcilerLaws E K Status sample_knative 4 (λ f s log, eq_refl) (λ s, _)).
  by apply bool_decide_eq_true_2.
Defined.

#[local] Existing Instance sample_knative.
#[local] Existing Instance sample_knative_laws.

(** The lister answers [cached], and every update conflicts until the object is
    fetched again. *)
Definition sample_kenv (cached stored : ProvisionedService) :
    KindEnv (kind_event ProvisionedService) ProvisionedService := {|
  env_ListerGet _ _ _ := Ok cached;
  env_ClientGet _ _ _ := Ok stored;
  env_UpdateStatus _ k log :=
    if existsb (λ e, match e with EvClientGet _ _ _ => true | _ => false end) log
    then Ok k else Err (ApiError "Conflict" "object has been modified");
  env_PatchFinalizers _ _ _ _ _ := Ok stored;
|}.

Definition ready_service : ProvisionedService := fst (PS.ReconcileKind 7%Z sample_service).
Definition service_env := sample_kenv sample_service sample_service.

Definition service_reconciler (leader : bool) : reconcilerImpl := {|
  IsLeaderFor _ _ := leader;
  reconciler := ProvisionedService_Interface (λ _, 7%Z);
  finalizerName := provisionedservice.defaultFinalizerName;
  skipStatusUpdates := false;
|}.

Lemma Reconcile_follower_never_writes_witness :
  Reconcile id service_env (service_reconciler false) "default/db" [] = (Done (Some (FSkipKey "default/db")), []).
Proof.
  destruct (Reconcile_follower_never_writes id service_env (λ e, kind_write e = false)
    (service_reconciler false) "default/db") as [_ Hskip];
    [done|intros f [[=]|[=]]|done|].
  destruct (Hskip eq_refl eq_refl []) as [Hrun|Hrun]; [discriminate|exact Hrun].
Defined.

(** The first update conflicts; the second sends the fetched object. *)
Lemma updateStatus_safe_witness :
  ∃ new, updateStatus id service_env sample_service ready_service [] = (Done None, [] ++ map id new) ∧
    length (List.filter status_write new) = 2 ∧
    ∀ e, e ∈ new → update_call (E := kind_event ProvisionedService) sample_service ready_service new e.
Proof.
  destruct (updateStatus_safe id service_env sample_service ready_service [])
    as (new & err & Hrun & Hcalls & _).
  assert (new = (updateStatus id service_env sample_service ready_service []).2) as Hnew
    by (rewrite Hrun; cbn [snd app]; symmetry; apply map_id).
  assert (err = None) as ->.
  { assert (Done err = (updateStatus id service_env sample_service ready_service []).1) as He
      by (by rewrite Hrun). vm_compute in He. congruence. }
  exists new. split_and!; [exact Hrun|rewrite Hnew; vm_compute; reflexivity|exact Hcalls].
Defined.

Lemma Reconcile_leader_witness :
  ∃ log, Reconcile id service_env (service_reconciler true) "default/db" [] = (Done None, log) ∧
    length (List.filter kind_write log) = 2.
Proof.
  destruct (Reconcile_leader id service_env (service_reconciler true) "default/db" "default" "db" []
    sample_service ready_service (Some (PS.newReconciledNormal "default" "db"))
    [EvListerGet "default" "db" (Ok sample_service)])
    as (new & rep & res & Hrun & _ & _ & [[err [-> _]]|[_ [_ ->]]]); try reflexivity.
  - assert (Some (FError err) = None) as [=].
    { assert (Done (Some (FError err)) = (Reconcile id service_env (service_reconciler true) "default/db" []).1)
        as He by (by rewrite Hrun). vm_compute in He. congruence. }
  - eexists. split; [exact Hrun|].
    match type of Hrun with _ = (_, ?l) =>
      assert (l = (Reconcile id service_env (service_reconciler true) "default/db" []).2) as ->
        by (by rewrite Hrun) end.
    vm_compute. reflexivity.
Defined.
