(* ===== verification/KindsFacts.v ===== *)
(** * The [ServiceBinding] controller as a whole

    The generated reconciler around the [ReconcileKind] of this repository: a
    reconciliation of the leader ends, without a panic, for every stored binding
    that validation accepts, whatever the API server, the services and the caches
    answer. *)
From S2P Require Import Prelude Api Conditions Effects Projection Binding Resolver Resources.
From S2P Require Import Provisioned BindingReconciler BindingReconcilerFacts KindReconciler.
From S2P Require Import KindReconcilerFacts Kinds.

Section controller.
Context `{KmetaLaws, !SchemaGuess, SE : SemanticEquality, !ConditionManager}.
Context `{!KnativeReconciler controller_event ServiceBinding ServiceBindingStatus}.
Context `{!KnativeReconcilerLaws controller_event ServiceBinding ServiceBindingStatus}.
Context (kenv : KindEnv controller_event ServiceBinding) (benv : BindingEnv controller_event).
Context (leader : string → string → bool).

(** The preprocessing of knative defaults the object and resets its conditions;
    it does not take away the service or the workload. *)
Definition preprocessing_keeps_references : Prop := ∀ k,
  SBSpec_Service (SB_Spec (PreProcessReconcile k)) = SBSpec_Service (SB_Spec k) ∧
  SBSpec_Workload (SB_Spec (PreProcessReconcile k)) = SBSpec_Workload (SB_Spec k).

(** For the leader, the reconciliation of any stored binding with a service
    and a workload ends without a panic; if the binding is being deleted it does
    nothing but the lookup. *)
Theorem ServiceBinding_Reconcile_never_panics key ns name log original :
  preprocessing_keeps_references →
  SplitMetaNamespaceKey key = Ok (ns, name) → leader ns name = true →
  env_ListerGet kenv ns name log = Ok original →
  is_Some (SBSpec_Service (SB_Spec original)) → is_Some (SBSpec_Workload (SB_Spec original)) →
  ∃ res log', ServiceBinding_Reconcile kenv benv leader key log = (Done res, log') ∧
    (IsZero (Meta_DeletionTimestamp (SB_Meta original)) = false →
      res = None ∧ log' = log ++ [inl (EvListerGet ns name (Ok original))]).
Proof.
  intros Hpre Hkey Hlead Hget [service Hs] [workload Hw].
  unfold ServiceBinding_Reconcile, ServiceBinding_controller, servicebinding.NewImpl, NewReconciler,
    servicebinding.Reconcile.
  rewrite bool_decide_eq_false_2 by (cbn; lia). cbn [foldl]. rewrite bind_pure.
  rewrite (Reconcile_leader_eq (E := controller_event) inl kenv _ key ns name log) by done.
  cbn zeta. rewrite Hget. change (kind_meta original) with (SB_Meta original).
  destruct (IsZero _); cbn [negb]; [|by do 2 eexists].
  cbn [reconciler KindReconciler.ReconcileKind ServiceBinding_Interface].
  destruct (Hpre original) as [Hs' Hw'].
  destruct (reconcile_run inr benv (PreProcessReconcile original) service workload
    (log ++ [inl (EvListerGet ns name (Ok original))])) as (new & b' & ev & Hrun & _);
    [congruence|congruence|].
  rewrite (bind_Done _ _ _ _ _ Hrun).
  destruct (Semantic_DeepEqual _ _).
  - destruct (reportEvent_run inl ev (log ++ [inl (EvListerGet ns name (Ok original))] ++ map inr new))
      as (res & log' & Hrep).
    rewrite <- (assoc_L (++)). exists res, log'. by split.
  - match goal with |- context [bind (updateStatus _ _ _ ?d) _ ?l] =>
      destruct (updateStatus_run inl kenv original d l) as (new' & err & Hupd & _) end.
    rewrite (bind_Done _ _ _ _ _ Hupd). destruct err as [e|]; [by do 2 eexists|].
    match goal with |- context [reportEvent _ _ ?l] =>
      destruct (reportEvent_run (K := ServiceBinding) (E := controller_event) inl ev l)
        as (res & log' & Hrep) end.
    exists res, log'. by split.
Qed.
End controller.

(** ** Witness *)
#[local] Existing Instance string_opaque.
#[local] Existing Instance sample_guess.
#[local] Existing Instance sample_knative.
#[local] Existing Instance sample_knative_laws.

(** The binding [db_binding] is cached and its service publishes [my-secret]. *)
Definition sample_controller_env : KindEnv controller_event ServiceBinding := {|
  env_ListerGet _ _ _ := Ok db_binding;
  env_ClientGet _ _ _ := Ok db_binding;
  env_UpdateStatus _ k _ := Ok k;
  env_PatchFinalizers _ _ _ _ _ := Ok db_binding;
|}.

(** The run creates a projection, stores the status and reports the event. *)
Lemma ServiceBinding_Reconcile_never_panics_witness :
  ∃ res log, ServiceBinding_Reconcile sample_controller_env
      (sample_env (Ok (database "my-secret")) (Err not_found)) (λ _ _, true) "default/b" [] = (Done res, log) ∧
    res = None ∧
    length (List.filter (λ e, match e with inl e => kind_write e | inr _ => false end) log) = 1.
Proof.
  destruct (ServiceBinding_Reconcile_never_panics sample_controller_env
    (sample_env (Ok (database "my-secret")) (Err not_found)) (λ _ _, true) "default/b" "default" "b" []
    db_binding) as (res & log & Hrun & _);
    [intros k; split; reflexivity|reflexivity|reflexivity|reflexivity|by eexists|by eexists|].
  assert ((res, log) = (let '(o, l) := ServiceBinding_Reconcile sample_controller_env
    (sample_env (Ok (database "my-secret")) (Err not_found)) (λ _ _, true) "default/b" [] in
    (match o with Done r => r | Panic => None end, l))) as Heq by by rewrite Hrun.
  exists res, log. split; [exact Hrun|]. vm_compute in Heq. injection Heq as -> ->. by split.
Defined.
