(* ===== verification/EndToEnd.v ===== *)
(** * From a service to the workloads

    The composition of the resolver, the reconciler of bindings, the API server and the
    injection: what a service publishes arrives in the containers of the workloads. *)
From S2P Require Import Prelude Api Conditions Effects Projection ProjectionLemmas ProjectionFacts.
From S2P Require Import Binding BindingFacts Resolver Resources BindingReconciler BindingReconcilerFacts.
From S2P Require Import Cluster ClusterFacts Provisioned KindReconciler Kinds KindReconcilerFacts.

(** Specs that [equality.Semantic.DeepEqual] takes for equal have equal strings, and equal
    elements in their slices. *)
Class SemanticEqualityFields `{SemanticEquality} := {
  spec_equal_fields x y :
    spec_equal x y = true →
    SBPSpec_Name x = SBPSpec_Name y ∧ SBPSpec_Type x = SBPSpec_Type y ∧
    SBPSpec_Provider x = SBPSpec_Provider y ∧ SBPSpec_Binding x = SBPSpec_Binding y ∧
    Workload_Containers (SBPSpec_Workload x) = Workload_Containers (SBPSpec_Workload y) ∧
    SBPSpec_Env x = SBPSpec_Env y;
}.

#[export] Instance real_equality_fields : SemanticEqualityFields.
Proof. split. by intros x y ->%bool_decide_eq_true. Qed.

Section delivery.
Context `{Opaque}.
Implicit Types (b : ServiceBinding) (c : Container) (ps : WithPod).

(** The containers that the binding names, or all when it names none. *)
Definition targets b c : Prop :=
  ∃ workload, SBSpec_Workload (SB_Spec b) = Some workload ∧
    (Workload_Containers workload = [] ∨ Container_Name c ∈ Workload_Containers workload).

(** The annotations of the pods by which the binding's type and provider are exposed. *)
Record overrides := { type_key : string; provider_key : string }.

(** The variable for an entry of the binding: its type or its provider when the entry maps
    that and the binding gives one, else the key of the secret. *)
Definition variable b (secret : string) (o : overrides) (e : EnvVar) : CoreEnvVar :=
  if decide (EnvVar_Key e = "type" ∧ SBSpec_Type (SB_Spec b) ≠ "")
  then fieldRefEnv (EnvVar_Name e) (type_key o)
  else if decide (EnvVar_Key e = "provider" ∧ SBSpec_Provider (SB_Spec b) ≠ "")
  then fieldRefEnv (EnvVar_Name e) (provider_key o)
  else secretKeyEnv (EnvVar_Name e) secret (EnvVar_Key e).

(** The file [path], taken from the annotation under [key], if there is a [value] for it. *)
Definition override (value key path : string) : list VolumeProjection :=
  if decide (value = "") then [] else [downwardSource key path].

(** Container [c'] sees the secret: its files are mounted read-only from volume [v], at the
    binding's name under the root that the container's [SERVICE_BINDING_ROOT] says, and
    there is the variable for every entry of the binding. *)
Record sees b (secret : string) (v : Volume) (o : overrides) c' : Prop := {
  sees_files : ∃ root, (∃ e, e ∈ Container_Env c' ∧ CoreEnvVar_Name e = ServiceBindingRootEnv ∧
      CoreEnvVar_Value e = root) ∧
    mkVolumeMount (Volume_Name v) true (root +:+ "/" +:+ SBSpec_Name (SB_Spec b)) opaque_zero
      ∈ Container_VolumeMounts c';
  sees_env : ∀ e, e ∈ SBSpec_Env (SB_Spec b) → variable b secret o e ∈ Container_Env c';
}.

(** The workload [ps'] is [ps] with the secret delivered to the target containers: from a
    volume of the secret, where the type and the provider that the binding gives take the
    place of those of the secret, by way of annotations of the pods. *)
Record delivered b (secret : string) ps ps' : Prop := {
  delivered_volume : ∃ v o, v ∈ Volumes ps' ∧ Volume_Name v = bindingVolumeName secret ∧
    Projected_Sources <$> Volume_Projected v = Some (secretSource secret ::
      override (SBSpec_Type (SB_Spec b)) (type_key o) "type" ++
      override (SBSpec_Provider (SB_Spec b)) (provider_key o) "provider") ∧
    (SBSpec_Type (SB_Spec b) ≠ "" →
      default ∅ (TemplateAnnotations ps') !! type_key o = Some (SBSpec_Type (SB_Spec b))) ∧
    (SBSpec_Provider (SB_Spec b) ≠ "" →
      default ∅ (TemplateAnnotations ps') !! provider_key o = Some (SBSpec_Provider (SB_Spec b))) ∧
    Forall2 (λ c c', Container_Name c' = Container_Name c ∧ (targets b c → sees b secret v o c'))
      (InitContainers ps ++ Containers ps) (InitContainers ps' ++ Containers ps');
}.

Lemma predefined_root es :
  predefinedMountPath es ≠ "" →
  ∃ e, e ∈ es ∧ CoreEnvVar_Name e = ServiceBindingRootEnv ∧ CoreEnvVar_Value e = predefinedMountPath es.
Proof.
  induction es as [|e es IH]; [done|]. cbn [predefinedMountPath]. case_bool_decide as Hn; intros Hp.
  - exists e. split; [by left|done].
  - destruct (IH Hp) as (e' & Hin & He). exists e'. split; [by right|done].
Qed.

Lemma bound_root p c c' :
  BoundContainer p c c' →
  ∃ e, e ∈ Container_Env c' ∧ CoreEnvVar_Name e = ServiceBindingRootEnv ∧ CoreEnvVar_Value e = rootPath c.
Proof.
  intros Hb. setoid_rewrite (bound_env _ _ _ Hb). unfold rootPath, rootEnv.
  case_bool_decide as Hroot.
  - eexists. rewrite !elem_of_app. split; [right; left; by left|done].
  - destruct (predefined_root _ Hroot) as (e & Hin & He). exists e. rewrite !elem_of_app. auto.
Qed.
End delivery.

Section composition.
Context `{KmetaLaws, !SchemaGuess, SE : SemanticEquality, !SemanticEqualityLaws, !SemanticEqualityFields,
  !ConditionManager}.
Implicit Types (b : ServiceBinding) (p : ServiceBindingProjection) (c : Container) (ps : WithPod).

(** What injection reads of a settled projection. *)
Record made_for b (secret : LocalObjectReference) p : Prop := {
  made_name : SBPSpec_Name (SBP_Spec p) = SBSpec_Name (SB_Spec b);
  made_secret : secretName p = LocalObjectReference_Name secret;
  made_type : SBPSpec_Type (SBP_Spec p) = SBSpec_Type (SB_Spec b);
  made_provider : SBPSpec_Provider (SBP_Spec p) = SBSpec_Provider (SB_Spec b);
  made_env : SBPSpec_Env (SBP_Spec p) = SBSpec_Env (SB_Spec b);
  made_targets : ∀ c, targets b c → isTarget p c = true;
}.

Lemma settled_made b secret p : settled b secret p → made_for b secret p.
Proof.
  intros [_ (desired & Hask & Hsame)]. unfold same_projection in Hsame.
  apply andb_prop in Hsame as [[Heq%spec_equal_fields _]%andb_prop _].
  destruct Heq as (Hn & Hty & Hpr & Hb & Hc & He). unfold asks in Hask.
  destruct (SBSpec_Workload (SB_Spec b)) as [workload|] eqn:Hw.
  - destruct (Make_Done (Err := error) (with_secret b secret) _ workload eq_refl Hw) as (d & Hd & Hspec & _).
    assert (d = desired) as -> by congruence. rewrite Hspec in *. cbn in *. split.
    + done.
    + unfold secretName. by rewrite <- Hb.
    + done.
    + done.
    + done.
    + intros c (w & Hw' & Ht). assert (w = workload) as -> by congruence.
      unfold isTarget, isTargetContainer. rewrite <- Hc. destruct (Workload_Containers workload) as [|t ts]; [done|].
      destruct Ht as [?|Ht]; [done|]. apply existsb_exists. exists (Container_Name c).
      split; [by apply list_elem_of_In|by apply bool_decide_eq_true].
  - by unfold MakeServiceBindingProjection in Hask; cbn in Hask; rewrite Hw in Hask.
Qed.

Definition overrides_of p : overrides :=
  {| type_key := annotationKey p +:+ "-type"; provider_key := annotationKey p +:+ "-provider" |}.

Lemma made_variable b secret p e :
  made_for b secret p →
  variable b (LocalObjectReference_Name secret) (overrides_of p) e = injectedEnv p (secretName p) e.
Proof.
  intros [_ Hs Hty Hpr _ _]. unfold variable, injectedEnv. rewrite Hs, Hty, Hpr.
  repeat case_decide; repeat case_bool_decide; cbn; naive_solver.
Qed.

Lemma made_sources b secret p :
  made_for b secret p →
  Projected_Sources <$> Volume_Projected (bindingVolume p) = Some (secretSource (LocalObjectReference_Name secret) ::
    override (SBSpec_Type (SB_Spec b)) (type_key (overrides_of p)) "type" ++
    override (SBSpec_Provider (SB_Spec b)) (provider_key (overrides_of p)) "provider").
Proof.
  intros [_ Hs Hty Hpr _ _]. unfold override. cbn. rewrite Hs, Hty, Hpr.
  repeat case_decide; repeat case_bool_decide; done.
Qed.

Lemma exposed_type p m :
  SBPSpec_Type (SBP_Spec p) ≠ "" →
  exposedAnnotations p m !! (annotationKey p +:+ "-type") = Some (SBPSpec_Type (SBP_Spec p)).
Proof.
  intros Hty. unfold exposedAnnotations. rewrite (bool_decide_eq_false_2 _ Hty).
  case_bool_decide; rewrite ?lookup_insert_ne by (intros Heq; by apply (type_provider_ne p)); apply lookup_insert_eq.
Qed.

Lemma exposed_provider p m :
  SBPSpec_Provider (SBP_Spec p) ≠ "" →
  exposedAnnotations p m !! (annotationKey p +:+ "-provider") = Some (SBPSpec_Provider (SBP_Spec p)).
Proof. intros Hpr. unfold exposedAnnotations. rewrite (bool_decide_eq_false_2 _ Hpr). apply lookup_insert_eq. Qed.

Lemma bound_sees b secret p c c' :
  made_for b secret p → targets b c → Container_Name c' = Container_Name c → BoundIfTarget p c c' →
  sees b (LocalObjectReference_Name secret) (bindingVolume p) (overrides_of p) c'.
Proof.
  intros Hmade Htc _ Hb. pose proof Hmade as [Hn Hs _ _ He Ht]. unfold BoundIfTarget in Hb. rewrite (Ht _ Htc) in Hb. split.
  - exists (rootPath c). split; [by eapply bound_root|].
    rewrite (bound_mounts _ _ _ Hb), elem_of_app. right. apply list_elem_of_singleton.
    unfold bindingMount. by rewrite Hn.
  - intros e Hin. rewrite (bound_env _ _ _ Hb), !elem_of_app. right. right.
    unfold bindingEnv. rewrite He. apply list_elem_of_fmap. exists e. split; [|done].
    by apply made_variable.
Qed.

(** What the tracker, the informers and the lookup of the resolver answer for the service of
    a binding, when [o] is stored there: a [ServiceableType] that is decoded from [o], whose
    [status.binding] is the one of [o]. *)
Definition serves {E : Type} (resolver : ResolverEnv E) b (o : ProvisionedService) : Prop :=
  ∃ service t, SBSpec_Service (SB_Spec b) = Some service ∧
    let ref := serviceRef b service in
    ¬ is_secret ref ∧ Reference_Namespace ref = Meta_Namespace (PS_Meta o) ∧
    Reference_Name ref = Meta_Name (PS_Meta o) ∧
    Serviceable_Binding (ServiceableType_Status t) = PSStatus_Binding (PS_Status o) ∧
    ∀ log, env_TrackReference resolver ref (SB_Meta b) log = None ∧
      env_Informer resolver (resourceFor ref) log = None ∧
      env_Lookup resolver (resourceFor ref) (Reference_Namespace ref) (Reference_Name ref) log =
        Ok (AServiceable t).

Lemma served_publishes {E} (resolver : ResolverEnv E) b o :
  serves resolver b o → resolver_publishes resolver b (PSStatus_Binding (PS_Status o)).
Proof.
  intros (service & t & Hs & Hns & _ & _ & Ht & Henv). exists service. split; [done|]. right. split; [done|].
  by exists t.
Qed.

Lemma kept_name secrets volumes c : Container_Name (keepContainer secrets volumes c) = Container_Name c.
Proof. done. Qed.

Lemma targets_kept b secrets volumes c : targets b c → targets b (keepContainer secrets volumes c).
Proof. done. Qed.

Lemma bound_name_kept p c c' : BoundIfTarget p c c' → Container_Name c' = Container_Name c.
Proof. unfold BoundIfTarget. case_match; [by intros []|by intros ->]. Qed.

Lemma Do_delivers b secret p ps :
  made_for b secret p →
  ∃ ps', Do p ps = Done ps' ∧ delivered b (LocalObjectReference_Name secret) ps ps'.
Proof.
  intros Hmade. exists (inject p (Undo p ps)). split; [apply Do_inject|].
  pose proof (Undo_unbound p ps) as [_ _ _ _ Hki Hkc].
  pose proof (inject_bound p (Undo p ps)) as [_ _ Hann Hv Hi Hc].
  rewrite Hki in Hi. rewrite Hkc in Hc. rewrite Forall2_fmap_l in Hi, Hc.
  split. exists (bindingVolume p), (overrides_of p). split_and!.
  - rewrite Hv, elem_of_app. right. by left.
  - cbn. by rewrite (made_secret _ _ _ Hmade).
  - by apply made_sources.
  - rewrite Hann, <- (made_type _ _ _ Hmade). apply exposed_type.
  - rewrite Hann, <- (made_provider _ _ _ Hmade). apply exposed_provider.
  - assert (∀ c c', BoundIfTarget p (keepContainer (removedSecrets p ps) (removedVolumes p ps) c) c' →
      Container_Name c' = Container_Name c ∧
      (targets b c → sees b (LocalObjectReference_Name secret) (bindingVolume p) (overrides_of p) c')) as Hstep.
    { intros c c' Hb. pose proof (bound_name_kept _ _ _ Hb) as Hn. split; [done|].
      intros Ht. eapply bound_sees; [done| |exact Hn|exact Hb]. by apply targets_kept. }
    apply Forall2_app; (eapply Forall2_impl; [eassumption|]); intros c c'; apply Hstep.
Qed.

Lemma delivered_in {Server} `{!ApiServer Server, !ApiServerLaws} (s s' : Server) clock resolver b secret :
  complete b → Meta_DeletionTimestamp (SB_Meta b) = None → resolver_publishes resolver b secret →
  accepting s →
  (∀ p, api_get s (key_of b) = Some p → IsControlledBy (SBP_Meta p) (SB_Meta b) = true) →
  rtc (cluster_step b secret) (reconcile_in s (fresh_cache s) clock resolver b) s' →
  ∃ p, api_get s' (key_of b) = Some p ∧
    ∀ ps, ∃ ps', Do p ps = Done ps' ∧ delivered b (LocalObjectReference_Name secret) ps ps'.
Proof.
  intros Hb Hd Hpub Hacc Hown Hrun.
  destruct (reconcile_reaches s clock resolver b secret Hb Hd Hpub Hacc Hown) as (p & Hg & Hset).
  destruct (settled_kept b secret _ _ p Hrun Hg Hset) as (p' & Hg' & Hset').
  exists p'. split; [done|]. intros ps. by apply Do_delivers, settled_made.
Qed.

(** C10: delivery: the service of a binding publishes a secret, and the controller has
    reconciled the binding once, with a current cache and a server that accepts.  Then
    the stored projection delivers that secret: binding any workload with it succeeds,
    and every target container, init containers included, gets the files of the secret
    (with the binding's type and provider in place of the secret's, when it gives them)
    at the binding's name under its [SERVICE_BINDING_ROOT], and the variable of every
    entry of the binding.  That holds in every later state that is reached while the
    spec, the labels and the annotations of the binding and the secret of its service stay
    the same, and other actors leave the projection there with the spec, labels,
    annotations and owners it has; they may change its status and everything else, and
    the controller may reconcile any bindings with caches of any age. *)
Theorem published_secret_delivered {Server} `{!ApiServer Server, !ApiServerLaws} (s s' : Server)
    clock resolver b secret :
  complete b → Meta_DeletionTimestamp (SB_Meta b) = None → resolver_publishes resolver b secret →
  accepting s →
  (∀ p, api_get s (key_of b) = Some p → IsControlledBy (SBP_Meta p) (SB_Meta b) = true) →
  rtc (cluster_step b secret) (reconcile_in s (fresh_cache s) clock resolver b) s' →
  ∃ p, api_get s' (key_of b) = Some p ∧
    ∀ ps, ∃ ps', Do p ps = Done ps' ∧ delivered b (LocalObjectReference_Name secret) ps ps'.
Proof. apply delivered_in. Qed.
End composition.

(** ** From the custom resource of a service *)

(** What the functions of knative and Kubernetes that its reconciler calls keep of a
    [ProvisionedService]: the processing before and after a reconciliation is about
    conditions, and equal statuses name one secret. *)
Class ServiceProcessing `{Opaque} (E : Type) `{!KnativeReconciler E ProvisionedService ProvisionedServiceStatus} := {
  pre_meta o : PS_Meta (PreProcessReconcile (E := E) o) = PS_Meta o;
  pre_spec o : PS_Spec (PreProcessReconcile (E := E) o) = PS_Spec o;
  post_binding o original :
    PSStatus_Binding (PS_Status (PostProcessReconcile (E := E) o original)) = PSStatus_Binding (PS_Status o);
  semantic_binding s s' :
    Semantic_DeepEqual (E := E) (K := ProvisionedService) s s' = true → PSStatus_Binding s = PSStatus_Binding s';
  reflect_binding s s' :
    reflect_DeepEqual (E := E) (K := ProvisionedService) s s' = true → PSStatus_Binding s = PSStatus_Binding s';
}.

(** The service as it is stored after these calls, [o] before them. *)
Definition service_after `{Opaque} (o : ProvisionedService) (log : list (kind_event ProvisionedService)) :
    ProvisionedService :=
  foldl (λ o e, match e with EvUpdateStatus _ _ (Ok q) => q | _ => o end) o log.

Section services.
Context `{KmetaLaws, !ConditionManager}.
Notation E := (kind_event ProvisionedService).
Context `{!KnativeReconciler E ProvisionedService ProvisionedServiceStatus, !KnativeReconcilerLaws E _ _}.
Context `{!ServiceProcessing E}.
Context (kenv : KindEnv E ProvisionedService) (clock : list E → Time) (leader : string → string → bool).

(** The server stores the statuses that it is sent. *)
Hypothesis stores_status : ∀ ns o log, ∃ q, env_UpdateStatus kenv ns o log = Ok q ∧
  PSStatus_Binding (PS_Status q) = PSStatus_Binding (PS_Status o).

Lemma service_after_app o log log' : service_after o (log ++ log') = service_after (service_after o log) log'.
Proof. apply foldl_app. Qed.

Lemma reconciled_binding now o :
  Meta_DeletionTimestamp (PS_Meta o) = None →
  PSStatus_Binding (PS_Status (PS.ReconcileKind now o).1) = PSSpec_Binding (PS_Spec o).
Proof. intros Hd. unfold PS.ReconcileKind. by rewrite Hd. Qed.

(** The controller of services publishes the secret that the spec names: in one run of its
    leader, also when that writes nothing. *)
Lemma service_published key ns name o :
  SplitMetaNamespaceKey (E := E) key = Ok (ns, name) → leader ns name = true →
  env_ListerGet kenv ns name [] = Ok o → Meta_DeletionTimestamp (PS_Meta o) = None →
  ∃ log, ProvisionedService_Reconcile kenv clock leader key [] = (Done None, log) ∧
    PSStatus_Binding (PS_Status (service_after o log)) = PSSpec_Binding (PS_Spec o).
Proof.
  intros Hkey Hlead Hget Hlive. unfold ProvisionedService_Reconcile, ProvisionedService_controller.
  unfold provisionedservice.NewImpl, provisionedservice.Reconcile, KindReconciler.NewReconciler. cbn [length].
  rewrite bool_decide_eq_false_2 by lia. cbn [foldl]. rewrite bind_pure_l.
  rewrite (Reconcile_leader_eq id kenv _ key ns name) by done. cbn zeta. rewrite Hget. cbn [kind_meta ProvisionedService_Kind].
  rewrite Hlive. cbn [IsZero negb KindReconciler.ReconcileKind reconciler ProvisionedService_Interface].
  set (log0 := [] ++ [id (EvListerGet ns name (Ok o))]). set (t := clock log0). set (pre := PreProcessReconcile o).
  assert (service_after o log0 = o) as Hlog0 by done.
  assert (Meta_DeletionTimestamp (PS_Meta pre) = None) as Hpre by (unfold pre; by rewrite (pre_meta (E := E))).
  pose proof (reconciled_binding t pre Hpre) as Hb. unfold pre in Hb at 2. rewrite (pre_spec (E := E)) in Hb.
  assert (∃ e, (PS.ReconcileKind t pre).2 = Some (AnEvent e)) as [e He]
    by (unfold PS.ReconcileKind; rewrite Hpre; by eexists).
  destruct (PS.ReconcileKind t pre) as [resource ev] eqn:Hps. cbn [fst snd] in Hb, He. subst ev.
  match goal with |- context [bind ?m _ log0] =>
    assert (m log0 = (Done (resource, Some (AnEvent e)), log0)) as Hrec by (by rewrite <- Hps) end.
  rewrite (bind_Done _ _ _ _ _ Hrec). clear Hrec.
  set (desired := PostProcessReconcile resource o).
  assert (PSStatus_Binding (PS_Status desired) = PSSpec_Binding (PS_Spec o)) as Hd
    by (unfold desired; by rewrite (post_binding (E := E))).
  assert (∀ l, reportEvent (K := ProvisionedService) id (Some (AnEvent e)) l = (Done None, l ++ map id (event_records (Some (AnEvent e))))) as Hrep
    by (intros l; by rewrite reportEvent_eq).
  destruct (Semantic_DeepEqual _ _) eqn:Hsame.
  - rewrite Hrep. eexists. split; [reflexivity|]. rewrite service_after_app, Hlog0, <- Hd.
    by apply (semantic_binding (E := E)).
  - destruct (stores_status (Meta_Namespace (kind_meta o)) (kind_set_status o (kind_status desired)) log0)
      as (q & Hq & Hqb).
    destruct (updateStatus_accepted id kenv o desired log0 q Hq) as (new & Hrun & Hnew).
    rewrite (bind_Done _ _ _ _ _ Hrun), Hrep. eexists. split; [reflexivity|].
    rewrite !service_after_app, Hlog0, <- Hd. destruct Hnew as [[-> Heq] | ->].
    + by apply (reflect_binding (E := E)).
    + cbn. by rewrite Hqb.
Qed.

(** C11: from one custom resource to the workloads: the leader of the controller of services
    reconciles a live [ProvisionedService] that its cache has as it is stored; the server
    stores the status if the run writes one.  The run succeeds.  When the lookups of the
    resolver then find the service as it is stored after the run, one reconciliation of a
    binding that refers to the service is enough, with a current cache and a server that
    accepts: from then on the stored projection delivers the secret that the spec of
    the service names, in every later state that [published_secret_delivered] speaks of. *)
Theorem provisioned_secret_delivered {Server} `{!SchemaGuess, SE : SemanticEquality, !SemanticEqualityLaws,
    !SemanticEqualityFields, !ApiServer Server, !ApiServerLaws} key ns name o :
  SplitMetaNamespaceKey (E := E) key = Ok (ns, name) → leader ns name = true →
  env_ListerGet kenv ns name [] = Ok o → Meta_DeletionTimestamp (PS_Meta o) = None →
  ∃ log, ProvisionedService_Reconcile kenv clock leader key [] = (Done None, log) ∧
    ∀ (s s' : Server) t (resolver : ResolverEnv binding_event) b,
      complete b → Meta_DeletionTimestamp (SB_Meta b) = None → serves resolver b (service_after o log) →
      accepting s →
      (∀ p, api_get s (key_of b) = Some p → IsControlledBy (SBP_Meta p) (SB_Meta b) = true) →
      rtc (cluster_step b (PSSpec_Binding (PS_Spec o))) (reconcile_in s (fresh_cache s) t resolver b) s' →
      ∃ p, api_get s' (key_of b) = Some p ∧
        ∀ ps, ∃ ps', Do p ps = Done ps' ∧
          delivered b (LocalObjectReference_Name (PSSpec_Binding (PS_Spec o))) ps ps'.
Proof.
  intros Hkey Hlead Hget Hlive. destruct (service_published key ns name o) as (log & Hrun & Hb); [done..|].
  exists log. split; [exact Hrun|]. intros s s' t resolver b Hc Hd Hserves Hacc Hown Hsteps.
  eapply delivered_in; [done|done| |done|done|exact Hsteps]. rewrite <- Hb. by apply served_publishes.
Qed.
End services.

(** ** Witness *)
#[local] Existing Instance string_opaque.
#[local] Existing Instance sample_guess.

Lemma published_secret_delivered_witness :
  ∃ p, api_get deployed_server (key_of db_binding) = Some p ∧
    ∃ ps', Do p Sample.workload = Done ps' ∧ delivered db_binding "my-secret" Sample.workload ps'.
Proof.
  destruct (published_secret_delivered empty_server deployed_server 50%Z sample_resolver db_binding my_secret
    db_complete eq_refl db_publishes (log_accepting _)) as (p & Hg & Hdo).
  - discriminate.
  - apply rtc_once. exact deployed_step.
  - exists p. split; [exact Hg|]. exact (Hdo Sample.workload).
Defined.

(** The service [db], as the controller of services leaves it. *)
#[local] Existing Instance sample_knative.
#[local] Existing Instance sample_knative_laws.

Definition serving_env : KindEnv (kind_event ProvisionedService) ProvisionedService := {|
  env_ListerGet _ _ _ := Ok sample_service;
  env_ClientGet _ _ _ := Ok sample_service;
  env_UpdateStatus _ k _ := Ok k;
  env_PatchFinalizers _ _ _ _ _ := Ok sample_service;
|}.

#[local] Instance sample_processing : ServiceProcessing (kind_event ProvisionedService).
Proof. split; try done; by intros s s' ->%bool_decide_eq_true. Qed.

Definition served : ProvisionedService :=
  service_after sample_service
    (ProvisionedService_Reconcile serving_env (λ _, 7%Z) (λ _ _, true) "default/db" []).2.

Lemma sample_serves : serves sample_resolver db_binding served.
Proof.
  exists db_ref, (mkServiceableType (newMeta "db" "default") (mkServiceable my_secret)).
  split; [reflexivity|]. split; [intros [_ ?]; discriminate|].
  split_and!; [reflexivity|reflexivity|vm_compute; reflexivity|]. intros l. split_and!; reflexivity.
Qed.

Lemma provisioned_secret_delivered_witness :
  ∃ p, api_get deployed_server (key_of db_binding) = Some p ∧
    ∃ ps', Do p Sample.workload = Done ps' ∧ delivered db_binding "my-secret" Sample.workload ps'.
Proof.
  destruct (provisioned_secret_delivered (Server := log_server) serving_env (λ _, 7%Z) (λ _ _, true)
    (λ _ k _, ex_intro _ k (conj eq_refl eq_refl)) "default/db" "default" "db" sample_service)
    as (log & Hrun & Hdeliver); [reflexivity|reflexivity|reflexivity|reflexivity|].
  destruct (Hdeliver empty_server deployed_server 50%Z sample_resolver db_binding
    db_complete eq_refl) as (p & Hg & Hdo).
  - assert (service_after sample_service log = served) as -> by (unfold served; by rewrite Hrun).
    exact sample_serves.
  - apply log_accepting.
  - discriminate.
  - apply rtc_once. exact deployed_step.
  - exists p. split; [exact Hg|]. exact (Hdo Sample.workload).
Defined.
