(* ===== verification/Admission.v ===== *)
(** * Schemes and admission webhooks

    The groups of [pkg/apis/*/*/register.go] and the webhooks of
    [cmd/manager/main.go]: which kinds are defaulted and validated, and which objects
    the binding webhook may change.  Starting the servers is left to knative. *)
From S2P Require Import Prelude Api Conditions Projection Binding Provisioned.

(** ** The types each group adds to the scheme *)

(** The Go types behind the kinds. *)
Inductive go_type :=
| T_ProvisionedService | T_ProvisionedServiceList
| T_ServiceBinding | T_ServiceBindingList
| T_ServiceBindingProjection | T_ServiceBindingProjectionList.

#[export] Instance go_type_eq_dec : EqDecision go_type.
Proof. solve_decision. Defined.

(** A type is registered under its own name. *)
Definition type_name (t : go_type) : string :=
  match t with
  | T_ProvisionedService => "ProvisionedService"
  | T_ProvisionedServiceList => "ProvisionedServiceList"
  | T_ServiceBinding => "ServiceBinding"
  | T_ServiceBindingList => "ServiceBindingList"
  | T_ServiceBindingProjection => "ServiceBindingProjection"
  | T_ServiceBindingProjectionList => "ServiceBindingProjectionList"
  end.

(** [runtime.Scheme]: the type of each kind. *)
Definition scheme : Type := list (GroupVersionKind * go_type).

(** [scheme.AddKnownTypes(gv, types...)] *)
Definition AddKnownTypes (gv : GroupVersion) (types : list go_type) (s : scheme) : scheme :=
  s ++ map (λ t, (WithKind gv (type_name t), t)) types.

(** The register files also add the option types of [metav1] to each group; those
    are left out. *)
Definition duck_GroupName : string := "duck.bindings.labs.vmware.com".
Definition duck_SchemeGroupVersion : GroupVersion := mkGroupVersion duck_GroupName "v1alpha3".
Definition duck_addKnownTypes : scheme → scheme := AddKnownTypes duck_SchemeGroupVersion [].
Definition labs_addKnownTypes : scheme → scheme :=
  AddKnownTypes PS.SchemeGroupVersion [T_ProvisionedService; T_ProvisionedServiceList].
Definition labsinternal_addKnownTypes : scheme → scheme :=
  AddKnownTypes SchemeGroupVersion [T_ServiceBindingProjection; T_ServiceBindingProjectionList].
Definition servicebinding_addKnownTypes : scheme → scheme :=
  AddKnownTypes SB.SchemeGroupVersion [T_ServiceBinding; T_ServiceBindingList].

(** [versioned/scheme.AddToScheme] *)
Definition AddToScheme (s : scheme) : scheme :=
  servicebinding_addKnownTypes (labsinternal_addKnownTypes (labs_addKnownTypes (duck_addKnownTypes s))).

(** [Kind] and [Resource] of the register files: the group of a kind or resource. *)
Definition GroupKind : Type := string * string.
Definition duck_Kind (kind : string) : GroupKind := (duck_GroupName, kind).
Definition duck_Resource (resource : string) : GroupKind := (duck_GroupName, resource).
Definition labs_Kind (kind : string) : GroupKind := (PS.GroupName, kind).
Definition labs_Resource (resource : string) : GroupKind := (PS.GroupName, resource).
Definition labsinternal_Kind (kind : string) : GroupKind := (GroupName, kind).
Definition labsinternal_Resource (resource : string) : GroupKind := (GroupName, resource).
Definition servicebinding_Kind (kind : string) : GroupKind := (SB.GroupName, kind).
Definition servicebinding_Resource (resource : string) : GroupKind := (SB.GroupName, resource).

(** ** Defaulting and validation *)

(** [ourTypes]: the kinds the two webhooks handle, with the type that decodes,
    defaults and validates them. *)
Definition ourTypes : list (GroupVersionKind * go_type) :=
  [(WithKind PS.SchemeGroupVersion "ProvisionedService", T_ProvisionedService);
   (WithKind SB.SchemeGroupVersion "ServiceBinding", T_ServiceBinding);
   (WithKind SB.SchemeGroupVersion "ServiceBindingProjection", T_ServiceBindingProjection)].

(** The name, the path and the kinds of an admission controller. *)
Record admission := mkAdmission {
  admission_name : string;
  admission_path : string;
  admission_types : list (GroupVersionKind * go_type);
  admission_disallowUnknownFields : bool;
}.

Definition NewDefaultingAdmissionController : admission :=
  mkAdmission "defaulting.webhook.bindings.labs.vmware.com" "/defaulting" ourTypes true.
Definition NewValidationAdmissionController : admission :=
  mkAdmission "validation.webhook.bindings.labs.vmware.com" "/validation" ourTypes true.

(** [NewConfigValidationController]: the config maps it validates, whose names are
    knative's [logging.ConfigMapName] and [metrics.ConfigMapName]. *)
Record config_admission := mkConfigAdmission {
  config_name : string;
  config_path : string;
  config_constructors : list string;
}.
Definition NewConfigValidationController (logging_ConfigMapName metrics_ConfigMapName : string) : config_admission :=
  mkConfigAdmission "config.webhook.bindings.labs.vmware.com" "/config-validation"
    [logging_ConfigMapName; metrics_ConfigMapName].

(** [main]: the webhook options and the constructors given to [sharedmain]. *)
Record webhook_options := mkWebhookOptions { wo_ServiceName : string; wo_Port : Z; wo_SecretName : string }.
Definition main_options : webhook_options := mkWebhookOptions "webhook" 8443 "webhook-certs".

Inductive constructor :=
| C_certificates | C_defaulting | C_validation | C_config
| C_provisionedservice | C_servicebinding | C_servicebindingprojection
| C_binding_webhook (resource : string).
Definition main_constructors : list constructor :=
  [C_certificates; C_defaulting; C_validation; C_config; C_provisionedservice; C_servicebinding;
   C_servicebindingprojection; C_binding_webhook "servicebindingprojections"].

(** ** The binding webhook *)
Definition BindingExcludeLabel : string := "knative.dev.bindings.labs.vmware.com/exclude".
Definition BindingIncludeLabel : string := "knative.dev.bindings.labs.vmware.com/include".

Definition ExclusionSelector : LabelSelector :=
  mkLabelSelector None [mkRequirement BindingExcludeLabel "NotIn" ["true"]].
Definition InclusionSelector : LabelSelector :=
  mkLabelSelector None [mkRequirement BindingIncludeLabel "In" ["true"]].

Record binding_webhook := mkBindingWebhook {
  webhook_name : string;
  webhook_path : string;
  webhook_selector : LabelSelector;
}.

(** [mode] is the environment variable [BINDING_SELECTION_MODE]. *)
Definition NewBindingWebhook (mode resource : string) : binding_webhook :=
  let selector := ExclusionSelector in
  let selector := if bool_decide (mode = "inclusion") then InclusionSelector else selector in
  mkBindingWebhook (resource +:+ ".webhook.bindings.labs.vmware.com") ("/" +:+ resource) selector.

(** [metav1.LabelSelector]'s meaning, as Kubernetes documents it: every requirement
    holds; [NotIn] also holds of objects without the label. *)
Definition requirement_matches (labels : smap) (r : LabelSelectorRequirement) : bool :=
  let value := labels !! Requirement_Key r in
  if bool_decide (Requirement_Operator r = "In") then
    match value with Some v => bool_decide (v ∈ Requirement_Values r) | None => false end
  else if bool_decide (Requirement_Operator r = "NotIn") then
    match value with Some v => bool_decide (v ∉ Requirement_Values r) | None => true end
  else if bool_decide (Requirement_Operator r = "Exists") then bool_decide (is_Some value)
  else bool_decide (value = None).

Definition selector_matches (labels : smap) (s : LabelSelector) : bool :=
  forallb (λ '(k, v), bool_decide (labels !! k = Some v)) (map_to_list (default ∅ (LabelSelector_MatchLabels s)))
  && forallb (requirement_matches labels) (LabelSelector_MatchExpressions s).

(** ** Lemmas *)
Lemma requirement_In labels k vs :
  requirement_matches labels (mkRequirement k "In" vs) =
  match labels !! k with Some v => bool_decide (v ∈ vs) | None => false end.
Proof. reflexivity. Qed.
Lemma requirement_NotIn labels k vs :
  requirement_matches labels (mkRequirement k "NotIn" vs) =
  match labels !! k with Some v => bool_decide (v ∉ vs) | None => true end.
Proof. reflexivity. Qed.

(** ** Properties *)

(** The binding webhook applies to every object that does not carry the label
    [exclude] with value [true]; with the environment variable set to [inclusion],
    only to those that carry [include] with value [true]. *)
Theorem NewBindingWebhook_selects mode resource labels :
  selector_matches labels (webhook_selector (NewBindingWebhook mode resource)) = true ↔
  (if decide (mode = "inclusion") then labels !! BindingIncludeLabel = Some "true"
   else labels !! BindingExcludeLabel ≠ Some "true").
Proof.
  unfold NewBindingWebhook. case_decide as Hm;
    [rewrite bool_decide_eq_true_2 by done|rewrite bool_decide_eq_false_2 by done];
    unfold selector_matches, InclusionSelector, ExclusionSelector;
    cbn [webhook_selector LabelSelector_MatchLabels LabelSelector_MatchExpressions default from_option forallb];
    rewrite ?requirement_In, ?requirement_NotIn, map_to_list_empty; cbn [forallb andb];
    rewrite andb_true_r; destruct (labels !! _) as [v|];
    rewrite ?bool_decide_eq_true, ?list_elem_of_singleton; split; congruence.
Qed.

(** The defaulting and validation webhooks miss the projections: the two other
    kinds are handled under the kind the scheme knows, but
    [ServiceBindingProjection] is registered under the group [servicebinding.io],
    which the scheme does not have, and its own kind is not handled at all. *)
Theorem ourTypes_misses_projections `{Opaque} (b : ServiceBindingProjection) (sb : ServiceBinding)
    (p : ProvisionedService) :
  (PS.GetGroupVersionKind p, T_ProvisionedService) ∈ admission_types NewValidationAdmissionController ∧
  (SB.GetGroupVersionKind sb, T_ServiceBinding) ∈ admission_types NewValidationAdmissionController ∧
  (GetGroupVersionKind b, T_ServiceBindingProjection) ∈ AddToScheme [] ∧
  (∀ t, (GetGroupVersionKind b, t) ∉ admission_types NewValidationAdmissionController) ∧
  (∀ t, (GetGroupVersionKind b, t) ∉ admission_types NewDefaultingAdmissionController) ∧
  (∃ gvk, (gvk, T_ServiceBindingProjection) ∈ admission_types NewValidationAdmissionController ∧
     ∀ t, (gvk, t) ∉ AddToScheme []).
Proof.
  split_and!.
  - by left.
  - right. by left.
  - right. right. by left.
  - intros t [[=]|[[=]|[[=]|[]%elem_of_nil]%elem_of_cons]%elem_of_cons]%elem_of_cons.
  - intros t [[=]|[[=]|[[=]|[]%elem_of_nil]%elem_of_cons]%elem_of_cons]%elem_of_cons.
  - exists (WithKind SB.SchemeGroupVersion "ServiceBindingProjection"). split; [right; right; by left|].
    intros t Hin. repeat (apply elem_of_cons in Hin as [[=]|Hin]). by apply elem_of_nil in Hin.
Qed.
