(* ===== verification/Clients.v ===== *)
(** * Typed clients and listers

    The clients of [pkg/client/clientset/versioned/typed/*/*/<kind>.go] build a
    request and send it through the REST client of [k8s.io/client-go]; the listers of
    [pkg/client/listers/*/*/<kind>.go] read the cache of an informer.  The code is the
    same for the three kinds but for the resource, so it is written once, over the
    kind, and repeated under the names of the packages.

    The REST client is the environment [RESTEnv], the cache the record [Indexer]. *)
From S2P Require Import Prelude Api Effects Conditions Projection Binding Provisioned.
From S2P Require Import KindReconciler Kinds Admission.

(** ** Requests *)

(** [metav1.ListOptions]: the fields the code reads or writes.  The other options
    are copied whole. *)
Record ListOptions `{Opaque} := mkListOptions {
  ListOptions_LabelSelector : string;
  ListOptions_TimeoutSeconds : option Z;
  ListOptions_Watch : bool;
  ListOptions_Rest : opaque;
}.

Inductive verb := GET | POST | PUT | DELETE | PATCH (patchType : string).

Inductive params `{Opaque} := NoParams | CallOptions (o : opaque) | CallListOptions (o : ListOptions).

Inductive body `{Opaque} (K : Type) :=
| NoBody | BodyObject (k : K) | BodyOptions (o : opaque) | BodyBytes (data : string).
Arguments NoBody {_ _}.
Arguments BodyObject {_ _} _.
Arguments BodyOptions {_ _} _.
Arguments BodyBytes {_ _} _.

(** [rest.Request], as the calls that build it leave it. *)
Record Request `{Opaque} (K : Type) := mkRequest {
  Request_verb : verb;
  Request_namespace : string;
  Request_resource : string;
  Request_name : string;
  Request_subresource : list string;
  Request_params : params;
  Request_timeout : Z;
  Request_body : body K;
}.
Arguments mkRequest {_ _} _ _ _ _ _ _ _ _.
Arguments Request_verb {_ _} _.
Arguments Request_namespace {_ _} _.
Arguments Request_resource {_ _} _.
Arguments Request_name {_ _} _.
Arguments Request_subresource {_ _} _.
Arguments Request_params {_ _} _.
Arguments Request_timeout {_ _} _.
Arguments Request_body {_ _} _.

(** [time.Duration(s) * time.Second] in 64-bit arithmetic. *)
Definition int64 (z : Z) : Z := ((z + 2 ^ 63) mod 2 ^ 64 - 2 ^ 63)%Z.
Definition Second : Z := 1000000000.
Definition seconds (s : Z) : Z := int64 (s * Second).

(** The list that a [List] call fills. *)
Record KindList `{Opaque} (K : Type) := mkKindList { KindList_Meta : opaque; KindList_Items : list K }.
Arguments mkKindList {_ _} _ _.
Arguments KindList_Items {_ _} _.

Inductive rest_event `{Opaque} (K W : Type) :=
| EvObject (r : Request K) (answer : result error K)
| EvList (r : Request K) (answer : result error (KindList K))
| EvWatch (r : Request K) (answer : result error W)
| EvNoContent (r : Request K) (answer : option error).
Arguments EvObject {_ _ _} _ _.
Arguments EvList {_ _ _} _ _.
Arguments EvWatch {_ _ _} _ _.
Arguments EvNoContent {_ _ _} _ _.

Record RESTEnv `{Opaque} (E K W : Type) := {
  rest_object : Request K → list E → result error K;
  rest_list : Request K → list E → result error (KindList K);
  rest_watch : Request K → list E → result error W;
  rest_error : Request K → list E → option error;
}.
Arguments rest_object {_ E K W} _ _ _.
Arguments rest_list {_ E K W} _ _ _.
Arguments rest_watch {_ E K W} _ _ _.
Arguments rest_error {_ E K W} _ _ _.

(** ** The typed client of a resource *)
Section typed_client.
Context `{Opaque} {E K W Status : Type} `{!Kind K Status}.
Context (emit : rest_event K W → E) (env : RESTEnv E K W).
Context (resource : string) (ns : string).

(** [.Do(ctx).Into(result)], for an object and for a list, [.Watch(ctx)] and
    [.Do(ctx).Error()]. *)
Definition Do_Into (r : Request K) : M E (result error K) :=
  call (rest_object env r) (λ a, emit (EvObject r a)).
Definition Do_List (r : Request K) : M E (result error (KindList K)) :=
  call (rest_list env r) (λ a, emit (EvList r a)).
Definition Do_Watch (r : Request K) : M E (result error W) :=
  call (rest_watch env r) (λ a, emit (EvWatch r a)).
Definition Do_Error (r : Request K) : M E (option error) :=
  call (rest_error env r) (λ a, emit (EvNoContent r a)).

(** [var timeout time.Duration; if opts.TimeoutSeconds != nil { ... }] *)
Definition timeout (o : ListOptions) : Z :=
  match ListOptions_TimeoutSeconds o with Some s => seconds s | None => 0%Z end.

Definition getRequest (name : string) (options : opaque) : Request K :=
  mkRequest GET ns resource name [] (CallOptions options) 0 NoBody.
Definition updateStatusRequest (k : K) (opts : opaque) : Request K :=
  mkRequest PUT ns resource (Meta_Name (kind_meta k)) ["status"] (CallOptions opts) 0 (BodyObject k).
Definition patchRequest (name patchType data : string) (opts : opaque) (subresources : list string) : Request K :=
  mkRequest (PATCH patchType) ns resource name subresources (CallOptions opts) 0 (BodyBytes data).

Definition client_Get (name : string) (options : opaque) : M E (result error K) :=
  Do_Into (getRequest name options).

Definition client_List (opts : ListOptions) : M E (result error (KindList K)) :=
  Do_List (mkRequest GET ns resource "" [] (CallListOptions opts) (timeout opts) NoBody).

Definition client_Watch (opts : ListOptions) : M E (result error W) :=
  let duration := timeout opts in
  let opts := mkListOptions _ (ListOptions_LabelSelector opts) (ListOptions_TimeoutSeconds opts) true
    (ListOptions_Rest opts) in
  Do_Watch (mkRequest GET ns resource "" [] (CallListOptions opts) duration NoBody).

Definition client_Create (k : K) (opts : opaque) : M E (result error K) :=
  Do_Into (mkRequest POST ns resource "" [] (CallOptions opts) 0 (BodyObject k)).

Definition client_Update (k : K) (opts : opaque) : M E (result error K) :=
  Do_Into (mkRequest PUT ns resource (Meta_Name (kind_meta k)) [] (CallOptions opts) 0 (BodyObject k)).

Definition client_UpdateStatus (k : K) (opts : opaque) : M E (result error K) :=
  Do_Into (updateStatusRequest k opts).

Definition client_Delete (name : string) (opts : opaque) : M E (option error) :=
  Do_Error (mkRequest DELETE ns resource name [] NoParams 0 (BodyOptions opts)).

Definition client_DeleteCollection (opts : opaque) (listOpts : ListOptions) : M E (option error) :=
  Do_Error (mkRequest DELETE ns resource "" [] (CallListOptions listOpts) (timeout listOpts) (BodyOptions opts)).

Definition client_Patch (name patchType data : string) (opts : opaque) (subresources : list string)
    : M E (result error K) :=
  Do_Into (patchRequest name patchType data opts subresources).
End typed_client.

(** ** Listers *)

(** The selector of [k8s.io/apimachinery/pkg/labels], and the cache of an informer:
    [cache.Indexer] and [cache.ListAll], [cache.ListAllByNamespace], which answer with the
    objects they append and an error. *)
Record Indexer (Selector K : Type) := {
  GetByKey : string → result error (option K);
  ListAll : Selector → list K * option error;
  ListAllByNamespace : string → Selector → list K * option error;
}.
Arguments GetByKey {Selector K} _ _.
Arguments ListAll {Selector K} _ _.
Arguments ListAllByNamespace {Selector K} _ _ _.

Section lister.
Context {Selector K : Type} (indexer : Indexer Selector K).
(** [errors.NewNotFound] of [k8s.io/apimachinery]. *)
Context (NewNotFound : GroupKind → string → error).

Definition appendAll (ms : list K) : list K := foldl (λ ret m, ret ++ [m]) [] ms.

Definition lister_List (selector : Selector) : list K * option error :=
  let '(ms, err) := ListAll indexer selector in (appendAll ms, err).

Definition namespaceLister_List (namespace : string) (selector : Selector) : list K * option error :=
  let '(ms, err) := ListAllByNamespace indexer namespace selector in (appendAll ms, err).

Definition namespaceLister_Get (resource : GroupKind) (namespace name : string) : result error K :=
  match GetByKey indexer (namespace +:+ "/" +:+ name) with
  | Err err => Err err
  | Ok None => Err (NewNotFound resource name)
  | Ok (Some obj) => Ok obj
  end.
End lister.

(** The structs of the three files: [serviceBindingLister], [serviceBindingNamespaceLister]
    and those of the other kinds. *)
Record kindLister (Selector K : Type) := mkLister { lister_indexer : Indexer Selector K }.
Arguments mkLister {Selector K} _.
Arguments lister_indexer {Selector K} _.
Record kindNamespaceLister (Selector K : Type) := mkNamespaceLister {
  namespaceLister_indexer : Indexer Selector K;
  namespaceLister_namespace : string;
}.
Arguments mkNamespaceLister {Selector K} _ _.
Arguments namespaceLister_indexer {Selector K} _.
Arguments namespaceLister_namespace {Selector K} _.

(** ** The generated packages *)

(** [typed/servicebinding/v1alpha3/servicebinding.go], [listers/servicebinding/v1alpha3/servicebinding.go] *)
Module ServiceBindings.
Section client.
Context `{Opaque} {E W : Type} (emit : rest_event ServiceBinding W → E) (env : RESTEnv E ServiceBinding W).
Context (ns : string).

Definition Get : string → opaque → M E (result error ServiceBinding) := client_Get emit env "servicebindings" ns.
Definition List : ListOptions → M E (result error (KindList ServiceBinding)) :=
  client_List emit env "servicebindings" ns.
Definition Watch : ListOptions → M E (result error W) := client_Watch emit env "servicebindings" ns.
Definition Create : ServiceBinding → opaque → M E (result error ServiceBinding) :=
  client_Create emit env "servicebindings" ns.
Definition Update : ServiceBinding → opaque → M E (result error ServiceBinding) :=
  client_Update emit env "servicebindings" ns.
Definition UpdateStatus : ServiceBinding → opaque → M E (result error ServiceBinding) :=
  client_UpdateStatus emit env "servicebindings" ns.
Definition Delete : string → opaque → M E (option error) := client_Delete emit env "servicebindings" ns.
Definition DeleteCollection : opaque → ListOptions → M E (option error) :=
  client_DeleteCollection emit env "servicebindings" ns.
Definition Patch : string → string → string → opaque → list string → M E (result error ServiceBinding) :=
  client_Patch emit env "servicebindings" ns.
End client.

Section lister.
Context `{Opaque} {Selector : Type}.

Definition NewServiceBindingLister (indexer : Indexer Selector ServiceBinding) : kindLister Selector ServiceBinding := mkLister indexer.
Definition Lister_ServiceBindings (s : kindLister Selector ServiceBinding) (namespace : string) : kindNamespaceLister Selector ServiceBinding :=
  mkNamespaceLister (lister_indexer s) namespace.

(** The methods read the field [indexer]. *)
Context (indexer : Indexer Selector ServiceBinding).
Context (NewNotFound : GroupKind → string → error).

Definition Lister_List : Selector → list ServiceBinding * option error := lister_List indexer.
Definition NamespaceLister_List : string → Selector → list ServiceBinding * option error :=
  namespaceLister_List indexer.
Definition NamespaceLister_Get : string → string → result error ServiceBinding :=
  namespaceLister_Get indexer NewNotFound (servicebinding_Resource "servicebinding").
End lister.
End ServiceBindings.

(** [typed/labs/v1alpha1/provisionedservice.go], [listers/labs/v1alpha1/provisionedservice.go] *)
Module ProvisionedServices.
Section client.
Context `{Opaque} {E W : Type} (emit : rest_event ProvisionedService W → E) (env : RESTEnv E ProvisionedService W).
Context (ns : string).

Definition Get : string → opaque → M E (result error ProvisionedService) := client_Get emit env "provisionedservices" ns.
Definition List : ListOptions → M E (result error (KindList ProvisionedService)) :=
  client_List emit env "provisionedservices" ns.
Definition Watch : ListOptions → M E (result error W) := client_Watch emit env "provisionedservices" ns.
Definition Create : ProvisionedService → opaque → M E (result error ProvisionedService) :=
  client_Create emit env "provisionedservices" ns.
Definition Update : ProvisionedService → opaque → M E (result error ProvisionedService) :=
  client_Update emit env "provisionedservices" ns.
Definition UpdateStatus : ProvisionedService → opaque → M E (result error ProvisionedService) :=
  client_UpdateStatus emit env "provisionedservices" ns.
Definition Delete : string → opaque → M E (option error) := client_Delete emit env "provisionedservices" ns.
Definition DeleteCollection : opaque → ListOptions → M E (option error) :=
  client_DeleteCollection emit env "provisionedservices" ns.
Definition Patch : string → string → string → opaque → list string → M E (result error ProvisionedService) :=
  client_Patch emit env "provisionedservices" ns.
End client.

Section lister.
Context `{Opaque} {Selector : Type}.

Definition NewProvisionedServiceLister (indexer : Indexer Selector ProvisionedService) : kindLister Selector ProvisionedService := mkLister indexer.
Definition Lister_ProvisionedServices (s : kindLister Selector ProvisionedService) (namespace : string) : kindNamespaceLister Selector ProvisionedService :=
  mkNamespaceLister (lister_indexer s) namespace.

(** The methods read the field [indexer]. *)
Context (indexer : Indexer Selector ProvisionedService).
Context (NewNotFound : GroupKind → string → error).

Definition Lister_List : Selector → list ProvisionedService * option error := lister_List indexer.
Definition NamespaceLister_List : string → Selector → list ProvisionedService * option error :=
  namespaceLister_List indexer.
Definition NamespaceLister_Get : string → string → result error ProvisionedService :=
  namespaceLister_Get indexer NewNotFound (labs_Resource "provisionedservice").
End lister.
End ProvisionedServices.

(** [typed/labsinternal/v1alpha1/servicebindingprojection.go], [listers/labsinternal/v1alpha1/servicebindingprojection.go] *)
Module ServiceBindingProjections.
Section client.
Context `{Opaque} {E W : Type} (emit : rest_event ServiceBindingProjection W → E) (env : RESTEnv E ServiceBindingProjection W).
Context (ns : string).

Definition Get : string → opaque → M E (result error ServiceBindingProjection) := client_Get emit env "servicebindingprojections" ns.
Definition List : ListOptions → M E (result error (KindList ServiceBindingProjection)) :=
  client_List emit env "servicebindingprojections" ns.
Definition Watch : ListOptions → M E (result error W) := client_Watch emit env "servicebindingprojections" ns.
Definition Create : ServiceBindingProjection → opaque → M E (result error ServiceBindingProjection) :=
  client_Create emit env "servicebindingprojections" ns.
Definition Update : ServiceBindingProjection → opaque → M E (result error ServiceBindingProjection) :=
  client_Update emit env "servicebindingprojections" ns.
Definition UpdateStatus : ServiceBindingProjection → opaque → M E (result error ServiceBindingProjection) :=
  client_UpdateStatus emit env "servicebindingprojections" ns.
Definition Delete : string → opaque → M E (option error) := client_Delete emit env "servicebindingprojections" ns.
Definition DeleteCollection : opaque → ListOptions → M E (option error) :=
  client_DeleteCollection emit env "servicebindingprojections" ns.
Definition Patch : string → string → string → opaque → list string → M E (result error ServiceBindingProjection) :=
  client_Patch emit env "servicebindingprojections" ns.
End client.

Section lister.
Context `{Opaque} {Selector : Type}.

Definition NewServiceBindingProjectionLister (indexer : Indexer Selector ServiceBindingProjection) : kindLister Selector ServiceBindingProjection := mkLister indexer.
Definition Lister_ServiceBindingProjections (s : kindLister Selector ServiceBindingProjection) (namespace : string) : kindNamespaceLister Selector ServiceBindingProjection :=
  mkNamespaceLister (lister_indexer s) namespace.

(** The methods read the field [indexer]. *)
Context (indexer : Indexer Selector ServiceBindingProjection).
Context (NewNotFound : GroupKind → string → error).

Definition Lister_List : Selector → list ServiceBindingProjection * option error := lister_List indexer.
Definition NamespaceLister_List : string → Selector → list ServiceBindingProjection * option error :=
  namespaceLister_List indexer.
Definition NamespaceLister_Get : string → string → result error ServiceBindingProjection :=
  namespaceLister_Get indexer NewNotFound (labsinternal_Resource "servicebindingprojection").
End lister.
End ServiceBindingProjections.
