(* ===== verification/ClientsFacts.v ===== *)
(** * Reconciling through the generated lister and client

    The environment of a generated reconciler made of the generated lister over a
    cache and of the generated client: what the lister lists and what it gets agree,
    and the reconciliation of a key that is not cached does nothing. *)
From S2P Require Import Prelude Api Conditions Effects Provisioned KindReconciler Kinds.
From S2P Require Import KindReconcilerFacts Admission Clients.

(** ** Keys *)
Definition slash_free (s : string) : bool := str_all (λ a, negb (bool_decide (a = "/"%char))) s.

Lemma slash_split a a' t t' :
  slash_free a = true → slash_free a' = true → a +:+ "/" +:+ t = a' +:+ "/" +:+ t' → a = a' ∧ t = t'.
Proof.
  unfold slash_free. revert a'. induction a as [|x a IH]; intros [|y a'] Ha Ha' Heq; cbn in Ha, Ha'.
  - injection Heq as Heq. rewrite !str_app_nil_l in Heq. done.
  - exfalso. injection Heq as Heq _. subst y. by rewrite bool_decide_eq_true_2 in Ha'.
  - exfalso. injection Heq as Heq _. subst x. by rewrite bool_decide_eq_true_2 in Ha.
  - rewrite !str_app_cons in Heq. injection Heq as -> Heq.
    apply andb_prop in Ha as [_ Ha]. apply andb_prop in Ha' as [_ Ha'].
    destruct (IH a' Ha Ha' Heq) as [-> ->]. done.
Qed.

Section cached.
Context `{Opaque} {K Status Selector W E : Type} `{!Kind K Status} (emit : kind_event K → E).
Context `{!KnativeReconciler E K Status}.
Context (cache : list E → Indexer Selector K) (rest : RESTEnv E K W) (everything : Selector).
Context (NewNotFound : GroupKind → string → error) (marshal : list string → string → string).
Context (resource : string) (group : GroupKind).
Implicit Types (ix : Indexer Selector K) (objs : list K).

(** [cache.MetaNamespaceKeyFunc] of a namespaced object. *)
Definition namespaceKey (k : K) : string := Meta_Namespace (kind_meta k) +:+ "/" +:+ Meta_Name (kind_meta k).

(** The cache [ix] holds the objects [objs], as [cache.Indexer] documents it: one
    object for a key, the key of an object, and the objects of a namespace in any
    order.  Namespaces of Kubernetes have no slash. *)
Record holds ix objs : Prop := {
  holds_keys : NoDup (map namespaceKey objs);
  holds_namespaces k : k ∈ objs → slash_free (Meta_Namespace (kind_meta k)) = true;
  holds_GetByKey key :
    GetByKey ix key = Ok (List.find (λ k, bool_decide (namespaceKey k = key)) objs);
  holds_ListAllByNamespace ns :
    ∃ l, ListAllByNamespace ix ns everything = (l, None) ∧
      ∀ k, k ∈ l ↔ k ∈ objs ∧ Meta_Namespace (kind_meta k) = ns;
}.

(** The calls of the generated reconcilers: the lister reads the cache, the others
    are requests of the typed client. *)
Definition generated_env : KindEnv E K := {|
  env_ListerGet ns name log := namespaceLister_Get (cache log) NewNotFound group ns name;
  env_ClientGet ns name log := rest_object rest (getRequest resource ns name opaque_zero) log;
  env_UpdateStatus ns k log := rest_object rest (updateStatusRequest resource ns k opaque_zero) log;
  env_PatchFinalizers ns name finalizers resourceVersion log :=
    rest_object rest (patchRequest resource ns name "application/merge-patch+json"
      (marshal finalizers resourceVersion) opaque_zero []) log;
|}.

Lemma appendAll_id (l : list K) : appendAll l = l.
Proof.
  assert (∀ acc, foldl (λ ret m, ret ++ [m]) acc l = acc ++ l) as Hl; [|apply (Hl [])].
  induction l as [|k l IH]; intros acc; cbn; [by rewrite app_nil_r|].
  by rewrite IH, <- (assoc_L (++)).
Qed.

Lemma elem_of_namespaceList ix objs ns k :
  holds ix objs →
  k ∈ (namespaceLister_List ix ns everything).1 ↔ k ∈ objs ∧ Meta_Namespace (kind_meta k) = ns.
Proof.
  intros Hix. destruct (holds_ListAllByNamespace _ _ Hix ns) as (l & Hl & Hk).
  unfold namespaceLister_List. rewrite Hl. cbn. by rewrite appendAll_id.
Qed.

Lemma namespaceGet_cases ix objs ns name :
  holds ix objs → slash_free ns = true →
  (∃ k, namespaceLister_Get ix NewNotFound group ns name = Ok k ∧ k ∈ objs ∧
     Meta_Namespace (kind_meta k) = ns ∧ Meta_Name (kind_meta k) = name) ∨
  namespaceLister_Get ix NewNotFound group ns name = Err (NewNotFound group name) ∧
  ∀ k, k ∈ objs → Meta_Namespace (kind_meta k) = ns → Meta_Name (kind_meta k) ≠ name.
Proof.
  intros Hix Hns. unfold namespaceLister_Get. rewrite (holds_GetByKey _ _ Hix).
  destruct (List.find _ _) as [k|] eqn:Hf.
  - left. apply List.find_some in Hf as [Hin%list_elem_of_In Hkey%bool_decide_eq_true].
    unfold namespaceKey in Hkey.
    destruct (slash_split _ _ _ _ (holds_namespaces _ _ Hix k Hin) Hns Hkey). eauto.
  - right. split; [done|]. intros k Hin <- Hname.
    pose proof (List.find_none _ _ Hf k) as Hk. rewrite <- list_elem_of_In in Hk.
    specialize (Hk Hin). apply bool_decide_eq_false in Hk. apply Hk.
    unfold namespaceKey. by rewrite Hname.
Qed.

Lemma holds_unique ix objs k k' :
  holds ix objs → k ∈ objs → k' ∈ objs → namespaceKey k = namespaceKey k' → k = k'.
Proof.
  intros Hix [i Hi]%list_elem_of_lookup [j Hj]%list_elem_of_lookup Hkey.
  assert (i = j) as <-; [|congruence].
  eapply NoDup_lookup; [apply (holds_keys _ _ Hix)| |];
    rewrite list_lookup_fmap; [by rewrite Hi|rewrite Hj; cbn; by rewrite Hkey].
Qed.

(** A key and the cache: when the cache holds objects [objs], the lister's [Get]
    of the key returns the only listed object of the namespace with that name; if
    the lister lists none, the leader's reconciliation of the key is the lookup and
    nothing else, without an error. *)
Theorem Reconcile_cached r key ns name log objs :
  holds (cache log) objs → (∀ g n, IsNotFound (NewNotFound g n) = true) →
  SplitMetaNamespaceKey key = Ok (ns, name) → slash_free ns = true → IsLeaderFor r ns name = true →
  let listed := (namespaceLister_List (cache log) ns everything).1 in
  (∃ k, env_ListerGet generated_env ns name log = Ok k ∧ k ∈ listed ∧ Meta_Name (kind_meta k) = name ∧
     ∀ k', k' ∈ listed → Meta_Name (kind_meta k') = name → k' = k) ∨
  (∀ k, k ∈ listed → Meta_Name (kind_meta k) ≠ name) ∧
  Reconcile emit generated_env r key log =
    (Done None, log ++ [emit (EvListerGet ns name (Err (NewNotFound group name)))]).
Proof.
  intros Hix Hnf Hkey Hns Hlead. cbn zeta.
  destruct (namespaceGet_cases _ _ ns name Hix Hns) as [(k & Hget & Hin & Hkns & Hkn)|[Hget Hnone]].
  - left. exists k. setoid_rewrite elem_of_namespaceList; [|done|done]. split_and!; try done.
    intros k' [Hin' Hns'] Hn'. apply (holds_unique _ _ _ _ Hix Hin' Hin).
    unfold namespaceKey. congruence.
  - right. split.
    + setoid_rewrite elem_of_namespaceList; [|done]. intros k [Hin Hk]. by apply Hnone.
    + unfold Reconcile, newState. rewrite Hkey. unfold isNotLeaderNorObserver. cbn [state_isLeader].
      rewrite Hlead. cbn [negb andb state_namespace state_name]. unfold Lister_Get. rewrite bind_call.
      cbn [env_ListerGet generated_env]. by rewrite Hget, Hnf.
Qed.
End cached.

(** ** Time limits *)
Lemma int64_bounds z : (- 2 ^ 63 ≤ int64 z < 2 ^ 63)%Z.
Proof. unfold int64. pose proof (Z.mod_pos_bound (z + 2 ^ 63) (2 ^ 64)). lia. Qed.

Lemma int64_id z : (int64 z = z ↔ - 2 ^ 63 ≤ z < 2 ^ 63)%Z.
Proof.
  split; [intros <-; apply int64_bounds|]. intros Hz. unfold int64. rewrite Z.mod_small by lia. lia.
Qed.

(** C40: the client-side time limit of a list, watch or collection delete is a 64-bit number
    of nanoseconds: none without [TimeoutSeconds], exactly that many seconds up to
    9223372036 of them either way, and never that many beyond, where the product wraps. *)
Theorem timeout_exact `{Opaque} (o : ListOptions) :
  (- 2 ^ 63 ≤ timeout o < 2 ^ 63)%Z ∧
  match ListOptions_TimeoutSeconds o with
  | None => timeout o = 0%Z
  | Some s => (timeout o = s * 1000000000 ↔ -9223372036 ≤ s ≤ 9223372036)%Z
  end.
Proof.
  unfold timeout, seconds, Second. destruct (ListOptions_TimeoutSeconds o) as [s|]; [|done].
  split; [apply int64_bounds|]. rewrite int64_id. lia.
Qed.

(** ** Witness *)
#[local] Existing Instance string_opaque.
#[local] Existing Instance sample_knative.

(** A cache of a list of objects; the only selector is the empty one. *)
Definition list_indexer (objs : list ProvisionedService) : Indexer unit ProvisionedService := {|
  GetByKey key := Ok (List.find (λ k, bool_decide (namespaceKey k = key)) objs);
  ListAll _ := (objs, None);
  ListAllByNamespace ns _ := (filter (λ k, Meta_Namespace (kind_meta k) = ns) objs, None);
|}.

Lemma list_indexer_holds objs :
  NoDup (map namespaceKey objs) → (∀ k, k ∈ objs → slash_free (Meta_Namespace (kind_meta k)) = true) →
  holds tt (list_indexer objs) objs.
Proof.
  intros Hk Hn. split; [done|done|done|]. intros ns. eexists. split; [reflexivity|].
  intros k. rewrite list_elem_of_filter. tauto.
Qed.

Definition not_found_error (g : GroupKind) (name : string) : error :=
  ApiError "NotFound" (g.2 +:+ "." +:+ g.1 +:+ " " +:+ quoted name +:+ " not found").

Definition no_rest {E : Type} : RESTEnv E ProvisionedService unit := {|
  rest_object _ _ := Err (PlainError "offline"); rest_list _ _ := Err (PlainError "offline");
  rest_watch _ _ := Err (PlainError "offline"); rest_error _ _ := Some (PlainError "offline") |}.

(** [db] is cached and [gone] is not. *)
Lemma Reconcile_cached_witness :
  Reconcile id (generated_env (λ _, list_indexer [sample_service]) no_rest not_found_error (λ _ _, "{}")
      "provisionedservices" (labs_Resource "provisionedservice"))
    (service_reconciler true) "default/gone" [] =
  (Done None, [EvListerGet "default" "gone"
    (Err (not_found_error (labs_Resource "provisionedservice") "gone"))]).
Proof.
  destruct (Reconcile_cached id (λ _, list_indexer [sample_service]) no_rest tt not_found_error (λ _ _, "{}")
    "provisionedservices" (labs_Resource "provisionedservice") (service_reconciler true) "default/gone"
    "default" "gone" [] [sample_service]) as [(k & Hget & _)|[_ Hrun]].
  - apply list_indexer_holds; [apply NoDup_singleton|]. intros k ->%list_elem_of_singleton. reflexivity.
  - reflexivity.
  - reflexivity.
  - reflexivity.
  - reflexivity.
  - discriminate Hget.
  - exact Hrun.
Defined.
