(* ===== verification/Heap.v ===== *)
(** * Pointers, slices and the heap

    The model of memory behind the generated deep copies.  A heap maps addresses to
    contents of an arbitrary type [V]; a type [T] that code allocates has a pair of
    functions into and out of [V] ([Storable]).  A pointer and a slice of [T] are an
    address or nil; a slice is a whole array, as all slices of the copied objects are.

    A value in memory is of a type [R] of representations; [denote] reads the value
    of type [A] it stands for and [locs] the addresses it reaches ([Reads]).  Code
    returns an [outcome] and a heap.  The second half of the file states what a deep
    copy is ([copies]) and proves the pieces generated code is made of correct:
    struct fields, pointers, slices copied at once and slices copied in a loop. *)
From S2P Require Import Prelude.

Notation loc := positive.
Notation heap V := (gmap loc V).

Record ptr (T : Type) := Ptr { ptr_addr : option loc }.
Arguments Ptr {T} _.
Arguments ptr_addr {T} _.
Definition nil_ptr {T} : ptr T := Ptr None.

Record slice (T : Type) := Slice { slice_addr : option loc }.
Arguments Slice {T} _.
Arguments slice_addr {T} _.
Definition nil_slice {T} : slice T := Slice None.

Class Storable (V T : Type) := {
  into : T → V;
  out_of : V → option T;
  out_of_into t : out_of (into t) = Some t;
}.

Section heap.
Context {V : Type}.

(** Code that works on the heap. *)
Definition H (A : Type) : Type := heap V → outcome (A * heap V).

Definition hret {A} (a : A) : H A := λ h, Done (a, h).
Definition hbind {A B} (m : H A) (f : A → H B) : H B := λ h,
  match m h with Done (a, h') => f a h' | Panic => Panic end.

(** What is stored at an address. *)
Definition fetch {T} `{!Storable V T} (h : heap V) (l : loc) : option T :=
  match h !! l with Some v => out_of v | None => None end.

(** [new(T)] and [make([]T, n)], with the value that is stored first. *)
Definition alloc {T} `{!Storable V T} (t : T) : H loc := λ h,
  let l := fresh (dom h) in Done (l, <[l := into t]> h).

(** [*p] and [s[:]]; a nil pointer panics. *)
Definition load {T} `{!Storable V T} (a : option loc) : H T := λ h,
  match a with
  | Some l => match fetch h l with Some t => Done (t, h) | None => Panic end
  | None => Panic
  end.

Definition store {T} `{!Storable V T} (a : option loc) (t : T) : H unit := λ h,
  match a with Some l => Done (tt, <[l := into t]> h) | None => Panic end.

Definition hpanic {A} : H A := λ _, Panic.
End heap.
Arguments H : clear implicits.

Declare Scope heap_scope.
Delimit Scope heap_scope with heap.
Notation "'let*' x ':=' m 'in' k" := (hbind m (fun x => k))
  (at level 10, x pattern, m at level 100, k at level 200) : heap_scope.

(** ** Reading *)
Class Reads (V R A : Type) := {
  denote : heap V → R → option A;
  locs : heap V → R → gset loc;
}.

Class ReadsLaws (V R A : Type) `{!Reads V R A} := {
  (** What a value stands for depends on the addresses it reaches alone... *)
  reads_agree (h h' : heap V) (r : R) (a : A) :
    denote h r = Some a → (∀ l, l ∈ locs h r → h' !! l = h !! l) →
    denote h' r = Some a ∧ locs h' r = locs h r;
  (** ... and they are addresses of the heap. *)
  reads_dom (h : heap V) (r : R) (a : A) : denote h r = Some a → locs h r ⊆ dom h;
}.

(** Types without references: a value is itself. *)
Definition plain_reads {V A : Type} : Reads V A A := {| denote _ a := Some a; locs _ _ := ∅ |}.
Lemma plain_reads_laws {V A : Type} : @ReadsLaws V A A plain_reads.
Proof. split; [by intros h h' r a [= ->] _|intros; apply empty_subseteq]. Qed.

(** A struct is read by its fields: [fields] lists them, [build] makes the value. *)
Definition struct_reads {V R A R' A'} `{!Reads V R' A'} (fields : R → R') (build : A' → A) :
    Reads V R A :=
  {| denote h r := build <$> denote h (fields r); locs h r := locs h (fields r) |}.

Section references.
Context {V R A R' A' : Type} `{!Reads V R A, !Reads V R' A'}.

#[export] Instance pair_reads : Reads V (R * R') (A * A') := {|
  denote h r := match denote h r.1, denote h r.2 with
                | Some a, Some a' => Some (a, a')
                | _, _ => None
                end;
  locs h r := locs h r.1 ∪ locs h r.2;
|}.

(** The target of a pointer, and the elements of a slice's array. *)
#[export] Instance ptr_reads `{!Storable V R} : Reads V (ptr R) (option A) := {|
  denote h p := match ptr_addr p with
                | None => Some None
                | Some l => match fetch h l with Some r => Some <$> denote h (r : R) | None => None end
                end;
  locs h p := match ptr_addr p with
              | None => ∅
              | Some l => {[ l ]} ∪ match fetch h l with Some r => locs h (r : R) | None => ∅ end
              end;
|}.

#[export] Instance array_reads : Reads V (list R) (list A) := {|
  denote h rs := mapM (denote h) rs;
  locs h rs := ⋃ (map (locs h) rs);
|}.

(** A nil slice stands for the empty list. *)
#[export] Instance slice_reads `{!Storable V (list R)} : Reads V (slice R) (list A) := {|
  denote h s := match slice_addr s with
                | None => Some []
                | Some l => match fetch h l with Some rs => denote h (rs : list R) | None => None end
                end;
  locs h s := match slice_addr s with
              | None => ∅
              | Some l => {[ l ]} ∪ match fetch h l with Some rs => locs h (rs : list R) | None => ∅ end
              end;
|}.
End references.

Lemma struct_reads_laws {V R A R' A'} `{!Reads V R' A', !ReadsLaws V R' A'}
    (fields : R → R') (build : A' → A) :
  @ReadsLaws V R A (struct_reads fields build).
Proof.
  split.
  - intros h h' r a Hd Hl. cbn in *. destruct (denote h (fields r)) as [a'|] eqn:Hr; [|done].
    by destruct (reads_agree h h' (fields r) a' Hr Hl) as [-> ->].
  - intros h r a Hd. cbn in *. destruct (denote h (fields r)) as [a'|] eqn:Hr; [|done].
    by eapply reads_dom.
Qed.

Section reference_laws.
Context {V R A : Type} `{!Reads V R A, !ReadsLaws V R A}.

Lemma fetch_dom {T} `{!Storable V T} (h : heap V) l (t : T) : fetch h l = Some t → l ∈ dom h.
Proof. unfold fetch. destruct (h !! l) as [v|] eqn:Hl; [|done]. intros _. by apply (elem_of_dom_2 (M := gmap loc) h l v). Qed.

Lemma fetch_eq {T} `{!Storable V T} (h h' : heap V) l : h' !! l = h !! l → fetch (T := T) h' l = fetch h l.
Proof. unfold fetch. by intros ->. Qed.

Lemma fetch_insert {T} `{!Storable V T} (h : heap V) l (t : T) : fetch (<[l := into t]> h) l = Some t.
Proof. unfold fetch. rewrite lookup_insert_eq. apply out_of_into. Qed.

#[export] Instance pair_reads_laws {R' A'} `{!Reads V R' A', !ReadsLaws V R' A'} :
  ReadsLaws V (R * R') (A * A').
Proof.
  split.
  - intros h h' [r r'] [a a']; cbn. intros Hd Hl.
    destruct (denote h r) as [b|] eqn:Hr; [|done]. destruct (denote h r') as [b'|] eqn:Hr'; [|done].
    destruct (reads_agree h h' r b Hr) as [-> ->]; [intros; apply Hl; set_solver|].
    by destruct (reads_agree h h' r' b' Hr') as [-> ->]; [intros; apply Hl; set_solver|].
  - intros h [r r'] [a a']; cbn. intros Hd.
    destruct (denote h r) as [b|] eqn:Hr; [|done]. destruct (denote h r') as [b'|] eqn:Hr'; [|done].
    apply union_subseteq. split; by eapply reads_dom.
Qed.

#[export] Instance ptr_reads_laws `{!Storable V R} : ReadsLaws V (ptr R) (option A).
Proof.
  split.
  - intros h h' [[l|]] a; cbn; [|by intros [= <-]]. intros Hd Hl.
    rewrite (fetch_eq h h' l) by (apply Hl; set_solver). destruct (fetch h l) as [r|]; [|done].
    destruct (denote h r) as [b|] eqn:Hr; [|done].
    destruct (reads_agree h h' r b Hr) as [-> ->]; [intros; apply Hl; set_solver|]. done.
  - intros h [[l|]] a; cbn; [|intros; apply empty_subseteq]. intros Hd.
    destruct (fetch h l) as [r|] eqn:Hl; [|done].
    destruct (denote h r) as [b|] eqn:Hr; [|done]. apply reads_dom in Hr. apply fetch_dom in Hl.
    apply union_subseteq. split; [|done]. by apply singleton_subseteq_l.
Qed.

#[export] Instance array_reads_laws : ReadsLaws V (list R) (list A).
Proof.
  split; intros h.
  - intros h' rs. induction rs as [|r rs IH]; intros a; cbn; [by intros [= <-]|]. intros Hd Hl.
    destruct (denote h r) as [b|] eqn:Hr; [|done]. destruct (mapM (denote h) rs) as [bs|] eqn:Hrs; [|done].
    destruct (reads_agree h h' r b Hr) as [-> ->]; [intros; apply Hl; set_solver|].
    destruct (IH bs Hrs) as [IH1 IH2]; [intros; apply Hl; set_solver|].
    cbn in IH1, IH2. by rewrite IH1, IH2.
  - intros rs. induction rs as [|r rs IH]; intros a; cbn; [intros; apply empty_subseteq|]. intros Hd.
    destruct (denote h r) as [b|] eqn:Hr; [|done]. destruct (mapM (denote h) rs) as [bs|] eqn:Hrs; [|done].
    apply union_subseteq. split; [by eapply reads_dom|by eapply IH].
Qed.

#[export] Instance slice_reads_laws `{!Storable V (list R)} : ReadsLaws V (slice R) (list A).
Proof.
  split.
  - intros h h' [[l|]] a; cbn; [|by intros [= <-]]. intros Hd Hl.
    rewrite (fetch_eq h h' l) by (apply Hl; set_solver). destruct (fetch h l) as [rs|]; [|done].
    destruct (@reads_agree _ _ _ array_reads array_reads_laws h h' rs a Hd) as [H1 H2];
      [intros; apply Hl; set_solver|]. cbn in *. by rewrite H1, H2.
  - intros h [[l|]] a; cbn; [|intros; apply empty_subseteq]. intros Hd.
    destruct (fetch h l) as [rs|] eqn:Hl; [|done].
    pose proof (@reads_dom _ _ _ array_reads array_reads_laws h rs a Hd) as Hdom. apply fetch_dom in Hl.
    apply union_subseteq. split; [|done]. by apply singleton_subseteq_l.
Qed.
End reference_laws.

(** ** What generated copies are made of *)

(** [copy(dst, src)]: as many elements as fit. *)
Definition copy_slice {V T} `{!Storable V (list T)} (dst src : slice T) : H V unit :=
  (let* s := load (slice_addr src) in
   let* d := load (slice_addr dst) in
   store (slice_addr dst) (take (length d) (s : list T) ++ drop (length s) d))%heap.

(** [in[i].DeepCopyInto(&out[i])].  A method that copies into a struct takes what
    both structs hold and returns what the second holds afterwards. *)
Definition copy_element {V T} `{!Storable V (list T)} (DeepCopyInto : T → T → H V T)
    (dst src : slice T) (i : nat) : H V unit :=
  (let* s := load (slice_addr src) in
   let* d := load (slice_addr dst) in
   match (s : list T) !! i, (d : list T) !! i with
   | Some x, Some y =>
       let* y := DeepCopyInto x y in
       let* d := load (slice_addr dst) in
       store (slice_addr dst) (<[i := y]> (d : list T))
   | _, _ => hpanic
   end)%heap.

Fixpoint copy_elements {V T} `{!Storable V (list T)} (DeepCopyInto : T → T → H V T)
    (dst src : slice T) (range : list nat) : H V unit :=
  match range with
  | [] => hret tt
  | i :: range =>
      hbind (copy_element DeepCopyInto dst src i) (λ _, copy_elements DeepCopyInto dst src range)
  end.

(** [if in.F != nil { *out = make(...); copy(out, in) }]: what [out.F] is then. *)
Definition copy_field {V T} `{!Storable V (list T)} (zero : T) (src out : slice T) : H V (slice T) :=
  (match slice_addr src with
   | None => hret out
   | Some _ =>
       let* s := load (slice_addr src) in
       let* l := alloc (replicate (length (s : list T)) zero) in
       let dst := Slice (Some l) in
       let* _ := copy_slice dst src in
       hret dst
   end)%heap.

(** The same with a loop: [for i := range in { in[i].DeepCopyInto(&out[i]) }]. *)
Definition copy_field_loop {V T} `{!Storable V (list T)} (zero : T) (DeepCopyInto : T → T → H V T)
    (src out : slice T) : H V (slice T) :=
  (match slice_addr src with
   | None => hret out
   | Some _ =>
       let* s := load (slice_addr src) in
       let* l := alloc (replicate (length (s : list T)) zero) in
       let dst := Slice (Some l) in
       let* _ := copy_elements DeepCopyInto dst src (seq 0 (length s)) in
       hret dst
   end)%heap.

(** [*out = new(T); in.DeepCopyInto(out)] *)
Definition copy_new {V T} `{!Storable V T} (zero : T) (DeepCopyInto : T → T → H V T) (p : ptr T) :
    H V (ptr T) :=
  (let* l := alloc zero in
   let* i := load (ptr_addr p) in
   let* o := load (Some l) in
   let* o := DeepCopyInto i (o : T) in
   let* _ := store (Some l) o in
   hret (Ptr (Some l)))%heap.

(** ... under [if in.F != nil]. *)
Definition copy_pointer {V T} `{!Storable V T} (zero : T) (DeepCopyInto : T → T → H V T)
    (p out : ptr T) : H V (ptr T) :=
  match ptr_addr p with None => hret out | Some _ => copy_new zero DeepCopyInto p end.

(** [DeepCopy]: [if in == nil { return nil }; out := new(T); in.DeepCopyInto(out); return out] *)
Definition deep_copy {V T} `{!Storable V T} (zero : T) (DeepCopyInto : T → T → H V T) (p : ptr T) :
    H V (ptr T) :=
  match ptr_addr p with None => hret nil_ptr | Some _ => copy_new zero DeepCopyInto p end.

(** [DeepCopyObject]: [if c := in.DeepCopy(); c != nil { return c }; return nil].  A value of
    an interface type is nil or holds a pointer, itself possibly nil. *)
Definition deep_copy_object {V T} (DeepCopy : ptr T → H V (ptr T)) (p : ptr T) : H V (option (ptr T)) :=
  (let* c := DeepCopy p in
   match ptr_addr c with Some _ => hret (Some c) | None => hret None end)%heap.

(** ** Deep copies *)

(** [m] does not panic and its result and heap satisfy [Q]. *)
Definition run {V A} (m : H V A) (h : heap V) (Q : A → heap V → Prop) : Prop :=
  match m h with Done (a, h') => Q a h' | Panic => False end.

Section copies.
Context {V R A : Type} `{!Reads V R A}.

(** [r] stands for [a] and reaches none of the addresses [old]. *)
Definition owns (old : gset loc) (h : heap V) (r : R) (a : A) : Prop :=
  denote h r = Some a ∧ locs h r ## old.

(** The result stands for the same value, in memory that was allocated meanwhile; what
    was there before is unchanged. *)
Definition copied (h : heap V) (a : A) (r' : R) (h' : heap V) : Prop :=
  h ⊆ h' ∧ owns (dom h) h' r' a.

(** A copy into a struct that holds anything, and into one that holds what the source
    does (after [*out = *in]). *)
Definition copies (copy : R → R → H V R) : Prop :=
  ∀ h r o a, denote h r = Some a → run (copy r o) h (copied h a).
Definition refreshes (copy : R → R → H V R) : Prop :=
  ∀ h r a, denote h r = Some a → run (copy r r) h (copied h a).

Lemma copies_refreshes copy : copies copy → refreshes copy.
Proof. intros Hc h r a. apply Hc. Qed.
End copies.

Section run.
Context {V : Type}.

Lemma run_bind {A B} (m : H V A) (k : A → H V B) h Q :
  run m h (λ a h', run (k a) h' Q) → run (hbind m k) h Q.
Proof. unfold run, hbind. by destruct (m h) as [[a h']|]. Qed.

Lemma run_mono {A} (m : H V A) h (Q Q' : A → heap V → Prop) :
  run m h Q → (∀ a h', Q a h' → Q' a h') → run m h Q'.
Proof. unfold run. destruct (m h) as [[a h']|]; auto. Qed.

Lemma run_ret {A} (a : A) h (Q : A → heap V → Prop) : Q a h → run (hret a) h Q.
Proof. done. Qed.

Lemma run_alloc {T} `{!Storable V T} (t : T) h (Q : loc → heap V → Prop) :
  (∀ l, l ∉ dom h → Q l (<[l := into t]> h)) → run (alloc t) h Q.
Proof. intros HQ. apply HQ, is_fresh. Qed.

Lemma run_load {T} `{!Storable V T} l (t : T) h (Q : T → heap V → Prop) :
  fetch h l = Some t → Q t h → run (load (Some l)) h Q.
Proof. unfold run, load. by intros ->. Qed.

Lemma run_store {T} `{!Storable V T} l (t : T) h (Q : unit → heap V → Prop) :
  Q tt (<[l := into t]> h) → run (store (Some l) t) h Q.
Proof. done. Qed.
End run.

Section facts.
Context {V R A : Type} `{!Reads V R A, !ReadsLaws V R A}.

Lemma subseteq_lookup (h h' : heap V) l : h ⊆ h' → l ∈ dom h → h' !! l = h !! l.
Proof.
  intros Hs [v Hv]%elem_of_dom. rewrite Hv. by apply (lookup_weaken (M := gmap loc) h h' l v).
Qed.

Lemma subseteq_insert (h h' : heap V) l v : h ⊆ h' → l ∉ dom h → h ⊆ <[l := v]> h'.
Proof.
  intros Hs Hl. transitivity (<[l := v]> h).
  - apply insert_subseteq. by apply not_elem_of_dom.
  - by apply insert_mono.
Qed.

Lemma fetch_mono {T} `{!Storable V T} (h h' : heap V) l (t : T) :
  h ⊆ h' → fetch h l = Some t → fetch h' l = Some t.
Proof.
  intros Hs Hf. rewrite <- Hf. apply fetch_eq, subseteq_lookup; [done|].
  by apply (fetch_dom h l t).
Qed.

Lemma denote_mono (h h' : heap V) (r : R) (a : A) :
  h ⊆ h' → denote h r = Some a → denote h' r = Some a ∧ locs h' r = locs h r.
Proof.
  intros Hs Hd. apply reads_agree; [done|]. intros l Hl. apply subseteq_lookup; [done|].
  by apply (reads_dom h r a Hd).
Qed.

Lemma owns_mono old (h h' : heap V) (r : R) (a : A) :
  h ⊆ h' → owns old h r a → owns old h' r a.
Proof.
  intros Hs [Hd Hl]. destruct (denote_mono h h' r a Hs Hd) as [Hd' Hl'].
  split; [done|]. by rewrite Hl'.
Qed.

Lemma owns_shrink old old' (h : heap V) (r : R) (a : A) :
  old' ⊆ old → owns old h r a → owns old' h r a.
Proof. intros Hs [Hd Hl]. split; [done|set_solver]. Qed.

(** Storing at an address that was there before. *)
Lemma owns_store old (h : heap V) (r : R) (a : A) l v :
  l ∈ old → owns old h r a → owns old (<[l := v]> h) r a.
Proof.
  intros Hl [Hd Ho]. destruct (reads_agree h (<[l := v]> h) r a Hd) as [Hd' Ho'].
  - intros l' Hl'. apply lookup_insert_ne. set_solver.
  - split; [done|]. by rewrite Ho'.
Qed.

(** A field of a struct whose other fields are copied before and after it. *)
Lemma step_field {B} copy (h0 h : heap V) (r : R) (a : A) (k : R → H V B) Q :
  refreshes copy → h0 ⊆ h → denote h0 r = Some a →
  (∀ r' h', h0 ⊆ h' → h ⊆ h' → owns (dom h0) h' r' a → run (k r') h' Q) →
  run (hbind (copy r r) k) h Q.
Proof.
  intros Hc Hs Hd HQ. apply run_bind. destruct (denote_mono h0 h r a Hs Hd) as [Hd' _].
  eapply run_mono; [by apply Hc|]. intros r' h' [Hs' Ho]. apply HQ; [by transitivity h|done|].
  eapply owns_shrink; [|done]. by apply subseteq_dom.
Qed.
End facts.

(** ** The pieces are copies *)
Section pointers.
Context {V R A : Type} `{!Reads V R A, !ReadsLaws V R A, !Storable V R}.
Implicit Types (h : heap V).

Lemma copy_new_run (zero : R) into_ l h r a :
  copies into_ → fetch h l = Some r → denote h r = Some a →
  run (copy_new zero into_ (Ptr (Some l))) h (copied h (Some a)).
Proof.
  intros Hc Hf Hd. unfold copy_new. apply run_bind, run_alloc. intros n Hn.
  set (h1 := <[n := into zero]> h). assert (h ⊆ h1) by by apply subseteq_insert.
  apply run_bind, (run_load l r); [by apply (fetch_mono h h1)|].
  apply run_bind, (run_load n zero); [apply fetch_insert|].
  apply run_bind. eapply run_mono; [apply Hc, (denote_mono h h1 r a); done|].
  intros r' h2 [Hs2 Ho]. apply run_bind, run_store, run_ret.
  assert (n ∈ dom h1) by (unfold h1; set_solver).
  apply (owns_store _ _ _ _ n (into r')) in Ho as [Hd' Hl']; [|done].
  split; [|split]; cbn.
  - apply subseteq_insert; [by transitivity h1|done].
  - by rewrite fetch_insert, Hd'.
  - rewrite fetch_insert. assert (dom h ⊆ dom h1) by by apply subseteq_dom. set_solver.
Qed.

Lemma denote_ptr_Some l h (b : option A) :
  denote h (Ptr (T := R) (Some l)) = Some b →
  ∃ r a, b = Some a ∧ fetch h l = Some r ∧ denote h r = Some a.
Proof.
  cbn. destruct (fetch h l) as [r|]; [|done]. destruct (denote h r) as [a|] eqn:Hr; [|done].
  intros [= <-]. by exists r, a.
Qed.

Lemma copied_nil h : copied h None (nil_ptr : ptr R) h.
Proof. split; [done|]. split; [done|]. cbn. apply disjoint_empty_l. Qed.

(** [DeepCopy] of a type whose [DeepCopyInto] copies. *)
Lemma deep_copy_copies (zero : R) into_ :
  copies into_ → copies (λ p _, deep_copy zero into_ p).
Proof.
  intros Hc h [[l|]] _ b Hd; cbn.
  - apply denote_ptr_Some in Hd as (r & a & -> & Hf & Hd). by apply (copy_new_run zero into_ l h r a).
  - injection Hd as <-. apply copied_nil.
Qed.

Lemma copy_pointer_refreshes (zero : R) into_ : copies into_ → refreshes (copy_pointer zero into_).
Proof.
  intros Hc h [[l|]] b Hd.
  - apply denote_ptr_Some in Hd as (r & a & -> & Hf & Hd). by apply (copy_new_run zero into_ l h r a).
  - injection Hd as <-. apply copied_nil.
Qed.
End pointers.

Section slices.
Context {V R A : Type} `{!Reads V R A, !ReadsLaws V R A, !Storable V (list R)}.
Implicit Types (h : heap V).

Lemma denote_slice_Some l h (bs : list A) :
  denote h (Slice (T := R) (Some l)) = Some bs →
  ∃ rs, fetch h l = Some rs ∧ Forall2 (λ r a, denote h r = Some a) rs bs.
Proof.
  cbn. destruct (fetch h l) as [rs|]; [|done]. intros Hd. exists rs. split; [done|].
  by apply mapM_Some_1.
Qed.

Lemma copied_nil_slice h : copied h [] (nil_slice : slice R) h.
Proof. split; [done|]. split; [done|]. cbn. apply disjoint_empty_l. Qed.

(** A slice at a new address whose elements are new. *)
Lemma owns_slice old h l (rs : list R) (bs : list A) :
  fetch h l = Some rs → l ∉ old → Forall2 (owns old h) rs bs → owns old h (Slice (Some l)) bs.
Proof.
  intros Hf Hl Ho. split; cbn; rewrite Hf.
  - apply mapM_Some_2. eapply Forall2_impl; [done|]. by intros r b [? _].
  - apply disjoint_union_l. split; [set_solver|]. clear Hf.
    induction Ho as [|r b rs bs [_ Hr] _ IH]; cbn; [apply disjoint_empty_l|].
    by apply disjoint_union_l.
Qed.

(** One turn of the loop: element [i] is replaced by a copy. *)
Lemma copy_element_run into_ h0 h src n i s d x y a Q :
  copies into_ → h0 ⊆ h → n ∉ dom h0 → n ∈ dom h →
  fetch h0 src = Some (s : list R) → fetch h n = Some (d : list R) →
  s !! i = Some x → d !! i = Some y → denote h0 x = Some a →
  (∀ x' h', h0 ⊆ h' → dom h ⊆ dom h' → fetch h' n = Some (<[i := x']> d) →
     owns (dom h) h' x' a → (∀ r b, owns (dom h0 ∪ {[n]}) h r b → owns (dom h0 ∪ {[n]}) h' r b) →
     Q tt h') →
  run (copy_element into_ (Slice (Some n)) (Slice (Some src)) i) h Q.
Proof.
  intros Hc Hs Hn Hn' Hsrc Hdst Hx Hy Ha HQ. unfold copy_element; cbn.
  apply run_bind, (run_load src s); [by apply (fetch_mono h0 h)|].
  apply run_bind, (run_load n d); [done|]. rewrite Hx, Hy.
  apply run_bind. eapply run_mono; [apply Hc, (denote_mono h0 h x a); done|].
  intros x' h' [Hs' Ho]. apply run_bind, (run_load n d); [by apply (fetch_mono h h')|].
  apply run_store, (HQ x').
  - apply subseteq_insert; [by transitivity h|done].
  - apply subseteq_dom in Hs'. rewrite dom_insert. set_solver.
  - apply fetch_insert.
  - by apply owns_store.
  - intros r b Hr. apply owns_store; [set_solver|]. by apply (owns_mono _ h h').
Qed.

Lemma copy_elements_run into_ h0 src n s bs :
  copies into_ → n ∉ dom h0 → fetch h0 src = Some (s : list R) →
  Forall2 (λ r a, denote h0 r = Some a) s bs →
  ∀ k i h d, i + k = length s → h0 ⊆ h → n ∈ dom h → fetch h n = Some (d : list R) →
  length d = length s → Forall2 (owns (dom h0 ∪ {[n]}) h) (take i d) (take i bs) →
  run (copy_elements into_ (Slice (Some n)) (Slice (Some src)) (seq i k)) h
    (λ _ h', h0 ⊆ h' ∧ ∃ d', fetch h' n = Some d' ∧ Forall2 (owns (dom h0 ∪ {[n]}) h') d' bs).
Proof.
  intros Hc Hn Hsrc Hbs. pose proof (Forall2_length _ _ _ Hbs) as Hlen.
  induction k as [|k IH]; intros i h d Hi Hs Hn' Hd Hdl Ho; cbn.
  { split; [done|]. exists d. rewrite !take_ge in Ho by lia. done. }
  destruct (lookup_lt_is_Some_2 s i) as [x Hx]; [lia|].
  destruct (lookup_lt_is_Some_2 d i) as [y Hy]; [lia|].
  destruct (Forall2_lookup_l _ _ _ _ _ Hbs Hx) as (b & Hb & Hden).
  apply run_bind. eapply (copy_element_run into_ h0 h src n i s d x y b); try done.
  intros x' h' Hs' Hdom Hf Hx' Hold.
  eapply IH; [lia|done|set_solver|done|by rewrite length_insert|].
  rewrite (take_S_r _ _ x'), (take_S_r _ _ b) by (done || (apply list_lookup_insert_eq; lia)).
  rewrite take_insert_ge by lia.
  apply Forall2_app.
  - eapply Forall2_impl; [done|]. intros r c. apply Hold.
  - constructor; [|constructor]. eapply owns_shrink; [|done].
    apply union_subseteq. split; [by apply subseteq_dom|by apply singleton_subseteq_l].
Qed.

Lemma copy_field_loop_refreshes (zero : R) into_ :
  copies into_ → refreshes (copy_field_loop zero into_).
Proof.
  intros Hc h [[l|]] bs Hd; [|injection Hd as <-; apply copied_nil_slice].
  apply denote_slice_Some in Hd as (s & Hf & Hbs). unfold copy_field_loop; cbn.
  apply run_bind, (run_load l s); [done|]. apply run_bind, run_alloc. intros n Hn. apply run_bind.
  eapply run_mono.
  - eapply (copy_elements_run into_ h l n s bs Hc Hn Hf Hbs (length s) 0); [done| | |apply fetch_insert| |].
    + by apply subseteq_insert.
    + set_solver.
    + apply length_replicate.
    + rewrite !take_0. constructor.
  - intros _ h' (Hs' & d & Hd & Ho). apply run_ret. split; [done|].
    apply (owns_slice _ _ _ d bs Hd Hn). eapply Forall2_impl; [done|].
    intros r b. apply owns_shrink. set_solver.
Qed.

(** Elements without references are copied as they are. *)
Class Flat : Prop := flat_locs (h : heap V) (r : R) : locs h r = ∅.

Lemma copy_field_refreshes `{!Flat} (zero : R) : refreshes (copy_field zero).
Proof.
  intros h [[l|]] bs Hd; [|injection Hd as <-; apply copied_nil_slice].
  apply denote_slice_Some in Hd as (s & Hf & Hbs). unfold copy_field, copy_slice; cbn.
  apply run_bind, (run_load l s); [done|]. apply run_bind, run_alloc. intros n Hn.
  set (h1 := <[n := into (replicate (length s) zero)]> h).
  assert (h ⊆ h1) by by apply subseteq_insert.
  apply run_bind, run_bind, (run_load l s); [by apply (fetch_mono h h1)|].
  apply run_bind, (run_load n (replicate (length s) zero)); [apply fetch_insert|].
  apply run_store, run_ret. rewrite length_replicate, take_ge, drop_replicate by lia.
  rewrite Nat.sub_diag, app_nil_r.
  assert (h ⊆ <[n := into s]> h1) as Hs by by apply subseteq_insert.
  split; [done|]. apply (owns_slice _ _ _ s bs (fetch_insert _ _ _) Hn).
  eapply Forall2_impl; [exact Hbs|]. cbn. intros r b Hr.
  destruct (denote_mono h _ r b Hs Hr) as [Hr' _]. split; [done|].
  rewrite flat_locs. apply disjoint_empty_l.
Qed.
End slices.
Arguments Flat : clear implicits.
Arguments Flat V R A {_}.

(** ** Structs *)
Section structs.
Context {V R A R' A' : Type} `{!Reads V R A, !Reads V R' A'}.
Implicit Types (h : heap V).

Lemma denote_struct_inv {S B} (fields : S → R) (build : A → B) h s b :
  denote (Reads := struct_reads fields build) h s = Some b →
  ∃ a, b = build a ∧ denote h (fields s) = Some a.
Proof. cbn. intros (a & -> & Ha)%fmap_Some. by exists a. Qed.

Lemma denote_pair_inv h (r : R) (r' : R') p :
  denote h (r, r') = Some p → ∃ a a', p = (a, a') ∧ denote h r = Some a ∧ denote h r' = Some a'.
Proof.
  cbn. destruct (denote h r) as [a|]; [|done]. destruct (denote h r') as [a'|]; [|done].
  intros [= <-]. by exists a, a'.
Qed.

Lemma owns_struct {S B} (fields : S → R) (build : A → B) old h s a b :
  owns old h (fields s) a → b = build a → @owns V S B (struct_reads fields build) old h s b.
Proof. intros [Hd Hl] ->. split; [|done]. cbn. by rewrite Hd. Qed.

Lemma owns_pair old h (r : R) (r' : R') a a' :
  owns old h r a → owns old h r' a' → owns old h (r, r') (a, a').
Proof.
  intros [Hd Hl] [Hd' Hl']. split; cbn; [by rewrite Hd, Hd'|]. by apply disjoint_union_l.
Qed.

(** A field that is copied with [*out = *in] needs to be flat. *)
Lemma owns_flat `{!Flat V R A, !ReadsLaws V R A} old h0 h (r : R) a :
  h0 ⊆ h → denote h0 r = Some a → owns old h r a.
Proof.
  intros Hs Hd. destruct (denote_mono h0 h r a Hs Hd) as [Hd' _]. split; [done|].
  rewrite flat_locs. apply disjoint_empty_l.
Qed.

Lemma assign_copies `{!Flat V R A} : copies (λ r _ : R, hret r).
Proof.
  intros h r o a Hd. split; [done|]. split; [done|]. rewrite flat_locs. apply disjoint_empty_l.
Qed.

(** The same for a struct whose fields are flat. *)
Lemma struct_flat `{!Flat V R A} {S B} (fields : S → R) (build : A → B) :
  @Flat V S B (struct_reads fields build).
Proof. intros h s. apply (flat_locs (R := R) (A := A)). Qed.
End structs.

(** What the parts of a struct stand for, when the struct stands for something. *)
Ltac open_fields :=
  repeat match goal with
  | Hd : denote _ (_, _) = Some _ |- _ => apply denote_pair_inv in Hd as (? & ? & -> & ? & ?)
  end.

(** The copy of one field, with the lemma that its piece of code copies. *)
Tactic Notation "copy_step" uconstr(L) :=
  eapply step_field; [refine L| |eassumption|]; [done|]; intros ? ? ? ? ?.

(** The struct made of the copied fields. *)
Ltac copy_done :=
  apply run_ret; split; [done|]; eapply owns_struct;
  [cbn beta iota; repeat eapply owns_pair;
   first [ by eapply owns_flat; [|eassumption]
         | eassumption
         | by eapply owns_mono; [|eassumption]
         | eapply owns_mono; [|eassumption]; etransitivity; eassumption ]
  |reflexivity].

(** ** Copies and later writes *)
Section writes.
Context {V R A : Type} `{!Reads V R A, !ReadsLaws V R A, !Storable V R}.
Implicit Types (h : heap V).

(** A sequence of assignments. *)
Definition writes (ws : list (loc * V)) h : heap V := foldl (λ h '(l, v), <[l := v]> h) h ws.

Lemma writes_lookup ws h l : Forall (λ w, w.1 ≠ l) ws → writes ws h !! l = h !! l.
Proof.
  revert h. induction ws as [|[l' v] ws IH]; intros h Hws; [done|].
  inversion Hws; subst. cbn. fold (writes ws (<[l' := v]> h)).
  rewrite IH by done. cbn in *. by apply lookup_insert_ne.
Qed.

(** [f] returns a deep copy: a pointer to the same value in new memory; the old memory
    is as it was. *)
Definition deep (f : ptr R → H V (ptr R)) : Prop :=
  ∀ h p v, denote h p = Some v →
    ∃ p' h', f p h = Done (p', h') ∧ denote h' p' = Some v ∧ h ⊆ h' ∧ locs h' p' ## dom h.

(** Neither of the two is changed by assignments through the other: writes to addresses
    that the copy's call found leave the copy, writes to all others the original. *)
Definition isolated (f : ptr R → H V (ptr R)) : Prop :=
  ∀ h p v p' h' ws, denote h p = Some v → f p h = Done (p', h') →
    (Forall (λ w, w.1 ∈ dom h) ws → denote (writes ws h') p' = Some v) ∧
    (Forall (λ w, w.1 ∉ dom h) ws → denote (writes ws h') p = Some v).

Lemma deep_isolated f : deep f → isolated f.
Proof.
  intros Hf h p v p' h' ws Hp Hc.
  destruct (Hf h p v Hp) as (p2 & h2 & Hc2 & Hd & Hs & Hl). rewrite Hc2 in Hc. injection Hc as -> ->.
  split; intros Hws.
  - apply (reads_agree h' (writes ws h') p' v Hd). intros l Hl'. apply writes_lookup.
    eapply Forall_impl; [exact Hws|]. intros [l2 w] Hin Heq; cbn in Hin, Heq; subst. set_solver.
  - destruct (denote_mono h h' p v Hs Hp) as [Hp' Hlp].
    apply (reads_agree h' (writes ws h') p v Hp'). intros l Hl'. apply writes_lookup.
    eapply Forall_impl; [exact Hws|]. intros [l2 w] Hin Heq; cbn in Hin, Heq; subst. apply Hin.
    rewrite Hlp in Hl'. by apply (reads_dom h p v Hp).
Qed.

Lemma deep_copy_deep (zero : R) into_ : copies into_ → deep (deep_copy zero into_).
Proof.
  intros Hc h p v Hp. pose proof (deep_copy_copies zero into_ Hc h p p v Hp) as Hrun.
  unfold run in Hrun. destruct (deep_copy zero into_ p h) as [[p' h']|]; [|done].
  destruct Hrun as [Hs [Hd Hl]]. by exists p', h'.
Qed.

(** [f] returns nil for nil alone, else an object that is not nil and a deep copy: never
    an interface that holds a nil pointer. *)
Definition deep_object (f : ptr R → H V (option (ptr R))) : Prop :=
  ∀ h p v, denote h p = Some v →
    match v with
    | None => f p h = Done (None, h)
    | Some _ => ∃ l h', f p h = Done (Some (Ptr (Some l)), h') ∧ denote h' (Ptr (T := R) (Some l)) = Some v ∧
                        h ⊆ h' ∧ locs h' (Ptr (T := R) (Some l)) ## dom h
    end.

Lemma deep_copy_object_deep (zero : R) into_ :
  copies into_ → deep_object (deep_copy_object (deep_copy zero into_)).
Proof.
  intros Hc h p v Hp. destruct (deep_copy_deep zero into_ Hc h p v Hp) as (p' & h' & Hf & Hd & Hs & Hl).
  unfold deep_copy_object, hbind. rewrite Hf. destruct v as [v|].
  - destruct p' as [[l|]]; [|done]. by exists l, h'.
  - destruct p as [[l|]]; [apply denote_ptr_Some in Hp as (? & ? & ? & _); done|].
    injection Hf as <- <-. done.
Qed.
End writes.
