(* ===== verification/DeepCopy.v ===== *)
(** * The generated deep copies

    [zz_generated.deepcopy.go] of the four API packages: [DeepCopyInto], [DeepCopy] and
    [DeepCopyObject] of every type, on the memory of [Heap].  A struct [T] in memory is
    the record [T_t]: nested structs in place, slices and pointers as references.

    The structs of other modules ([metav1.ObjectMeta], [metav1.ListMeta],
    [metav1.Condition], [tracker.Reference], [duckv1.Status]) have a representation of
    an arbitrary type and a [DeepCopyInto] of their own ([Foreign]), which is assumed to
    be a deep copy ([ForeignLaws]). *)
From S2P Require Import Prelude Api Conditions Projection Binding Provisioned Resolver.
From S2P Require Import Clients Heap.

Local Open Scope heap_scope.

(** ** Structs in memory *)

(** What a value of a foreign struct is in memory, and what else its code allocates. *)
Class Memory := {
  RObjectMeta : Type;
  RListMeta : Type;
  RReference : Type;
  RCondition : Type;
  RStatus : Type;
  ROther : Type;
}.

Record TypeMeta := mkTypeMeta { TypeMeta_Kind : string; TypeMeta_APIVersion : string }.
Definition zeroTypeMeta : TypeMeta := mkTypeMeta "" "".

Section structs.
Context `{Memory}.

Record WorkloadReference_t := mkWorkloadReference_t {
  wr_Reference : RReference;
  wr_Containers : slice string;
}.

Record ServiceBindingProjectionSpec_t := mkSBPSpec_t {
  sbps_Name : string;
  sbps_Type : string;
  sbps_Provider : string;
  sbps_Binding : LocalObjectReference;
  sbps_Workload : WorkloadReference_t;
  sbps_Env : slice EnvVar;
}.

Record ServiceBindingProjectionStatus_t := mkSBPStatus_t { sbpt_Status : RStatus }.

Record ServiceBindingProjection_t := mkSBP_t {
  sbp_TypeMeta : TypeMeta;
  sbp_ObjectMeta : RObjectMeta;
  sbp_Spec : ServiceBindingProjectionSpec_t;
  sbp_Status : ServiceBindingProjectionStatus_t;
}.

Record ServiceBindingSpec_t := mkSBSpec_t {
  sbs_Name : string;
  sbs_Type : string;
  sbs_Provider : string;
  sbs_Workload : ptr WorkloadReference_t;
  sbs_Service : ptr RReference;
  sbs_Env : slice EnvVar;
}.

Record ServiceBindingStatus_t := mkSBStatus_t {
  sbt_ObservedGeneration : Z;
  sbt_Conditions : slice RCondition;
  sbt_Binding : ptr LocalObjectReference;
}.

Record ServiceBinding_t := mkSB_t {
  sb_TypeMeta : TypeMeta;
  sb_ObjectMeta : RObjectMeta;
  sb_Spec : ServiceBindingSpec_t;
  sb_Status : ServiceBindingStatus_t;
}.

Record ProvisionedServiceSpec_t := mkPSSpec_t { pss_Binding : LocalObjectReference }.

Record ProvisionedServiceStatus_t := mkPSStatus_t {
  pst_Status : RStatus;
  pst_Binding : LocalObjectReference;
}.

Record ProvisionedService_t := mkPS_t {
  ps_TypeMeta : TypeMeta;
  ps_ObjectMeta : RObjectMeta;
  ps_Spec : ProvisionedServiceSpec_t;
  ps_Status : ProvisionedServiceStatus_t;
}.

Record Serviceable_t := mkServiceable_t { sv_Binding : LocalObjectReference }.

Record ServiceableType_t := mkServiceableType_t {
  svt_TypeMeta : TypeMeta;
  svt_ObjectMeta : RObjectMeta;
  svt_Status : Serviceable_t;
}.

(** The four list types: [TypeMeta], [ListMeta], [Items]. *)
Record List_t (T : Type) := mkList_t {
  list_TypeMeta : TypeMeta;
  list_ListMeta : RListMeta;
  list_Items : slice T;
}.

(** What an address can hold. *)
Inductive Cell :=
| CStrings (s : list string)
| CEnvVars (s : list EnvVar)
| CConditions (s : list RCondition)
| CSBPs (s : list ServiceBindingProjection_t)
| CSBs (s : list ServiceBinding_t)
| CPSs (s : list ProvisionedService_t)
| CServiceableTypes (s : list ServiceableType_t)
| CEnvVar (t : EnvVar)
| CReference (t : RReference)
| CLocalObjectReference (t : LocalObjectReference)
| CWorkloadReference (t : WorkloadReference_t)
| CSBPSpec (t : ServiceBindingProjectionSpec_t)
| CSBPStatus (t : ServiceBindingProjectionStatus_t)
| CSBP (t : ServiceBindingProjection_t)
| CSBPList (t : List_t ServiceBindingProjection_t)
| CSBSpec (t : ServiceBindingSpec_t)
| CSBStatus (t : ServiceBindingStatus_t)
| CSB (t : ServiceBinding_t)
| CSBList (t : List_t ServiceBinding_t)
| CPSSpec (t : ProvisionedServiceSpec_t)
| CPSStatus (t : ProvisionedServiceStatus_t)
| CPS (t : ProvisionedService_t)
| CPSList (t : List_t ProvisionedService_t)
| CServiceable (t : Serviceable_t)
| CServiceableType (t : ServiceableType_t)
| CServiceableTypeList (t : List_t ServiceableType_t)
| COther (t : ROther).
End structs.
Arguments mkList_t {_ _} _ _ _.
Arguments list_TypeMeta {_ _} _.
Arguments list_ListMeta {_ _} _.
Arguments list_Items {_ _} _.

(** One type of contents for each type that is allocated. *)
Section storable.
Context `{Memory}.

#[export] Instance CStrings_storable : Storable Cell (list string) :=
  {| into := CStrings; out_of v := match v with CStrings t => Some t | _ => None end; out_of_into _ := eq_refl |}.
#[export] Instance CEnvVars_storable : Storable Cell (list EnvVar) :=
  {| into := CEnvVars; out_of v := match v with CEnvVars t => Some t | _ => None end; out_of_into _ := eq_refl |}.
#[export] Instance CConditions_storable : Storable Cell (list RCondition) :=
  {| into := CConditions; out_of v := match v with CConditions t => Some t | _ => None end; out_of_into _ := eq_refl |}.
#[export] Instance CSBPs_storable : Storable Cell (list ServiceBindingProjection_t) :=
  {| into := CSBPs; out_of v := match v with CSBPs t => Some t | _ => None end; out_of_into _ := eq_refl |}.
#[export] Instance CSBs_storable : Storable Cell (list ServiceBinding_t) :=
  {| into := CSBs; out_of v := match v with CSBs t => Some t | _ => None end; out_of_into _ := eq_refl |}.
#[export] Instance CPSs_storable : Storable Cell (list ProvisionedService_t) :=
  {| into := CPSs; out_of v := match v with CPSs t => Some t | _ => None end; out_of_into _ := eq_refl |}.
#[export] Instance CServiceableTypes_storable : Storable Cell (list ServiceableType_t) :=
  {| into := CServiceableTypes; out_of v := match v with CServiceableTypes t => Some t | _ => None end; out_of_into _ := eq_refl |}.
#[export] Instance CEnvVar_storable : Storable Cell EnvVar :=
  {| into := CEnvVar; out_of v := match v with CEnvVar t => Some t | _ => None end; out_of_into _ := eq_refl |}.
#[export] Instance CReference_storable : Storable Cell RReference :=
  {| into := CReference; out_of v := match v with CReference t => Some t | _ => None end; out_of_into _ := eq_refl |}.
#[export] Instance CLocalObjectReference_storable : Storable Cell LocalObjectReference :=
  {| into := CLocalObjectReference; out_of v := match v with CLocalObjectReference t => Some t | _ => None end; out_of_into _ := eq_refl |}.
#[export] Instance CWorkloadReference_storable : Storable Cell WorkloadReference_t :=
  {| into := CWorkloadReference; out_of v := match v with CWorkloadReference t => Some t | _ => None end; out_of_into _ := eq_refl |}.
#[export] Instance CSBPSpec_storable : Storable Cell ServiceBindingProjectionSpec_t :=
  {| into := CSBPSpec; out_of v := match v with CSBPSpec t => Some t | _ => None end; out_of_into _ := eq_refl |}.
#[export] Instance CSBPStatus_storable : Storable Cell ServiceBindingProjectionStatus_t :=
  {| into := CSBPStatus; out_of v := match v with CSBPStatus t => Some t | _ => None end; out_of_into _ := eq_refl |}.
#[export] Instance CSBP_storable : Storable Cell ServiceBindingProjection_t :=
  {| into := CSBP; out_of v := match v with CSBP t => Some t | _ => None end; out_of_into _ := eq_refl |}.
#[export] Instance CSBPList_storable : Storable Cell (List_t ServiceBindingProjection_t) :=
  {| into := CSBPList; out_of v := match v with CSBPList t => Some t | _ => None end; out_of_into _ := eq_refl |}.
#[export] Instance CSBSpec_storable : Storable Cell ServiceBindingSpec_t :=
  {| into := CSBSpec; out_of v := match v with CSBSpec t => Some t | _ => None end; out_of_into _ := eq_refl |}.
#[export] Instance CSBStatus_storable : Storable Cell ServiceBindingStatus_t :=
  {| into := CSBStatus; out_of v := match v with CSBStatus t => Some t | _ => None end; out_of_into _ := eq_refl |}.
#[export] Instance CSB_storable : Storable Cell ServiceBinding_t :=
  {| into := CSB; out_of v := match v with CSB t => Some t | _ => None end; out_of_into _ := eq_refl |}.
#[export] Instance CSBList_storable : Storable Cell (List_t ServiceBinding_t) :=
  {| into := CSBList; out_of v := match v with CSBList t => Some t | _ => None end; out_of_into _ := eq_refl |}.
#[export] Instance CPSSpec_storable : Storable Cell ProvisionedServiceSpec_t :=
  {| into := CPSSpec; out_of v := match v with CPSSpec t => Some t | _ => None end; out_of_into _ := eq_refl |}.
#[export] Instance CPSStatus_storable : Storable Cell ProvisionedServiceStatus_t :=
  {| into := CPSStatus; out_of v := match v with CPSStatus t => Some t | _ => None end; out_of_into _ := eq_refl |}.
#[export] Instance CPS_storable : Storable Cell ProvisionedService_t :=
  {| into := CPS; out_of v := match v with CPS t => Some t | _ => None end; out_of_into _ := eq_refl |}.
#[export] Instance CPSList_storable : Storable Cell (List_t ProvisionedService_t) :=
  {| into := CPSList; out_of v := match v with CPSList t => Some t | _ => None end; out_of_into _ := eq_refl |}.
#[export] Instance CServiceable_storable : Storable Cell Serviceable_t :=
  {| into := CServiceable; out_of v := match v with CServiceable t => Some t | _ => None end; out_of_into _ := eq_refl |}.
#[export] Instance CServiceableType_storable : Storable Cell ServiceableType_t :=
  {| into := CServiceableType; out_of v := match v with CServiceableType t => Some t | _ => None end; out_of_into _ := eq_refl |}.
#[export] Instance CServiceableTypeList_storable : Storable Cell (List_t ServiceableType_t) :=
  {| into := CServiceableTypeList; out_of v := match v with CServiceableTypeList t => Some t | _ => None end; out_of_into _ := eq_refl |}.
#[export] Instance COther_storable : Storable Cell ROther :=
  {| into := COther; out_of v := match v with COther t => Some t | _ => None end; out_of_into _ := eq_refl |}.
End storable.


(** ** Foreign structs *)
Class Foreign `{Memory} (R A : Type) := {
  foreign_reads :: Reads Cell R A;
  foreign_zero : R;
  foreign_DeepCopyInto : R → R → H Cell R;
}.

Class ForeignLaws `{Memory} (R A : Type) `{!Foreign R A} := {
  foreign_reads_laws :: ReadsLaws Cell R A;
  foreign_copies : copies foreign_DeepCopyInto;
}.
Arguments foreign_zero {_ R A _}.
Arguments foreign_DeepCopyInto {_ R A _} _ _ _.

(** [*out = *in] *)
Definition assign {V T} (in_ _ : T) : H V T := hret in_.

(** ** pkg/apis/labsinternal/v1alpha1 *)
Module labsinternal.
Section copies.
Context `{Opaque, Memory, FM : !Foreign RObjectMeta ObjectMeta, FL : !Foreign RListMeta opaque,
  FR : !Foreign RReference Reference, FC : !Foreign RCondition MetaCondition,
  FS : !Foreign RStatus duckStatus}.

Definition EnvVar_zero : EnvVar := mkEnvVar "" "".

Definition EnvVar_DeepCopyInto (in_ out : EnvVar) : H Cell EnvVar :=
  assign in_ out.

Definition EnvVar_DeepCopy (in_ : ptr EnvVar) : H Cell (ptr EnvVar) :=
  deep_copy EnvVar_zero EnvVar_DeepCopyInto in_.

Definition WorkloadReference_zero : WorkloadReference_t := mkWorkloadReference_t foreign_zero nil_slice.

Definition WorkloadReference_DeepCopyInto (in_ out : WorkloadReference_t) : H Cell WorkloadReference_t :=
  let out := in_ in
  let* reference := foreign_DeepCopyInto (wr_Reference in_) (wr_Reference out) in
  let* containers := copy_field "" (wr_Containers in_) (wr_Containers out) in
  hret {| wr_Reference := reference; wr_Containers := containers |}.

Definition WorkloadReference_DeepCopy (in_ : ptr WorkloadReference_t) : H Cell (ptr WorkloadReference_t) :=
  deep_copy WorkloadReference_zero WorkloadReference_DeepCopyInto in_.

Definition ServiceBindingProjectionSpec_zero : ServiceBindingProjectionSpec_t := mkSBPSpec_t "" "" "" (mkLocalObjectReference "") WorkloadReference_zero nil_slice.

Definition ServiceBindingProjectionSpec_DeepCopyInto (in_ out : ServiceBindingProjectionSpec_t) : H Cell ServiceBindingProjectionSpec_t :=
  let out := in_ in
  let* workload := WorkloadReference_DeepCopyInto (sbps_Workload in_) (sbps_Workload out) in
  let* env := copy_field EnvVar_zero (sbps_Env in_) (sbps_Env out) in
  hret {| sbps_Name := sbps_Name out; sbps_Type := sbps_Type out; sbps_Provider := sbps_Provider out;
          sbps_Binding := sbps_Binding in_; sbps_Workload := workload; sbps_Env := env |}.

Definition ServiceBindingProjectionSpec_DeepCopy (in_ : ptr ServiceBindingProjectionSpec_t) : H Cell (ptr ServiceBindingProjectionSpec_t) :=
  deep_copy ServiceBindingProjectionSpec_zero ServiceBindingProjectionSpec_DeepCopyInto in_.

Definition ServiceBindingProjectionStatus_zero : ServiceBindingProjectionStatus_t := mkSBPStatus_t foreign_zero.

Definition ServiceBindingProjectionStatus_DeepCopyInto (in_ out : ServiceBindingProjectionStatus_t) : H Cell ServiceBindingProjectionStatus_t :=
  let out := in_ in
  let* status := foreign_DeepCopyInto (sbpt_Status in_) (sbpt_Status out) in
  hret {| sbpt_Status := status |}.

Definition ServiceBindingProjectionStatus_DeepCopy (in_ : ptr ServiceBindingProjectionStatus_t) : H Cell (ptr ServiceBindingProjectionStatus_t) :=
  deep_copy ServiceBindingProjectionStatus_zero ServiceBindingProjectionStatus_DeepCopyInto in_.

Definition ServiceBindingProjection_zero : ServiceBindingProjection_t := mkSBP_t zeroTypeMeta foreign_zero ServiceBindingProjectionSpec_zero ServiceBindingProjectionStatus_zero.

Definition ServiceBindingProjection_DeepCopyInto (in_ out : ServiceBindingProjection_t) : H Cell ServiceBindingProjection_t :=
  let out := in_ in
  let* meta := foreign_DeepCopyInto (sbp_ObjectMeta in_) (sbp_ObjectMeta out) in
  let* spec := ServiceBindingProjectionSpec_DeepCopyInto (sbp_Spec in_) (sbp_Spec out) in
  let* status := ServiceBindingProjectionStatus_DeepCopyInto (sbp_Status in_) (sbp_Status out) in
  hret {| sbp_TypeMeta := sbp_TypeMeta in_; sbp_ObjectMeta := meta; sbp_Spec := spec; sbp_Status := status |}.

Definition ServiceBindingProjection_DeepCopy (in_ : ptr ServiceBindingProjection_t) : H Cell (ptr ServiceBindingProjection_t) :=
  deep_copy ServiceBindingProjection_zero ServiceBindingProjection_DeepCopyInto in_.

Definition ServiceBindingProjection_DeepCopyObject (in_ : ptr ServiceBindingProjection_t) : H Cell (option (ptr ServiceBindingProjection_t)) :=
  deep_copy_object ServiceBindingProjection_DeepCopy in_.

Definition ServiceBindingProjectionList_zero : (List_t ServiceBindingProjection_t) := mkList_t zeroTypeMeta foreign_zero nil_slice.

Definition ServiceBindingProjectionList_DeepCopyInto (in_ out : (List_t ServiceBindingProjection_t)) : H Cell (List_t ServiceBindingProjection_t) :=
  let out := in_ in
  let* meta := foreign_DeepCopyInto (list_ListMeta in_) (list_ListMeta out) in
  let* items := copy_field_loop ServiceBindingProjection_zero ServiceBindingProjection_DeepCopyInto (list_Items in_) (list_Items out) in
  hret {| list_TypeMeta := list_TypeMeta in_; list_ListMeta := meta; list_Items := items |}.

Definition ServiceBindingProjectionList_DeepCopy (in_ : ptr (List_t ServiceBindingProjection_t)) : H Cell (ptr (List_t ServiceBindingProjection_t)) :=
  deep_copy ServiceBindingProjectionList_zero ServiceBindingProjectionList_DeepCopyInto in_.

Definition ServiceBindingProjectionList_DeepCopyObject (in_ : ptr (List_t ServiceBindingProjection_t)) : H Cell (option (ptr (List_t ServiceBindingProjection_t))) :=
  deep_copy_object ServiceBindingProjectionList_DeepCopy in_.

End copies.
End labsinternal.

(** ** pkg/apis/servicebinding/v1alpha3 *)
Module servicebinding.
Section copies.
Context `{Opaque, Memory, FM : !Foreign RObjectMeta ObjectMeta, FL : !Foreign RListMeta opaque,
  FR : !Foreign RReference Reference, FC : !Foreign RCondition MetaCondition,
  FS : !Foreign RStatus duckStatus}.

Definition ServiceBindingSpec_zero : ServiceBindingSpec_t := mkSBSpec_t "" "" "" nil_ptr nil_ptr nil_slice.

Definition ServiceBindingSpec_DeepCopyInto (in_ out : ServiceBindingSpec_t) : H Cell ServiceBindingSpec_t :=
  let out := in_ in
  let* workload := copy_pointer labsinternal.WorkloadReference_zero
    labsinternal.WorkloadReference_DeepCopyInto (sbs_Workload in_) (sbs_Workload out) in
  let* service := copy_pointer foreign_zero foreign_DeepCopyInto (sbs_Service in_) (sbs_Service out) in
  let* env := copy_field labsinternal.EnvVar_zero (sbs_Env in_) (sbs_Env out) in
  hret {| sbs_Name := sbs_Name out; sbs_Type := sbs_Type out; sbs_Provider := sbs_Provider out;
          sbs_Workload := workload; sbs_Service := service; sbs_Env := env |}.

Definition ServiceBindingSpec_DeepCopy (in_ : ptr ServiceBindingSpec_t) : H Cell (ptr ServiceBindingSpec_t) :=
  deep_copy ServiceBindingSpec_zero ServiceBindingSpec_DeepCopyInto in_.

Definition ServiceBindingStatus_zero : ServiceBindingStatus_t := mkSBStatus_t 0 nil_slice nil_ptr.

Definition ServiceBindingStatus_DeepCopyInto (in_ out : ServiceBindingStatus_t) : H Cell ServiceBindingStatus_t :=
  let out := in_ in
  let* conditions := copy_field_loop foreign_zero foreign_DeepCopyInto
    (sbt_Conditions in_) (sbt_Conditions out) in
  let* binding := copy_pointer (mkLocalObjectReference "") assign (sbt_Binding in_) (sbt_Binding out) in
  hret {| sbt_ObservedGeneration := sbt_ObservedGeneration out; sbt_Conditions := conditions;
          sbt_Binding := binding |}.

Definition ServiceBindingStatus_DeepCopy (in_ : ptr ServiceBindingStatus_t) : H Cell (ptr ServiceBindingStatus_t) :=
  deep_copy ServiceBindingStatus_zero ServiceBindingStatus_DeepCopyInto in_.

Definition ServiceBinding_zero : ServiceBinding_t := mkSB_t zeroTypeMeta foreign_zero ServiceBindingSpec_zero ServiceBindingStatus_zero.

Definition ServiceBinding_DeepCopyInto (in_ out : ServiceBinding_t) : H Cell ServiceBinding_t :=
  let out := in_ in
  let* meta := foreign_DeepCopyInto (sb_ObjectMeta in_) (sb_ObjectMeta out) in
  let* spec := ServiceBindingSpec_DeepCopyInto (sb_Spec in_) (sb_Spec out) in
  let* status := ServiceBindingStatus_DeepCopyInto (sb_Status in_) (sb_Status out) in
  hret {| sb_TypeMeta := sb_TypeMeta in_; sb_ObjectMeta := meta; sb_Spec := spec; sb_Status := status |}.

Definition ServiceBinding_DeepCopy (in_ : ptr ServiceBinding_t) : H Cell (ptr ServiceBinding_t) :=
  deep_copy ServiceBinding_zero ServiceBinding_DeepCopyInto in_.

Definition ServiceBinding_DeepCopyObject (in_ : ptr ServiceBinding_t) : H Cell (option (ptr ServiceBinding_t)) :=
  deep_copy_object ServiceBinding_DeepCopy in_.

Definition ServiceBindingList_zero : (List_t ServiceBinding_t) := mkList_t zeroTypeMeta foreign_zero nil_slice.

Definition ServiceBindingList_DeepCopyInto (in_ out : (List_t ServiceBinding_t)) : H Cell (List_t ServiceBinding_t) :=
  let out := in_ in
  let* meta := foreign_DeepCopyInto (list_ListMeta in_) (list_ListMeta out) in
  let* items := copy_field_loop ServiceBinding_zero ServiceBinding_DeepCopyInto (list_Items in_) (list_Items out) in
  hret {| list_TypeMeta := list_TypeMeta in_; list_ListMeta := meta; list_Items := items |}.

Definition ServiceBindingList_DeepCopy (in_ : ptr (List_t ServiceBinding_t)) : H Cell (ptr (List_t ServiceBinding_t)) :=
  deep_copy ServiceBindingList_zero ServiceBindingList_DeepCopyInto in_.

Definition ServiceBindingList_DeepCopyObject (in_ : ptr (List_t ServiceBinding_t)) : H Cell (option (ptr (List_t ServiceBinding_t))) :=
  deep_copy_object ServiceBindingList_DeepCopy in_.

End copies.
End servicebinding.

(** ** pkg/apis/labs/v1alpha1 *)
Module labs.
Section copies.
Context `{Opaque, Memory, FM : !Foreign RObjectMeta ObjectMeta, FL : !Foreign RListMeta opaque,
  FR : !Foreign RReference Reference, FC : !Foreign RCondition MetaCondition,
  FS : !Foreign RStatus duckStatus}.

Definition ProvisionedServiceSpec_zero : ProvisionedServiceSpec_t := mkPSSpec_t (mkLocalObjectReference "").

Definition ProvisionedServiceSpec_DeepCopyInto (in_ out : ProvisionedServiceSpec_t) : H Cell ProvisionedServiceSpec_t :=
  hret {| pss_Binding := pss_Binding in_ |}.

Definition ProvisionedServiceSpec_DeepCopy (in_ : ptr ProvisionedServiceSpec_t) : H Cell (ptr ProvisionedServiceSpec_t) :=
  deep_copy ProvisionedServiceSpec_zero ProvisionedServiceSpec_DeepCopyInto in_.

Definition ProvisionedServiceStatus_zero : ProvisionedServiceStatus_t := mkPSStatus_t foreign_zero (mkLocalObjectReference "").

Definition ProvisionedServiceStatus_DeepCopyInto (in_ out : ProvisionedServiceStatus_t) : H Cell ProvisionedServiceStatus_t :=
  let out := in_ in
  let* status := foreign_DeepCopyInto (pst_Status in_) (pst_Status out) in
  hret {| pst_Status := status; pst_Binding := pst_Binding in_ |}.

Definition ProvisionedServiceStatus_DeepCopy (in_ : ptr ProvisionedServiceStatus_t) : H Cell (ptr ProvisionedServiceStatus_t) :=
  deep_copy ProvisionedServiceStatus_zero ProvisionedServiceStatus_DeepCopyInto in_.

Definition ProvisionedService_zero : ProvisionedService_t := mkPS_t zeroTypeMeta foreign_zero ProvisionedServiceSpec_zero ProvisionedServiceStatus_zero.

Definition ProvisionedService_DeepCopyInto (in_ out : ProvisionedService_t) : H Cell ProvisionedService_t :=
  let out := in_ in
  let* meta := foreign_DeepCopyInto (ps_ObjectMeta in_) (ps_ObjectMeta out) in
  let spec := ps_Spec in_ in
  let* status := ProvisionedServiceStatus_DeepCopyInto (ps_Status in_) (ps_Status out) in
  hret {| ps_TypeMeta := ps_TypeMeta in_; ps_ObjectMeta := meta; ps_Spec := spec; ps_Status := status |}.

Definition ProvisionedService_DeepCopy (in_ : ptr ProvisionedService_t) : H Cell (ptr ProvisionedService_t) :=
  deep_copy ProvisionedService_zero ProvisionedService_DeepCopyInto in_.

Definition ProvisionedService_DeepCopyObject (in_ : ptr ProvisionedService_t) : H Cell (option (ptr ProvisionedService_t)) :=
  deep_copy_object ProvisionedService_DeepCopy in_.

Definition ProvisionedServiceList_zero : (List_t ProvisionedService_t) := mkList_t zeroTypeMeta foreign_zero nil_slice.

Definition ProvisionedServiceList_DeepCopyInto (in_ out : (List_t ProvisionedService_t)) : H Cell (List_t ProvisionedService_t) :=
  let out := in_ in
  let* meta := foreign_DeepCopyInto (list_ListMeta in_) (list_ListMeta out) in
  let* items := copy_field_loop ProvisionedService_zero ProvisionedService_DeepCopyInto (list_Items in_) (list_Items out) in
  hret {| list_TypeMeta := list_TypeMeta in_; list_ListMeta := meta; list_Items := items |}.

Definition ProvisionedServiceList_DeepCopy (in_ : ptr (List_t ProvisionedService_t)) : H Cell (ptr (List_t ProvisionedService_t)) :=
  deep_copy ProvisionedServiceList_zero ProvisionedServiceList_DeepCopyInto in_.

Definition ProvisionedServiceList_DeepCopyObject (in_ : ptr (List_t ProvisionedService_t)) : H Cell (option (ptr (List_t ProvisionedService_t))) :=
  deep_copy_object ProvisionedServiceList_DeepCopy in_.

End copies.
End labs.

(** ** pkg/apis/duck/v1alpha3 *)
Module duck.
Section copies.
Context `{Opaque, Memory, FM : !Foreign RObjectMeta ObjectMeta, FL : !Foreign RListMeta opaque,
  FR : !Foreign RReference Reference, FC : !Foreign RCondition MetaCondition,
  FS : !Foreign RStatus duckStatus}.

Definition Serviceable_zero : Serviceable_t := mkServiceable_t (mkLocalObjectReference "").

Definition Serviceable_DeepCopyInto (in_ out : Serviceable_t) : H Cell Serviceable_t :=
  hret {| sv_Binding := sv_Binding in_ |}.

Definition Serviceable_DeepCopy (in_ : ptr Serviceable_t) : H Cell (ptr Serviceable_t) :=
  deep_copy Serviceable_zero Serviceable_DeepCopyInto in_.

Definition ServiceableType_zero : ServiceableType_t := mkServiceableType_t zeroTypeMeta foreign_zero Serviceable_zero.

Definition ServiceableType_DeepCopyInto (in_ out : ServiceableType_t) : H Cell ServiceableType_t :=
  let out := in_ in
  let* meta := foreign_DeepCopyInto (svt_ObjectMeta in_) (svt_ObjectMeta out) in
  hret {| svt_TypeMeta := svt_TypeMeta in_; svt_ObjectMeta := meta; svt_Status := svt_Status in_ |}.

Definition ServiceableType_DeepCopy (in_ : ptr ServiceableType_t) : H Cell (ptr ServiceableType_t) :=
  deep_copy ServiceableType_zero ServiceableType_DeepCopyInto in_.

Definition ServiceableType_DeepCopyObject (in_ : ptr ServiceableType_t) : H Cell (option (ptr ServiceableType_t)) :=
  deep_copy_object ServiceableType_DeepCopy in_.

Definition ServiceableTypeList_zero : (List_t ServiceableType_t) := mkList_t zeroTypeMeta foreign_zero nil_slice.

Definition ServiceableTypeList_DeepCopyInto (in_ out : (List_t ServiceableType_t)) : H Cell (List_t ServiceableType_t) :=
  let out := in_ in
  let* meta := foreign_DeepCopyInto (list_ListMeta in_) (list_ListMeta out) in
  let* items := copy_field_loop ServiceableType_zero ServiceableType_DeepCopyInto (list_Items in_) (list_Items out) in
  hret {| list_TypeMeta := list_TypeMeta in_; list_ListMeta := meta; list_Items := items |}.

Definition ServiceableTypeList_DeepCopy (in_ : ptr (List_t ServiceableType_t)) : H Cell (ptr (List_t ServiceableType_t)) :=
  deep_copy ServiceableTypeList_zero ServiceableTypeList_DeepCopyInto in_.

Definition ServiceableTypeList_DeepCopyObject (in_ : ptr (List_t ServiceableType_t)) : H Cell (option (ptr (List_t ServiceableType_t))) :=
  deep_copy_object ServiceableTypeList_DeepCopy in_.

End copies.
End duck.
