(* ===== verification/DeepCopyFacts.v ===== *)
(** * The generated deep copies copy

    What each struct in memory stands for: a value of the type the rest of the
    development has for it, next to its [TypeMeta] where it is an object.  Then every
    [DeepCopyInto], [DeepCopy] and [DeepCopyObject] is a deep copy in the sense of
    [Heap], and two objects of which one is a copy of the other do not share memory. *)
From S2P Require Import Prelude Api Conditions Projection Binding Provisioned Resolver.
From S2P Require Import Clients Heap DeepCopy.

(** ** What structs stand for *)
Section flat.
Context {V : Type}.

#[export] Instance string_reads : Reads V string string := plain_reads.
#[export] Instance Z_reads : Reads V Z Z := plain_reads.
#[export] Instance EnvVar_reads : Reads V EnvVar EnvVar := plain_reads.
#[export] Instance LocalObjectReference_reads : Reads V LocalObjectReference LocalObjectReference :=
  plain_reads.
#[export] Instance TypeMeta_reads : Reads V TypeMeta TypeMeta := plain_reads.

#[export] Instance string_laws : ReadsLaws V string string := plain_reads_laws.
#[export] Instance Z_laws : ReadsLaws V Z Z := plain_reads_laws.
#[export] Instance EnvVar_laws : ReadsLaws V EnvVar EnvVar := plain_reads_laws.
#[export] Instance LocalObjectReference_laws :
  ReadsLaws V LocalObjectReference LocalObjectReference := plain_reads_laws.
#[export] Instance TypeMeta_laws : ReadsLaws V TypeMeta TypeMeta := plain_reads_laws.

#[export] Instance string_flat : Flat V string string := λ _ _, eq_refl.
#[export] Instance EnvVar_flat : Flat V EnvVar EnvVar := λ _ _, eq_refl.
#[export] Instance Z_flat : Flat V Z Z := λ _ _, eq_refl.
#[export] Instance TypeMeta_flat : Flat V TypeMeta TypeMeta := λ _ _, eq_refl.
#[export] Instance LocalObjectReference_flat :
  Flat V LocalObjectReference LocalObjectReference := λ _ _, eq_refl.
End flat.

Section denotations.
Context `{Opaque, Memory, FM : !Foreign RObjectMeta ObjectMeta, FL : !Foreign RListMeta opaque,
  FR : !Foreign RReference Reference, FC : !Foreign RCondition MetaCondition,
  FS : !Foreign RStatus duckStatus}.

#[export] Instance WorkloadReference_reads : Reads Cell WorkloadReference_t WorkloadReference :=
  struct_reads (λ r, (wr_Reference r, wr_Containers r)) (λ '(r, cs), mkWorkloadReference r cs).

#[export] Instance SBPSpec_reads : Reads Cell ServiceBindingProjectionSpec_t ServiceBindingProjectionSpec :=
  struct_reads
    (λ r, (sbps_Name r, (sbps_Type r, (sbps_Provider r, (sbps_Binding r, (sbps_Workload r, sbps_Env r))))))
    (λ '(n, (t, (p, (b, (w, e))))), mkSBPSpec n t p b w e).

#[export] Instance SBPStatus_reads : Reads Cell ServiceBindingProjectionStatus_t ServiceBindingProjectionStatus :=
  struct_reads sbpt_Status mkSBPStatus.

#[export] Instance SBP_reads : Reads Cell ServiceBindingProjection_t (TypeMeta * ServiceBindingProjection) :=
  struct_reads (λ r, (sbp_TypeMeta r, (sbp_ObjectMeta r, (sbp_Spec r, sbp_Status r))))
    (λ '(t, (m, (s, st))), (t, mkSBP m s st)).

#[export] Instance SBSpec_reads : Reads Cell ServiceBindingSpec_t ServiceBindingSpec :=
  struct_reads
    (λ r, (sbs_Name r, (sbs_Type r, (sbs_Provider r, (sbs_Workload r, (sbs_Service r, sbs_Env r))))))
    (λ '(n, (t, (p, (w, (s, e))))), mkSBSpec n t p w s e).

#[export] Instance SBStatus_reads : Reads Cell ServiceBindingStatus_t ServiceBindingStatus :=
  struct_reads (λ r, (sbt_ObservedGeneration r, (sbt_Conditions r, sbt_Binding r)))
    (λ '(g, (cs, b)), mkSBStatus g cs b).

#[export] Instance SB_reads : Reads Cell ServiceBinding_t (TypeMeta * ServiceBinding) :=
  struct_reads (λ r, (sb_TypeMeta r, (sb_ObjectMeta r, (sb_Spec r, sb_Status r))))
    (λ '(t, (m, (s, st))), (t, mkSB m s st)).

#[export] Instance PSSpec_reads : Reads Cell ProvisionedServiceSpec_t ProvisionedServiceSpec :=
  struct_reads pss_Binding mkPSSpec.

#[export] Instance PSStatus_reads : Reads Cell ProvisionedServiceStatus_t ProvisionedServiceStatus :=
  struct_reads (λ r, (pst_Status r, pst_Binding r)) (λ '(s, b), mkPSStatus s b).

#[export] Instance PS_reads : Reads Cell ProvisionedService_t (TypeMeta * ProvisionedService) :=
  struct_reads (λ r, (ps_TypeMeta r, (ps_ObjectMeta r, (ps_Spec r, ps_Status r))))
    (λ '(t, (m, (s, st))), (t, mkPS m s st)).

#[export] Instance Serviceable_reads : Reads Cell Serviceable_t Serviceable :=
  struct_reads sv_Binding mkServiceable.

#[export] Instance ServiceableType_reads : Reads Cell ServiceableType_t (TypeMeta * ServiceableType) :=
  struct_reads (λ r, (svt_TypeMeta r, (svt_ObjectMeta r, svt_Status r)))
    (λ '(t, (m, s)), (t, mkServiceableType m s)).

#[export] Instance List_reads {T K} `{!Reads Cell T K, !Storable Cell (list T)} :
    Reads Cell (List_t T) (TypeMeta * KindList K) :=
  struct_reads (λ r, (list_TypeMeta r, (list_ListMeta r, list_Items r)))
    (λ '(t, (m, ks)), (t, mkKindList m ks)).

#[export] Instance PSSpec_flat : Flat Cell ProvisionedServiceSpec_t ProvisionedServiceSpec :=
  λ _ _, eq_refl.
#[export] Instance Serviceable_flat : Flat Cell Serviceable_t Serviceable := λ _ _, eq_refl.
End denotations.

Section laws.
Context `{Opaque, Memory, FM : !Foreign RObjectMeta ObjectMeta, FL : !Foreign RListMeta opaque,
  FR : !Foreign RReference Reference, FC : !Foreign RCondition MetaCondition,
  FS : !Foreign RStatus duckStatus}.
Context {LM : ForeignLaws RObjectMeta ObjectMeta} {LL : ForeignLaws RListMeta opaque}
  {LR : ForeignLaws RReference Reference} {LC : ForeignLaws RCondition MetaCondition}
  {LS : ForeignLaws RStatus duckStatus}.

#[export] Instance WorkloadReference_laws : ReadsLaws Cell WorkloadReference_t WorkloadReference.
Proof. apply struct_reads_laws. Qed.
#[export] Instance SBPSpec_laws : ReadsLaws Cell ServiceBindingProjectionSpec_t ServiceBindingProjectionSpec.
Proof. apply struct_reads_laws. Qed.
#[export] Instance SBPStatus_laws : ReadsLaws Cell ServiceBindingProjectionStatus_t ServiceBindingProjectionStatus.
Proof. apply (struct_reads_laws sbpt_Status mkSBPStatus). Qed.
#[export] Instance SBP_laws : ReadsLaws Cell ServiceBindingProjection_t (TypeMeta * ServiceBindingProjection).
Proof. apply struct_reads_laws. Qed.
#[export] Instance SBSpec_laws : ReadsLaws Cell ServiceBindingSpec_t ServiceBindingSpec.
Proof. apply struct_reads_laws. Qed.
#[export] Instance SBStatus_laws : ReadsLaws Cell ServiceBindingStatus_t ServiceBindingStatus.
Proof. apply struct_reads_laws. Qed.
#[export] Instance SB_laws : ReadsLaws Cell ServiceBinding_t (TypeMeta * ServiceBinding).
Proof. apply struct_reads_laws. Qed.
#[export] Instance PSSpec_laws : ReadsLaws Cell ProvisionedServiceSpec_t ProvisionedServiceSpec.
Proof. apply (struct_reads_laws pss_Binding mkPSSpec). Qed.
#[export] Instance PSStatus_laws : ReadsLaws Cell ProvisionedServiceStatus_t ProvisionedServiceStatus.
Proof. apply struct_reads_laws. Qed.
#[export] Instance PS_laws : ReadsLaws Cell ProvisionedService_t (TypeMeta * ProvisionedService).
Proof. apply struct_reads_laws. Qed.
#[export] Instance Serviceable_laws : ReadsLaws Cell Serviceable_t Serviceable.
Proof. apply (struct_reads_laws sv_Binding mkServiceable). Qed.
#[export] Instance ServiceableType_laws : ReadsLaws Cell ServiceableType_t (TypeMeta * ServiceableType).
Proof. apply struct_reads_laws. Qed.
#[export] Instance List_laws {T K} `{!Reads Cell T K, !ReadsLaws Cell T K, !Storable Cell (list T)} :
  ReadsLaws Cell (List_t T) (TypeMeta * KindList K).
Proof. apply struct_reads_laws. Qed.
End laws.

(** ** The copies *)

(** From a struct that stands for something to what its fields stand for. *)
Tactic Notation "open_struct" reference(f) :=
  intros h r o a Hd; apply denote_struct_inv in Hd as (? & -> & Hd); open_fields; unfold f; cbn zeta.

Section copies.
Context `{Opaque, Memory, FM : !Foreign RObjectMeta ObjectMeta, FL : !Foreign RListMeta opaque,
  FR : !Foreign RReference Reference, FC : !Foreign RCondition MetaCondition,
  FS : !Foreign RStatus duckStatus}.
Context {LM : ForeignLaws RObjectMeta ObjectMeta} {LL : ForeignLaws RListMeta opaque}
  {LR : ForeignLaws RReference Reference} {LC : ForeignLaws RCondition MetaCondition}
  {LS : ForeignLaws RStatus duckStatus}.

Lemma foreign_refreshes {R A} `{!Foreign R A, !ForeignLaws R A} :
  refreshes (foreign_DeepCopyInto (R := R)).
Proof. apply copies_refreshes, foreign_copies. Qed.

Lemma EnvVar_copies : copies labsinternal.EnvVar_DeepCopyInto.
Proof. apply assign_copies. Qed.

Lemma WorkloadReference_copies : copies labsinternal.WorkloadReference_DeepCopyInto.
Proof.
  open_struct labsinternal.WorkloadReference_DeepCopyInto.
  copy_step foreign_refreshes. copy_step (copy_field_refreshes _).
  copy_done.
Qed.

Lemma ServiceBindingProjectionSpec_copies : copies labsinternal.ServiceBindingProjectionSpec_DeepCopyInto.
Proof.
  open_struct labsinternal.ServiceBindingProjectionSpec_DeepCopyInto.
  copy_step (copies_refreshes _ WorkloadReference_copies). copy_step (copy_field_refreshes _).
  copy_done.
Qed.

Lemma ServiceBindingProjectionStatus_copies : copies labsinternal.ServiceBindingProjectionStatus_DeepCopyInto.
Proof.
  open_struct labsinternal.ServiceBindingProjectionStatus_DeepCopyInto.
  copy_step foreign_refreshes.
  copy_done.
Qed.

Lemma ServiceBindingProjection_copies : copies labsinternal.ServiceBindingProjection_DeepCopyInto.
Proof.
  open_struct labsinternal.ServiceBindingProjection_DeepCopyInto.
  copy_step foreign_refreshes. copy_step (copies_refreshes _ ServiceBindingProjectionSpec_copies).
  copy_step (copies_refreshes _ ServiceBindingProjectionStatus_copies).
  copy_done.
Qed.

Lemma list_copies {T K} `{!Reads Cell T K, !ReadsLaws Cell T K, !Storable Cell (list T)}
    (zero : T) (DeepCopyInto : T → T → H Cell T) :
  copies DeepCopyInto →
  copies (λ in_ out : List_t T,
    let* meta := foreign_DeepCopyInto (list_ListMeta in_) (list_ListMeta in_) in
    let* items := copy_field_loop zero DeepCopyInto (list_Items in_) (list_Items in_) in
    hret {| list_TypeMeta := list_TypeMeta in_; list_ListMeta := meta; list_Items := items |})%heap.
Proof.
  intros Hc h r o a Hd. apply denote_struct_inv in Hd as (? & -> & Hd). open_fields.
  copy_step foreign_refreshes. copy_step (copy_field_loop_refreshes _ _ Hc). copy_done.
Qed.

Lemma ServiceBindingProjectionList_copies : copies labsinternal.ServiceBindingProjectionList_DeepCopyInto.
Proof. exact (list_copies _ _ ServiceBindingProjection_copies). Qed.

Lemma ServiceBindingSpec_copies : copies servicebinding.ServiceBindingSpec_DeepCopyInto.
Proof.
  open_struct servicebinding.ServiceBindingSpec_DeepCopyInto.
  copy_step (copy_pointer_refreshes _ _ WorkloadReference_copies).
  copy_step (copy_pointer_refreshes _ _ foreign_copies). copy_step (copy_field_refreshes _).
  copy_done.
Qed.

Lemma ServiceBindingStatus_copies : copies servicebinding.ServiceBindingStatus_DeepCopyInto.
Proof.
  open_struct servicebinding.ServiceBindingStatus_DeepCopyInto.
  copy_step (copy_field_loop_refreshes _ _ foreign_copies).
  copy_step (copy_pointer_refreshes _ _ assign_copies).
  copy_done.
Qed.

Lemma ServiceBinding_copies : copies servicebinding.ServiceBinding_DeepCopyInto.
Proof.
  open_struct servicebinding.ServiceBinding_DeepCopyInto.
  copy_step foreign_refreshes. copy_step (copies_refreshes _ ServiceBindingSpec_copies).
  copy_step (copies_refreshes _ ServiceBindingStatus_copies).
  copy_done.
Qed.

Lemma ServiceBindingList_copies : copies servicebinding.ServiceBindingList_DeepCopyInto.
Proof. exact (list_copies _ _ ServiceBinding_copies). Qed.

Lemma ProvisionedServiceSpec_copies : copies labs.ProvisionedServiceSpec_DeepCopyInto.
Proof.
  intros h [] o a Hd. by apply assign_copies.
Qed.

Lemma ProvisionedServiceStatus_copies : copies labs.ProvisionedServiceStatus_DeepCopyInto.
Proof.
  open_struct labs.ProvisionedServiceStatus_DeepCopyInto.
  copy_step foreign_refreshes.
  copy_done.
Qed.

Lemma ProvisionedService_copies : copies labs.ProvisionedService_DeepCopyInto.
Proof.
  open_struct labs.ProvisionedService_DeepCopyInto.
  copy_step foreign_refreshes.
  copy_step (copies_refreshes _ ProvisionedServiceStatus_copies).
  copy_done.
Qed.

Lemma ProvisionedServiceList_copies : copies labs.ProvisionedServiceList_DeepCopyInto.
Proof. exact (list_copies _ _ ProvisionedService_copies). Qed.

Lemma Serviceable_copies : copies duck.Serviceable_DeepCopyInto.
Proof.
  intros h [] o a Hd. by apply assign_copies.
Qed.

Lemma ServiceableType_copies : copies duck.ServiceableType_DeepCopyInto.
Proof.
  open_struct duck.ServiceableType_DeepCopyInto.
  copy_step foreign_refreshes.
  copy_done.
Qed.

Lemma ServiceableTypeList_copies : copies duck.ServiceableTypeList_DeepCopyInto.
Proof. exact (list_copies _ _ ServiceableType_copies). Qed.

End copies.

(** ** The exported methods *)
Create HintDb copies.
#[export] Hint Resolve EnvVar_copies WorkloadReference_copies ServiceBindingProjectionSpec_copies
  ServiceBindingProjectionStatus_copies ServiceBindingProjection_copies ServiceBindingProjectionList_copies
  ServiceBindingSpec_copies ServiceBindingStatus_copies ServiceBinding_copies
  ServiceBindingList_copies ProvisionedServiceSpec_copies ProvisionedServiceStatus_copies
  ProvisionedService_copies ProvisionedServiceList_copies Serviceable_copies
  ServiceableType_copies ServiceableTypeList_copies : copies.

Section methods.
Context `{Opaque, Memory, FM : !Foreign RObjectMeta ObjectMeta, FL : !Foreign RListMeta opaque,
  FR : !Foreign RReference Reference, FC : !Foreign RCondition MetaCondition,
  FS : !Foreign RStatus duckStatus}.

Context {LM : ForeignLaws RObjectMeta ObjectMeta} {LL : ForeignLaws RListMeta opaque}
  {LR : ForeignLaws RReference Reference} {LC : ForeignLaws RCondition MetaCondition}
  {LS : ForeignLaws RStatus duckStatus}.

(** C19: Every [DeepCopy] method returns, without a panic, a pointer to the same value in
    memory that was not there before, and leaves the memory that was there as it was. *)
Theorem DeepCopy_copies :
  deep servicebinding.ServiceBinding_DeepCopy ∧ deep servicebinding.ServiceBindingList_DeepCopy ∧
  deep servicebinding.ServiceBindingSpec_DeepCopy ∧ deep servicebinding.ServiceBindingStatus_DeepCopy ∧
  deep labsinternal.ServiceBindingProjection_DeepCopy ∧
  deep labsinternal.ServiceBindingProjectionList_DeepCopy ∧
  deep labsinternal.ServiceBindingProjectionSpec_DeepCopy ∧
  deep labsinternal.ServiceBindingProjectionStatus_DeepCopy ∧
  deep labsinternal.WorkloadReference_DeepCopy ∧ deep labsinternal.EnvVar_DeepCopy ∧
  deep labs.ProvisionedService_DeepCopy ∧ deep labs.ProvisionedServiceList_DeepCopy ∧
  deep labs.ProvisionedServiceSpec_DeepCopy ∧ deep labs.ProvisionedServiceStatus_DeepCopy ∧
  deep duck.ServiceableType_DeepCopy ∧ deep duck.ServiceableTypeList_DeepCopy ∧
  deep duck.Serviceable_DeepCopy.
Proof.
  split_and!; apply deep_copy_deep; auto with copies.
Qed.

(** C24: An object and its copy do not share memory: whatever is assigned to the memory the
    call found, the copy stands for the same object; whatever is assigned to any other
    memory, that of the copy included, the original does. *)
Theorem DeepCopy_isolated :
  isolated servicebinding.ServiceBinding_DeepCopy ∧
  isolated labsinternal.ServiceBindingProjection_DeepCopy ∧
  isolated labs.ProvisionedService_DeepCopy ∧ isolated duck.ServiceableType_DeepCopy.
Proof. split_and!; apply deep_isolated, deep_copy_deep; auto with copies. Qed.

(** [DeepCopyObject] returns the nil interface for a nil object and otherwise a pointer
    that is not nil, to a deep copy: a caller that compares the result with nil is never
    misled by an interface that holds a nil pointer. *)
Theorem DeepCopyObject_copies :
  deep_object servicebinding.ServiceBinding_DeepCopyObject ∧
  deep_object servicebinding.ServiceBindingList_DeepCopyObject ∧
  deep_object labsinternal.ServiceBindingProjection_DeepCopyObject ∧
  deep_object labsinternal.ServiceBindingProjectionList_DeepCopyObject ∧
  deep_object labs.ProvisionedService_DeepCopyObject ∧
  deep_object labs.ProvisionedServiceList_DeepCopyObject ∧
  deep_object duck.ServiceableType_DeepCopyObject ∧
  deep_object duck.ServiceableTypeList_DeepCopyObject.
Proof. split_and!; apply deep_copy_object_deep; auto with copies. Qed.
End methods.

(** ** A memory *)

(** [metav1.ObjectMeta] with its labels behind a pointer; the other foreign structs as
    plain values. *)
Module Sample.
#[local] Existing Instance string_opaque.

Record meta_t := mkMeta_t { meta_Value : ObjectMeta; meta_Labels : ptr smap }.

Definition memory : Memory := {|
  RObjectMeta := meta_t; RListMeta := string; RReference := Reference;
  RCondition := MetaCondition; RStatus := duckStatus; ROther := smap;
|}.
#[local] Existing Instance memory.

Definition smap_storable : Storable Cell smap :=
  {| into := COther; out_of v := match v with COther t => Some t | _ => None end;
     out_of_into _ := eq_refl |}.
#[local] Existing Instance smap_storable.

Definition plain_foreign {A} (zero : A) : Foreign A A :=
  {| foreign_reads := plain_reads; foreign_zero := zero; foreign_DeepCopyInto := assign |}.

Lemma plain_foreign_laws {A} (zero : A) : @ForeignLaws memory A A (plain_foreign zero).
Proof.
  split; [apply plain_reads_laws|]. intros h r o a Hd. split; [done|]. split; [done|].
  apply disjoint_empty_l.
Defined.

Definition meta_plain : Reads Cell ObjectMeta ObjectMeta := plain_reads.
Definition smap_plain : Reads Cell smap smap := plain_reads.
#[local] Existing Instances meta_plain smap_plain.
Definition meta_plain_laws : ReadsLaws Cell ObjectMeta ObjectMeta := plain_reads_laws.
Definition smap_plain_laws : ReadsLaws Cell smap smap := plain_reads_laws.
Definition meta_flat : Flat Cell ObjectMeta ObjectMeta := λ _ _, eq_refl.
Definition smap_flat : Flat Cell smap smap := λ _ _, eq_refl.
#[local] Existing Instances meta_plain_laws smap_plain_laws meta_flat smap_flat.

Definition meta_reads : Reads Cell meta_t ObjectMeta :=
  struct_reads (λ r, (meta_Value r, meta_Labels r)) (λ '(m, l), Meta_set_Labels m l).
#[local] Existing Instance meta_reads.
Definition meta_reads_laws : ReadsLaws Cell meta_t ObjectMeta.
Proof. apply struct_reads_laws. Defined.

Definition meta_DeepCopyInto (in_ out : meta_t) : H Cell meta_t :=
  (let out := in_ in
   let* labels := copy_pointer ∅ assign (meta_Labels in_) (meta_Labels out) in
   hret {| meta_Value := meta_Value out; meta_Labels := labels |})%heap.

Definition meta_foreign : Foreign meta_t ObjectMeta :=
  {| foreign_reads := meta_reads; foreign_zero := mkMeta_t (newMeta "" "") nil_ptr;
     foreign_DeepCopyInto := meta_DeepCopyInto |}.

Lemma meta_foreign_laws : @ForeignLaws memory meta_t ObjectMeta meta_foreign.
Proof.
  split; [exact meta_reads_laws|]. change (copies meta_DeepCopyInto).
  open_struct meta_DeepCopyInto. copy_step (copy_pointer_refreshes _ _ assign_copies). copy_done.
Defined.

Definition list_meta : Foreign string string := plain_foreign "".
Definition reference : Foreign Reference Reference := plain_foreign (mkReference "" "" "" "" None).
Definition condition : Foreign MetaCondition MetaCondition := plain_foreign (mkMetaCondition "" "" 0 0%Z "" "").
Definition status : Foreign duckStatus duckStatus := plain_foreign zeroStatus.

(** A binding with labels, a workload, a service, a variable, a condition and a secret. *)
Definition binding : ServiceBinding_t := {|
  sb_TypeMeta := mkTypeMeta "ServiceBinding" "servicebinding.io/v1alpha3";
  sb_ObjectMeta := mkMeta_t (newMeta "app-db" "ns") (Ptr (Some 1%positive));
  sb_Spec := mkSBSpec_t "app-db" "" "" (Ptr (Some 2%positive)) (Ptr (Some 4%positive)) (Slice (Some 5%positive));
  sb_Status := mkSBStatus_t 3 (Slice (Some 6%positive)) (Ptr (Some 7%positive));
|}.

Definition memory_before : heap Cell := list_to_map [
  (1%positive, COther {["app" := "db"]});
  (2%positive, CWorkloadReference (mkWorkloadReference_t (mkReference "apps/v1" "Deployment" "" "app" None)
     (Slice (Some 3%positive))));
  (3%positive, CStrings ["main"; "sidecar"]);
  (4%positive, CReference (mkReference "v1" "Secret" "" "db" None));
  (5%positive, CEnvVars [mkEnvVar "PASSWORD" "password"]);
  (6%positive, CConditions [mkMetaCondition "Ready" "True" 3 0%Z "" ""]);
  (7%positive, CLocalObjectReference (mkLocalObjectReference "db-secret"));
  (8%positive, CSB binding)].

Definition value : TypeMeta * ServiceBinding := (
  mkTypeMeta "ServiceBinding" "servicebinding.io/v1alpha3",
  mkSB (Meta_set_Labels (newMeta "app-db" "ns") (Some {["app" := "db"]}))
    (mkSBSpec "app-db" "" ""
       (Some (mkWorkloadReference (mkReference "apps/v1" "Deployment" "" "app" None) ["main"; "sidecar"]))
       (Some (mkReference "v1" "Secret" "" "db" None)) [mkEnvVar "PASSWORD" "password"])
    (mkSBStatus 3 [mkMetaCondition "Ready" "True" 3 0%Z "" ""] (Some (mkLocalObjectReference "db-secret")))).

#[local] Existing Instances meta_foreign list_meta reference condition status.

Definition pointer : ptr ServiceBinding_t := Ptr (Some 8%positive).

Example pointer_value : denote memory_before pointer = Some (Some value).
Proof. vm_compute. reflexivity. Qed.

Lemma list_meta_laws : ForeignLaws string string. Proof. apply plain_foreign_laws. Defined.
Lemma reference_laws : ForeignLaws Reference Reference. Proof. apply plain_foreign_laws. Defined.
Lemma condition_laws : ForeignLaws MetaCondition MetaCondition. Proof. apply plain_foreign_laws. Defined.
Lemma status_laws : ForeignLaws duckStatus duckStatus. Proof. apply plain_foreign_laws. Defined.
#[local] Existing Instances meta_foreign_laws list_meta_laws reference_laws condition_laws status_laws.

Lemma DeepCopy_copies_witness :
  denote memory_before pointer = Some (Some value) ∧
  ∃ p' h', servicebinding.ServiceBinding_DeepCopy pointer memory_before = Done (p', h') ∧
    denote h' p' = Some (Some value) ∧ memory_before ⊆ h' ∧ locs h' p' ## dom memory_before.
Proof. split; [exact pointer_value|]. apply DeepCopy_copies, pointer_value. Defined.

Lemma DeepCopyObject_copies_witness :
  denote memory_before pointer = Some (Some value) ∧
  ∃ l h', servicebinding.ServiceBinding_DeepCopyObject pointer memory_before
          = Done (Some (Ptr (Some l)), h') ∧
    denote h' (Ptr (T := ServiceBinding_t) (Some l)) = Some (Some value) ∧ memory_before ⊆ h' ∧
    locs h' (Ptr (T := ServiceBinding_t) (Some l)) ## dom memory_before.
Proof.
  split; [exact pointer_value|].
  exact (proj1 DeepCopyObject_copies memory_before pointer (Some value) pointer_value).
Defined.

(** The copy in that memory, after the container names of the original are overwritten. *)
Definition copy : ptr ServiceBinding_t :=
  match servicebinding.ServiceBinding_DeepCopy pointer memory_before with
  | Done (p, _) => p | Panic => nil_ptr end.
Definition memory_after : heap Cell :=
  match servicebinding.ServiceBinding_DeepCopy pointer memory_before with
  | Done (_, h) => h | Panic => ∅ end.

Lemma DeepCopy_isolated_witness :
  servicebinding.ServiceBinding_DeepCopy pointer memory_before = Done (copy, memory_after) ∧
  denote (writes [(3%positive, CStrings ["other"])] memory_after) copy = Some (Some value).
Proof.
  assert (servicebinding.ServiceBinding_DeepCopy pointer memory_before = Done (copy, memory_after)) as Hc
    by (vm_compute; reflexivity).
  split; [exact Hc|].
  apply (proj1 DeepCopy_isolated memory_before pointer (Some value) copy memory_after
           [(3%positive, CStrings ["other"])] pointer_value Hc).
  constructor; [|constructor]. apply (elem_of_dom_2 (M := gmap loc) memory_before _ (CStrings ["main"; "sidecar"])). reflexivity.
Defined.
End Sample.
