(* ===== verification/Clientset.v ===== *)
(** * The clientset

    [pkg/client/clientset/versioned/clientset.go] and the client of each API group
    ([typed/*/*/*_client.go]): from a REST configuration to clients.  The REST client,
    the discovery client and the rate limiter are [k8s.io/client-go]'s: constructing one
    is a call to the environment, and a rate limiter is an object with an identity. *)
From S2P Require Import Prelude Api Effects Conditions Projection Binding Provisioned.
From S2P Require Import KindReconciler Kinds Admission.

(** ** [rest.Config] *)

(** What the packages called here provide. *)
Class RestLibrary := {
  RESTClient : Type;
  DiscoveryClient : Type;
  (** [float32] with [> 0], for the queries per second. *)
  float32 : Type;
  float32_positive : float32 → bool;
  Serializer : Type;
  Codecs_WithoutConversion : Serializer;
  DefaultKubernetesUserAgent : string;
  NewDiscoveryClient : RESTClient → DiscoveryClient;
}.

(** A [flowcontrol.RateLimiter]: the identity of the object. *)
Definition RateLimiter : Type := nat.

Record Config `{Opaque, RestLibrary} := mkConfig {
  Config_GroupVersion : option GroupVersion;
  Config_APIPath : string;
  Config_NegotiatedSerializer : option Serializer;
  Config_UserAgent : string;
  Config_QPS : float32;
  Config_Burst : Z;
  Config_RateLimiter : option RateLimiter;
  Config_Rest : opaque;
}.

Inductive config_event `{Opaque, RestLibrary} :=
| EvNewTokenBucketRateLimiter (qps : float32) (burst : Z) (limiter : RateLimiter)
| EvRESTClientFor (config : Config) (r : result error RESTClient)
| EvNewDiscoveryClient (config : Config) (r : result error DiscoveryClient).

(** The answers of [rest.RESTClientFor] and [discovery.NewDiscoveryClientForConfig]. *)
Record ConfigEnv `{Opaque, RestLibrary} := {
  env_RESTClientFor : Config → list config_event → result error RESTClient;
  env_NewDiscoveryClientForConfig : Config → list config_event → result error DiscoveryClient;
}.

Section calls.
Context `{Opaque, RestLibrary} (env : ConfigEnv).

(** A new limiter is identified by the number of calls before it. *)
Definition NewTokenBucketRateLimiter (qps : float32) (burst : Z) : M config_event RateLimiter :=
  call (λ log, length log) (EvNewTokenBucketRateLimiter qps burst).

Definition RESTClientFor (config : Config) : M config_event (result error RESTClient) :=
  call (env_RESTClientFor env config) (EvRESTClientFor config).

Definition NewDiscoveryClientForConfig (config : Config) : M config_event (result error DiscoveryClient) :=
  call (env_NewDiscoveryClientForConfig env config) (EvNewDiscoveryClient config).

(** client-go's [NewDiscoveryClientForConfigOrDie] is the same with a panic. *)
Definition NewDiscoveryClientForConfigOrDie (config : Config) : M config_event DiscoveryClient :=
  (do! r := NewDiscoveryClientForConfig config in
   match r with Ok client => ret client | Err _ => panic end)%effect.
End calls.

(** ** The client of a group *)

(** [DuckV1alpha3Client] and the other three structs. *)
Record groupClient `{RestLibrary} := mkGroupClient { restClient : RESTClient }.

(** [serviceBindings] and the other two structs: the REST client and the namespace. *)
Record namespaceClient `{RestLibrary} := mkNamespaceClient { client : option RESTClient; ns : string }.

(** The four packages have the same code but for the group version [gv]. *)
Section group.
Context `{Opaque, RestLibrary} (env : ConfigEnv) (gv : GroupVersion).

Definition group_setConfigDefaults (config : Config) : Config := {|
  Config_GroupVersion := Some gv;
  Config_APIPath := "/apis";
  Config_NegotiatedSerializer := Some Codecs_WithoutConversion;
  Config_UserAgent := if bool_decide (Config_UserAgent config = "") then DefaultKubernetesUserAgent
                      else Config_UserAgent config;
  Config_QPS := Config_QPS config;
  Config_Burst := Config_Burst config;
  Config_RateLimiter := Config_RateLimiter config;
  Config_Rest := Config_Rest config;
|}.

Local Open Scope effect_scope.

Definition group_NewForConfig (c : Config) : M config_event (result error groupClient) :=
  let config := c in
  let config := group_setConfigDefaults config in
  do! client := RESTClientFor env config in
  match client with Err err => ret (Err err) | Ok client => ret (Ok (mkGroupClient _ client)) end.

Definition group_NewForConfigOrDie (c : Config) : M config_event groupClient :=
  do! client := group_NewForConfig c in
  match client with Err _ => panic | Ok client => ret client end.

Definition group_New (c : RESTClient) : groupClient := mkGroupClient _ c.

(** A nil receiver has a nil client. *)
Definition group_RESTClient (c : option groupClient) : option RESTClient :=
  match c with None => None | Some c => Some (restClient c) end.
End group.

(** [typed/duck/v1alpha3/duck_client.go] *)
Module duckv1alpha3.
Section client.
Context `{Opaque, RestLibrary} (env : ConfigEnv).

Definition NewForConfig : Config → M config_event (result error groupClient) :=
  group_NewForConfig env duck_SchemeGroupVersion.
Definition NewForConfigOrDie : Config → M config_event groupClient :=
  group_NewForConfigOrDie env duck_SchemeGroupVersion.
Definition New : RESTClient → groupClient := group_New.
Definition setConfigDefaults : Config → Config := group_setConfigDefaults duck_SchemeGroupVersion.
Definition GetRESTClient : option groupClient → option RESTClient := group_RESTClient.
End client.
End duckv1alpha3.

(** [typed/labs/v1alpha1/labs_client.go] *)
Module bindingsv1alpha1.
Section client.
Context `{Opaque, RestLibrary} (env : ConfigEnv).

Definition NewForConfig : Config → M config_event (result error groupClient) :=
  group_NewForConfig env PS.SchemeGroupVersion.
Definition NewForConfigOrDie : Config → M config_event groupClient :=
  group_NewForConfigOrDie env PS.SchemeGroupVersion.
Definition New : RESTClient → groupClient := group_New.
Definition setConfigDefaults : Config → Config := group_setConfigDefaults PS.SchemeGroupVersion.
Definition GetRESTClient : option groupClient → option RESTClient := group_RESTClient.
Definition newProvisionedServices (c : option groupClient) (namespace : string) : namespaceClient :=
  mkNamespaceClient _ (GetRESTClient c) namespace.
Definition ProvisionedServices (c : option groupClient) (namespace : string) : namespaceClient :=
  newProvisionedServices c namespace.
End client.
End bindingsv1alpha1.

(** [typed/labsinternal/v1alpha1/labsinternal_client.go] *)
Module internalv1alpha1.
Section client.
Context `{Opaque, RestLibrary} (env : ConfigEnv).

Definition NewForConfig : Config → M config_event (result error groupClient) :=
  group_NewForConfig env SchemeGroupVersion.
Definition NewForConfigOrDie : Config → M config_event groupClient :=
  group_NewForConfigOrDie env SchemeGroupVersion.
Definition New : RESTClient → groupClient := group_New.
Definition setConfigDefaults : Config → Config := group_setConfigDefaults SchemeGroupVersion.
Definition GetRESTClient : option groupClient → option RESTClient := group_RESTClient.
Definition newServiceBindingProjections (c : option groupClient) (namespace : string) : namespaceClient :=
  mkNamespaceClient _ (GetRESTClient c) namespace.
Definition ServiceBindingProjections (c : option groupClient) (namespace : string) : namespaceClient :=
  newServiceBindingProjections c namespace.
End client.
End internalv1alpha1.

(** [typed/servicebinding/v1alpha3/servicebinding_client.go] *)
Module servicebindingv1alpha3.
Section client.
Context `{Opaque, RestLibrary} (env : ConfigEnv).

Definition NewForConfig : Config → M config_event (result error groupClient) :=
  group_NewForConfig env SB.SchemeGroupVersion.
Definition NewForConfigOrDie : Config → M config_event groupClient :=
  group_NewForConfigOrDie env SB.SchemeGroupVersion.
Definition New : RESTClient → groupClient := group_New.
Definition setConfigDefaults : Config → Config := group_setConfigDefaults SB.SchemeGroupVersion.
Definition GetRESTClient : option groupClient → option RESTClient := group_RESTClient.
Definition newServiceBindings (c : option groupClient) (namespace : string) : namespaceClient :=
  mkNamespaceClient _ (GetRESTClient c) namespace.
Definition ServiceBindings (c : option groupClient) (namespace : string) : namespaceClient :=
  newServiceBindings c namespace.
End client.
End servicebindingv1alpha3.

(** ** The clientset *)
Record Clientset `{RestLibrary} := mkClientset {
  cs_DiscoveryClient : DiscoveryClient;
  cs_duckV1alpha3 : groupClient;
  cs_bindingsV1alpha1 : groupClient;
  cs_internalV1alpha1 : groupClient;
  cs_servicebindingV1alpha3 : groupClient;
}.

Section clientset.
Context `{Opaque, RestLibrary} (env : ConfigEnv).

(** A method of a nil clientset dereferences it, but for [Discovery]. *)
Definition DuckV1alpha3 (c : option Clientset) : outcome groupClient :=
  match c with Some c => Done (cs_duckV1alpha3 c) | None => Panic end.
Definition BindingsV1alpha1 (c : option Clientset) : outcome groupClient :=
  match c with Some c => Done (cs_bindingsV1alpha1 c) | None => Panic end.
Definition InternalV1alpha1 (c : option Clientset) : outcome groupClient :=
  match c with Some c => Done (cs_internalV1alpha1 c) | None => Panic end.
Definition ServicebindingV1alpha3 (c : option Clientset) : outcome groupClient :=
  match c with Some c => Done (cs_servicebindingV1alpha3 c) | None => Panic end.
Definition Discovery (c : option Clientset) : option DiscoveryClient :=
  match c with Some c => Some (cs_DiscoveryClient c) | None => None end.

Definition Config_set_RateLimiter (c : Config) (r : RateLimiter) : Config :=
  mkConfig _ _ (Config_GroupVersion c) (Config_APIPath c) (Config_NegotiatedSerializer c)
    (Config_UserAgent c) (Config_QPS c) (Config_Burst c) (Some r) (Config_Rest c).

Definition burst_message : string :=
  "burst is required to be greater than 0 when RateLimiter is not set and QPS is set to greater than 0".

Local Open Scope effect_scope.

(** [if err != nil { return nil, err }] *)
Definition or_return {A B} (m : M config_event (result error A)) (k : A → M config_event (result error B)) :
    M config_event (result error B) :=
  do! r := m in match r with Err err => ret (Err err) | Ok a => k a end.

Definition NewForConfig (c : Config) : M config_event (result error Clientset) :=
  let configShallowCopy := c in
  let clients (configShallowCopy : Config) :=
    or_return (duckv1alpha3.NewForConfig env configShallowCopy) (λ duck,
    or_return (bindingsv1alpha1.NewForConfig env configShallowCopy) (λ bindings,
    or_return (internalv1alpha1.NewForConfig env configShallowCopy) (λ internal,
    or_return (servicebindingv1alpha3.NewForConfig env configShallowCopy) (λ servicebinding,
    or_return (NewDiscoveryClientForConfig env configShallowCopy) (λ discovery,
    ret (Ok (mkClientset _ discovery duck bindings internal servicebinding))))))) in
  if bool_decide (Config_RateLimiter configShallowCopy = None)
     && float32_positive (Config_QPS configShallowCopy) then
    if bool_decide (Config_Burst configShallowCopy ≤ 0)%Z then ret (Err (PlainError burst_message))
    else
      do! limiter := NewTokenBucketRateLimiter (Config_QPS configShallowCopy) (Config_Burst configShallowCopy) in
      clients (Config_set_RateLimiter configShallowCopy limiter)
  else clients configShallowCopy.

Definition NewForConfigOrDie (c : Config) : M config_event Clientset :=
  do! duck := duckv1alpha3.NewForConfigOrDie env c in
  do! bindings := bindingsv1alpha1.NewForConfigOrDie env c in
  do! internal := internalv1alpha1.NewForConfigOrDie env c in
  do! servicebinding := servicebindingv1alpha3.NewForConfigOrDie env c in
  do! discovery := NewDiscoveryClientForConfigOrDie env c in
  ret (mkClientset _ discovery duck bindings internal servicebinding).

Definition New (c : RESTClient) : Clientset :=
  mkClientset _ (NewDiscoveryClient c) (duckv1alpha3.New c) (bindingsv1alpha1.New c)
    (internalv1alpha1.New c) (servicebindingv1alpha3.New c).
End clientset.
