(* ===== verification/ClientsetFacts.v ===== *)
(** * What the clientset's constructors build

    [NewForConfig] asks for one client per group, in order, with the same rate limiter
    for all, and gives up at the first error; [NewForConfigOrDie] does not look at the
    limits at all. *)
From S2P Require Import Prelude Api Effects Conditions Projection Binding Provisioned.
From S2P Require Import KindReconciler Kinds Admission Clientset.

Section facts.
Context `{Opaque, RestLibrary} (env : ConfigEnv).
Implicit Types (c : Config) (log : list config_event).

(** [QPS] asks for a rate limiter, and [c] has none. *)
Definition wants_limiter c : bool :=
  bool_decide (Config_RateLimiter c = None) && float32_positive (Config_QPS c).

(** The configuration for the REST client of a group: its version, the path of the API
    groups, the serializer of the generated scheme, the user agent, which has a default,
    and the [limiter] that all share; the rest is that of [c]. *)
Definition for_group (limiter : option RateLimiter) c (group version : string) : Config := {|
  Config_GroupVersion := Some (mkGroupVersion group version);
  Config_APIPath := "/apis";
  Config_NegotiatedSerializer := Some Codecs_WithoutConversion;
  Config_UserAgent :=
    if decide (Config_UserAgent c = "") then DefaultKubernetesUserAgent else Config_UserAgent c;
  Config_QPS := Config_QPS c;
  Config_Burst := Config_Burst c;
  Config_RateLimiter := limiter;
  Config_Rest := Config_Rest c;
|}.

(** The configuration for the discovery client. *)
Definition for_discovery (limiter : option RateLimiter) c : Config := {|
  Config_GroupVersion := Config_GroupVersion c;
  Config_APIPath := Config_APIPath c;
  Config_NegotiatedSerializer := Config_NegotiatedSerializer c;
  Config_UserAgent := Config_UserAgent c;
  Config_QPS := Config_QPS c;
  Config_Burst := Config_Burst c;
  Config_RateLimiter := limiter;
  Config_Rest := Config_Rest c;
|}.

(** The configurations of the five constructions, in order. *)
Definition planned (limiter : option RateLimiter) c : list Config :=
  [for_group limiter c "duck.bindings.labs.vmware.com" "v1alpha3";
   for_group limiter c "bindings.labs.vmware.com" "v1alpha1";
   for_group limiter c "internal.bindings.labs.vmware.com" "v1alpha1";
   for_group limiter c "servicebinding.io" "v1alpha3";
   for_discovery limiter c].

(** The configuration of a construction, and its error. *)
Definition event_config (e : config_event) : option Config :=
  match e with EvRESTClientFor c _ | EvNewDiscoveryClient c _ => Some c | _ => None end.
Definition event_error (e : config_event) : option error :=
  match e with
  | EvRESTClientFor _ (Err e) | EvNewDiscoveryClient _ (Err e) => Some e
  | _ => None
  end.

(** All constructions succeeded and gave the clients of [cs]. *)
Definition built (limiter : option RateLimiter) c (cs : Clientset) : list config_event :=
  [EvRESTClientFor (for_group limiter c "duck.bindings.labs.vmware.com" "v1alpha3")
     (Ok (restClient (cs_duckV1alpha3 cs)));
   EvRESTClientFor (for_group limiter c "bindings.labs.vmware.com" "v1alpha1")
     (Ok (restClient (cs_bindingsV1alpha1 cs)));
   EvRESTClientFor (for_group limiter c "internal.bindings.labs.vmware.com" "v1alpha1")
     (Ok (restClient (cs_internalV1alpha1 cs)));
   EvRESTClientFor (for_group limiter c "servicebinding.io" "v1alpha3")
     (Ok (restClient (cs_servicebindingV1alpha3 cs)));
   EvNewDiscoveryClient (for_discovery limiter c) (Ok (cs_DiscoveryClient cs))].

(** The last construction failed with [e], the ones before it did not. *)
Definition failed (limiter : option RateLimiter) c (e : error) (evs : list config_event) : Prop :=
  map event_config evs `prefix_of` map Some (planned limiter c) ∧
  ∃ ok ev, evs = ok ++ [ev] ∧ event_error ev = Some e ∧ Forall (λ ev, event_error ev = None) ok.

Definition outcome_of (limiter : option RateLimiter) c (evs : list config_event) (res : result error Clientset) : Prop :=
  match res with Ok cs => evs = built limiter c cs | Err e => failed limiter c e evs end.

(** What the four packages make of the configuration. *)
Lemma group_config group version c :
  group_setConfigDefaults (mkGroupVersion group version) c = for_group (Config_RateLimiter c) c group version.
Proof. unfold group_setConfigDefaults, for_group. f_equal. by case_bool_decide; case_decide. Qed.

Ltac unfold_groups :=
  unfold duck_SchemeGroupVersion, duck_GroupName, PS.SchemeGroupVersion, PS.GroupName,
    SchemeGroupVersion, GroupName, SB.SchemeGroupVersion, SB.GroupName.

Lemma discovery_config c : for_discovery (Config_RateLimiter c) c = c.
Proof. by destruct c. Qed.

Lemma group_run gv c log :
  group_NewForConfig env gv c log =
  (let a := env_RESTClientFor env (group_setConfigDefaults gv c) log in
   (Done (match a with Ok r => Ok (mkGroupClient _ r) | Err e => Err e end),
    log ++ [EvRESTClientFor (group_setConfigDefaults gv c) a])).
Proof.
  unfold group_NewForConfig. cbn zeta. unfold RESTClientFor. rewrite bind_call.
  by destruct (env_RESTClientFor _ _ _).
Qed.

Lemma or_return_group gv c log {B} (k : groupClient → M config_event (result error B)) :
  or_return (group_NewForConfig env gv c) k log =
  (let a := env_RESTClientFor env (group_setConfigDefaults gv c) log in
   let log' := log ++ [EvRESTClientFor (group_setConfigDefaults gv c) a] in
   match a with Ok r => k (mkGroupClient _ r) log' | Err e => (Done (Err e), log') end).
Proof.
  unfold or_return, bind. rewrite group_run. cbn zeta. by destruct (env_RESTClientFor _ _ _).
Qed.

Lemma or_return_discovery c log {B} (k : DiscoveryClient → M config_event (result error B)) :
  or_return (NewDiscoveryClientForConfig env c) k log =
  (let a := env_NewDiscoveryClientForConfig env c log in
   let log' := log ++ [EvNewDiscoveryClient c a] in
   match a with Ok d => k d log' | Err e => (Done (Err e), log') end).
Proof.
  unfold or_return, NewDiscoveryClientForConfig. rewrite bind_call. cbn zeta.
  by destruct (env_NewDiscoveryClientForConfig _ _ _).
Qed.

(** The last event of an explicit list failed. *)
Ltac last_failed :=
  split; [by eexists|];
  first [eexists [], _; split; [reflexivity|] | eexists [_], _; split; [reflexivity|]
        | eexists [_; _], _; split; [reflexivity|] | eexists [_; _; _], _; split; [reflexivity|]
        | eexists [_; _; _; _], _; split; [reflexivity|]];
  split; [reflexivity|by repeat constructor].

(** The five constructions, whatever their answers. *)
Lemma clients_run c log :
  ∃ evs res,
    or_return (duckv1alpha3.NewForConfig env c) (λ duck,
    or_return (bindingsv1alpha1.NewForConfig env c) (λ bindings,
    or_return (internalv1alpha1.NewForConfig env c) (λ internal,
    or_return (servicebindingv1alpha3.NewForConfig env c) (λ servicebinding,
    or_return (NewDiscoveryClientForConfig env c) (λ discovery,
    ret (Ok (mkClientset _ discovery duck bindings internal servicebinding))))))) log
    = (Done res, log ++ evs) ∧ outcome_of (Config_RateLimiter c) c evs res.
Proof.
  unfold duckv1alpha3.NewForConfig, bindingsv1alpha1.NewForConfig, internalv1alpha1.NewForConfig,
    servicebindingv1alpha3.NewForConfig.
  unfold outcome_of, built, failed, planned. rewrite discovery_config. unfold_groups.
  do 4 (rewrite or_return_group; cbn zeta; rewrite group_config;
    match goal with |- context [env_RESTClientFor env ?cfg ?l] =>
      destruct (env_RESTClientFor env cfg l) as [?|e]
    end;
    [|rewrite <- ?(assoc_L (++)); cbn [app]; eexists _, (Err e); split; [reflexivity|last_failed]]).
  rewrite or_return_discovery; cbn zeta.
  destruct (env_NewDiscoveryClientForConfig _ _ _) as [?|e];
    rewrite <- ?(assoc_L (++)); cbn [app]; eexists _, _; (split; [reflexivity|]); [done|last_failed].
Qed.

(** C35: the clientset for a configuration.  Without a rate limiter and with a positive
    [QPS] it needs a positive [Burst]: else the error says so and nothing is
    constructed, and with one a single limiter is made that all clients share.  The
    clients are then constructed in the order duck, bindings, internal, servicebinding,
    discovery, up to the first failure, whose error is returned: the first four for the
    version of their group ([duck.bindings.labs.vmware.com/v1alpha3],
    [bindings.labs.vmware.com/v1alpha1], [internal.bindings.labs.vmware.com/v1alpha1],
    [servicebinding.io/v1alpha3]) under the path [/apis], all with the same limiter. *)
Theorem NewForConfig_builds c log :
  if wants_limiter c then
    if bool_decide (Config_Burst c ≤ 0)%Z then NewForConfig env c log = (Done (Err (PlainError burst_message)), log)
    else ∃ evs res,
      NewForConfig env c log =
        (Done res, log ++ [EvNewTokenBucketRateLimiter (Config_QPS c) (Config_Burst c) (length log)] ++ evs) ∧
      outcome_of (Some (length log)) c evs res
  else ∃ evs res, NewForConfig env c log = (Done res, log ++ evs) ∧ outcome_of (Config_RateLimiter c) c evs res.
Proof.
  unfold NewForConfig. cbn zeta. fold (wants_limiter c). destruct (wants_limiter c); [|apply clients_run].
  destruct (bool_decide (Config_Burst c ≤ 0)%Z); [done|].
  unfold NewTokenBucketRateLimiter. rewrite bind_call.
  destruct (clients_run (Config_set_RateLimiter c (length log))
    (log ++ [EvNewTokenBucketRateLimiter (Config_QPS c) (Config_Burst c) (length log)])) as (evs & res & -> & Ho).
  exists evs, res. by rewrite <- (assoc_L (++)).
Qed.

(** [NewForConfigOrDie] makes the clients from the configuration as it is: it makes
    no limiter for them to share, and it accepts a configuration that [NewForConfig]
    rejects for its [Burst]. *)
Theorem NewForConfigOrDie_ignores_limits c log d b i s disc :
  wants_limiter c = true → (Config_Burst c ≤ 0)%Z →
  (∀ l, env_RESTClientFor env (duckv1alpha3.setConfigDefaults c) l = Ok d) →
  (∀ l, env_RESTClientFor env (bindingsv1alpha1.setConfigDefaults c) l = Ok b) →
  (∀ l, env_RESTClientFor env (internalv1alpha1.setConfigDefaults c) l = Ok i) →
  (∀ l, env_RESTClientFor env (servicebindingv1alpha3.setConfigDefaults c) l = Ok s) →
  (∀ l, env_NewDiscoveryClientForConfig env c l = Ok disc) →
  let cs := mkClientset _ disc (mkGroupClient _ d) (mkGroupClient _ b) (mkGroupClient _ i) (mkGroupClient _ s) in
  NewForConfig env c log = (Done (Err (PlainError burst_message)), log) ∧
  NewForConfigOrDie env c log = (Done cs, log ++ built (Config_RateLimiter c) c cs).
Proof.
  intros Hw Hb Hd1 Hd2 Hd3 Hd4 Hd5. cbn zeta. split.
  - unfold NewForConfig. cbn zeta. fold (wants_limiter c). by rewrite Hw, bool_decide_eq_true_2.
  - unfold NewForConfigOrDie, duckv1alpha3.NewForConfigOrDie, bindingsv1alpha1.NewForConfigOrDie,
      internalv1alpha1.NewForConfigOrDie, servicebindingv1alpha3.NewForConfigOrDie, group_NewForConfigOrDie,
      NewDiscoveryClientForConfigOrDie, NewDiscoveryClientForConfig.
    unfold bind, ret, call, panic. rewrite !group_run. cbn zeta.
    change (group_setConfigDefaults duck_SchemeGroupVersion) with duckv1alpha3.setConfigDefaults.
    rewrite Hd1, group_run. cbn zeta.
    change (group_setConfigDefaults PS.SchemeGroupVersion) with bindingsv1alpha1.setConfigDefaults.
    rewrite Hd2, group_run. cbn zeta.
    change (group_setConfigDefaults SchemeGroupVersion) with internalv1alpha1.setConfigDefaults.
    rewrite Hd3, group_run. cbn zeta.
    change (group_setConfigDefaults SB.SchemeGroupVersion) with servicebindingv1alpha3.setConfigDefaults.
    rewrite Hd4, Hd5, <- !(assoc_L (++)). unfold built. by rewrite discovery_config, <- !group_config.
Qed.
End facts.

(** ** Witness *)
#[local] Existing Instance string_opaque.

(** Configurations by their [QPS], clients by their group. *)
Definition sample_rest : RestLibrary := {|
  RESTClient := option GroupVersion; DiscoveryClient := unit; float32 := Z;
  float32_positive q := bool_decide (0 < q)%Z; Serializer := unit; Codecs_WithoutConversion := tt;
  DefaultKubernetesUserAgent := "manager"; NewDiscoveryClient _ := tt;
|}.
#[local] Existing Instance sample_rest.

Definition sample_config_env : ConfigEnv := {|
  env_RESTClientFor c _ := Ok (Config_GroupVersion c : RESTClient);
  env_NewDiscoveryClientForConfig _ _ := Ok (tt : DiscoveryClient);
|}.

(** Five queries per second and no burst. *)
Definition sample_config : Config := mkConfig _ _ None "" None "" (5%Z : float32) 0 None "".

Lemma NewForConfigOrDie_ignores_limits_witness :
  wants_limiter sample_config = true ∧
  ∃ cs, NewForConfigOrDie sample_config_env sample_config [] = (Done cs, built None sample_config cs).
Proof.
  split; [reflexivity|]. eexists.
  apply (NewForConfigOrDie_ignores_limits sample_config_env sample_config []); done.
Defined.
