(* ===== verification/FakeClients.v ===== *)
(** * The fake clients

    [typed/*/*/fake/fake_*.go] and [clientset/versioned/fake]: clients for tests that
    turn each call into an action and hand it to [testing.Fake] of [k8s.io/client-go],
    which answers with an object (or nil) and an error.  The three files are the same but
    for the kind, so the methods are written once and repeated under the names of the
    files. *)
From S2P Require Import Prelude Api Effects Conditions Projection Binding Provisioned.
From S2P Require Import KindReconciler Kinds Admission Clients Clientset.

(** ** Actions and objects *)

(** The constructors of [k8s.io/client-go/testing], with their arguments. *)
Inductive Action `{Opaque} (K : Type) :=
| NewGetAction (r : GroupVersionResource) (ns name : string)
| NewListAction (r : GroupVersionResource) (kind : GroupVersionKind) (ns : string) (opts : ListOptions)
| NewWatchAction (r : GroupVersionResource) (ns : string) (opts : ListOptions)
| NewCreateAction (r : GroupVersionResource) (ns : string) (k : K)
| NewUpdateAction (r : GroupVersionResource) (ns : string) (k : K)
| NewUpdateSubresourceAction (r : GroupVersionResource) (subresource ns : string) (k : K)
| NewDeleteAction (r : GroupVersionResource) (ns name : string)
| NewDeleteCollectionAction (r : GroupVersionResource) (ns : string) (opts : ListOptions)
| NewPatchSubresourceAction (r : GroupVersionResource) (ns name pt data : string) (subresources : list string).
Arguments NewGetAction {_ _} _ _ _.
Arguments NewListAction {_ _} _ _ _ _.
Arguments NewWatchAction {_ _} _ _ _.
Arguments NewCreateAction {_ _} _ _ _.
Arguments NewUpdateAction {_ _} _ _ _.
Arguments NewUpdateSubresourceAction {_ _} _ _ _ _.
Arguments NewDeleteAction {_ _} _ _ _.
Arguments NewDeleteCollectionAction {_ _} _ _ _.
Arguments NewPatchSubresourceAction {_ _} _ _ _ _ _ _.

(** A [runtime.Object]: an object of the kind, a list of them, or something else. *)
Inductive fake_object `{Opaque} (K : Type) :=
| AnObject (k : K)
| AList (l : KindList K)
| ForeignObject.
Arguments AnObject {_ _} _.
Arguments AList {_ _} _.
Arguments ForeignObject {_ _}.

Inductive fake_event `{Opaque} (K W : Type) :=
| EvInvokes (a : Action K) (r : option (fake_object K) * option error)
| EvInvokesWatch (a : Action K) (r : option W * option error).
Arguments EvInvokes {_ _ _} _ _.
Arguments EvInvokesWatch {_ _ _} _ _.

(** [testing.Fake]: its reactors answer an action, or the default object is returned. *)
Record FakeEnv `{Opaque} (E K W : Type) := {
  fake_Invokes : Action K → fake_object K → list E → option (fake_object K) * option error;
  fake_InvokesWatch : Action K → list E → option W * option error;
}.
Arguments fake_Invokes {_ E K W} _ _ _ _.
Arguments fake_InvokesWatch {_ E K W} _ _ _.

(** Label selectors: the first result of [testing.ExtractFromListOptions],
    [labels.Everything] and [Matches]; a nil map has no labels. *)
Class LabelSelectors `{Opaque} := {
  Selector : Type;
  ExtractFromListOptions : ListOptions → option Selector;
  Everything : Selector;
  Matches : Selector → smap → bool;
}.

(** ** The methods *)
Section fake.
Context `{LabelSelectors} {E K W Status : Type} `{!Kind K Status}.
Context (emit : fake_event K W → E) (env : FakeEnv E K W).
Context (resource : GroupVersionResource) (kind : GroupVersionKind) (zero : K) (ns : string).

Definition Invokes (a : Action K) (default : fake_object K) :
    M E (option (fake_object K) * option error) :=
  call (fake_Invokes env a default) (λ r, emit (EvInvokes a r)).
Definition InvokesWatch (a : Action K) : M E (option W * option error) :=
  call (fake_InvokesWatch env a) (λ r, emit (EvInvokesWatch a r)).

Local Open Scope effect_scope.

(** [if obj == nil { return nil, err }; return obj.( *T), err]: a pointer and an error,
    both of which may be there; an object of another type panics. *)
Definition object_or_nil (r : option (fake_object K) * option error) : M E (option K * option error) :=
  match r with
  | (None, err) => ret (None, err)
  | (Some (AnObject k), err) => ret (Some k, err)
  | (Some _, _) => panic
  end.

Definition fake_Get (name : string) (options : opaque) : M E (option K * option error) :=
  do! r := Invokes (NewGetAction resource ns name) (AnObject zero) in object_or_nil r.

Definition fake_List (opts : ListOptions) : M E (option (KindList K) * option error) :=
  do! r := Invokes (NewListAction resource kind ns opts) (AList (mkKindList opaque_zero [])) in
  match r with
  | (None, err) => ret (None, err)
  | (Some (AList obj), err) =>
      let label := match ExtractFromListOptions opts with None => Everything | Some label => label end in
      let list := mkKindList (KindList_Meta _ obj) [] in
      let list := foldl (λ list item,
        if Matches label (default ∅ (Meta_Labels (kind_meta item)))
        then mkKindList (KindList_Meta _ list) (KindList_Items list ++ [item]) else list)
        list (KindList_Items obj) in
      ret (Some list, err)
  | (Some _, _) => panic
  end.

Definition fake_Watch (opts : ListOptions) : M E (option W * option error) :=
  InvokesWatch (NewWatchAction resource ns opts).

Definition fake_Create (k : K) (opts : opaque) : M E (option K * option error) :=
  do! r := Invokes (NewCreateAction resource ns k) (AnObject zero) in object_or_nil r.

Definition fake_Update (k : K) (opts : opaque) : M E (option K * option error) :=
  do! r := Invokes (NewUpdateAction resource ns k) (AnObject zero) in object_or_nil r.

Definition fake_UpdateStatus (k : K) (opts : opaque) : M E (option K * option error) :=
  do! r := Invokes (NewUpdateSubresourceAction resource "status" ns k) (AnObject zero) in object_or_nil r.

Definition fake_Delete (name : string) (opts : opaque) : M E (option error) :=
  do! r := Invokes (NewDeleteAction resource ns name) (AnObject zero) in ret (snd r).

Definition fake_DeleteCollection (opts : opaque) (listOpts : ListOptions) : M E (option error) :=
  let action := NewDeleteCollectionAction resource ns listOpts in
  do! r := Invokes action (AList (mkKindList opaque_zero [])) in ret (snd r).

Definition fake_Patch (name pt data : string) (opts : opaque) (subresources : list string) :
    M E (option K * option error) :=
  do! r := Invokes (NewPatchSubresourceAction resource ns name pt data subresources) (AnObject zero) in
  object_or_nil r.
End fake.

(** ** The three files *)

(** [typed/servicebinding/v1alpha3/fake/fake_servicebinding.go] *)
Module FakeServiceBindings.
Definition servicebindingsResource : GroupVersionResource := mkGVR "servicebinding.io" "v1alpha3" "servicebindings".
Definition servicebindingsKind : GroupVersionKind := mkGVK "servicebinding.io" "v1alpha3" "ServiceBinding".

Section fake.
Context `{LabelSelectors} {E W : Type} (emit : fake_event ServiceBinding W → E) (env : FakeEnv E ServiceBinding W).
Context (ns : string).

Definition zero : ServiceBinding := mkSB (newMeta "" "") (mkSBSpec "" "" "" None None []) (mkSBStatus 0 [] None).

Definition Get : string → opaque → M E (option ServiceBinding * option error) :=
  fake_Get emit env servicebindingsResource zero ns.
Definition List : ListOptions → M E (option (KindList ServiceBinding) * option error) :=
  fake_List emit env servicebindingsResource servicebindingsKind ns.
Definition Watch : ListOptions → M E (option W * option error) :=
  fake_Watch emit env servicebindingsResource ns.
Definition Create : ServiceBinding → opaque → M E (option ServiceBinding * option error) :=
  fake_Create emit env servicebindingsResource zero ns.
Definition Update : ServiceBinding → opaque → M E (option ServiceBinding * option error) :=
  fake_Update emit env servicebindingsResource zero ns.
Definition UpdateStatus : ServiceBinding → opaque → M E (option ServiceBinding * option error) :=
  fake_UpdateStatus emit env servicebindingsResource zero ns.
Definition Delete : string → opaque → M E (option error) :=
  fake_Delete emit env servicebindingsResource zero ns.
Definition DeleteCollection : opaque → ListOptions → M E (option error) :=
  fake_DeleteCollection emit env servicebindingsResource ns.
Definition Patch : string → string → string → opaque → list string → M E (option ServiceBinding * option error) :=
  fake_Patch emit env servicebindingsResource zero ns.
End fake.
End FakeServiceBindings.

(** [typed/labs/v1alpha1/fake/fake_provisionedservice.go] *)
Module FakeProvisionedServices.
Definition provisionedservicesResource : GroupVersionResource := mkGVR "bindings.labs.vmware.com" "v1alpha1" "provisionedservices".
Definition provisionedservicesKind : GroupVersionKind := mkGVK "bindings.labs.vmware.com" "v1alpha1" "ProvisionedService".

Section fake.
Context `{LabelSelectors} {E W : Type} (emit : fake_event ProvisionedService W → E) (env : FakeEnv E ProvisionedService W).
Context (ns : string).

Definition zero : ProvisionedService := mkPS (newMeta "" "") (mkPSSpec (mkLocalObjectReference ""))
  (mkPSStatus zeroStatus (mkLocalObjectReference "")).

Definition Get : string → opaque → M E (option ProvisionedService * option error) :=
  fake_Get emit env provisionedservicesResource zero ns.
Definition List : ListOptions → M E (option (KindList ProvisionedService) * option error) :=
  fake_List emit env provisionedservicesResource provisionedservicesKind ns.
Definition Watch : ListOptions → M E (option W * option error) :=
  fake_Watch emit env provisionedservicesResource ns.
Definition Create : ProvisionedService → opaque → M E (option ProvisionedService * option error) :=
  fake_Create emit env provisionedservicesResource zero ns.
Definition Update : ProvisionedService → opaque → M E (option ProvisionedService * option error) :=
  fake_Update emit env provisionedservicesResource zero ns.
Definition UpdateStatus : ProvisionedService → opaque → M E (option ProvisionedService * option error) :=
  fake_UpdateStatus emit env provisionedservicesResource zero ns.
Definition Delete : string → opaque → M E (option error) :=
  fake_Delete emit env provisionedservicesResource zero ns.
Definition DeleteCollection : opaque → ListOptions → M E (option error) :=
  fake_DeleteCollection emit env provisionedservicesResource ns.
Definition Patch : string → string → string → opaque → list string → M E (option ProvisionedService * option error) :=
  fake_Patch emit env provisionedservicesResource zero ns.
End fake.
End FakeProvisionedServices.

(** [typed/labsinternal/v1alpha1/fake/fake_servicebindingprojection.go] *)
Module FakeServiceBindingProjections.
Definition servicebindingprojectionsResource : GroupVersionResource := mkGVR "internal.bindings.labs.vmware.com" "v1alpha1" "servicebindingprojections".
Definition servicebindingprojectionsKind : GroupVersionKind := mkGVK "internal.bindings.labs.vmware.com" "v1alpha1" "ServiceBindingProjection".

Section fake.
Context `{LabelSelectors} {E W : Type} (emit : fake_event ServiceBindingProjection W → E) (env : FakeEnv E ServiceBindingProjection W).
Context (ns : string).

Definition zero : ServiceBindingProjection := mkSBP (newMeta "" "")
  (mkSBPSpec "" "" "" (mkLocalObjectReference "") (mkWorkloadReference (mkReference "" "" "" "" None) []) [])
  (mkSBPStatus zeroStatus).

Definition Get : string → opaque → M E (option ServiceBindingProjection * option error) :=
  fake_Get emit env servicebindingprojectionsResource zero ns.
Definition List : ListOptions → M E (option (KindList ServiceBindingProjection) * option error) :=
  fake_List emit env servicebindingprojectionsResource servicebindingprojectionsKind ns.
Definition Watch : ListOptions → M E (option W * option error) :=
  fake_Watch emit env servicebindingprojectionsResource ns.
Definition Create : ServiceBindingProjection → opaque → M E (option ServiceBindingProjection * option error) :=
  fake_Create emit env servicebindingprojectionsResource zero ns.
Definition Update : ServiceBindingProjection → opaque → M E (option ServiceBindingProjection * option error) :=
  fake_Update emit env servicebindingprojectionsResource zero ns.
Definition UpdateStatus : ServiceBindingProjection → opaque → M E (option ServiceBindingProjection * option error) :=
  fake_UpdateStatus emit env servicebindingprojectionsResource zero ns.
Definition Delete : string → opaque → M E (option error) :=
  fake_Delete emit env servicebindingprojectionsResource zero ns.
Definition DeleteCollection : opaque → ListOptions → M E (option error) :=
  fake_DeleteCollection emit env servicebindingprojectionsResource ns.
Definition Patch : string → string → string → opaque → list string → M E (option ServiceBindingProjection * option error) :=
  fake_Patch emit env servicebindingprojectionsResource zero ns.
End fake.
End FakeServiceBindingProjections.

(** ** The fake clientset *)

(** [testing.ObjectTracker]: the objects it holds, [Add] as client-go has it, and its
    watches. *)
Class ObjectTrackers := {
  RuntimeObj : Type;
  Tracker : Type;
  NewObjectTracker : Tracker;
  Add : Tracker → RuntimeObj → result error Tracker;
  WatchInterface : Type;
  tracker_Watch : Tracker → GroupVersionResource → string → result error WatchInterface;
}.

(** [testing.Fake] with the reactors that were added: [ObjectReaction] of a tracker for
    every verb and resource, and the function for every watch. *)
Record FakeClientset `{ObjectTrackers} := mkFakeClientset {
  fake_tracker : Tracker;
  fake_reactors : list (string * string * Tracker);
  fake_watchReactors :
    list (string * (GroupVersionResource → string → bool * option WatchInterface * option error));
}.

Section fake_clientset.
Context `{ObjectTrackers}.

(** The function given to [AddWatchReactor]. *)
Definition watchReaction (o : Tracker) (gvr : GroupVersionResource) (namespace : string) :
    bool * option WatchInterface * option error :=
  match tracker_Watch o gvr namespace with
  | Err err => (false, None, Some err)
  | Ok watch => (true, Some watch, None)
  end.

(** [for _, obj := range objects { if err := o.Add(obj); err != nil { panic(err) } }] *)
Fixpoint addObjects (o : Tracker) (objects : list RuntimeObj) : outcome Tracker :=
  match objects with
  | [] => Done o
  | obj :: objects => match Add o obj with Ok o => addObjects o objects | Err _ => Panic end
  end.

Definition NewSimpleClientset (objects : list RuntimeObj) : outcome FakeClientset :=
  match addObjects NewObjectTracker objects with
  | Panic => Panic
  | Done o => Done (mkFakeClientset _ o [("*", "*", o)] [("*", watchReaction o)])
  end.

Definition GetTracker (c : FakeClientset) : Tracker := fake_tracker c.
End fake_clientset.

(** [FakeDuckV1alpha3] and the other three structs, [FakeServiceBindings] and the other two,
    and the [FakeDiscovery] of client-go that [NewSimpleClientset] keeps in the field
    [discovery]: all point to the [testing.Fake] of the clientset. *)
Record FakeGroup `{ObjectTrackers} := mkFakeGroup { group_Fake : FakeClientset }.
Record FakeResource `{ObjectTrackers} := mkFakeResource { resource_Fake : FakeGroup; resource_ns : string }.
Record FakeDiscovery `{ObjectTrackers} := mkFakeDiscovery { discovery_Fake : FakeClientset }.

Module fake.
Section accessors.
Context `{ObjectTrackers}.

(** [&c.Fake] dereferences [c]. *)
Definition group (c : option FakeClientset) : outcome FakeGroup := omap_outcome (mkFakeGroup _) (deref c).
Definition Discovery (c : option FakeClientset) : outcome FakeDiscovery := omap_outcome (mkFakeDiscovery _) (deref c).
Definition DuckV1alpha3 (c : option FakeClientset) : outcome FakeGroup := group c.
Definition BindingsV1alpha1 (c : option FakeClientset) : outcome FakeGroup := group c.
Definition InternalV1alpha1 (c : option FakeClientset) : outcome FakeGroup := group c.
Definition ServicebindingV1alpha3 (c : option FakeClientset) : outcome FakeGroup := group c.

Definition ProvisionedServices (c : FakeGroup) (namespace : string) : FakeResource := mkFakeResource _ c namespace.
Definition ServiceBindingProjections (c : FakeGroup) (namespace : string) : FakeResource := mkFakeResource _ c namespace.
Definition ServiceBindings (c : FakeGroup) (namespace : string) : FakeResource := mkFakeResource _ c namespace.
End accessors.
End fake.

(** [FakeDuckV1alpha3.RESTClient] and those of the other groups: an interface that holds
    a nil pointer, so not the nil interface. *)
Definition fake_RESTClient `{RestLibrary} : option (option RESTClient) := Some None.

(** [AddToScheme] of [clientset/versioned/fake/register.go] *)
Definition fake_AddToScheme (s : scheme) : scheme :=
  servicebinding_addKnownTypes (labsinternal_addKnownTypes (labs_addKnownTypes (duck_addKnownTypes s))).
