(* ===== verification/FakeClientsFacts.v ===== *)
(** * The fake clients stand for the typed ones

    A call of a fake client is the action of the resource, namespace, name, subresource
    and object that the request of the typed client names, so a test against the fake
    exercises the same operations; and its [List] keeps exactly the objects that the
    label selector matches. *)
From S2P Require Import Prelude Api Effects Conditions Projection Binding Provisioned.
From S2P Require Import KindReconciler Kinds Admission Clients Clientset FakeClients.

(** ** What a request and an action are about *)

(** The operation of the API: the verb as Kubernetes names it, the namespace, the
    resource, the name, the subresources, and the object or the patch. *)
Record operation (K : Type) := mkOperation {
  op_verb : string;
  op_namespace : string;
  op_resource : string;
  op_name : string;
  op_subresources : list string;
  op_object : option (K + string * string);
}.
Arguments mkOperation {_} _ _ _ _ _ _.

Section operations.
Context `{Opaque} {K Status : Type} `{!Kind K Status}.

(** Kubernetes' verb of a request: a collection is listed, watched or deleted whole. *)
Definition request_verb (r : Request K) : string :=
  let collection := bool_decide (Request_name r = "") in
  match Request_verb r with
  | GET => if collection then
             match Request_params r with
             | CallListOptions o => if ListOptions_Watch o then "watch" else "list"
             | _ => "list"
             end
           else "get"
  | POST => "create"
  | PUT => "update"
  | DELETE => if collection then "delete-collection" else "delete"
  | PATCH _ => "patch"
  end.

(** A name in the path, or that of the object in the body. *)
Definition request_operation (r : Request K) : operation K :=
  mkOperation (request_verb r) (Request_namespace r) (Request_resource r) (Request_name r)
    (Request_subresource r)
    match Request_verb r, Request_body r with
    | _, BodyObject k => Some (inl k)
    | PATCH pt, BodyBytes data => Some (inr (pt, data))
    | _, _ => None
    end.

Definition action_operation (a : Action K) : operation K :=
  match a with
  | NewGetAction r ns name => mkOperation "get" ns (GVR_Resource r) name [] None
  | NewListAction r _ ns _ => mkOperation "list" ns (GVR_Resource r) "" [] None
  | NewWatchAction r ns _ => mkOperation "watch" ns (GVR_Resource r) "" [] None
  | NewCreateAction r ns k => mkOperation "create" ns (GVR_Resource r) "" [] (Some (inl k))
  | NewUpdateAction r ns k =>
      mkOperation "update" ns (GVR_Resource r) (Meta_Name (kind_meta k)) [] (Some (inl k))
  | NewUpdateSubresourceAction r sub ns k =>
      mkOperation "update" ns (GVR_Resource r) (Meta_Name (kind_meta k)) [sub] (Some (inl k))
  | NewDeleteAction r ns name => mkOperation "delete" ns (GVR_Resource r) name [] None
  | NewDeleteCollectionAction r ns _ => mkOperation "delete-collection" ns (GVR_Resource r) "" [] None
  | NewPatchSubresourceAction r ns name pt data subs =>
      mkOperation "patch" ns (GVR_Resource r) name subs (Some (inr (pt, data)))
  end.

(** The operations of the calls a client logged. *)
Definition rest_operations {W} (e : rest_event K W) : operation K :=
  match e with EvObject r _ | EvList r _ | EvWatch r _ | EvNoContent r _ => request_operation r end.
Definition fake_operations {W} (e : fake_event K W) : operation K :=
  match e with EvInvokes a _ | EvInvokesWatch a _ => action_operation a end.

(** The resource of an action with its group and version, and the kind of a list. *)
Definition action_resource (a : Action K) : GroupVersionResource :=
  match a with
  | NewGetAction r _ _ | NewListAction r _ _ _ | NewWatchAction r _ _ | NewCreateAction r _ _
  | NewUpdateAction r _ _ | NewUpdateSubresourceAction r _ _ _ | NewDeleteAction r _ _
  | NewDeleteCollectionAction r _ _ | NewPatchSubresourceAction r _ _ _ _ _ => r
  end.
Definition action_kind (a : Action K) : option GroupVersionKind :=
  match a with NewListAction _ kind _ _ => Some kind | _ => None end.
Definition fake_action {W} (e : fake_event K W) : Action K :=
  match e with EvInvokes a _ | EvInvokesWatch a _ => a end.

(** The two computations make one call each: both are about [op], and the action of the
    fake one is on the resource [gvr], of kind [gvk] when it lists. *)
Definition both_about {W A B} (gvr : GroupVersionResource) (gvk : option GroupVersionKind) (op : operation K)
    (m : M (rest_event K W) A) (m' : M (fake_event K W) B) : Prop :=
  ∀ log log', ∃ e e', (m log).2 = log ++ [e] ∧ (m' log').2 = log' ++ [e'] ∧
    rest_operations e = op ∧ fake_operations e' = op ∧
    action_resource (fake_action e') = gvr ∧ action_kind (fake_action e') = gvk.

(** The methods of a typed client and those of a fake one, in a namespace. *)
Record typed_methods (W : Type) := {
  t_Get : string → opaque → M (rest_event K W) (result error K);
  t_List : ListOptions → M (rest_event K W) (result error (KindList K));
  t_Watch : ListOptions → M (rest_event K W) (result error W);
  t_Create : K → opaque → M (rest_event K W) (result error K);
  t_Update : K → opaque → M (rest_event K W) (result error K);
  t_UpdateStatus : K → opaque → M (rest_event K W) (result error K);
  t_Delete : string → opaque → M (rest_event K W) (option error);
  t_DeleteCollection : opaque → ListOptions → M (rest_event K W) (option error);
  t_Patch : string → string → string → opaque → list string → M (rest_event K W) (result error K);
}.
Record fake_methods (W : Type) := {
  f_Get : string → opaque → M (fake_event K W) (option K * option error);
  f_List : ListOptions → M (fake_event K W) (option (KindList K) * option error);
  f_Watch : ListOptions → M (fake_event K W) (option W * option error);
  f_Create : K → opaque → M (fake_event K W) (option K * option error);
  f_Update : K → opaque → M (fake_event K W) (option K * option error);
  f_UpdateStatus : K → opaque → M (fake_event K W) (option K * option error);
  f_Delete : string → opaque → M (fake_event K W) (option error);
  f_DeleteCollection : opaque → ListOptions → M (fake_event K W) (option error);
  f_Patch : string → string → string → opaque → list string → M (fake_event K W) (option K * option error);
}.

(** The fake client of the resource [gvr] and the kind [gvk] stands for the typed one.  The
    typed [Get] and [Delete] of the empty name would be about the collection, and a
    [List] with the option to watch would be a watch. *)
Record matches {W} (gvr : GroupVersionResource) (gvk : GroupVersionKind) (ns : string)
    (t : typed_methods W) (f : fake_methods W) : Prop := {
  matches_Get name o o' : name ≠ "" →
    both_about gvr None (mkOperation "get" ns (GVR_Resource gvr) name [] None) (t_Get _ t name o) (f_Get _ f name o');
  matches_List o : ListOptions_Watch o = false →
    both_about gvr (Some gvk) (mkOperation "list" ns (GVR_Resource gvr) "" [] None) (t_List _ t o) (f_List _ f o);
  matches_Watch o :
    both_about gvr None (mkOperation "watch" ns (GVR_Resource gvr) "" [] None) (t_Watch _ t o) (f_Watch _ f o);
  matches_Create k o o' :
    both_about gvr None (mkOperation "create" ns (GVR_Resource gvr) "" [] (Some (inl k)))
      (t_Create _ t k o) (f_Create _ f k o');
  matches_Update k o o' :
    both_about gvr None (mkOperation "update" ns (GVR_Resource gvr) (Meta_Name (kind_meta k)) [] (Some (inl k)))
      (t_Update _ t k o) (f_Update _ f k o');
  matches_UpdateStatus k o o' :
    both_about gvr None
      (mkOperation "update" ns (GVR_Resource gvr) (Meta_Name (kind_meta k)) ["status"] (Some (inl k)))
      (t_UpdateStatus _ t k o) (f_UpdateStatus _ f k o');
  matches_Delete name o o' : name ≠ "" →
    both_about gvr None (mkOperation "delete" ns (GVR_Resource gvr) name [] None)
      (t_Delete _ t name o) (f_Delete _ f name o');
  matches_DeleteCollection o o' l :
    both_about gvr None (mkOperation "delete-collection" ns (GVR_Resource gvr) "" [] None)
      (t_DeleteCollection _ t o l) (f_DeleteCollection _ f o' l);
  matches_Patch name pt data o o' subs :
    both_about gvr None (mkOperation "patch" ns (GVR_Resource gvr) name subs (Some (inr (pt, data))))
      (t_Patch _ t name pt data o subs) (f_Patch _ f name pt data o' subs);
}.
End operations.

(** ** One kind *)
Section matches.
Context `{LabelSelectors} {K W Status : Type} `{!Kind K Status}.
Context (rest : RESTEnv (rest_event K W) K W) (env : FakeEnv (fake_event K W) K W).
Context (resource : GroupVersionResource) (kind : GroupVersionKind) (zero : K) (ns : string).

Lemma object_or_nil_log {E} (r : option (fake_object K) * option error) (log : list E) :
  (object_or_nil r log).2 = log.
Proof. by destruct r as [[[]|] err]. Qed.

Lemma fake_List_log opts (log : list (fake_event K W)) :
  ∃ r, (fake_List id env resource kind ns opts log).2
       = log ++ [EvInvokes (NewListAction resource kind ns opts) r].
Proof.
  unfold fake_List, Invokes. rewrite bind_call.
  exists (fake_Invokes env (NewListAction resource kind ns opts) (AList (mkKindList opaque_zero [])) log).
  by destruct (fake_Invokes _ _ _ _) as [[[]|] err].
Qed.

(** The generic code, for a resource. *)
Definition generic_typed : typed_methods W := {|
  t_Get := client_Get id rest (GVR_Resource resource) ns;
  t_List := client_List id rest (GVR_Resource resource) ns;
  t_Watch := client_Watch id rest (GVR_Resource resource) ns;
  t_Create := client_Create id rest (GVR_Resource resource) ns;
  t_Update := client_Update id rest (GVR_Resource resource) ns;
  t_UpdateStatus := client_UpdateStatus id rest (GVR_Resource resource) ns;
  t_Delete := client_Delete id rest (GVR_Resource resource) ns;
  t_DeleteCollection := client_DeleteCollection id rest (GVR_Resource resource) ns;
  t_Patch := client_Patch id rest (GVR_Resource resource) ns |}.
Definition generic_fake : fake_methods W := {|
  f_Get := fake_Get id env resource zero ns;
  f_List := fake_List id env resource kind ns;
  f_Watch := fake_Watch id env resource ns;
  f_Create := fake_Create id env resource zero ns;
  f_Update := fake_Update id env resource zero ns;
  f_UpdateStatus := fake_UpdateStatus id env resource zero ns;
  f_Delete := fake_Delete id env resource zero ns;
  f_DeleteCollection := fake_DeleteCollection id env resource ns;
  f_Patch := fake_Patch id env resource zero ns |}.

Lemma generic_matches : matches resource kind ns generic_typed generic_fake.
Proof.
  split; intros; intros log log2; cbn [t_Get t_List t_Watch t_Create t_Update t_UpdateStatus t_Delete
    t_DeleteCollection t_Patch f_Get f_List f_Watch f_Create f_Update f_UpdateStatus f_Delete f_DeleteCollection
    f_Patch generic_typed generic_fake].
  all: try (eexists _, _; split; [reflexivity|]; split;
    [first [ reflexivity
           | unfold fake_Get, fake_Create, fake_Update, fake_UpdateStatus, fake_Patch, Invokes;
             rewrite bind_call; apply object_or_nil_log ]|];
    unfold rest_operations, fake_operations, request_operation, request_verb; cbn;
    by rewrite ?bool_decide_eq_false_2 by done).
  destruct (fake_List_log o log2) as [r Hr]. eexists _, _. split; [reflexivity|]. split; [exact Hr|].
  unfold rest_operations, fake_operations, request_operation, request_verb. cbn.
  by replace (ListOptions_Watch o) with false.
Qed.

(** The fake [List] answers with exactly those objects of the tracker's answer whose
    labels the selector of the options matches, in their order, with the answer's
    metadata and error. *)
Theorem fake_List_filters opts log l err :
  fake_Invokes env (NewListAction resource kind ns opts) (AList (mkKindList opaque_zero [])) log
    = (Some (AList l), err) →
  (fake_List id env resource kind ns opts log).1 =
  Done (Some (mkKindList (KindList_Meta _ l)
    (filter (λ k, Matches (default Everything (ExtractFromListOptions opts))
                    (default ∅ (Meta_Labels (kind_meta k))) = true) (KindList_Items l))), err).
Proof.
  intros Ha. unfold fake_List, Invokes. rewrite bind_call, Ha. cbn [ret fst].
  set (label := match ExtractFromListOptions opts with None => Everything | Some label => label end).
  replace (default Everything (ExtractFromListOptions opts)) with label
    by (subst label; by destruct (ExtractFromListOptions opts)).
  do 3 f_equal. generalize (KindList_Meta _ l) as m. intros m.
  assert (∀ acc, foldl (λ list item,
      if Matches label (default ∅ (Meta_Labels (kind_meta item)))
      then mkKindList (KindList_Meta _ list) (KindList_Items list ++ [item]) else list)
    (mkKindList m acc) (KindList_Items l)
    = mkKindList m (acc ++ filter (λ k, Matches label (default ∅ (Meta_Labels (kind_meta k))) = true)
                      (KindList_Items l))) as Hacc; [|apply (Hacc [])].
  induction (KindList_Items l) as [|k ks IH]; intros acc; cbn [foldl]; [by rewrite app_nil_r|].
  destruct (Matches label (default ∅ (Meta_Labels (kind_meta k)))) eqn:Hk; cbn [KindList_Items KindList_Meta].
  - rewrite IH, filter_cons_True by done. by rewrite <- (assoc_L (++)).
  - rewrite IH, filter_cons_False by congruence. done.
Qed.
End matches.

(** ** The three packages *)
Section packages.
Context `{LabelSelectors} {W : Type}.

Definition ServiceBindings_typed (rest : RESTEnv (rest_event ServiceBinding W) ServiceBinding W) ns : typed_methods W := {|
  t_Get := ServiceBindings.Get id rest ns;
  t_List := ServiceBindings.List id rest ns;
  t_Watch := ServiceBindings.Watch id rest ns;
  t_Create := ServiceBindings.Create id rest ns;
  t_Update := ServiceBindings.Update id rest ns;
  t_UpdateStatus := ServiceBindings.UpdateStatus id rest ns;
  t_Delete := ServiceBindings.Delete id rest ns;
  t_DeleteCollection := ServiceBindings.DeleteCollection id rest ns;
  t_Patch := ServiceBindings.Patch id rest ns |}.
Definition ServiceBindings_fake (env : FakeEnv (fake_event ServiceBinding W) ServiceBinding W) ns : fake_methods W := {|
  f_Get := FakeServiceBindings.Get id env ns;
  f_List := FakeServiceBindings.List id env ns;
  f_Watch := FakeServiceBindings.Watch id env ns;
  f_Create := FakeServiceBindings.Create id env ns;
  f_Update := FakeServiceBindings.Update id env ns;
  f_UpdateStatus := FakeServiceBindings.UpdateStatus id env ns;
  f_Delete := FakeServiceBindings.Delete id env ns;
  f_DeleteCollection := FakeServiceBindings.DeleteCollection id env ns;
  f_Patch := FakeServiceBindings.Patch id env ns |}.
Definition ProvisionedServices_typed (rest : RESTEnv (rest_event ProvisionedService W) ProvisionedService W) ns : typed_methods W := {|
  t_Get := ProvisionedServices.Get id rest ns;
  t_List := ProvisionedServices.List id rest ns;
  t_Watch := ProvisionedServices.Watch id rest ns;
  t_Create := ProvisionedServices.Create id rest ns;
  t_Update := ProvisionedServices.Update id rest ns;
  t_UpdateStatus := ProvisionedServices.UpdateStatus id rest ns;
  t_Delete := ProvisionedServices.Delete id rest ns;
  t_DeleteCollection := ProvisionedServices.DeleteCollection id rest ns;
  t_Patch := ProvisionedServices.Patch id rest ns |}.
Definition ProvisionedServices_fake (env : FakeEnv (fake_event ProvisionedService W) ProvisionedService W) ns : fake_methods W := {|
  f_Get := FakeProvisionedServices.Get id env ns;
  f_List := FakeProvisionedServices.List id env ns;
  f_Watch := FakeProvisionedServices.Watch id env ns;
  f_Create := FakeProvisionedServices.Create id env ns;
  f_Update := FakeProvisionedServices.Update id env ns;
  f_UpdateStatus := FakeProvisionedServices.UpdateStatus id env ns;
  f_Delete := FakeProvisionedServices.Delete id env ns;
  f_DeleteCollection := FakeProvisionedServices.DeleteCollection id env ns;
  f_Patch := FakeProvisionedServices.Patch id env ns |}.
Definition ServiceBindingProjections_typed (rest : RESTEnv (rest_event ServiceBindingProjection W) ServiceBindingProjection W) ns : typed_methods W := {|
  t_Get := ServiceBindingProjections.Get id rest ns;
  t_List := ServiceBindingProjections.List id rest ns;
  t_Watch := ServiceBindingProjections.Watch id rest ns;
  t_Create := ServiceBindingProjections.Create id rest ns;
  t_Update := ServiceBindingProjections.Update id rest ns;
  t_UpdateStatus := ServiceBindingProjections.UpdateStatus id rest ns;
  t_Delete := ServiceBindingProjections.Delete id rest ns;
  t_DeleteCollection := ServiceBindingProjections.DeleteCollection id rest ns;
  t_Patch := ServiceBindingProjections.Patch id rest ns |}.
Definition ServiceBindingProjections_fake (env : FakeEnv (fake_event ServiceBindingProjection W) ServiceBindingProjection W) ns : fake_methods W := {|
  f_Get := FakeServiceBindingProjections.Get id env ns;
  f_List := FakeServiceBindingProjections.List id env ns;
  f_Watch := FakeServiceBindingProjections.Watch id env ns;
  f_Create := FakeServiceBindingProjections.Create id env ns;
  f_Update := FakeServiceBindingProjections.Update id env ns;
  f_UpdateStatus := FakeServiceBindingProjections.UpdateStatus id env ns;
  f_Delete := FakeServiceBindingProjections.Delete id env ns;
  f_DeleteCollection := FakeServiceBindingProjections.DeleteCollection id env ns;
  f_Patch := FakeServiceBindingProjections.Patch id env ns |}.

(** C31: the three fake clients stand for the typed clients of their kinds: each method of
    either makes one call, both about the same operation, which is written out: the verb, the
    namespace, the resource of the kind, the name, the subresource ([status] for
    [UpdateStatus]) and the object or the patch; and the action of the fake one is on the
    resource, and a list of the kind, in the group and version of the API package.  The
    name must not be empty in [Get] and [Delete], and the option to watch not be set in [List]:
    there the request of the typed client would be about something else. *)
Theorem fakes_match_clients ns
    (rest_sb : RESTEnv (rest_event ServiceBinding W) ServiceBinding W) fake_sb
    (rest_ps : RESTEnv (rest_event ProvisionedService W) ProvisionedService W) fake_ps
    (rest_sbp : RESTEnv (rest_event ServiceBindingProjection W) ServiceBindingProjection W) fake_sbp :
  matches (mkGVR "servicebinding.io" "v1alpha3" "servicebindings")
    (mkGVK "servicebinding.io" "v1alpha3" "ServiceBinding") ns
    (ServiceBindings_typed rest_sb ns) (ServiceBindings_fake fake_sb ns) ∧
  matches (mkGVR "bindings.labs.vmware.com" "v1alpha1" "provisionedservices")
    (mkGVK "bindings.labs.vmware.com" "v1alpha1" "ProvisionedService") ns
    (ProvisionedServices_typed rest_ps ns) (ProvisionedServices_fake fake_ps ns) ∧
  matches (mkGVR "internal.bindings.labs.vmware.com" "v1alpha1" "servicebindingprojections")
    (mkGVK "internal.bindings.labs.vmware.com" "v1alpha1" "ServiceBindingProjection") ns
    (ServiceBindingProjections_typed rest_sbp ns) (ServiceBindingProjections_fake fake_sbp ns).
Proof. split_and!; apply generic_matches. Qed.
End packages.

(** ** Witness *)
#[local] Existing Instance string_opaque.

(** The selectors [key=value], and the empty one. *)
Definition sample_selectors : LabelSelectors := {|
  Selector := option (string * string);
  ExtractFromListOptions o :=
    if bool_decide (ListOptions_LabelSelector o = "app=db") then Some (Some ("app", "db")) else None;
  Everything := None;
  Matches s labels := match s with Some (k, v) => bool_decide (labels !! k = Some v) | None => true end;
|}.
#[local] Existing Instance sample_selectors.

Definition labelled (name value : string) : ServiceBinding :=
  mkSB (Meta_set_Labels (newMeta name "ns") (Some {["app" := value]}))
    (SB_Spec FakeServiceBindings.zero) (SB_Status FakeServiceBindings.zero).

Definition no_meta : @opaque string_opaque := "".

(** Every action is answered by the same two objects. *)
Definition two_objects : FakeEnv (fake_event ServiceBinding unit) ServiceBinding unit := {|
  fake_Invokes _ _ _ := (Some (AList (mkKindList no_meta [labelled "a" "db"; labelled "b" "web"])), None);
  fake_InvokesWatch _ _ := (None, None);
|}.

Lemma fake_List_filters_witness :
  (fake_List id two_objects FakeServiceBindings.servicebindingsResource FakeServiceBindings.servicebindingsKind
     "ns" (mkListOptions _ "app=db" None false no_meta) []).1
  = Done (Some (mkKindList no_meta [labelled "a" "db"]), None).
Proof.
  rewrite (fake_List_filters two_objects FakeServiceBindings.servicebindingsResource
    FakeServiceBindings.servicebindingsKind "ns" (mkListOptions _ "app=db" None false no_meta) []
    (mkKindList no_meta [labelled "a" "db"; labelled "b" "web"]) None eq_refl).
  vm_compute. reflexivity.
Defined.
