(* ===== verification/Informers.v ===== *)
(** * Shared informers

    [pkg/client/informers/externalversions]: the factory that creates one informer
    for a type, starts the informers that were asked for and waits for their caches,
    and the informer of each kind.  The methods hold the factory's lock while they
    read or change it, so they are steps of a state machine in any order; the waiting
    of [WaitForCacheSync] is outside the lock and reads only its own copy.

    An informer of [k8s.io/client-go] is what it was constructed with, and an
    identity.  [go informer.Run(stopCh)] is an event: the goroutine is not modelled.
    Go iterates over a map in any order: the order is an argument. *)
From S2P Require Import Prelude Api Effects Conditions Projection Binding Provisioned.
From S2P Require Import KindReconciler Kinds Admission Clients.

#[export] Instance go_type_countable : Countable go_type.
Proof.
  refine (inj_countable' type_name (λ s,
    if bool_decide (s = "ProvisionedService") then T_ProvisionedService
    else if bool_decide (s = "ProvisionedServiceList") then T_ProvisionedServiceList
    else if bool_decide (s = "ServiceBinding") then T_ServiceBinding
    else if bool_decide (s = "ServiceBindingList") then T_ServiceBindingList
    else if bool_decide (s = "ServiceBindingProjection") then T_ServiceBindingProjection
    else T_ServiceBindingProjectionList) _).
  by intros [].
Defined.

(** [TweakListOptionsFunc]: the options it leaves. *)
Definition TweakListOptionsFunc `{Opaque} : Type := ListOptions → ListOptions.

(** [cache.SharedIndexInformer]: the identity of the object, and the arguments of
    [cache.NewSharedIndexInformer]; the closures that list and watch are given by the
    type, the namespace and the filter they capture. *)
Record SharedIndexInformer `{Opaque} := mkInformer {
  informer_id : nat;
  informer_type : go_type;
  informer_namespace : string;
  informer_tweak : option TweakListOptionsFunc;
  informer_resync : Z;
  informer_indexers : list string;
}.

Inductive factory_event `{Opaque} :=
| EvNewInformer (i : SharedIndexInformer)
| EvRun (i : SharedIndexInformer)
| EvCacheSync (i : SharedIndexInformer) (synced : bool).

(** ** The informers of the kinds *)
Section informers.
Context `{Opaque}.

(** [if tweakListOptions != nil { tweakListOptions(&options) }] *)
Definition tweaked (tweak : option TweakListOptionsFunc) (options : ListOptions) : ListOptions :=
  match tweak with Some f => f options | None => options end.

(** The closures of the [cache.ListWatch] of each informer: the calls of the typed
    client they make. *)
Section list_watch.
Context {E W : Type} (emit : ∀ K, rest_event K W → E) (env : ∀ K, RESTEnv E K W).
Context (namespace : string) (tweak : option TweakListOptionsFunc).

Definition ServiceBinding_ListFunc (options : ListOptions) : M E (result error (KindList ServiceBinding)) :=
  ServiceBindings.List (emit _) (env _) namespace (tweaked tweak options).
Definition ServiceBinding_WatchFunc (options : ListOptions) : M E (result error W) :=
  ServiceBindings.Watch (emit _) (env _) namespace (tweaked tweak options).
Definition ProvisionedService_ListFunc (options : ListOptions) : M E (result error (KindList ProvisionedService)) :=
  ProvisionedServices.List (emit _) (env _) namespace (tweaked tweak options).
Definition ProvisionedService_WatchFunc (options : ListOptions) : M E (result error W) :=
  ProvisionedServices.Watch (emit _) (env _) namespace (tweaked tweak options).
Definition ServiceBindingProjection_ListFunc (options : ListOptions) : M E (result error (KindList ServiceBindingProjection)) :=
  ServiceBindingProjections.List (emit _) (env _) namespace (tweaked tweak options).
Definition ServiceBindingProjection_WatchFunc (options : ListOptions) : M E (result error W) :=
  ServiceBindingProjections.Watch (emit _) (env _) namespace (tweaked tweak options).
End list_watch.

(** The new object is identified by the number of events before it. *)
Definition NewSharedIndexInformer (t : go_type) (namespace : string) (tweak : option TweakListOptionsFunc)
    (resyncPeriod : Z) (indexers : list string) : M factory_event SharedIndexInformer :=
  call (λ log, mkInformer _ (length log) t namespace tweak resyncPeriod indexers) EvNewInformer.

Definition NamespaceIndex : string := "namespace".

Definition NewInformerFunc : Type := Z → M factory_event SharedIndexInformer.

Definition NewFilteredServiceBindingInformer (namespace : string) (resyncPeriod : Z)
    (indexers : list string) (tweak : option TweakListOptionsFunc) : M factory_event SharedIndexInformer :=
  NewSharedIndexInformer T_ServiceBinding namespace tweak resyncPeriod indexers.
Definition NewServiceBindingInformer (namespace : string) (resyncPeriod : Z) (indexers : list string) :
    M factory_event SharedIndexInformer :=
  NewFilteredServiceBindingInformer namespace resyncPeriod indexers None.
Definition serviceBinding_defaultInformer (namespace : string) (tweak : option TweakListOptionsFunc) :
    NewInformerFunc :=
  λ resyncPeriod, NewFilteredServiceBindingInformer namespace resyncPeriod [NamespaceIndex] tweak.

Definition NewFilteredProvisionedServiceInformer (namespace : string) (resyncPeriod : Z)
    (indexers : list string) (tweak : option TweakListOptionsFunc) : M factory_event SharedIndexInformer :=
  NewSharedIndexInformer T_ProvisionedService namespace tweak resyncPeriod indexers.
Definition NewProvisionedServiceInformer (namespace : string) (resyncPeriod : Z) (indexers : list string) :
    M factory_event SharedIndexInformer :=
  NewFilteredProvisionedServiceInformer namespace resyncPeriod indexers None.
Definition provisionedService_defaultInformer (namespace : string) (tweak : option TweakListOptionsFunc) :
    NewInformerFunc :=
  λ resyncPeriod, NewFilteredProvisionedServiceInformer namespace resyncPeriod [NamespaceIndex] tweak.

Definition NewFilteredServiceBindingProjectionInformer (namespace : string) (resyncPeriod : Z)
    (indexers : list string) (tweak : option TweakListOptionsFunc) : M factory_event SharedIndexInformer :=
  NewSharedIndexInformer T_ServiceBindingProjection namespace tweak resyncPeriod indexers.
Definition NewServiceBindingProjectionInformer (namespace : string) (resyncPeriod : Z) (indexers : list string) :
    M factory_event SharedIndexInformer :=
  NewFilteredServiceBindingProjectionInformer namespace resyncPeriod indexers None.
Definition serviceBindingProjection_defaultInformer (namespace : string) (tweak : option TweakListOptionsFunc) :
    NewInformerFunc :=
  λ resyncPeriod, NewFilteredServiceBindingProjectionInformer namespace resyncPeriod [NamespaceIndex] tweak.
End informers.

(** ** The groups and their versions

    [f.Bindings().V1alpha1().ProvisionedServices()] and the other two: the structs
    [group], [version] and [provisionedServiceInformer] hold the factory, a namespace and a
    filter each.  The factory is a mutable object: the methods that reach it take it as it
    is then. *)
Record accessor `{Opaque} := mkAccessor {
  a_namespace : string;
  a_tweakListOptions : option TweakListOptionsFunc;
}.

Module labs_v1alpha1.
Section version.
Context `{Opaque}.
Definition New (namespace : string) (tweak : option TweakListOptionsFunc) : accessor :=
  mkAccessor _ namespace tweak.
Definition ProvisionedServices (v : accessor) : accessor :=
  mkAccessor _ (a_namespace v) (a_tweakListOptions v).
End version.
End labs_v1alpha1.

Module labs.
Section group.
Context `{Opaque}.
Definition New (namespace : string) (tweak : option TweakListOptionsFunc) : accessor :=
  mkAccessor _ namespace tweak.
Definition V1alpha1 (g : accessor) : accessor := labs_v1alpha1.New (a_namespace g) (a_tweakListOptions g).
End group.
End labs.

Module labsinternal_v1alpha1.
Section version.
Context `{Opaque}.
Definition New (namespace : string) (tweak : option TweakListOptionsFunc) : accessor :=
  mkAccessor _ namespace tweak.
Definition ServiceBindingProjections (v : accessor) : accessor :=
  mkAccessor _ (a_namespace v) (a_tweakListOptions v).
End version.
End labsinternal_v1alpha1.

Module labsinternal.
Section group.
Context `{Opaque}.
Definition New (namespace : string) (tweak : option TweakListOptionsFunc) : accessor :=
  mkAccessor _ namespace tweak.
Definition V1alpha1 (g : accessor) : accessor := labsinternal_v1alpha1.New (a_namespace g) (a_tweakListOptions g).
End group.
End labsinternal.

Module servicebinding_v1alpha3.
Section version.
Context `{Opaque}.
Definition New (namespace : string) (tweak : option TweakListOptionsFunc) : accessor :=
  mkAccessor _ namespace tweak.
Definition ServiceBindings (v : accessor) : accessor :=
  mkAccessor _ (a_namespace v) (a_tweakListOptions v).
End version.
End servicebinding_v1alpha3.

Module servicebinding.
Section group.
Context `{Opaque}.
Definition New (namespace : string) (tweak : option TweakListOptionsFunc) : accessor :=
  mkAccessor _ namespace tweak.
Definition V1alpha3 (g : accessor) : accessor := servicebinding_v1alpha3.New (a_namespace g) (a_tweakListOptions g).
End group.
End servicebinding.

(** ** The factory *)
Section factory.
Context `{Opaque}.

Record sharedInformerFactory := mkFactory {
  f_namespace : string;
  f_tweakListOptions : option TweakListOptionsFunc;
  f_defaultResync : Z;
  f_customResync : gmap go_type Z;
  f_informers : gmap go_type SharedIndexInformer;
  f_startedInformers : gmap go_type bool;
}.

Definition set_informers (f : sharedInformerFactory) (m : gmap go_type SharedIndexInformer) : sharedInformerFactory :=
  mkFactory (f_namespace f) (f_tweakListOptions f) (f_defaultResync f) (f_customResync f) m (f_startedInformers f).
Definition set_startedInformers (f : sharedInformerFactory) (m : gmap go_type bool) : sharedInformerFactory :=
  mkFactory (f_namespace f) (f_tweakListOptions f) (f_defaultResync f) (f_customResync f) (f_informers f) m.

(** *** Options *)
Definition SharedInformerOption : Type := sharedInformerFactory → sharedInformerFactory.

(** The entries of the map, in the order of the loop. *)
Definition WithCustomResyncConfig (resyncConfig : list (go_type * Z)) : SharedInformerOption := λ f,
  foldl (λ f '(k, v), mkFactory (f_namespace f) (f_tweakListOptions f) (f_defaultResync f)
    (<[k := v]> (f_customResync f)) (f_informers f) (f_startedInformers f)) f resyncConfig.

Definition WithTweakListOptions (tweak : option TweakListOptionsFunc) : SharedInformerOption := λ f,
  mkFactory (f_namespace f) tweak (f_defaultResync f) (f_customResync f) (f_informers f) (f_startedInformers f).

Definition WithNamespace (namespace : string) : SharedInformerOption := λ f,
  mkFactory namespace (f_tweakListOptions f) (f_defaultResync f) (f_customResync f) (f_informers f)
    (f_startedInformers f).

Definition NewSharedInformerFactoryWithOptions (defaultResync : Z) (options : list SharedInformerOption) :
    sharedInformerFactory :=
  foldl (λ factory opt, opt factory) (mkFactory "" None defaultResync ∅ ∅ ∅) options.

Definition NewSharedInformerFactory (defaultResync : Z) : sharedInformerFactory :=
  NewSharedInformerFactoryWithOptions defaultResync [].

Definition NewFilteredSharedInformerFactory (defaultResync : Z) (namespace : string)
    (tweak : option TweakListOptionsFunc) : sharedInformerFactory :=
  NewSharedInformerFactoryWithOptions defaultResync [WithNamespace namespace; WithTweakListOptions tweak].

(** *** Methods *)
Local Open Scope effect_scope.

Definition InformerFor (f : sharedInformerFactory) (informerType : go_type) (newFunc : NewInformerFunc) :
    M factory_event (sharedInformerFactory * SharedIndexInformer) :=
  match f_informers f !! informerType with
  | Some informer => ret (f, informer)
  | None =>
      let resyncPeriod := default (f_defaultResync f) (f_customResync f !! informerType) in
      do! informer := newFunc resyncPeriod in
      ret (set_informers f (<[informerType := informer]> (f_informers f)), informer)
  end.

(** The order in which the loops visit the informers. *)
Context (iterate : gmap go_type SharedIndexInformer → list (go_type * SharedIndexInformer)).

Definition isStarted (f : sharedInformerFactory) (t : go_type) : bool :=
  default false (f_startedInformers f !! t).

Definition goRun (i : SharedIndexInformer) : M factory_event unit := call (λ _, tt) (λ _, EvRun i).

Fixpoint startLoop (informers : list (go_type * SharedIndexInformer)) (f : sharedInformerFactory) :
    M factory_event sharedInformerFactory :=
  match informers with
  | [] => ret f
  | (informerType, informer) :: informers =>
      if negb (isStarted f informerType) then
        do! _ := goRun informer in
        startLoop informers (set_startedInformers f (<[informerType := true]> (f_startedInformers f)))
      else startLoop informers f
  end.

Definition Start (f : sharedInformerFactory) : M factory_event sharedInformerFactory :=
  startLoop (iterate (f_informers f)) f.

(** [cache.WaitForCacheSync] of [k8s.io/client-go]. *)
Context (env_WaitForCacheSync : SharedIndexInformer → list factory_event → bool).

Fixpoint waitLoop (informers : list (go_type * SharedIndexInformer)) (res : gmap go_type bool) :
    M factory_event (gmap go_type bool) :=
  match informers with
  | [] => ret res
  | (informType, informer) :: informers =>
      do! synced := call (env_WaitForCacheSync informer) (EvCacheSync informer) in
      waitLoop informers (<[informType := synced]> res)
  end.

Definition WaitForCacheSync (f : sharedInformerFactory) : M factory_event (gmap go_type bool) :=
  let informers := foldl (λ m '(t, i), if isStarted f t then <[t := i]> m else m)
    (∅ : gmap go_type SharedIndexInformer) (iterate (f_informers f)) in
  waitLoop (iterate informers) ∅.

Definition Bindings (f : sharedInformerFactory) : accessor := labs.New (f_namespace f) (f_tweakListOptions f).
Definition Internal (f : sharedInformerFactory) : accessor :=
  labsinternal.New (f_namespace f) (f_tweakListOptions f).
Definition Servicebinding (f : sharedInformerFactory) : accessor :=
  servicebinding.New (f_namespace f) (f_tweakListOptions f).

(** The methods [Informer] of the three informers. *)
Definition provisionedService_Informer (i : accessor) (f : sharedInformerFactory) :
    M factory_event (sharedInformerFactory * SharedIndexInformer) :=
  InformerFor f T_ProvisionedService (provisionedService_defaultInformer (a_namespace i) (a_tweakListOptions i)).
Definition serviceBindingProjection_Informer (i : accessor) (f : sharedInformerFactory) :
    M factory_event (sharedInformerFactory * SharedIndexInformer) :=
  InformerFor f T_ServiceBindingProjection
    (serviceBindingProjection_defaultInformer (a_namespace i) (a_tweakListOptions i)).
Definition serviceBinding_Informer (i : accessor) (f : sharedInformerFactory) :
    M factory_event (sharedInformerFactory * SharedIndexInformer) :=
  InformerFor f T_ServiceBinding (serviceBinding_defaultInformer (a_namespace i) (a_tweakListOptions i)).

(** [f.Bindings().V1alpha1().ProvisionedServices().Informer()] and the other two. *)
Definition ProvisionedServices_Informer (f : sharedInformerFactory) :
    M factory_event (sharedInformerFactory * SharedIndexInformer) :=
  provisionedService_Informer (labs_v1alpha1.ProvisionedServices (labs.V1alpha1 (Bindings f))) f.
Definition ServiceBindingProjections_Informer (f : sharedInformerFactory) :
    M factory_event (sharedInformerFactory * SharedIndexInformer) :=
  serviceBindingProjection_Informer
    (labsinternal_v1alpha1.ServiceBindingProjections (labsinternal.V1alpha1 (Internal f))) f.
Definition ServiceBindings_Informer (f : sharedInformerFactory) :
    M factory_event (sharedInformerFactory * SharedIndexInformer) :=
  serviceBinding_Informer (servicebinding_v1alpha3.ServiceBindings (servicebinding.V1alpha3 (Servicebinding f))) f.

(** The methods [Lister] of the three informers; [GetIndexer] is the informer's cache. *)
Section lister.
Context {Selector : Type} (GetIndexer : ∀ K, SharedIndexInformer → Indexer Selector K).

Definition provisionedService_Lister (i : accessor) (f : sharedInformerFactory) :
    M factory_event (sharedInformerFactory * kindLister Selector ProvisionedService) :=
  do! (f, informer) := provisionedService_Informer i f in
  ret (f, ProvisionedServices.NewProvisionedServiceLister (GetIndexer _ informer)).
Definition serviceBindingProjection_Lister (i : accessor) (f : sharedInformerFactory) :
    M factory_event (sharedInformerFactory * kindLister Selector ServiceBindingProjection) :=
  do! (f, informer) := serviceBindingProjection_Informer i f in
  ret (f, ServiceBindingProjections.NewServiceBindingProjectionLister (GetIndexer _ informer)).
Definition serviceBinding_Lister (i : accessor) (f : sharedInformerFactory) :
    M factory_event (sharedInformerFactory * kindLister Selector ServiceBinding) :=
  do! (f, informer) := serviceBinding_Informer i f in
  ret (f, ServiceBindings.NewServiceBindingLister (GetIndexer _ informer)).
End lister.

(** A [genericInformer]: the informer and its group and resource. *)
Record genericInformer := mkGenericInformer {
  generic_informer : SharedIndexInformer;
  generic_resource : GroupKind;
}.

Definition genericInformer_Informer (f : genericInformer) : SharedIndexInformer := generic_informer f.

(** [cache.NewGenericLister] of [k8s.io/client-go]. *)
Definition genericInformer_Lister {Selector K GenericLister : Type}
    (GetIndexer : SharedIndexInformer → Indexer Selector K)
    (NewGenericLister : Indexer Selector K → GroupKind → GenericLister) (f : genericInformer) : GenericLister :=
  NewGenericLister (GetIndexer (genericInformer_Informer f)) (generic_resource f).

(** [fmt]'s text of a resource. *)
Context (format_resource : GroupVersionResource → string).

Definition WithResource (gv : GroupVersion) (resource : string) : GroupVersionResource :=
  mkGVR (GV_Group gv) (GV_Version gv) resource.
Definition GroupResource (r : GroupVersionResource) : GroupKind := (GVR_Group r, GVR_Resource r).

Definition ForResource (f : sharedInformerFactory) (resource : GroupVersionResource) :
    M factory_event (sharedInformerFactory * result error genericInformer) :=
  let generic (m : M factory_event (sharedInformerFactory * SharedIndexInformer)) :=
    do! (f, informer) := m in ret (f, Ok (mkGenericInformer informer (GroupResource resource))) in
  if bool_decide (resource = WithResource PS.SchemeGroupVersion "provisionedservices") then
    generic (ProvisionedServices_Informer f)
  else if bool_decide (resource = WithResource SchemeGroupVersion "servicebindingprojections") then
    generic (ServiceBindingProjections_Informer f)
  else if bool_decide (resource = WithResource SB.SchemeGroupVersion "servicebindings") then
    generic (ServiceBindings_Informer f)
  else ret (f, Err (PlainError ("no informer found for " +:+ format_resource resource))).
End factory.
