(* ===== verification/InformersFacts.v ===== *)
(** * The informer factory

    The operations of the factory as steps from a new factory, and their invariant:
    one informer for a type, with the factory's configuration, started at most
    once. *)
From S2P Require Import Prelude Api Effects Conditions Projection Binding Provisioned.
From S2P Require Import KindReconciler Kinds Admission Clients Informers.

Section facts.
Context `{Opaque}.
Context (iterate : gmap go_type SharedIndexInformer → list (go_type * SharedIndexInformer)).
Context (env_WaitForCacheSync : SharedIndexInformer → list factory_event → bool).
Context (format_resource : GroupVersionResource → string).
Implicit Types (f : sharedInformerFactory) (i : SharedIndexInformer) (log : list factory_event).

(** ** Operations and reachable states *)
Inductive operation :=
| OpServiceBindings | OpProvisionedServices | OpServiceBindingProjections
| OpForResource (resource : GroupVersionResource)
| OpStart | OpWait.

Local Open Scope effect_scope.

Definition run (o : operation) f : M factory_event sharedInformerFactory :=
  match o with
  | OpServiceBindings => do! r := ServiceBindings_Informer f in ret (fst r)
  | OpProvisionedServices => do! r := ProvisionedServices_Informer f in ret (fst r)
  | OpServiceBindingProjections => do! r := ServiceBindingProjections_Informer f in ret (fst r)
  | OpForResource resource => do! r := ForResource format_resource f resource in ret (fst r)
  | OpStart => Start iterate f
  | OpWait => do! _ := WaitForCacheSync iterate env_WaitForCacheSync f in ret f
  end.

(** A factory made with any of the options, and any operations on it. *)
Inductive option_valid : SharedInformerOption → Prop :=
| valid_resync config : option_valid (WithCustomResyncConfig config)
| valid_tweak tweak : option_valid (WithTweakListOptions tweak)
| valid_namespace ns : option_valid (WithNamespace ns).

Inductive reachable : sharedInformerFactory → list factory_event → Prop :=
| reach_new resync options :
    Forall option_valid options → reachable (NewSharedInformerFactoryWithOptions resync options) []
| reach_step f log o f' log' :
    reachable f log → run o f log = (Done f', log') → reachable f' log'.

(** ** The invariant *)
Definition creates (t : go_type) (e : factory_event) : bool :=
  match e with EvNewInformer i => bool_decide (informer_type i = t) | _ => false end.
Definition runs (t : go_type) (e : factory_event) : bool :=
  match e with EvRun i => bool_decide (informer_type i = t) | _ => false end.
Definition count (p : factory_event → bool) log : nat := length (List.filter p log).

(** The informer of [t] that [f] is to create. *)
Record configured f (t : go_type) i : Prop := {
  conf_type : informer_type i = t;
  conf_namespace : informer_namespace i = f_namespace f;
  conf_tweak : informer_tweak i = f_tweakListOptions f;
  conf_resync : informer_resync i = default (f_defaultResync f) (f_customResync f !! t);
}.

Record inv f log : Prop := {
  inv_configured t i : f_informers f !! t = Some i → configured f t i;
  inv_creates t : count (creates t) log = if decide (is_Some (f_informers f !! t)) then 1 else 0;
  inv_runs t : count (runs t) log = if isStarted f t then 1 else 0;
  inv_run i : EvRun i ∈ log → f_informers f !! informer_type i = Some i;
}.

Lemma count_app p l l' : count p (l ++ l') = count p l + count p l'.
Proof. unfold count. by rewrite List.filter_app, length_app. Qed.

Lemma options_fresh options : Forall option_valid options → ∀ f,
  f_informers f = ∅ → f_startedInformers f = ∅ →
  f_informers (foldl (λ f opt, opt f) f options) = ∅ ∧
  f_startedInformers (foldl (λ f opt, opt f) f options) = ∅.
Proof.
  induction 1 as [|o options Ho _ IH]; intros f Hi Hs; [done|]. cbn. apply IH; destruct Ho; try done;
    unfold WithCustomResyncConfig; revert f Hi Hs; induction config as [|[k v] config IHc]; intros; cbn; auto.
Qed.

(** [f'] is [f] after asking for the informer of [t]. *)
Lemma InformerFor_run f log t (newFunc : NewInformerFunc) :
  inv f log →
  (∀ z log, newFunc z log = NewSharedIndexInformer t (f_namespace f) (f_tweakListOptions f) z [NamespaceIndex] log) →
  ∃ f' i new, InformerFor f t newFunc log = (Done (f', i), log ++ new) ∧ inv f' (log ++ new) ∧
    f_informers f' !! t = Some i ∧ f_informers f ⊆ f_informers f' ∧
    f_startedInformers f' = f_startedInformers f.
Proof.
  intros Hinv Hnew. unfold InformerFor. destruct (f_informers f !! t) as [i|] eqn:Ht.
  - exists f, i, []. rewrite app_nil_r. by split_and!.
  - unfold bind. rewrite Hnew. unfold NewSharedIndexInformer, call. do 3 eexists. split; [reflexivity|].
    destruct Hinv as [Hconf Hcre Hruns Hrun]. split; [split|split_and!]; cbn [f_informers set_informers].
    + intros t' i'. destruct (decide (t = t')) as [<-|Hne].
      * rewrite lookup_insert_eq. intros [= <-]. by split.
      * rewrite lookup_insert_ne by done. intros Hi. by destruct (Hconf t' i' Hi).
    + intros t'. rewrite count_app, Hcre. destruct (decide (t = t')) as [<-|Hne].
      * rewrite Ht, lookup_insert_eq. unfold count. cbn. rewrite bool_decide_eq_true_2 by done.
        destruct (decide (is_Some None)) as [[? [=]]|_].
        by rewrite decide_True by (by eexists).
      * rewrite lookup_insert_ne by done. unfold count. cbn. rewrite bool_decide_eq_false_2 by done. cbn. lia.
    + intros t'. rewrite count_app, Hruns. unfold count. cbn. change (isStarted (set_informers _ _) t') with (isStarted f t'). lia.
    + intros i Hi. apply elem_of_app in Hi as [Hi|[=]%list_elem_of_singleton].
      specialize (Hrun i Hi). destruct (decide (t = informer_type i)) as [->|Hne]; [congruence|].
      by rewrite lookup_insert_ne.
    + by rewrite lookup_insert_eq.
    + by apply insert_subseteq.
    + done.
Qed.

(** *** Starting and waiting *)
Hypothesis iterate_entries : ∀ m, iterate m ≡ₚ map_to_list m.

Lemma startLoop_run l : ∀ f log,
  (∀ t i, (t, i) ∈ l → f_informers f !! t = Some i) → inv f log →
  ∃ f' new, startLoop l f log = (Done f', log ++ new) ∧ inv f' (log ++ new) ∧
    f_informers f' = f_informers f ∧ (∀ t, isStarted f t = true → isStarted f' t = true) ∧
    ∀ t i, (t, i) ∈ l → isStarted f' t = true.
Proof.
  induction l as [|[t i] l IH]; intros f log Hl Hinv; cbn [startLoop].
  - exists f, []. rewrite app_nil_r. split_and!; try done. by intros t i ?%elem_of_nil.
  - assert (f_informers f !! t = Some i) as Hi by (apply Hl; left).
    assert (∀ t' i', (t', i') ∈ l → f_informers f !! t' = Some i') as Hl' by (intros; apply Hl; by right).
    destruct (isStarted f t) eqn:Hst; cbn [negb].
    + destruct (IH f log Hl' Hinv) as (f' & new & Hrun & Hinv' & Hf & Hmono & Hall).
      exists f', new. split_and!; try done. intros t' i' [[= -> ->]|Hin]%elem_of_cons; eauto.
    + unfold goRun. rewrite bind_call.
      set (f1 := set_startedInformers f (<[t := true]> (f_startedInformers f))).
      assert (isStarted f1 t = true) as Hst1 by (unfold isStarted, f1; cbn; by rewrite lookup_insert_eq).
      assert (∀ t', t' ≠ t → isStarted f1 t' = isStarted f t') as Hne
        by (intros t' ?; unfold isStarted, f1; cbn; by rewrite lookup_insert_ne).
      assert (inv f1 (log ++ [EvRun i])) as Hinv1.
      { destruct Hinv as [Hconf Hcre Hruns Hrun]. split.
        - intros t' i' Hi'. by destruct (Hconf t' i' Hi').
        - intros t'. rewrite count_app, Hcre. unfold count. cbn. lia.
        - intros t'. rewrite count_app, Hruns. unfold count. cbn. rewrite (conf_type _ _ _ (Hconf t i Hi)).
          destruct (decide (t = t')) as [<-|Ht].
          + rewrite bool_decide_eq_true_2 by done. by rewrite Hst, Hst1.
          + rewrite bool_decide_eq_false_2 by done. rewrite (Hne t') by done. cbn. lia.
        - intros i' [Hin|[= ->]%list_elem_of_singleton]%elem_of_app; [by apply Hrun|].
          by rewrite (conf_type _ _ _ (Hconf t i Hi)). }
      destruct (IH f1 (log ++ [EvRun i]) Hl' Hinv1) as (f' & new & Hrun & Hinv' & Hf & Hmono & Hall).
      exists f', (EvRun i :: new). rewrite <- (assoc_L (++)) in Hrun, Hinv'. split_and!; try done.
      * intros t' Ht'. apply Hmono. destruct (decide (t' = t)) as [->|]; [done|by rewrite Hne].
      * intros t' i' [[= -> ->]|Hin]%elem_of_cons; [by apply Hmono|eauto].
Qed.

Lemma Start_run f log : inv f log →
  ∃ f' new, Start iterate f log = (Done f', log ++ new) ∧ inv f' (log ++ new) ∧
    f_informers f' = f_informers f ∧ ∀ t i, f_informers f !! t = Some i → isStarted f' t = true.
Proof.
  intros Hinv. destruct (startLoop_run (iterate (f_informers f)) f log) as (f' & new & Hrun & Hi & Hf & _ & Hall).
  - intros t i. rewrite iterate_entries. apply elem_of_map_to_list.
  - done.
  - exists f', new. split_and!; try done. intros t i Ht. apply (Hall t i).
    by rewrite iterate_entries, elem_of_map_to_list.
Qed.

(** Waiting only adds its own events. *)
Definition is_sync (e : factory_event) : Prop := match e with EvCacheSync _ _ => True | _ => False end.

Lemma waitLoop_run l : ∀ res log, ∃ res' new,
  waitLoop env_WaitForCacheSync l res log = (Done res', log ++ new) ∧ Forall is_sync new.
Proof.
  induction l as [|[t i] l IH]; intros res log; cbn [waitLoop].
  - exists res, []. by rewrite app_nil_r.
  - rewrite bind_call. edestruct IH as (res' & new & Hrun & Hnew). rewrite Hrun, <- (assoc_L (++)).
    do 2 eexists. split; [reflexivity|]. by constructor.
Qed.

Lemma inv_sync f log new : Forall is_sync new → inv f log → inv f (log ++ new).
Proof.
  intros Hnew [Hconf Hcre Hruns Hrun].
  assert (∀ p, (∀ i b, p (EvCacheSync i b) = false) → count p new = 0) as H0.
  { intros p Hp. unfold count. induction Hnew as [|e l He _ IH]; [done|]. cbn. destruct e; try done. by rewrite Hp. }
  split; [done| | |].
  - intros t. rewrite count_app, Hcre, H0 by done. lia.
  - intros t. rewrite count_app, Hruns, H0 by done. lia.
  - intros i [Hi|Hi]%elem_of_app; [by apply Hrun|]. rewrite Forall_forall in Hnew. by apply Hnew in Hi.
Qed.

Ltac unfold_informers :=
  unfold ServiceBindings_Informer, ProvisionedServices_Informer, ServiceBindingProjections_Informer,
    serviceBinding_Informer, provisionedService_Informer, serviceBindingProjection_Informer.

(** Every operation ends and keeps the invariant and the informers. *)
Lemma run_inv o f log : inv f log →
  ∃ f' new, run o f log = (Done f', log ++ new) ∧ inv f' (log ++ new) ∧ f_informers f ⊆ f_informers f' ∧
    (o = OpStart → f_informers f' = f_informers f ∧ ∀ t i, f_informers f !! t = Some i → isStarted f' t = true).
Proof.
  intros Hinv.
  assert (∀ t newFunc, (∀ z log, newFunc z log =
      NewSharedIndexInformer t (f_namespace f) (f_tweakListOptions f) z [NamespaceIndex] log) →
    ∃ f' i new, InformerFor f t newFunc log = (Done (f', i), log ++ new) ∧ inv f' (log ++ new) ∧
      f_informers f ⊆ f_informers f') as Hask.
  { intros t newFunc Hnew. destruct (InformerFor_run f log t newFunc Hinv Hnew) as (f' & i & new & ? & ? & _ & ? & _).
    by exists f', i, new. }
  destruct o as [| | |resource| |]; cbn [run].
  1-3: edestruct Hask as (f' & i & new & Hrun & Hi & Hsub);
    [|unfold_informers;
      rewrite (bind_Done _ _ _ _ _ Hrun); exists f', new; by split_and!]; reflexivity.
  - unfold ForResource. repeat case_bool_decide.
    1-3: edestruct Hask as (f' & i & new & Hrun & Hi & Hsub);
      [|erewrite bind_Done; [|unfold_informers; rewrite (bind_Done _ _ _ _ _ Hrun); reflexivity];
        exists f', new; by split_and!]; reflexivity.
    exists f, []. rewrite app_nil_r. by split_and!.
  - destruct (Start_run f log Hinv) as (f' & new & Hrun & Hi & Hf & Hall). exists f', new.
    split_and!; try done. by rewrite Hf.
  - unfold WaitForCacheSync. edestruct waitLoop_run as (res & new & Hrun & Hnew).
    rewrite (bind_Done _ _ _ _ _ Hrun). exists f, new. split_and!; try done. by apply inv_sync.
Qed.

Lemma reachable_inv f log : reachable f log → inv f log.
Proof.
  induction 1 as [resync options Hopts|f log o f' log' _ IH Hrun].
  - destruct (options_fresh options Hopts (mkFactory "" None resync ∅ ∅ ∅)) as [Hi Hs]; [done|done|].
    unfold NewSharedInformerFactoryWithOptions. split.
    + intros t i. by rewrite Hi, lookup_empty.
    + intros t. rewrite Hi, lookup_empty. by rewrite decide_False by (by intros [? [=]]).
    + intros t. unfold isStarted. by rewrite Hs, lookup_empty.
    + by intros i ?%elem_of_nil.
  - destruct (run_inv o f log IH) as (f1 & new & Hrun' & Hi & _). rewrite Hrun in Hrun'. by injection Hrun' as -> ->.
Qed.

(** The resources of the three kinds. *)
Definition resource_of (t : go_type) : option GroupVersionResource :=
  match t with
  | T_ProvisionedService => Some (mkGVR "bindings.labs.vmware.com" "v1alpha1" "provisionedservices")
  | T_ServiceBinding => Some (mkGVR "servicebinding.io" "v1alpha3" "servicebindings")
  | T_ServiceBindingProjection =>
      Some (mkGVR "internal.bindings.labs.vmware.com" "v1alpha1" "servicebindingprojections")
  | _ => None
  end.

(** A request for the informer of a type: by its accessor, or by its resource. *)
Inductive requests : go_type → (sharedInformerFactory → M factory_event (sharedInformerFactory * SharedIndexInformer)) → Prop :=
| requests_bindings : requests T_ServiceBinding ServiceBindings_Informer
| requests_services : requests T_ProvisionedService ProvisionedServices_Informer
| requests_projections : requests T_ServiceBindingProjection ServiceBindingProjections_Informer
| requests_resource t resource :
    resource_of t = Some resource →
    requests t (λ f, do! r := ForResource format_resource f resource in
      match r with (f, Ok g) => ret (f, genericInformer_Informer g) | (_, Err _) => panic end).

Lemma requests_run t ask f log : requests t ask → inv f log →
  ∃ f' i new, ask f log = (Done (f', i), log ++ new) ∧ inv f' (log ++ new) ∧
    f_informers f' !! t = Some i ∧ f_informers f ⊆ f_informers f'.
Proof.
  intros Hask Hinv.
  destruct Hask as [| | |t resource Hr]; [| | |destruct t; try discriminate Hr; injection Hr as <-].
  1-3: edestruct (InformerFor_run f log) as (f' & i & new & Hrun & Hi & Ht & Hsub & _);
    [done| |exists f', i, new; by split_and!]; reflexivity.
  all: edestruct (InformerFor_run f log) as (f' & i & new & Hrun & Hi & Ht & Hsub & _);
    [done| |exists f', i, new; split_and!; [|done..]; unfold ForResource; repeat case_bool_decide; try done;
      erewrite bind_Done; [|unfold_informers; rewrite (bind_Done _ _ _ _ _ Hrun); reflexivity]; reflexivity];
    reflexivity.
Qed.

(** A request for an informer that is there. *)
Lemma requests_again t ask f log i : requests t ask → f_informers f !! t = Some i → ask f log = (Done (f, i), log).
Proof.
  intros Hask Ht. assert (∀ g, InformerFor f t g = ret (f, i)) as Hi by (intros g; unfold InformerFor; by rewrite Ht).
  destruct Hask as [| | |t resource Hr]; [| | |destruct t; try discriminate Hr; injection Hr as <-].
  all: unfold ForResource; unfold_informers; rewrite ?Hi; repeat case_bool_decide; done.
Qed.

(** C38: the factory, in every reachable state: a request for the informer of a type returns
    one and keeps it, so that every later request for the type, by its accessor or its
    resource, returns the same one.  An informer of a type has the
    factory's namespace and filter and the type's resync period, it is the only one
    created for the type, and it is run at most once, exactly when the factory has
    it as started; nothing else is run.  Every operation ends, and keeps the informer
    of a type once there is one; after [Start] every informer that was requested is started. *)
Theorem factory_shares f log : reachable f log →
  (∀ t ask, requests t ask → ∃ f' i log', ask f log = (Done (f', i), log') ∧
     f_informers f' !! t = Some i ∧ f_informers f ⊆ f_informers f' ∧ configured f' t i ∧
     ∀ f'' ask' log'', f_informers f' ⊆ f_informers f'' → requests t ask' →
       ask' f'' log'' = (Done (f'', i), log'')) ∧
  (∀ t i, f_informers f !! t = Some i → configured f t i ∧ count (creates t) log = 1 ∧
     count (runs t) log = (if isStarted f t then 1 else 0)) ∧
  (∀ i, EvRun i ∈ log → f_informers f !! informer_type i = Some i) ∧
  ∀ o, ∃ f' log', run o f log = (Done f', log') ∧ f_informers f ⊆ f_informers f' ∧
    (o = OpStart → f_informers f' = f_informers f ∧
       ∀ t i, f_informers f' !! t = Some i → count (runs t) log' = 1).
Proof.
  intros Hr. pose proof (reachable_inv f log Hr) as Hinv. pose proof Hinv as [Hconf Hcre Hruns Hrun]. split_and!.
  - intros t ask Hask. destruct (requests_run t ask f log Hask Hinv) as (f' & i & new & Ha & Hinv' & Ht & Hsub).
    exists f', i, (log ++ new). split_and!; [done|done|done|by apply (inv_configured _ _ Hinv')|].
    intros f'' ask' log'' Hlater Hask'. eapply requests_again; [exact Hask'|]. by eapply lookup_weaken.
  - intros t i Ht. split_and!; [by apply Hconf| |apply Hruns]. rewrite Hcre, Ht. by rewrite decide_True by (by eexists).
  - exact Hrun.
  - intros o. destruct (run_inv o f log Hinv) as (f' & new & Hop & Hinv' & Hsub & Hstart).
    exists f', (log ++ new). split_and!; [done|done|]. intros Ho. destruct (Hstart Ho) as [Hf Hall]. split; [done|].
    intros t i Ht. rewrite (inv_runs _ _ Hinv'). rewrite Hf in Ht. by rewrite (Hall t i Ht).
Qed.

(** ** Listers *)

Lemma InformerFor_kept f t newFunc log f' i log' f'' newFunc' log'' :
  InformerFor f t newFunc log = (Done (f', i), log') → f_informers f' ⊆ f_informers f'' →
  InformerFor f'' t newFunc' log'' = (Done (f'', i), log'').
Proof.
  intros Hrun Hsub. assert (Hi : f_informers f' !! t = Some i).
  { unfold InformerFor in Hrun. destruct (f_informers f !! t) as [i0|] eqn:Ht; [by injection Hrun as <- <- _|].
    unfold bind in Hrun. destruct (newFunc _ log) as [[i0|] log0]; [|done]. injection Hrun as <- <- _. apply lookup_insert_eq. }
  unfold InformerFor. by rewrite (lookup_weaken _ _ _ _ Hi Hsub).
Qed.

(** A lister reads the cache of the informer that was asked for before, which handlers may
    have been added to: nothing is created, whatever the factory did in between. *)
Theorem Lister_reads_informer {Selector} (GetIndexer : ∀ K, SharedIndexInformer → Indexer Selector K)
    a f log f' i log' f'' log'' :
  f_informers f' ⊆ f_informers f'' →
  (serviceBinding_Informer a f log = (Done (f', i), log') →
     serviceBinding_Lister GetIndexer a f'' log'' = (Done (f'', mkLister (GetIndexer _ i)), log'')) ∧
  (provisionedService_Informer a f log = (Done (f', i), log') →
     provisionedService_Lister GetIndexer a f'' log'' = (Done (f'', mkLister (GetIndexer _ i)), log'')) ∧
  (serviceBindingProjection_Informer a f log = (Done (f', i), log') →
     serviceBindingProjection_Lister GetIndexer a f'' log'' = (Done (f'', mkLister (GetIndexer _ i)), log'')).
Proof.
  intros Hsub. unfold serviceBinding_Lister, provisionedService_Lister, serviceBindingProjection_Lister,
    serviceBinding_Informer, provisionedService_Informer, serviceBindingProjection_Informer, bind.
  split_and!; intros Hrun; by rewrite (InformerFor_kept _ _ _ _ _ _ _ _ _ log'' Hrun Hsub).
Qed.
End facts.

(** ** Witness *)
#[local] Existing Instance string_opaque.

Definition sample_factory : sharedInformerFactory :=
  NewSharedInformerFactoryWithOptions 30 [WithNamespace "default"; WithCustomResyncConfig [(T_ServiceBinding, 60%Z)]].

Definition sample_run (o : operation) : sharedInformerFactory → M factory_event sharedInformerFactory :=
  run map_to_list (λ _ _, true) GVR_Resource o.

(** Ask for the bindings twice, start twice. *)
Definition sample_operations : list operation :=
  [OpServiceBindings; OpStart; OpForResource (WithResource SB.SchemeGroupVersion "servicebindings"); OpStart].

Fixpoint sample_runs (os : list operation) (f : sharedInformerFactory) (log : list factory_event) :
    sharedInformerFactory * list factory_event :=
  match os with
  | [] => (f, log)
  | o :: os => match sample_run o f log with (Done f', log') => sample_runs os f' log' | (Panic, _) => (f, log) end
  end.

Lemma sample_runs_reachable os : ∀ f log,
  reachable map_to_list (λ _ _, true) GVR_Resource f log →
  reachable map_to_list (λ _ _, true) GVR_Resource (sample_runs os f log).1 (sample_runs os f log).2.
Proof.
  induction os as [|o os IH]; intros f log Hr; [done|]. cbn [sample_runs].
  destruct (sample_run o f log) as [[f'|] log'] eqn:Hrun; [|done].
  apply IH. by eapply reach_step.
Qed.

Definition sample_state : sharedInformerFactory * list factory_event :=
  sample_runs sample_operations sample_factory [].

Lemma factory_shares_witness :
  ∃ i, f_informers sample_state.1 !! T_ServiceBinding = Some i ∧
    informer_resync i = 60%Z ∧ informer_namespace i = "default" ∧
    count (creates T_ServiceBinding) sample_state.2 = 1 ∧ count (runs T_ServiceBinding) sample_state.2 = 1.
Proof.
  destruct (factory_shares map_to_list (λ _ _, true) GVR_Resource (λ m, Permutation_refl _)
    sample_state.1 sample_state.2) as (_ & Hi & _).
  { apply sample_runs_reachable. apply reach_new. repeat constructor. }
  eexists. split; [vm_compute; reflexivity|].
  destruct (Hi T_ServiceBinding (mkInformer _ 0 T_ServiceBinding "default" None 60 ["namespace"]))
    as ([_ Hns _ Hre] & Hc & Hr); [vm_compute; reflexivity|].
  split_and!; [exact Hre|exact Hns|exact Hc|exact Hr].
Defined.
