(* ===== verification/Injection.v ===== *)
(** * Injection

    [pkg/client/injection]: the packages that put the client, the informer factories, the
    informers and the duck type's factory into the context at start-up, and take them out
    again.  A context is a map from the packages' keys to values; a factory is a mutable
    object, so the context holds its address in the [world], which also has the log of
    the calls to [k8s.io/client-go].

    What knative keeps in the context (the namespace scope, the resync period, the
    dynamic client) is a field of it.  The packages read nothing else; of what other modules
    keep there it has the names, which their functions may ask for. *)
From S2P Require Import Prelude Api Effects Conditions Projection Binding Provisioned Resolver.
From S2P Require Import KindReconciler Kinds Admission Clients Clientset FakeClients.
From S2P Require Import Heap Informers.

(** ** Contexts *)

(** [Key{}], [LabelKey{}] and [Key{Selector: ...}] of the packages. *)
Inductive key :=
| client_Key
| factory_Key
| filtered_LabelKey
| filtered_Key (selector : string)
| informer_Key (t : go_type)
| filteredInformer_Key (t : go_type) (selector : string)
| serviceable_Key.

#[export] Instance key_eq_dec : EqDecision key.
Proof. solve_decision. Defined.

Section injection.
Context `{Opaque, RestLibrary, ObjectTrackers} {DynamicClient : Type}.

(** [versioned.Interface] has two implementations. *)
Inductive clientset_interface :=
| RealClientset (cs : Clientset)
| AFakeClientset (cs : FakeClientset).

(** [duck.CachedInformerFactory] around a [duck.TypedInformerFactory]. *)
Record duckInformerFactory := mkDuckFactory {
  duck_Client : DynamicClient;
  duck_Type : ServiceableType;
  duck_ResyncPeriod : Z;
}.

Inductive value :=
| VClient (c : clientset_interface)
| VFactory (address : nat)
| VSelectors (selectors : list string)
| VInformer (t : go_type) (factory : nat)
| VDuck (f : duckInformerFactory).

Record Ctx := mkCtx {
  ctx_Value : key → option value;
  ctx_NamespaceScope : string;
  ctx_ResyncPeriod : Z;
  ctx_DynamicClient : option DynamicClient;
  ctx_Others : gset string;
}.

Definition WithValue (ctx : Ctx) (k : key) (v : value) : Ctx :=
  mkCtx (λ k', if decide (k' = k) then Some v else ctx_Value ctx k') (ctx_NamespaceScope ctx)
    (ctx_ResyncPeriod ctx) (ctx_DynamicClient ctx) (ctx_Others ctx).

(** [injection.HasNamespaceScope] *)
Definition HasNamespaceScope (ctx : Ctx) : bool := negb (bool_decide (ctx_NamespaceScope ctx = "")).

(** ** The world *)
Record world := mkWorld {
  w_config_calls : list config_event;
  w_factories : list (clientset_interface * sharedInformerFactory);
  w_informer_calls : list factory_event;
}.

(** Code that may panic, in the world. *)
Definition I (A : Type) : Type := world → outcome (A * world).
Definition iret {A} (a : A) : I A := λ w, Done (a, w).
Definition ipanic {A} : I A := λ _, Panic.
Definition ibind {A B} (m : I A) (k : A → I B) : I B := λ w,
  match m w with Done (a, w') => k a w' | Panic => Panic end.
Definition ilift {A} (o : outcome A) : I A := λ w,
  match o with Done a => Done (a, w) | Panic => Panic end.

Notation "'let%' x ':=' m 'in' k" := (ibind m (fun x => k))
  (at level 10, x pattern, m at level 100, k at level 200).

(** Calls that construct clients. *)
Definition config_call {A} (m : M config_event A) : I A := λ w,
  match m (w_config_calls w) with
  | (Done a, log) => Done (a, mkWorld log (w_factories w) (w_informer_calls w))
  | (Panic, _) => Panic
  end.

(** [&sharedInformerFactory{...}] *)
Definition new_factory (c : clientset_interface) (f : sharedInformerFactory) : I nat := λ w,
  Done (length (w_factories w),
        mkWorld (w_config_calls w) (w_factories w ++ [(c, f)]) (w_informer_calls w)).

(** A method of the factory at an address. *)
Definition on_factory {A} (address : nat) (m : sharedInformerFactory → M factory_event (sharedInformerFactory * A)) :
    I A := λ w,
  match w_factories w !! address with
  | None => Panic
  | Some (c, f) =>
      match m f (w_informer_calls w) with
      | (Done (f', a), log) => Done (a, mkWorld (w_config_calls w) (<[address := (c, f')]> (w_factories w)) log)
      | (Panic, _) => Panic
      end
  end.

(** ** client/client.go and client/fake/fake.go *)
Definition client_withClient (env : ConfigEnv) (ctx : Ctx) (cfg : Config) : I Ctx :=
  let% cs := config_call (NewForConfigOrDie env cfg) in
  iret (WithValue ctx client_Key (VClient (RealClientset cs))).

(** Without a value the two branches log different messages and panic. *)
Definition client_Get (ctx : Ctx) : outcome clientset_interface :=
  match ctx_Value ctx client_Key with
  | None => Panic
  | Some (VClient c) => Done c
  | Some _ => Panic
  end.

Definition fakeclient_With (ctx : Ctx) (objects : list RuntimeObj) : outcome (Ctx * FakeClientset) :=
  match NewSimpleClientset objects with
  | Done cs => Done (WithValue ctx client_Key (VClient (AFakeClientset cs)), cs)
  | Panic => Panic
  end.

Definition fakeclient_withClient (ctx : Ctx) (cfg : Config) : outcome Ctx :=
  match fakeclient_With ctx [] with Done (ctx, _) => Done ctx | Panic => Panic end.

Definition fakeclient_Get (ctx : Ctx) : outcome FakeClientset :=
  match ctx_Value ctx client_Key with
  | None => Panic
  | Some (VClient (AFakeClientset cs)) => Done cs
  | Some _ => Panic
  end.

(** ** informers/factory/factory.go *)
Definition scope_options (ctx : Ctx) : list SharedInformerOption :=
  if HasNamespaceScope ctx then [WithNamespace (ctx_NamespaceScope ctx)] else [].

Definition factory_withInformerFactory (ctx : Ctx) : I Ctx :=
  let% c := ilift (client_Get ctx) in
  let opts := scope_options ctx in
  let% f := new_factory c (NewSharedInformerFactoryWithOptions (ctx_ResyncPeriod ctx) opts) in
  iret (WithValue ctx factory_Key (VFactory f)).

Definition factory_Get (ctx : Ctx) : outcome nat :=
  match ctx_Value ctx factory_Key with
  | None => Panic
  | Some (VFactory f) => Done f
  | Some _ => Panic
  end.

(** factory/fake: the same with the fake client. *)
Definition fakefactory_withInformerFactory (ctx : Ctx) : I Ctx :=
  let% c := ilift (fakeclient_Get ctx) in
  let opts := scope_options ctx in
  let% f := new_factory (AFakeClientset c) (NewSharedInformerFactoryWithOptions (ctx_ResyncPeriod ctx) opts) in
  iret (WithValue ctx factory_Key (VFactory f)).

Definition fakefactory_Get (ctx : Ctx) : outcome nat := factory_Get ctx.

(** ** informers/factory/filtered/filtered_factory.go *)
Definition WithSelectors (ctx : Ctx) (selector : list string) : Ctx :=
  WithValue ctx filtered_LabelKey (VSelectors selector).

(** [untyped.([]string)] *)
Definition labelSelectors (ctx : Ctx) : outcome (list string) :=
  match ctx_Value ctx filtered_LabelKey with
  | None => Panic
  | Some (VSelectors l) => Done l
  | Some _ => Panic
  end.

Definition set_LabelSelector (l : ListOptions) (selector : string) : ListOptions :=
  mkListOptions _ selector (ListOptions_TimeoutSeconds l) (ListOptions_Watch l) (ListOptions_Rest l).

(** The variables of the loop, which its closures capture. *)
#[local] Instance variable : Storable string string :=
  {| into := id; out_of := Some; out_of_into _ := eq_refl |}.

(** [func(l *v1.ListOptions) { l.LabelSelector = selector }]: reads the variable when it
    is called. *)
Definition captured (selector : loc) (variables : heap string) : TweakListOptionsFunc :=
  λ l, set_LabelSelector l (default "" (fetch variables selector)).

(** [for _, selector := range labelSelectors { ... }].  The module is compiled as Go 1.18
    ([go.mod]): the loop has one variable, which each turn assigns.  A turn gives the key and
    the options of a factory; the options depend on the variables at the time of use. *)
Fixpoint selectorLoop (opts : list SharedInformerOption) (selector : loc) (range : list string) :
    H string (list (key * (heap string → list SharedInformerOption))) :=
  match range with
  | [] => hret []
  | s :: range =>
      hbind (store (Some selector) s) (λ _,
      hbind (load (Some selector)) (λ current,
      let thisOpts := λ variables, opts ++ [WithTweakListOptions (Some (captured selector variables))] in
      hbind (selectorLoop opts selector range) (λ rest,
      hret ((filtered_Key current, thisOpts) :: rest))))
  end.

(** The factories of the loop's turns.  A factory calls its filter only when one of its
    informers lists or watches, after the loop, so what the closure reads is what the
    variable holds then. *)
Fixpoint addFactories (c : clientset_interface) (ctx : Ctx) (variables : heap string)
    (turns : list (key * (heap string → list SharedInformerOption))) : I Ctx :=
  match turns with
  | [] => iret ctx
  | (k, thisOpts) :: turns =>
      let% f := new_factory c (NewSharedInformerFactoryWithOptions (ctx_ResyncPeriod ctx) (thisOpts variables)) in
      addFactories c (WithValue ctx k (VFactory f)) variables turns
  end.

Definition filtered_with (c : clientset_interface) (ctx : Ctx) : I Ctx :=
  let opts := scope_options ctx in
  let% selectors := ilift (labelSelectors ctx) in
  let% (turns, variables) := ilift (hbind (alloc "") (λ selector, selectorLoop opts selector selectors) ∅) in
  addFactories c ctx variables turns.

Definition filtered_withInformerFactory (ctx : Ctx) : I Ctx :=
  let% c := ilift (client_Get ctx) in filtered_with c ctx.

(** factory/filtered/fake *)
Definition fakefiltered_withInformerFactory (ctx : Ctx) : I Ctx :=
  let% c := ilift (fakeclient_Get ctx) in filtered_with (AFakeClientset c) ctx.

Definition filtered_Get (ctx : Ctx) (selector : string) : outcome nat :=
  match ctx_Value ctx (filtered_Key selector) with
  | None => Panic
  | Some (VFactory f) => Done f
  | Some _ => Panic
  end.

(** ** The informers, once over the kind *)
Section informer.
Context (t : go_type) (Informer : sharedInformerFactory → M factory_event (sharedInformerFactory * SharedIndexInformer)).

Definition kind_withInformer (ctx : Ctx) : I (Ctx * SharedIndexInformer) :=
  let% f := ilift (factory_Get ctx) in
  let ctx := WithValue ctx (informer_Key t) (VInformer t f) in
  let% i := on_factory f Informer in
  iret (ctx, i).

Definition kind_Get (ctx : Ctx) : outcome nat :=
  match ctx_Value ctx (informer_Key t) with
  | None => Panic
  | Some (VInformer t' f) => if decide (t' = t) then Done f else Panic
  | Some _ => Panic
  end.

Fixpoint filteredInformers (range : list string) (ctx : Ctx) (infs : list SharedIndexInformer) :
    I (Ctx * list SharedIndexInformer) :=
  match range with
  | [] => iret (ctx, infs)
  | selector :: range =>
      let% f := ilift (filtered_Get ctx selector) in
      let ctx := WithValue ctx (filteredInformer_Key t selector) (VInformer t f) in
      let% i := on_factory f Informer in
      filteredInformers range ctx (infs ++ [i])
  end.

Definition kind_withFilteredInformer (ctx : Ctx) : I (Ctx * list SharedIndexInformer) :=
  let% selectors := ilift (labelSelectors ctx) in filteredInformers selectors ctx [].

Definition kind_GetFiltered (ctx : Ctx) (selector : string) : outcome nat :=
  match ctx_Value ctx (filteredInformer_Key t selector) with
  | None => Panic
  | Some (VInformer t' f) => if decide (t' = t) then Done f else Panic
  | Some _ => Panic
  end.
End informer.

(** ** ducks/duck/v1alpha3/serviceable/serviceable.go *)
Definition zeroServiceableType : ServiceableType :=
  mkServiceableType (newMeta "" "") (mkServiceable (mkLocalObjectReference "")).

Definition serviceable_WithDuck (ctx : Ctx) : outcome Ctx :=
  match ctx_DynamicClient ctx with
  | None => Panic
  | Some dc =>
      Done (WithValue ctx serviceable_Key (VDuck (mkDuckFactory dc zeroServiceableType (ctx_ResyncPeriod ctx))))
  end.

Definition serviceable_Get (ctx : Ctx) : outcome duckInformerFactory :=
  match ctx_Value ctx serviceable_Key with
  | None => Panic
  | Some (VDuck f) => Done f
  | Some _ => Panic
  end.
End injection.

Declare Scope injection_scope.
Notation "'let%' x ':=' m 'in' k" := (ibind m (fun x => k))
  (at level 10, x pattern, m at level 100, k at level 200) : injection_scope.

Local Open Scope injection_scope.

(** ** The informer packages of [ServiceBinding] *)
Module servicebinding.
Section informer.
Context `{Opaque, RestLibrary, ObjectTrackers} {DynamicClient : Type}.
Implicit Types (ctx : Ctx (DynamicClient := DynamicClient)).

Definition withInformer ctx : I (Ctx * SharedIndexInformer) :=
  kind_withInformer T_ServiceBinding ServiceBindings_Informer ctx.
Definition Get ctx : outcome nat := kind_Get T_ServiceBinding ctx.
Definition filtered_withInformer ctx : I (Ctx * list SharedIndexInformer) :=
  kind_withFilteredInformer T_ServiceBinding ServiceBindings_Informer ctx.
Definition filtered_Get ctx (selector : string) : outcome nat := kind_GetFiltered T_ServiceBinding ctx selector.

(** [fake/fake.go] and [filtered/fake/fake.go]: [Get] is the getter of the real package. *)
Definition fake_withInformer ctx : I (Ctx * SharedIndexInformer) :=
  let% f := ilift (fakefactory_Get ctx) in
  let ctx := WithValue ctx (informer_Key T_ServiceBinding) (VInformer T_ServiceBinding f) in
  let% i := on_factory f ServiceBindings_Informer in
  iret (ctx, i).
Definition fake_Get ctx : outcome nat := Get ctx.
Definition fake_filtered_withInformer ctx : I (Ctx * list SharedIndexInformer) :=
  let% selectors := ilift (labelSelectors ctx) in
  filteredInformers T_ServiceBinding ServiceBindings_Informer selectors ctx [].
Definition fake_filtered_Get ctx (selector : string) : outcome nat := filtered_Get ctx selector.
End informer.
End servicebinding.

(** ** The informer packages of [ProvisionedService] *)
Module provisionedservice.
Section informer.
Context `{Opaque, RestLibrary, ObjectTrackers} {DynamicClient : Type}.
Implicit Types (ctx : Ctx (DynamicClient := DynamicClient)).

Definition withInformer ctx : I (Ctx * SharedIndexInformer) :=
  kind_withInformer T_ProvisionedService ProvisionedServices_Informer ctx.
Definition Get ctx : outcome nat := kind_Get T_ProvisionedService ctx.
Definition filtered_withInformer ctx : I (Ctx * list SharedIndexInformer) :=
  kind_withFilteredInformer T_ProvisionedService ProvisionedServices_Informer ctx.
Definition filtered_Get ctx (selector : string) : outcome nat := kind_GetFiltered T_ProvisionedService ctx selector.

(** [fake/fake.go] and [filtered/fake/fake.go]: [Get] is the getter of the real package. *)
Definition fake_withInformer ctx : I (Ctx * SharedIndexInformer) :=
  let% f := ilift (fakefactory_Get ctx) in
  let ctx := WithValue ctx (informer_Key T_ProvisionedService) (VInformer T_ProvisionedService f) in
  let% i := on_factory f ProvisionedServices_Informer in
  iret (ctx, i).
Definition fake_Get ctx : outcome nat := Get ctx.
Definition fake_filtered_withInformer ctx : I (Ctx * list SharedIndexInformer) :=
  let% selectors := ilift (labelSelectors ctx) in
  filteredInformers T_ProvisionedService ProvisionedServices_Informer selectors ctx [].
Definition fake_filtered_Get ctx (selector : string) : outcome nat := filtered_Get ctx selector.
End informer.
End provisionedservice.

(** ** The informer packages of [ServiceBindingProjection] *)
Module servicebindingprojection.
Section informer.
Context `{Opaque, RestLibrary, ObjectTrackers} {DynamicClient : Type}.
Implicit Types (ctx : Ctx (DynamicClient := DynamicClient)).

Definition withInformer ctx : I (Ctx * SharedIndexInformer) :=
  kind_withInformer T_ServiceBindingProjection ServiceBindingProjections_Informer ctx.
Definition Get ctx : outcome nat := kind_Get T_ServiceBindingProjection ctx.
Definition filtered_withInformer ctx : I (Ctx * list SharedIndexInformer) :=
  kind_withFilteredInformer T_ServiceBindingProjection ServiceBindingProjections_Informer ctx.
Definition filtered_Get ctx (selector : string) : outcome nat := kind_GetFiltered T_ServiceBindingProjection ctx selector.

(** [fake/fake.go] and [filtered/fake/fake.go]: [Get] is the getter of the real package. *)
Definition fake_withInformer ctx : I (Ctx * SharedIndexInformer) :=
  let% f := ilift (fakefactory_Get ctx) in
  let ctx := WithValue ctx (informer_Key T_ServiceBindingProjection) (VInformer T_ServiceBindingProjection f) in
  let% i := on_factory f ServiceBindingProjections_Informer in
  iret (ctx, i).
Definition fake_Get ctx : outcome nat := Get ctx.
Definition fake_filtered_withInformer ctx : I (Ctx * list SharedIndexInformer) :=
  let% selectors := ilift (labelSelectors ctx) in
  filteredInformers T_ServiceBindingProjection ServiceBindingProjections_Informer selectors ctx [].
Definition fake_filtered_Get ctx (selector : string) : outcome nat := filtered_Get ctx selector.
End informer.
End servicebindingprojection.
