(* ===== verification/InjectionFacts.v ===== *)
(** * What the context holds after start-up

    After the registered functions have run, every [Get] finds what its package put there,
    and the informers of the three kinds belong to one factory.  The filtered factories
    all filter by the last selector. *)
From S2P Require Import Prelude Api Effects Conditions Projection Binding Provisioned Resolver.
From S2P Require Import KindReconciler Kinds Admission Clients Clientset ClientsetFacts FakeClients.
From S2P Require Import Heap Informers Injection.

Section facts.
Context `{Opaque, RestLibrary, ObjectTrackers} {DynamicClient : Type}.
Implicit Types (ctx : Ctx (DynamicClient := DynamicClient)) (w : world).

Local Open Scope injection_scope.

(** ** Steps *)
Lemma ilift_run {A B} (o : outcome A) (a : A) (k : A → I B) w : o = Done a → ibind (ilift o) k w = k a w.
Proof. by intros ->. Qed.

Lemma on_factory_last {A B} fs c f (m : sharedInformerFactory → M factory_event (sharedInformerFactory * A))
    f' a log log' calls (k : A → I B) :
  m f log = (Done (f', a), log') →
  ibind (on_factory (length fs) m) k (mkWorld calls (fs ++ [(c, f)]) log)
  = k a (mkWorld calls (fs ++ [(c, f')]) log').
Proof.
  intros Hm. unfold ibind, on_factory. cbn [w_factories w_informer_calls w_config_calls].
  rewrite list_lookup_middle by done. rewrite Hm. rewrite insert_app_r_alt by done. by rewrite Nat.sub_diag.
Qed.

Lemma Value_eq ctx k v : ctx_Value (WithValue ctx k v) k = Some v.
Proof. unfold WithValue. cbn. by rewrite decide_True. Qed.

Lemma Value_ne ctx k k' v : k ≠ k' → ctx_Value (WithValue ctx k v) k' = ctx_Value ctx k'.
Proof. intros Hk. unfold WithValue. cbn. by rewrite decide_False. Qed.

(** ** The filtered factories *)
#[local] Existing Instance variable.

Lemma selectorLoop_run opts selector range h s0 :
  fetch h selector = Some s0 →
  ∃ h', selectorLoop opts selector range h =
    Done (map (λ s, (filtered_Key s, λ variables, opts ++ [WithTweakListOptions (Some (captured selector variables))])) range, h') ∧
    fetch h' selector = Some (default s0 (last range)).
Proof.
  revert h s0. induction range as [|s range IH]; intros h s0 Hs; [by exists h|].
  cbn [selectorLoop]. unfold hbind at 1. cbn [store].
  destruct (IH (<[selector := into s]> h) s) as (h' & Hrun & Hlast); [apply fetch_insert|].
  unfold hbind at 1, load. rewrite fetch_insert. cbn zeta. unfold hbind. rewrite Hrun.
  exists h'. split; [done|]. rewrite Hlast, last_cons. by destruct (last range).
Qed.

Lemma addFactories_run c variables turns ctx w :
  ∃ ctx' w',
    addFactories c ctx variables turns w = Done (ctx', w') ∧
    w_factories w' = w_factories w ++
      map (λ turn, (c, NewSharedInformerFactoryWithOptions (ctx_ResyncPeriod ctx) (turn.2 variables))) turns ∧
    (∀ k, k ∈ map fst turns → ∃ i turn, turns !! i = Some turn ∧ turn.1 = k ∧
       ctx_Value ctx' k = Some (VFactory (length (w_factories w) + i))) ∧
    (∀ k, k ∉ map fst turns → ctx_Value ctx' k = ctx_Value ctx k).
Proof.
  revert ctx w. induction turns as [|[k thisOpts] turns IH]; intros ctx w.
  { exists ctx, w. cbn. rewrite app_nil_r. split_and!; [done|done| |done]. intros k Hk. by apply elem_of_nil in Hk. }
  cbn [addFactories]. unfold ibind, new_factory.
  destruct (IH (WithValue ctx k (VFactory (length (w_factories w))))
    (mkWorld (w_config_calls w)
       (w_factories w ++ [(c, NewSharedInformerFactoryWithOptions (ctx_ResyncPeriod ctx) (thisOpts variables))])
       (w_informer_calls w))) as (ctx' & w' & Hrun & Hw & Hin & Hout).
  exists ctx', w'. split; [exact Hrun|]. cbn in Hw |- *. rewrite Hw, <- (assoc_L (++)). split; [done|].
  split.
  - intros k' Hk'. destruct (decide (k' ∈ map fst turns)) as [Hk|Hk].
    + destruct (Hin k' Hk) as (i & turn & Hi & Hfst & Hv). exists (S i), turn. split_and!; [done|done|].
      rewrite Hv. cbn. rewrite length_app. cbn. do 2 f_equal. lia.
    + apply elem_of_cons in Hk' as [->|]; [|done]. exists 0, (k, thisOpts). split_and!; [done|done|].
      rewrite (Hout k Hk), Value_eq. do 2 f_equal. lia.
  - intros k' Hk'. rewrite not_elem_of_cons in Hk'. destruct Hk' as [Hne Hk'].
    rewrite (Hout k' Hk'). by apply Value_ne.
Qed.

(** C39: whatever selectors the context lists, the filtered factory stored for each of them
    restricts lists and watches to the last one, because the closures share the variable
    of the loop. *)
Theorem filtered_factories_share_selector ctx w c selectors s :
  client_Get ctx = Done c → labelSelectors ctx = Done selectors → last selectors = Some s →
  ∃ ctx' w', filtered_withInformerFactory ctx w = Done (ctx', w') ∧
    ∀ selector, selector ∈ selectors →
      ∃ address f tweak, filtered_Get ctx' selector = Done address ∧
        w_factories w' !! address = Some (c, f) ∧ f_tweakListOptions f = Some tweak ∧
        ∀ l, tweak l = set_LabelSelector l s.
Proof.
  intros Hc Hsel Hlast. unfold filtered_withInformerFactory, filtered_with.
  rewrite (ilift_run _ c) by done. cbn zeta. rewrite (ilift_run _ selectors) by done.
  set (l := fresh (dom (∅ : heap string))).
  destruct (selectorLoop_run (scope_options ctx) l selectors (<[l := into ""]> ∅) "") as (vars & Hrun & Hvar);
    [apply fetch_insert|].
  rewrite (ilift_run _ _ _ _ Hrun).
  set (turns := map (λ s, (filtered_Key s, λ variables,
    scope_options ctx ++ [WithTweakListOptions (Some (captured l variables))])) selectors) in *.
  destruct (addFactories_run c vars turns ctx w) as (ctx' & w' & Hadd & Hw & Hin & _).
  exists ctx', w'. split; [exact Hadd|]. intros selector Hselector.
  destruct (Hin (filtered_Key selector)) as (i & turn & Hi & _ & Hv).
  { unfold turns. rewrite map_map. apply list_elem_of_fmap. by exists selector. }
  exists (length (w_factories w) + i).
  exists (NewSharedInformerFactoryWithOptions (ctx_ResyncPeriod ctx)
    (scope_options ctx ++ [WithTweakListOptions (Some (captured l vars))])), (captured l vars).
  split_and!.
  - unfold filtered_Get. by rewrite Hv.
  - rewrite Hw, lookup_app_r by lia. replace (_ + i - _) with i by lia.
    unfold turns in Hi. rewrite list_lookup_fmap in Hi. rewrite list_lookup_fmap. unfold turns.
    rewrite list_lookup_fmap. destruct (selectors !! i); [done|done].
  - unfold NewSharedInformerFactoryWithOptions. by rewrite foldl_snoc.
  - intros o. unfold captured. by rewrite Hvar, Hlast.
Qed.

(** ** Start-up *)

(** The functions the manager's packages register, in the order knative runs them:
    clients, informer factories, duck types, informers. *)
Definition setup (env : ConfigEnv) ctx (cfg : Config) : I (Ctx * list SharedIndexInformer) :=
  let% ctx := client_withClient env ctx cfg in
  let% ctx := factory_withInformerFactory ctx in
  let% ctx := ilift (serviceable_WithDuck ctx) in
  let% (ctx, i1) := provisionedservice.withInformer ctx in
  let% (ctx, i2) := servicebinding.withInformer ctx in
  let% (ctx, i3) := servicebindingprojection.withInformer ctx in
  iret (ctx, [i1; i2; i3]).

(** The informer of a kind in the factory of the context. *)
Record scoped ctx (t : go_type) (i : SharedIndexInformer) : Prop := {
  scoped_type : informer_type i = t;
  scoped_namespace : informer_namespace i = ctx_NamespaceScope ctx;
  scoped_tweak : informer_tweak i = None;
  scoped_resync : informer_resync i = ctx_ResyncPeriod ctx;
}.

Lemma scope_options_namespace ctx :
  NewSharedInformerFactoryWithOptions (ctx_ResyncPeriod ctx) (scope_options ctx)
  = mkFactory (ctx_NamespaceScope ctx) None (ctx_ResyncPeriod ctx) ∅ ∅ ∅.
Proof.
  unfold scope_options, HasNamespaceScope. destruct (decide (ctx_NamespaceScope ctx = "")) as [->|Hne].
  - by rewrite bool_decide_eq_true_2.
  - by rewrite bool_decide_eq_false_2.
Qed.

Lemma ibind_assoc {A B C} (m : I A) (f : A → I B) (g : B → I C) w :
  ibind (ibind m f) g w = ibind m (λ a, ibind (f a) g) w.
Proof. unfold ibind. by destruct (m w) as [[]|]. Qed.

Lemma withClient_run {A} env ctx cfg w cs log (k : Ctx → I A) :
  NewForConfigOrDie env cfg (w_config_calls w) = (Done cs, log) →
  ibind (client_withClient env ctx cfg) k w =
  k (WithValue ctx client_Key (VClient (RealClientset cs))) (mkWorld log (w_factories w) (w_informer_calls w)).
Proof. intros Hcs. unfold client_withClient, ibind, config_call. by rewrite Hcs. Qed.

Lemma withInformerFactory_run {A} ctx w c (k : Ctx → I A) :
  client_Get ctx = Done c →
  ibind (factory_withInformerFactory ctx) k w =
  k (WithValue ctx factory_Key (VFactory (length (w_factories w))))
    (mkWorld (w_config_calls w)
       (w_factories w ++ [(c, mkFactory (ctx_NamespaceScope ctx) None (ctx_ResyncPeriod ctx) ∅ ∅ ∅)])
       (w_informer_calls w)).
Proof.
  intros Hc. unfold factory_withInformerFactory. rewrite ibind_assoc, (ilift_run _ c) by done.
  cbn zeta. by rewrite scope_options_namespace.
Qed.

Lemma withInformer_run {A} t Informer ctx fs c f f' i log log' calls (k : Ctx * SharedIndexInformer → I A) :
  factory_Get ctx = Done (length fs) → Informer f log = (Done (f', i), log') →
  ibind (kind_withInformer t Informer ctx) k (mkWorld calls (fs ++ [(c, f)]) log) =
  k (WithValue ctx (informer_Key t) (VInformer t (length fs)), i) (mkWorld calls (fs ++ [(c, f')]) log').
Proof.
  intros Hf Hi. unfold kind_withInformer. rewrite ibind_assoc, (ilift_run _ _ _ _ Hf). cbn zeta.
  rewrite ibind_assoc. by rewrite (on_factory_last _ _ _ _ _ _ _ _ _ _ Hi).
Qed.

(** The first informer of a kind, constructed with the factory's settings. *)
Definition first_informer f (t : go_type) (log : list factory_event) : SharedIndexInformer :=
  mkInformer _ (length log) t (f_namespace f) (f_tweakListOptions f)
    (default (f_defaultResync f) (f_customResync f !! t)) [NamespaceIndex].

Lemma InformerFor_first f t log :
  f_informers f !! t = None →
  let i := first_informer f t log in
  InformerFor f t (λ resyncPeriod, NewSharedIndexInformer t (f_namespace f) (f_tweakListOptions f)
    resyncPeriod [NamespaceIndex]) log
  = (Done (set_informers f (<[t := i]> (f_informers f)), i), log ++ [EvNewInformer i]).
Proof. intros Hf. unfold InformerFor. by rewrite Hf. Qed.

(** A context from which every package gets what it stored: the clientset [c], the
    factory [n], the duck factory over the dynamic client [dc]. *)
Record started ctx (n : nat) (c : clientset_interface) (dc : DynamicClient) : Prop := {
  started_client : client_Get ctx = Done c;
  started_factory : factory_Get ctx = Done n;
  started_provisionedservice : provisionedservice.Get ctx = Done n;
  started_servicebinding : servicebinding.Get ctx = Done n;
  started_servicebindingprojection : servicebindingprojection.Get ctx = Done n;
  started_serviceable :
    serviceable_Get ctx = Done (mkDuckFactory dc zeroServiceableType (ctx_ResyncPeriod ctx));
  started_dynamic : ctx_DynamicClient ctx = Some dc;
}.

(** after start-up the context holds the clientset that was constructed from the
    configuration and one informer factory over it, restricted to the context's
    namespace; the informers of the three kinds are distinct objects of that factory,
    restricted alike, with the context's resync period and not yet started; and the duck
    factory is over the context's dynamic client. *)
Theorem setup_context env ctx cfg w cs log dc :
  NewForConfigOrDie env cfg (w_config_calls w) = (Done cs, log) → ctx_DynamicClient ctx = Some dc →
  let n := length (w_factories w) in
  ∃ ctx' w' i1 i2 i3,
    setup env ctx cfg w = Done ((ctx', [i1; i2; i3]), w') ∧
    started ctx' n (RealClientset cs) dc ∧
    w_factories w' = w_factories w ++ [(RealClientset cs,
      mkFactory (ctx_NamespaceScope ctx) None (ctx_ResyncPeriod ctx) ∅
        {[T_ProvisionedService := i1; T_ServiceBinding := i2; T_ServiceBindingProjection := i3]} ∅)] ∧
    scoped ctx T_ProvisionedService i1 ∧ scoped ctx T_ServiceBinding i2 ∧
    scoped ctx T_ServiceBindingProjection i3 ∧
    NoDup (map informer_id [i1; i2; i3]).
Proof.
  intros Hcs Hdc. cbn zeta. do 5 eexists. split.
  { unfold setup, provisionedservice.withInformer, servicebinding.withInformer,
      servicebindingprojection.withInformer. rewrite (withClient_run env ctx cfg w cs log) by done.
    rewrite (withInformerFactory_run _ _ (RealClientset cs)) by done. cbn [w_factories w_config_calls w_informer_calls].
    rewrite ilift_run with (a := WithValue (WithValue (WithValue ctx client_Key (VClient (RealClientset cs)))
        factory_Key (VFactory (length (w_factories w)))) serviceable_Key
        (VDuck (mkDuckFactory dc zeroServiceableType (ctx_ResyncPeriod ctx))))
      by (unfold serviceable_WithDuck; cbn; by rewrite Hdc).
    do 3 (erewrite withInformer_run; [|reflexivity|apply InformerFor_first; reflexivity]).
    reflexivity. }
  split_and!; try reflexivity; try by split.
  cbn [map first_informer informer_id]. rewrite !length_app. cbn [length].
  repeat (apply NoDup_cons; split; [rewrite ?not_elem_of_cons; split_and?; first [lia|apply not_elem_of_nil]|]).
  apply NoDup_nil_2.
Qed.

(** *** Start-up in the tests *)

(** What the fake packages register, in the same order; the fake clientset is empty. *)
Definition fake_setup ctx (cfg : Config) : I (Ctx * list SharedIndexInformer) :=
  let% ctx := ilift (fakeclient_withClient ctx cfg) in
  let% ctx := fakefactory_withInformerFactory ctx in
  let% ctx := ilift (serviceable_WithDuck ctx) in
  let% (ctx, i1) := provisionedservice.fake_withInformer ctx in
  let% (ctx, i2) := servicebinding.fake_withInformer ctx in
  let% (ctx, i3) := servicebindingprojection.fake_withInformer ctx in
  iret (ctx, [i1; i2; i3]).

Lemma fake_factory_run {A} ctx w cs (k : Ctx → I A) :
  fakeclient_Get ctx = Done cs →
  ibind (fakefactory_withInformerFactory ctx) k w =
  k (WithValue ctx factory_Key (VFactory (length (w_factories w))))
    (mkWorld (w_config_calls w)
       (w_factories w ++ [(AFakeClientset cs, mkFactory (ctx_NamespaceScope ctx) None (ctx_ResyncPeriod ctx) ∅ ∅ ∅)])
       (w_informer_calls w)).
Proof.
  intros Hc. unfold fakefactory_withInformerFactory. rewrite ibind_assoc, (ilift_run _ cs) by done.
  cbn zeta. by rewrite scope_options_namespace.
Qed.

(** The fake packages leave a context that the same getters read, with an empty fake
    clientset and an informer factory over it, and touch no configuration. *)
Theorem fake_setup_context ctx cfg w cs dc :
  NewSimpleClientset [] = Done cs → ctx_DynamicClient ctx = Some dc →
  let n := length (w_factories w) in
  ∃ ctx' w' i1 i2 i3,
    fake_setup ctx cfg w = Done ((ctx', [i1; i2; i3]), w') ∧
    started ctx' n (AFakeClientset cs) dc ∧ fakeclient_Get ctx' = Done cs ∧
    w_config_calls w' = w_config_calls w ∧
    w_factories w' = w_factories w ++ [(AFakeClientset cs,
      mkFactory (ctx_NamespaceScope ctx) None (ctx_ResyncPeriod ctx) ∅
        {[T_ProvisionedService := i1; T_ServiceBinding := i2; T_ServiceBindingProjection := i3]} ∅)] ∧
    scoped ctx T_ProvisionedService i1 ∧ scoped ctx T_ServiceBinding i2 ∧
    scoped ctx T_ServiceBindingProjection i3 ∧
    NoDup (map informer_id [i1; i2; i3]).
Proof.
  intros Hcs Hdc. cbn zeta. do 5 eexists. split.
  { unfold fake_setup, fakeclient_withClient, fakeclient_With. rewrite Hcs.
    rewrite (ilift_run _ (WithValue ctx client_Key (VClient (AFakeClientset cs)))) by done.
    rewrite (fake_factory_run _ _ cs) by done.
    rewrite ilift_run with (a := WithValue (WithValue (WithValue ctx client_Key (VClient (AFakeClientset cs)))
        factory_Key (VFactory (length (w_factories w)))) serviceable_Key
        (VDuck (mkDuckFactory dc zeroServiceableType (ctx_ResyncPeriod ctx))))
      by (unfold serviceable_WithDuck; cbn; by rewrite Hdc).
    change provisionedservice.fake_withInformer with (provisionedservice.withInformer (DynamicClient := DynamicClient)).
    change servicebinding.fake_withInformer with (servicebinding.withInformer (DynamicClient := DynamicClient)).
    change servicebindingprojection.fake_withInformer
      with (servicebindingprojection.withInformer (DynamicClient := DynamicClient)).
    unfold provisionedservice.withInformer, servicebinding.withInformer, servicebindingprojection.withInformer.
    do 3 (erewrite withInformer_run; [|reflexivity|apply InformerFor_first; reflexivity]).
    reflexivity. }
  split_and!; try reflexivity; try by split.
  cbn [map first_informer informer_id]. rewrite !length_app. cbn [length].
  repeat (apply NoDup_cons; split; [rewrite ?not_elem_of_cons; split_and?; first [lia|apply not_elem_of_nil]|]).
  apply NoDup_nil_2.
Qed.
End facts.

(** ** Witnesses *)
#[local] Existing Instance string_opaque.
#[local] Existing Instance sample_rest.

Definition sample_trackers : ObjectTrackers := {|
  RuntimeObj := string; Tracker := list string; NewObjectTracker := [];
  Add t o := if bool_decide (o ∈ t) then Err (PlainError "already exists") else Ok (o :: t);
  WatchInterface := unit; tracker_Watch _ _ _ := Ok ();
|}.
#[local] Existing Instance sample_trackers.

Definition sample_clientset : Clientset :=
  mkClientset _ (() : DiscoveryClient) (mkGroupClient _ (Some duck_SchemeGroupVersion : RESTClient))
    (mkGroupClient _ (Some PS.SchemeGroupVersion : RESTClient))
    (mkGroupClient _ (Some SchemeGroupVersion : RESTClient))
    (mkGroupClient _ (Some SB.SchemeGroupVersion : RESTClient)).

Definition empty_world : world := mkWorld [] [] [].

(** A context with the namespace scope [team-a] and a dynamic client. *)
Definition start_context : Ctx (DynamicClient := unit) := mkCtx (λ _, None) "team-a" 36000 (Some ()) ∅.

Lemma setup_context_witness :
  ∃ ctx' w' i1 i2 i3,
    setup sample_config_env start_context sample_config empty_world = Done ((ctx', [i1; i2; i3]), w') ∧
    servicebinding.Get ctx' = Done 0 ∧ informer_namespace i2 = "team-a".
Proof.
  destruct (setup_context sample_config_env start_context sample_config empty_world sample_clientset
    (built None sample_config sample_clientset) () eq_refl eq_refl)
    as (ctx' & w' & i1 & i2 & i3 & Hrun & Hst & _ & _ & Hi2 & _).
  exists ctx', w', i1, i2, i3. split; [exact Hrun|].
  split; [exact (started_servicebinding _ _ _ _ Hst)|exact (scoped_namespace _ _ _ Hi2)].
Defined.

(** Two selectors: the factory stored for [app=a] restricts to [app=b]. *)
Definition filtered_context : Ctx (DynamicClient := unit) :=
  WithSelectors (WithValue start_context client_Key (VClient (RealClientset sample_clientset)))
    ["app=a"; "app=b"].

Lemma filtered_factories_share_selector_witness :
  ∃ ctx' w' address f tweak,
    filtered_withInformerFactory filtered_context empty_world = Done (ctx', w') ∧
    filtered_Get ctx' "app=a" = Done address ∧
    w_factories w' !! address = Some (RealClientset sample_clientset, f) ∧
    f_tweakListOptions f = Some tweak ∧
    ∀ l, ListOptions_LabelSelector (tweak l) = "app=b".
Proof.
  destruct (filtered_factories_share_selector filtered_context empty_world (RealClientset sample_clientset)
    ["app=a"; "app=b"] "app=b" eq_refl eq_refl eq_refl) as (ctx' & w' & Hrun & Hall).
  destruct (Hall "app=a") as (address & f & tweak & Hget & Hf & Ht & Hl); [apply list_elem_of_here|].
  exists ctx', w', address, f, tweak. split_and!; try done. intros l. by rewrite Hl.
Defined.
