(* ===== verification/Registration.v ===== *)
(** * The registration of the injected functions

    Every package of [pkg/client/injection] has an [init] function that registers what it
    puts into the context with [injection.Default] (or [injection.Fake]) of
    [knative.dev/pkg], which runs the registered functions at start-up.  Go runs the [init]
    functions in an order that depends on the imports of the whole program, so a start-up
    is a list of them.  The schemes are filled in the same way. *)
From S2P Require Import Prelude Api Effects Conditions Projection Binding Provisioned Resolver.
From S2P Require Import KindReconciler Kinds Admission Clients Clientset FakeClients.
From S2P Require Import Heap Informers Injection.

Local Open Scope injection_scope.

(** ** knative's registry *)

Section registry.
Context `{Opaque, RestLibrary, ObjectTrackers} {DynamicClient : Type}.
(** The clients and informers of other modules. *)
Context {ForeignClient ForeignInformer : Type}.
Local Notation Ctx := (Ctx (DynamicClient := DynamicClient)).

(** [controller.Informer] and the [interface] a client fetcher returns. *)
Definition AnyInformer : Type := SharedIndexInformer + ForeignInformer.
Definition AnyClient : Type := clientset_interface + ForeignClient.

(** [injection.ClientInjector] and the other types of registered functions. *)
Inductive injector :=
| Client (f : Ctx → Config → I Ctx)
| ClientFetcher (f : Ctx → outcome AnyClient)
| InformerFactory (f : Ctx → I Ctx)
| Duck (f : Ctx → I Ctx)
| Informer (f : Ctx → I (Ctx * AnyInformer))
| FilteredInformers (f : Ctx → I (Ctx * list AnyInformer)).

Definition clients (l : list injector) : list (Ctx → Config → I Ctx) :=
  omap (λ i, match i with Client f => Some f | _ => None end) l.
Definition informerFactories (l : list injector) : list (Ctx → I Ctx) :=
  omap (λ i, match i with InformerFactory f => Some f | _ => None end) l.
Definition ducks (l : list injector) : list (Ctx → I Ctx) :=
  omap (λ i, match i with Duck f => Some f | _ => None end) l.
Definition informers (l : list injector) : list (Ctx → I (Ctx * AnyInformer)) :=
  omap (λ i, match i with Informer f => Some f | _ => None end) l.
Definition filteredInformers (l : list injector) : list (Ctx → I (Ctx * list AnyInformer)) :=
  omap (λ i, match i with FilteredInformers f => Some f | _ => None end) l.

(** One function after the other on the context. *)
Fixpoint each (fs : list (Ctx → I Ctx)) (ctx : Ctx) : I Ctx :=
  match fs with
  | [] => iret ctx
  | f :: fs => let% ctx := f ctx in each fs ctx
  end.

(** The same for functions that also return informers. *)
Fixpoint eachInformers (fs : list (Ctx → I (Ctx * list AnyInformer))) (ctx : Ctx) : I (Ctx * list AnyInformer) :=
  match fs with
  | [] => iret (ctx, [])
  | f :: fs =>
      let% (ctx, infs) := f ctx in
      let% (ctx, rest) := eachInformers fs ctx in
      iret (ctx, infs ++ rest)
  end.

Definition single (f : Ctx → I (Ctx * AnyInformer)) : Ctx → I (Ctx * list AnyInformer) :=
  λ ctx, let% (ctx, inf) := f ctx in iret (ctx, [inf]).

(** [injection.Interface] of knative: a registry keeps what is registered, and
    [SetupInformers] runs the injectors against a context, starting with the clients, then
    the informer factories, the ducks and the informers, and returns the resulting context
    with the informers. *)
Class InjectionRegistry := {
  Registry : Type;
  emptyRegistry : Registry;
  Register : injector → Registry → Registry;
  Registered : Registry → list injector;
  SetupInformers : Registry → Ctx → Config → I (Ctx * list AnyInformer);
}.

Definition setup_in_order (l : list injector) (ctx : Ctx) (cfg : Config) : I (Ctx * list AnyInformer) :=
  let% ctx := each (map (λ f ctx, f ctx cfg) (clients l)) ctx in
  let% ctx := each (informerFactories l) ctx in
  let% ctx := each (ducks l) ctx in
  eachInformers (map single (informers l) ++ filteredInformers l) ctx.

Class InjectionRegistryLaws `{InjectionRegistry} := {
  Registered_empty : Registered emptyRegistry = [];
  Registered_Register i r : Registered (Register i r) = Registered r ++ [i];
  SetupInformers_runs r ctx cfg w : SetupInformers r ctx cfg w = setup_in_order (Registered r) ctx cfg w;
}.

(** ** The [init] functions *)
Section init.
Context `{InjectionRegistry} (env : ConfigEnv).

Definition RegisterClient (f : Ctx → Config → I Ctx) : Registry → Registry := Register (Client f).
Definition RegisterClientFetcher (f : Ctx → outcome AnyClient) : Registry → Registry := Register (ClientFetcher f).
Definition RegisterInformerFactory (f : Ctx → I Ctx) : Registry → Registry := Register (InformerFactory f).
Definition RegisterDuck (f : Ctx → outcome Ctx) : Registry → Registry := Register (Duck (λ ctx, ilift (f ctx))).

(** A [SharedIndexInformer] is a [controller.Informer]. *)
Definition RegisterInformer (f : Ctx → I (Ctx * SharedIndexInformer)) : Registry → Registry :=
  Register (Informer (λ ctx, let% (ctx, inf) := f ctx in iret (ctx, inl inf))).
Definition RegisterFilteredInformers (f : Ctx → I (Ctx * list SharedIndexInformer)) : Registry → Registry :=
  Register (FilteredInformers (λ ctx, let% (ctx, infs) := f ctx in iret (ctx, map inl infs))).

(** [client/client.go], [client/fake/fake.go] *)
Definition client_init (Default : Registry) : Registry :=
  let Default := RegisterClient (client_withClient env) Default in
  RegisterClientFetcher (λ ctx, omap_outcome inl (client_Get ctx)) Default.
Definition fakeclient_init (Fake : Registry) : Registry :=
  let Fake := RegisterClient (λ ctx cfg, ilift (fakeclient_withClient ctx cfg)) Fake in
  RegisterClientFetcher (λ ctx, omap_outcome (λ cs, inl (AFakeClientset cs)) (fakeclient_Get ctx)) Fake.

(** [informers/factory], [informers/factory/fake] and the filtered ones *)
Definition factory_init (Default : Registry) : Registry := RegisterInformerFactory factory_withInformerFactory Default.
Definition fakefactory_init (Fake : Registry) : Registry := RegisterInformerFactory fakefactory_withInformerFactory Fake.
Definition filtered_init (Default : Registry) : Registry := RegisterInformerFactory filtered_withInformerFactory Default.
Definition fakefiltered_init (Fake : Registry) : Registry := RegisterInformerFactory fakefiltered_withInformerFactory Fake.

(** [ducks/duck/v1alpha3/serviceable] and its fake *)
Definition serviceable_init (Default : Registry) : Registry := RegisterDuck serviceable_WithDuck Default.
Definition fakeserviceable_init (Fake : Registry) : Registry := RegisterDuck serviceable_WithDuck Fake.

(** [informers/servicebinding/v1alpha3/servicebinding] and its [fake], [filtered] and
    [filtered/fake], and the same for the other two kinds *)
Definition servicebinding_init (Default : Registry) : Registry :=
  RegisterInformer servicebinding.withInformer Default.
Definition servicebinding_fake_init (Fake : Registry) : Registry :=
  RegisterInformer servicebinding.fake_withInformer Fake.
Definition servicebinding_filtered_init (Default : Registry) : Registry :=
  RegisterFilteredInformers servicebinding.filtered_withInformer Default.
Definition servicebinding_filtered_fake_init (Fake : Registry) : Registry :=
  RegisterFilteredInformers servicebinding.fake_filtered_withInformer Fake.

Definition provisionedservice_init (Default : Registry) : Registry :=
  RegisterInformer provisionedservice.withInformer Default.
Definition provisionedservice_fake_init (Fake : Registry) : Registry :=
  RegisterInformer provisionedservice.fake_withInformer Fake.
Definition provisionedservice_filtered_init (Default : Registry) : Registry :=
  RegisterFilteredInformers provisionedservice.filtered_withInformer Default.
Definition provisionedservice_filtered_fake_init (Fake : Registry) : Registry :=
  RegisterFilteredInformers provisionedservice.fake_filtered_withInformer Fake.

Definition servicebindingprojection_init (Default : Registry) : Registry :=
  RegisterInformer servicebindingprojection.withInformer Default.
Definition servicebindingprojection_fake_init (Fake : Registry) : Registry :=
  RegisterInformer servicebindingprojection.fake_withInformer Fake.
Definition servicebindingprojection_filtered_init (Default : Registry) : Registry :=
  RegisterFilteredInformers servicebindingprojection.filtered_withInformer Default.
Definition servicebindingprojection_filtered_fake_init (Fake : Registry) : Registry :=
  RegisterFilteredInformers servicebindingprojection.fake_filtered_withInformer Fake.

(** The packages that the imports of [cmd/manager/main.go] reach: the reconcilers import
    the informers of the three kinds and the client, the resolver the duck, and the
    informers the factory.  None imports a filtered package. *)
Definition manager_inits : list (Registry → Registry) :=
  [client_init; factory_init; serviceable_init; provisionedservice_init; servicebinding_init;
   servicebindingprojection_init].

(** The fake packages of the same. *)
Definition fake_inits : list (Registry → Registry) :=
  [fakeclient_init; fakefactory_init; fakeserviceable_init; provisionedservice_fake_init;
   servicebinding_fake_init; servicebindingprojection_fake_init].

(** The registry after the [init] functions of a program, in its order. *)
Definition run_inits (inits : list (Registry → Registry)) : Registry :=
  foldl (λ r init, init r) emptyRegistry inits.
End init.
End registry.

(** ** The schemes *)
Section schemes.
(** [metav1.AddToGroupVersion]: the option and list types of a group version. *)
Context (AddToGroupVersion : GroupVersion → scheme → scheme).

(** [init] of [clientset/versioned/scheme/register.go] and of the one in
    [clientset/versioned/fake]; [AddToScheme] never fails, so [Must] never panics. *)
Definition scheme_init (Scheme : scheme) : scheme :=
  AddToScheme (AddToGroupVersion (mkGroupVersion "" "v1") Scheme).
Definition fakescheme_init (scheme : scheme) : Admission.scheme :=
  fake_AddToScheme (AddToGroupVersion (mkGroupVersion "" "v1") scheme).

(** [init] of the generated [controller.go] of the three kinds, on [scheme.Scheme] of
    [k8s.io/client-go]: all three add the types of all groups. *)
Definition servicebinding_controller_init (Scheme : scheme) : scheme := AddToScheme Scheme.
Definition provisionedservice_controller_init (Scheme : scheme) : scheme := AddToScheme Scheme.
Definition servicebindingprojection_controller_init (Scheme : scheme) : scheme := AddToScheme Scheme.
End schemes.
