(* ===== verification/RegistrationFacts.v ===== *)
(** * Start-up, whatever the order of the [init] functions

    Functions of other modules may be registered among those of this repository.  They are
    [foreign]: they leave alone what this repository's packages keep in the context, and
    return once the functions of the earlier phases have put in what they need, as the
    dynamic client.  Then every order of registration leads to the same start-up. *)
From Stdlib Require Import Permutation.
From S2P Require Import Prelude Api Effects Conditions Projection Binding Provisioned Resolver.
From S2P Require Import KindReconciler Kinds Admission Clients Clientset ClientsetFacts FakeClients.
From S2P Require Import Heap Informers Injection InjectionFacts Registration.

Local Open Scope injection_scope.

Section facts.
Context `{Opaque, RestLibrary, ObjectTrackers} {DynamicClient ForeignClient ForeignInformer : Type}.
Local Notation Ctx := (Ctx (DynamicClient := DynamicClient)).
Local Notation injector := (injector (DynamicClient := DynamicClient) (ForeignClient := ForeignClient)
  (ForeignInformer := ForeignInformer)).
Local Notation AnyInformer := (AnyInformer (ForeignInformer := ForeignInformer)).
Implicit Types (ctx : Ctx) (w : world).

(** ** Foreign functions *)

(** [ctx'] has what the packages keep in [ctx], for the keys in [P], and at least what other
    modules keep there; its dynamic client may be another. *)
Record grows_at (P : key → Prop) ctx ctx' : Prop := {
  grows_value k : P k → ctx_Value ctx' k = ctx_Value ctx k;
  grows_scope : ctx_NamespaceScope ctx' = ctx_NamespaceScope ctx;
  grows_resync : ctx_ResyncPeriod ctx' = ctx_ResyncPeriod ctx;
  grows_others : ctx_Others ctx ⊆ ctx_Others ctx';
  grows_dynamic : is_Some (ctx_DynamicClient ctx) → is_Some (ctx_DynamicClient ctx');
}.

(** The same with the same dynamic client. *)
Record keeps_at (P : key → Prop) ctx ctx' : Prop := {
  keeps_grows : grows_at P ctx ctx';
  keeps_dynamic : ctx_DynamicClient ctx' = ctx_DynamicClient ctx;
}.
Definition grows : Ctx → Ctx → Prop := grows_at (λ _, True).
Definition keeps : Ctx → Ctx → Prop := keeps_at (λ _, True).

#[export] Instance grows_at_preorder P : PreOrder (grows_at P).
Proof.
  split; [by split|]. intros c1 c2 c3 [] []. split; [|congruence|congruence|set_solver|auto].
  intros k Hk. rewrite grows_value1 by done. auto.
Qed.

#[export] Instance keeps_at_preorder P : PreOrder (keeps_at P).
Proof. split; [by split|]. intros c1 c2 c3 [] []. split; [by etrans|congruence]. Qed.

Lemma keeps_at_weaken (P Q : key → Prop) ctx ctx' : (∀ k, Q k → P k) → keeps_at P ctx ctx' → keeps_at Q ctx ctx'.
Proof. intros HQ [[] ?]. split; [split|]; auto. Qed.

Lemma keeps_WithValue (P : key → Prop) ctx k v : ¬ P k → keeps_at P ctx (WithValue ctx k v).
Proof. intros Hk. split; [split|]; try done. intros k' Hk'. apply Value_ne. by intros ->. Qed.

Lemma grows_WithValues ctx ctx' k v : grows ctx ctx' → grows (WithValue ctx k v) (WithValue ctx' k v).
Proof. intros []. split; try done. intros k' _. cbn. case_decide; auto. Qed.

Lemma keeps_WithValues ctx ctx' k v : keeps ctx ctx' → keeps (WithValue ctx k v) (WithValue ctx' k v).
Proof. intros []. split; [by apply grows_WithValues|done]. Qed.

Lemma keeps_value ctx ctx' k : keeps ctx ctx' → ctx_Value ctx' k = ctx_Value ctx k.
Proof. intros [Hg _]. by apply (grows_value _ _ _ Hg). Qed.

(** What the functions of other modules put into the context, by the phase of start-up. *)
Record modules := mkModules { of_clients : gset string; of_factories : gset string; of_ducks : gset string }.

(** The context after each phase: the functions of the next one find what they need. *)
Definition after_clients (m : modules) ctx : Prop :=
  is_Some (ctx_DynamicClient ctx) ∧ of_clients m ⊆ ctx_Others ctx.
Definition after_factories (m : modules) ctx : Prop := after_clients m ctx ∧ of_factories m ⊆ ctx_Others ctx.
Definition after_ducks (m : modules) ctx : Prop := after_factories m ctx ∧ of_ducks m ⊆ ctx_Others ctx.

(** A function that returns in the contexts in [pre], and changes them as [R] allows. *)
Definition benign (pre : Ctx → Prop) (R : Ctx → Ctx → Prop) (f : Ctx → I Ctx) : Prop :=
  ∀ ctx w, pre ctx → ∃ ctx', f ctx w = Done (ctx', w) ∧ R ctx ctx'.
Definition benign_informers (pre : Ctx → Prop) (f : Ctx → I (Ctx * list AnyInformer)) : Prop :=
  ∀ ctx w, pre ctx → ∃ ctx' infs, f ctx w = Done ((ctx', map inr infs), w) ∧ keeps ctx ctx'.

(** A function of another module.  The clients come first, and knative's dynamic client is one
    of them; the others run when all clients are there, and keep the dynamic client. *)
Definition foreign (cfg : Config) (m : modules) (i : injector) : Prop :=
  match i with
  | Client f => benign (λ _, True) grows (λ ctx, f ctx cfg)
  | ClientFetcher _ => True
  | InformerFactory f => benign (after_clients m) keeps f
  | Duck f => benign (after_factories m) keeps f
  | Informer f => benign_informers (after_ducks m) (single f)
  | FilteredInformers f => benign_informers (after_ducks m) f
  end.

(** A function that makes [Q] true, from a context in [pre]. *)
Definition ensures (pre Q : Ctx → Prop) (f : Ctx → I Ctx) : Prop :=
  ∀ ctx w ctx' w', pre ctx → f ctx w = Done (ctx', w') → Q ctx'.

(** What the functions in [fl] need is in the context [ctx], or one of them puts it there in an
    earlier phase. *)
Record supplied (cfg : Config) (m : modules) (fl : list injector) ctx : Prop := {
  supplied_dynamic : is_Some (ctx_DynamicClient ctx) ∨
    ∃ f, Client f ∈ fl ∧ ensures (λ _, True) (λ c, is_Some (ctx_DynamicClient c)) (λ ctx, f ctx cfg);
  supplied_clients k : k ∈ of_clients m → k ∈ ctx_Others ctx ∨
    ∃ f, Client f ∈ fl ∧ ensures (λ _, True) (λ c, k ∈ ctx_Others c) (λ ctx, f ctx cfg);
  supplied_factories k : k ∈ of_factories m → k ∈ ctx_Others ctx ∨
    ∃ f, InformerFactory f ∈ fl ∧ ensures (after_clients m) (λ c, k ∈ ctx_Others c) f;
  supplied_ducks k : k ∈ of_ducks m → k ∈ ctx_Others ctx ∨
    ∃ f, Duck f ∈ fl ∧ ensures (after_factories m) (λ c, k ∈ ctx_Others c) f;
}.

(** ** Runs of registered functions *)
Lemma ibind_Done {A B} (m : I A) (k : A → I B) w a w' : m w = Done (a, w') → ibind m k w = k a w'.
Proof. intros Hm. unfold ibind. by rewrite Hm. Qed.

Lemma each_app fs fs' ctx w : each (fs ++ fs') ctx w = ibind (each fs ctx) (each fs') w.
Proof.
  revert ctx w. induction fs as [|f fs IH]; intros ctx w; [done|]. cbn [each app].
  rewrite ibind_assoc. unfold ibind at 1 2. destruct (f ctx w) as [[ctx1 w1]|]; [apply IH|done].
Qed.

(** A function that keeps [pre], and [Q] where that holds. *)
Definition steady (pre Q : Ctx → Prop) (f : Ctx → I Ctx) : Prop :=
  ∀ ctx w ctx' w', pre ctx → f ctx w = Done (ctx', w') → pre ctx' ∧ (Q ctx → Q ctx').

Section each.
Context (pre : Ctx → Prop) (R : Ctx → Ctx → Prop) `{!PreOrder R}.
Context (Hpre : ∀ c c', R c c' → pre c → pre c').

Lemma each_benign fs ctx w :
  Forall (benign pre R) fs → pre ctx → ∃ ctx', each fs ctx w = Done (ctx', w) ∧ R ctx ctx'.
Proof.
  intros Hfs. revert ctx. induction Hfs as [|f fs Hf _ IH]; intros ctx Hp; [by exists ctx|].
  destruct (Hf ctx w Hp) as (ctx1 & Hrun & Hk1). destruct (IH ctx1) as (ctx2 & Hrest & Hk2); [by eapply Hpre|].
  exists ctx2. cbn [each]. rewrite (ibind_Done _ _ _ _ _ Hrun). split; [done|by etrans].
Qed.

(** A function of this repository among foreign ones. *)
Lemma each_one fs f fs' ctx w w' :
  fs ≡ₚ f :: fs' → Forall (benign pre R) fs' → pre ctx →
  (∀ ctx0, R ctx ctx0 → ∃ ctx1, f ctx0 w = Done (ctx1, w') ∧ pre ctx1) →
  ∃ ctx0 ctx1 ctx', R ctx ctx0 ∧ f ctx0 w = Done (ctx1, w') ∧ R ctx1 ctx' ∧ each fs ctx w = Done (ctx', w').
Proof.
  intros (l1 & l2 & -> & Hperm)%Permutation_cons_inv_r Hfs Hp Hf.
  rewrite Hperm, Forall_app in Hfs. destruct Hfs as [Hfs1 Hfs2].
  destruct (each_benign l1 ctx w Hfs1 Hp) as (ctx0 & Hrun0 & Hk0).
  destruct (Hf ctx0 Hk0) as (ctx1 & Hrun1 & Hp1).
  destruct (each_benign l2 ctx1 w' Hfs2 Hp1) as (ctx' & Hrun' & Hk').
  exists ctx0, ctx1, ctx'. split_and!; [done..|].
  rewrite each_app, (ibind_Done _ _ _ _ _ Hrun0). cbn [each]. by rewrite (ibind_Done _ _ _ _ _ Hrun1).
Qed.

Lemma benign_steady Q f : (∀ c c', R c c' → Q c → Q c') → benign pre R f → steady pre Q f.
Proof.
  intros HQ Hf ctx w ctx' w' Hp Hrun. destruct (Hf ctx w Hp) as (ctx1 & Hrun1 & Hk).
  assert (ctx1 = ctx') as -> by congruence. eauto.
Qed.

Lemma each_ensures Q fs ctx w ctx' w' :
  Forall (steady pre Q) fs → pre ctx → Q ctx ∨ Exists (ensures pre Q) fs →
  each fs ctx w = Done (ctx', w') → Q ctx'.
Proof.
  intros Hfs. revert ctx w. induction Hfs as [|f fs Hf _ IH]; intros ctx w Hp HQ Hrun; cbn [each] in Hrun.
  { injection Hrun as <- <-. by destruct HQ as [|HQ%Exists_nil]. }
  unfold ibind in Hrun. destruct (f ctx w) as [[ctx1 w1]|] eqn:Hf1; [|done].
  destruct (Hf ctx w ctx1 w1 Hp Hf1) as [Hp1 Hk]. apply (IH _ _ Hp1) in Hrun; [done|].
  destruct HQ as [HQ|[Hs|Hs]%Exists_cons]; [left; auto|left; exact (Hs ctx w ctx1 w1 Hp Hf1)|by right].
Qed.
End each.

Lemma grows_others_in k c c' : grows c c' → k ∈ ctx_Others c → k ∈ ctx_Others c'.
Proof. intros [_ _ _ Ho _]. set_solver. Qed.
Lemma keeps_others_in k c c' : keeps c c' → k ∈ ctx_Others c → k ∈ ctx_Others c'.
Proof. intros [Hg _]. by apply grows_others_in. Qed.
Lemma after_clients_keeps m c c' : keeps c c' → after_clients m c → after_clients m c'.
Proof. intros [[_ _ _ Ho Hd] _] [? ?]. split; [auto|by etrans]. Qed.
Lemma after_factories_keeps m c c' : keeps c c' → after_factories m c → after_factories m c'.
Proof. intros Hk [? ?]. split; [by eapply after_clients_keeps|]. destruct Hk as [[_ _ _ Ho _] _]. by etrans. Qed.
Lemma after_ducks_keeps m c c' : keeps c c' → after_ducks m c → after_ducks m c'.
Proof. intros Hk [? ?]. split; [by eapply after_factories_keeps|]. destruct Hk as [[_ _ _ Ho _] _]. by etrans. Qed.

(** ** The informers *)

(** The informer package of a kind, as registered. *)
Definition kind_Informer (t : go_type) : sharedInformerFactory → M factory_event (sharedInformerFactory * SharedIndexInformer) :=
  λ f, InformerFor f t (λ resyncPeriod, NewSharedIndexInformer t (f_namespace f) (f_tweakListOptions f)
    resyncPeriod [NamespaceIndex]).
Definition registered_informer (t : go_type) (f : Ctx → I (Ctx * list AnyInformer)) : Prop :=
  ∀ ctx w, f ctx w = single (λ ctx, let% (ctx, inf) := kind_withInformer t (kind_Informer t) ctx in iret (ctx, inl inf)) ctx w.

(** The functions of a list: the informer of a kind, or foreign. *)
Definition labelled (m : modules) (f : Ctx → I (Ctx * list AnyInformer)) (l : option go_type) : Prop :=
  match l with Some t => registered_informer t f | None => benign_informers (after_ducks m) f end.

Definition not_informer (k : key) : Prop := ∀ t, k ≠ informer_Key t.

Section run.
Context (ctx0 : Ctx) (fs : list (clientset_interface * sharedInformerFactory)) (c : clientset_interface).

Definition factory_with (m : gmap go_type SharedIndexInformer) : sharedInformerFactory :=
  mkFactory (ctx_NamespaceScope ctx0) None (ctx_ResyncPeriod ctx0) ∅ m ∅.

(** Between two functions: the factory has the informers [m], which the context leads to. *)
Record informed ctx w (m : gmap go_type SharedIndexInformer) : Prop := {
  informed_factory : factory_Get ctx = Done (length fs);
  informed_world : w_factories w = fs ++ [(c, factory_with m)];
  informed_scoped t i : m !! t = Some i → scoped ctx0 t i;
  informed_key t : is_Some (m !! t) → ctx_Value ctx (informer_Key t) = Some (VInformer t (length fs));
  informed_id t i : m !! t = Some i → informer_id i < length (w_informer_calls w);
  informed_inj t t' i i' : m !! t = Some i → m !! t' = Some i' → informer_id i = informer_id i' → t = t';
}.

Lemma informed_keeps ctx ctx' w m : keeps ctx ctx' → informed ctx w m → informed ctx' w m.
Proof.
  intros Hk []. split; try done.
  - unfold factory_Get. by rewrite (keeps_value _ _ _ Hk).
  - intros t Ht. rewrite (keeps_value _ _ _ Hk). auto.
Qed.

(** What [kind_withInformer] leaves: the informer of the kind, new or not. *)
Lemma kind_withInformer_run t ctx w m :
  informed ctx w m →
  ∃ w' m' i, kind_withInformer t (kind_Informer t) ctx w =
      Done ((WithValue ctx (informer_Key t) (VInformer t (length fs)), i), w') ∧
    informed (WithValue ctx (informer_Key t) (VInformer t (length fs))) w' m' ∧
    w_config_calls w' = w_config_calls w ∧
    m' !! t = Some i ∧ m ⊆ m' ∧ dom m' = dom m ∪ {[t]}.
Proof.
  intros [Hf Hw Hsc Hkey Hid Hinj]. destruct w as [calls facs log]. cbn in Hw, Hid. subst facs.
  assert (Hget : factory_Get (WithValue ctx (informer_Key t) (VInformer t (length fs))) = Done (length fs))
    by (unfold factory_Get; by rewrite Value_ne).
  assert (Hvalue : ∀ t', t' = t ∨ is_Some (m !! t') →
    ctx_Value (WithValue ctx (informer_Key t) (VInformer t (length fs))) (informer_Key t') =
    Some (VInformer t' (length fs))).
  { intros t' Ht'. destruct (decide (t' = t)) as [->|Hne]; [apply Value_eq|].
    rewrite Value_ne by congruence. apply Hkey. by destruct Ht'. }
  unfold kind_withInformer. rewrite (ilift_run _ _ _ _ Hf). cbn zeta.
  destruct (m !! t) as [i|] eqn:Ht.
  - exists (mkWorld calls (fs ++ [(c, factory_with m)]) log), m, i. split_and!; try done.
    + erewrite on_factory_last; [done|]. unfold kind_Informer, InformerFor. cbn. by rewrite Ht.
    + split; try done. intros t' Ht'. apply Hvalue. by right.
    + apply set_eq. intros x. rewrite elem_of_union, elem_of_singleton, elem_of_dom. naive_solver.
  - set (i := first_informer (factory_with m) t log).
    exists (mkWorld calls (fs ++ [(c, factory_with (<[t := i]> m))]) (log ++ [EvNewInformer i])), (<[t := i]> m), i.
    split_and!; try done.
    + erewrite on_factory_last; [|by apply InformerFor_first]. done.
    + split; try done.
      * intros t' i'. rewrite lookup_insert_Some. intros [[<- <-]|[_ ?]]; [by split|eauto].
      * intros t' Ht'. apply Hvalue. destruct (decide (t' = t)) as [|Hne]; [by left|right].
        by rewrite lookup_insert_ne in Ht' by done.
      * intros t' i'. rewrite lookup_insert_Some. cbn. rewrite length_app. cbn.
        intros [[<- <-]|[_ Hi']]; [cbn; lia|]. apply Hid in Hi'. lia.
      * intros t1 t2 i1 i2. rewrite !lookup_insert_Some. intros [[<- <-]|[Hn1 Hi1]] [[<- <-]|[Hn2 Hi2]]; try done.
        { apply Hid in Hi2. cbn. lia. } { apply Hid in Hi1. cbn. lia. } by apply Hinj.
    + by apply lookup_insert_eq.
    + by apply insert_subseteq.
    + rewrite dom_insert_L. set_solver.
Qed.

Lemma elem_of_omap_id (t : go_type) (ls : list (option go_type)) :
  t ∈ (list_to_set (omap id ls) : gset go_type) ↔ Some t ∈ ls.
Proof. rewrite elem_of_list_to_set, list_elem_of_omap. unfold id. naive_solver. Qed.

(** Every list of such functions returns; the factory then has the informers of its kinds. *)
Lemma eachInformers_run mods gs ls ctx w m :
  Forall2 (labelled mods) gs ls → after_ducks mods ctx → informed ctx w m →
  ∃ ctx' w' m' infs, eachInformers gs ctx w = Done ((ctx', infs), w') ∧
    informed ctx' w' m' ∧ keeps_at not_informer ctx ctx' ∧ w_config_calls w' = w_config_calls w ∧
    m ⊆ m' ∧ dom m' = dom m ∪ list_to_set (omap id ls) ∧
    ∀ i, inl i ∈ infs ↔ ∃ t, Some t ∈ ls ∧ m' !! t = Some i.
Proof.
  intros Hgs. revert ctx w m. induction Hgs as [|g l gs ls Hg _ IH]; intros ctx w m Hafter Hinf.
  { exists ctx, w, m, []. split_and!; try done; [set_solver|]. intros i.
    split; [by intros ?%elem_of_nil|]. intros (t & Ht & _). by apply elem_of_nil in Ht. }
  destruct l as [t|]; cbn [labelled] in Hg.
  - destruct (kind_withInformer_run t ctx w m Hinf) as (w1 & m1 & i & Hrun & Hinf1 & Hcalls & Hi & Hsub & Hdom).
    destruct (IH (WithValue ctx (informer_Key t) (VInformer t (length fs))) w1 m1 Hafter Hinf1) as (ctx' & w' & m' & infs & Hrest & Hinf' & Hk & Hcalls' & Hsub' & Hdom' & Hin).
    exists ctx', w', m', (inl i :: infs). split_and!; [|done| |congruence|by etrans| |].
    + assert (Hg1 : g ctx w = Done ((WithValue ctx (informer_Key t) (VInformer t (length fs)), [inl i]), w1))
        by (rewrite Hg; unfold single, ibind; by rewrite Hrun).
      cbn [eachInformers]. rewrite (ibind_Done _ _ _ _ _ Hg1). by rewrite (ibind_Done _ _ _ _ _ Hrest).
    + etrans; [|exact Hk]. apply keeps_WithValue. intros Hn. by apply (Hn t).
    + rewrite Hdom', Hdom. cbn. set_solver.
    + intros i'. rewrite elem_of_cons, Hin. assert (m' !! t = Some i) by (by eapply lookup_weaken).
      split; [intros [[= ->]|(t' & Ht' & ?)]; [exists t|exists t']; split; try done; by constructor|].
      intros (t' & [[= <-]|Ht']%elem_of_cons & Hm'); [left; congruence|eauto].
  - destruct (Hg ctx w Hafter) as (ctx1 & infs1 & Hrun & Hk1).
    destruct (IH ctx1 w m) as (ctx' & w' & m' & infs & Hrest & Hinf' & Hk & Hcalls' & Hsub' & Hdom' & Hin);
      [by eapply after_ducks_keeps|by eapply informed_keeps|].
    exists ctx', w', m', (map inr infs1 ++ infs). split_and!; try done.
    + cbn [eachInformers]. rewrite (ibind_Done _ _ _ _ _ Hrun). by rewrite (ibind_Done _ _ _ _ _ Hrest).
    + etrans; [|exact Hk]. by apply (keeps_at_weaken (λ _, True)).
    + intros i. rewrite elem_of_app, Hin. split.
      * intros [(? & [=] & _)%list_elem_of_fmap|(t & Ht & ?)]. exists t. split; [by constructor|done].
      * intros (t & [[=]|Ht]%elem_of_cons & ?). eauto.
Qed.
End run.

(** ** Start-up *)

Section phases.
Context (cfg : Config) (m : modules) (l : list injector) (Hl : Forall (foreign cfg m) l).

Lemma foreign_clients : Forall (benign (λ _, True) grows) (map (λ f ctx, f ctx cfg) (clients l)).
Proof. induction Hl as [|[] ? Hf ? IH]; cbn; try constructor; auto. Qed.
Lemma foreign_factories : Forall (benign (after_clients m) keeps) (informerFactories l).
Proof. induction Hl as [|[] ? Hf ? IH]; cbn; try constructor; auto. Qed.
Lemma foreign_ducks : Forall (benign (after_factories m) keeps) (ducks l).
Proof. induction Hl as [|[] ? Hf ? IH]; cbn; try constructor; auto. Qed.
Lemma foreign_informers : Forall (benign_informers (after_ducks m)) (map single (informers l) ++ filteredInformers l).
Proof.
  apply Forall_app. split; induction Hl as [|[] ? Hf ? IH]; cbn; try constructor; auto.
Qed.
End phases.

Lemma labelled_foreign m gs :
  Forall (benign_informers (after_ducks m)) gs → Forall2 (labelled m) gs (map (λ _, None) gs).
Proof. induction 1; cbn; by constructor. Qed.

(** What this repository registers: a function that stores a client, one for the factory,
    the duck, and the informers of the three kinds. *)
Record own_injectors (l : list injector) (withClient : Ctx → Config → I Ctx) (withFactory : Ctx → I Ctx) : Prop := {
  own_clients : clients l = [withClient];
  own_factories : informerFactories l = [withFactory];
  own_ducks : ducks l = [λ ctx, ilift (serviceable_WithDuck ctx)];
  own_informers m : Forall2 (labelled m) (map single (informers l))
    [Some T_ProvisionedService; Some T_ServiceBinding; Some T_ServiceBindingProjection];
  own_filtered : filteredInformers l = [];
}.

(** The informers that are returned, and what the context and the world hold. *)
Record has_started ctx (n : nat) (c : clientset_interface) (dc : DynamicClient) w ctx' w' (infs : list AnyInformer)
    (i1 i2 i3 : SharedIndexInformer) : Prop := {
  hs_started : started ctx' n c dc;
  hs_factories : w_factories w' = w_factories w ++ [(c,
    mkFactory (ctx_NamespaceScope ctx) None (ctx_ResyncPeriod ctx) ∅
      {[T_ProvisionedService := i1; T_ServiceBinding := i2; T_ServiceBindingProjection := i3]} ∅)];
  hs_provisionedservice : scoped ctx T_ProvisionedService i1;
  hs_servicebinding : scoped ctx T_ServiceBinding i2;
  hs_servicebindingprojection : scoped ctx T_ServiceBindingProjection i3;
  hs_distinct : NoDup (map informer_id [i1; i2; i3]);
  hs_returned i : inl i ∈ infs ↔ i ∈ [i1; i2; i3];
}.

Section start.
Context (withClient : Ctx → Config → I Ctx) (withFactory : Ctx → I Ctx) (own fl : list injector) (m : modules).
Context (c : clientset_interface) (cfg : Config) (calls calls' : list config_event).
Context (withClient_stores : ∀ ctx w, w_config_calls w = calls →
  withClient ctx cfg w =
    Done (WithValue ctx client_Key (VClient c), mkWorld calls' (w_factories w) (w_informer_calls w))).
Context (withClient_adds : ∀ ctx w ctx' w', withClient ctx cfg w = Done (ctx', w') →
  ctx_DynamicClient ctx' = ctx_DynamicClient ctx ∧ ctx_Others ctx' = ctx_Others ctx).
Context (withFactory_stores : ∀ ctx w, ctx_Value ctx client_Key = Some (VClient c) →
  withFactory ctx w = Done (WithValue ctx factory_Key (VFactory (length (w_factories w))),
    mkWorld (w_config_calls w)
      (w_factories w ++ [(c, mkFactory (ctx_NamespaceScope ctx) None (ctx_ResyncPeriod ctx) ∅ ∅ ∅)])
      (w_informer_calls w))).
Context (Hown : own_injectors own withClient withFactory) (Hfl : Forall (foreign cfg m) fl).

(** The clients, the factories and the ducks. *)
Lemma clients_phase l ctx w :
  l ≡ₚ own ++ fl → w_config_calls w = calls → supplied cfg m fl ctx →
  ∃ ctx', each (map (λ f ctx, f ctx cfg) (clients l)) ctx w =
      Done (ctx', mkWorld calls' (w_factories w) (w_informer_calls w)) ∧
    grows (WithValue ctx client_Key (VClient c)) ctx' ∧ after_clients m ctx'.
Proof.
  intros Hl Hw Hsup.
  assert (Hperm : map (λ f ctx, f ctx cfg) (clients l)
    ≡ₚ (λ ctx, withClient ctx cfg) :: map (λ f ctx, f ctx cfg) (clients fl)).
  { unfold clients. rewrite Hl, omap_app, map_app. fold (clients own). by rewrite (own_clients _ _ _ Hown). }
  pose proof (foreign_clients cfg m fl Hfl) as Hben.
  destruct (each_one (λ _, True) grows (λ _ _ _ H, H) _ _ _ ctx w
      (mkWorld calls' (w_factories w) (w_informer_calls w)) Hperm Hben Logic.I)
    as (c0 & c1 & ctx' & Hk0 & Hrun1 & Hk1 & Hrun); [intros ? _; eauto|].
  assert (∀ Q, (∀ c1 c2, grows c1 c2 → Q c1 → Q c2) →
    (∀ c1 c2, ctx_DynamicClient c2 = ctx_DynamicClient c1 → ctx_Others c2 = ctx_Others c1 → Q c1 → Q c2) →
    Q ctx ∨ (∃ f, Client f ∈ fl ∧ ensures (λ _, True) Q (λ ctx, f ctx cfg)) → Q ctx') as Hensures.
  { intros Q HQ HQ' HQctx. eapply (each_ensures (λ _, True) Q); [|done| |exact Hrun].
    - rewrite Hperm. constructor; [|by eapply Forall_impl; [exact Hben|]; intros f; apply benign_steady].
      intros c2 w2 c3 w3 _ Hc. destruct (withClient_adds _ _ _ _ Hc). eauto.
    - destruct HQctx as [|(f & Hf & Hs)]; [by left|right]. rewrite Hperm. apply Exists_cons_tl.
      apply Exists_exists. eexists. split; [|exact Hs]. apply list_elem_of_fmap.
      exists f. split; [done|]. unfold clients. apply list_elem_of_omap. eauto. }
  exists ctx'. split; [exact Hrun|]. rewrite withClient_stores in Hrun1 by done. injection Hrun1 as <-.
  destruct Hsup as [Hdyn Hcl _ _]. split; [|split].
  - etrans; [|exact Hk1]. by apply grows_WithValues.
  - apply (Hensures (λ c, is_Some (ctx_DynamicClient c))); [by intros ?? []|by intros ?? ->|done].
  - intros k Hk. apply (Hensures (λ c, k ∈ ctx_Others c)); [by apply grows_others_in|by intros ?? _ ->|auto].
Qed.

Lemma factories_phase l ctx w :
  l ≡ₚ own ++ fl → ctx_Value ctx client_Key = Some (VClient c) → after_clients m ctx →
  (∀ k, k ∈ of_factories m → k ∈ ctx_Others ctx ∨
    ∃ f, InformerFactory f ∈ fl ∧ ensures (after_clients m) (λ c, k ∈ ctx_Others c) f) →
  ∃ ctx', each (informerFactories l) ctx w =
      Done (ctx', mkWorld (w_config_calls w)
        (w_factories w ++ [(c, mkFactory (ctx_NamespaceScope ctx) None (ctx_ResyncPeriod ctx) ∅ ∅ ∅)])
        (w_informer_calls w)) ∧
    keeps (WithValue ctx factory_Key (VFactory (length (w_factories w)))) ctx' ∧ after_factories m ctx'.
Proof.
  intros Hl Hc Hafter Hsup.
  assert (Hperm : informerFactories l ≡ₚ withFactory :: informerFactories fl).
  { unfold informerFactories. rewrite Hl, omap_app. fold (informerFactories own). by rewrite (own_factories _ _ _ Hown). }
  set (pre := λ c0, after_clients m c0 ∧ ctx_Value c0 client_Key = Some (VClient c)).
  assert (Hpre : ∀ c1 c2, keeps c1 c2 → pre c1 → pre c2).
  { intros c1 c2 Hk [Ha Hv]. split; [by eapply after_clients_keeps|by rewrite (keeps_value _ _ _ Hk)]. }
  assert (Hben : Forall (benign pre keeps) (informerFactories fl)).
  { eapply Forall_impl; [apply (foreign_factories cfg m fl Hfl)|]. intros f Hf c1 w1 [Ha _]. by apply Hf. }
  edestruct (each_one pre keeps Hpre (informerFactories l) withFactory (informerFactories fl) ctx w)
    as (c0 & c1 & ctx' & Hk0 & Hrun1 & Hk1 & Hrun); [exact Hperm|exact Hben|by split| |].
  { intros ctx0 Hk0. destruct (Hpre _ _ Hk0 (conj Hafter Hc)) as [Ha Hv]. eexists.
    rewrite withFactory_stores by done. destruct Hk0 as [[] _]. rewrite grows_scope0, grows_resync0.
    split; [reflexivity|]. split; [done|]. by rewrite Value_ne. }
  exists ctx'. split; [exact Hrun|].
  rewrite withFactory_stores in Hrun1 by (by rewrite (keeps_value _ _ _ Hk0)). injection Hrun1 as <-.
  assert (Hkeeps : keeps (WithValue ctx factory_Key (VFactory (length (w_factories w)))) ctx')
    by (etrans; [|exact Hk1]; by apply keeps_WithValues).
  split; [exact Hkeeps|]. split; [by eapply after_clients_keeps; [exact Hkeeps|]|].
  intros k Hk. eapply (each_ensures pre (λ c, k ∈ ctx_Others c)); [|split; [exact Hafter|exact Hc]| |exact Hrun].
  - rewrite Hperm. constructor; [|eapply Forall_impl; [exact Hben|]; intros f; apply benign_steady; [done|];
      by apply keeps_others_in].
    intros c2 w2 c3 w3 [Ha Hv] Hc2. rewrite withFactory_stores in Hc2 by done. injection Hc2 as <- _.
    split; [|done]. split; [done|]. by rewrite Value_ne.
  - destruct (Hsup k Hk) as [|(f & Hf & Hs)]; [by left|right]. rewrite Hperm. apply Exists_cons_tl.
    apply Exists_exists. exists f. split; [unfold informerFactories; apply list_elem_of_omap; eauto|].
    intros c2 w2 c3 w3 [Ha _]. by apply Hs.
Qed.

Lemma ducks_phase l ctx w dc :
  l ≡ₚ own ++ fl → ctx_DynamicClient ctx = Some dc → after_factories m ctx →
  (∀ k, k ∈ of_ducks m → k ∈ ctx_Others ctx ∨
    ∃ f, Duck f ∈ fl ∧ ensures (after_factories m) (λ c, k ∈ ctx_Others c) f) →
  ∃ ctx', each (ducks l) ctx w = Done (ctx', w) ∧
    keeps (WithValue ctx serviceable_Key (VDuck (mkDuckFactory dc zeroServiceableType (ctx_ResyncPeriod ctx)))) ctx' ∧
    after_ducks m ctx'.
Proof.
  intros Hl Hdc Hafter Hsup.
  assert (Hperm : ducks l ≡ₚ (λ ctx, ilift (serviceable_WithDuck ctx)) :: ducks fl).
  { unfold ducks. rewrite Hl, omap_app. fold (ducks own). by rewrite (own_ducks _ _ _ Hown). }
  assert (Hduck : ∀ ctx0, keeps ctx ctx0 → serviceable_WithDuck ctx0 = Done (WithValue ctx0 serviceable_Key
    (VDuck (mkDuckFactory dc zeroServiceableType (ctx_ResyncPeriod ctx))))).
  { intros ctx0 [[_ _ Hre _ _] Hd]. unfold serviceable_WithDuck. by rewrite Hd, Hdc, Hre. }
  pose proof (foreign_ducks cfg m fl Hfl) as Hben.
  edestruct (each_one (after_factories m) keeps (after_factories_keeps m) _ _ _ ctx w w Hperm Hben Hafter)
    as (c0 & c1 & ctx' & Hk0 & Hrun1 & Hk1 & Hrun).
  { intros ctx0 Hk0. eexists. unfold ilift. rewrite Hduck by done. split; [reflexivity|].
    exact (after_factories_keeps m _ _ Hk0 Hafter). }
  exists ctx'. split; [exact Hrun|]. unfold ilift in Hrun1. rewrite Hduck in Hrun1 by done. injection Hrun1 as <-.
  assert (Hkeeps : keeps (WithValue ctx serviceable_Key (VDuck (mkDuckFactory dc zeroServiceableType
    (ctx_ResyncPeriod ctx)))) ctx') by (etrans; [|exact Hk1]; by apply keeps_WithValues).
  split; [exact Hkeeps|]. split; [by eapply after_factories_keeps; [exact Hkeeps|]|].
  intros k Hk. eapply (each_ensures (after_factories m) (λ c, k ∈ ctx_Others c)); [|exact Hafter| |exact Hrun].
  - rewrite Hperm. constructor; [|eapply Forall_impl; [exact Hben|]; intros f; apply benign_steady;
      [by apply after_factories_keeps|by apply keeps_others_in]].
    intros c2 w2 c3 w3 Ha Hc2. unfold ilift, serviceable_WithDuck in Hc2.
    destruct (ctx_DynamicClient c2); [|done]. by injection Hc2 as <- _.
  - destruct (Hsup k Hk) as [|(f & Hf & Hs)]; [by left|right]. rewrite Hperm. apply Exists_cons_tl.
    apply Exists_exists. exists f. split; [unfold ducks; apply list_elem_of_omap; eauto|done].
Qed.

Definition own_kinds : list (option go_type) :=
  [Some T_ProvisionedService; Some T_ServiceBinding; Some T_ServiceBindingProjection].

Lemma own_kinds_elem t :
  Some t ∈ own_kinds ↔ t = T_ProvisionedService ∨ t = T_ServiceBinding ∨ t = T_ServiceBindingProjection.
Proof. unfold own_kinds. rewrite !elem_of_cons, elem_of_nil. naive_solver. Qed.

Lemma informers_labels l :
  l ≡ₚ own ++ fl →
  ∃ ls, Forall2 (labelled m) (map single (informers l) ++ filteredInformers l) ls ∧
    ∀ t, Some t ∈ ls ↔ Some t ∈ own_kinds.
Proof.
  intros Hl. set (gs := map single (informers fl) ++ filteredInformers fl).
  assert (Hperm : map single (informers own) ++ gs ≡ₚ map single (informers l) ++ filteredInformers l).
  { unfold gs, informers, filteredInformers. rewrite Hl, !omap_app, map_app.
    fold (informers own) (filteredInformers own). rewrite (own_filtered _ _ _ Hown). by rewrite (assoc_L (++)). }
  destruct (Permutation_Forall2 Hperm (Forall2_app (own_informers _ _ _ Hown m)
    (labelled_foreign m gs (foreign_informers cfg m fl Hfl)))) as (ls & Hls & Hlabels).
  exists ls. split; [exact Hlabels|]. intros t. rewrite <- Hls, elem_of_app.
  split; [|by left]. intros [|(? & [=] & _)%list_elem_of_fmap]; done.
Qed.

Lemma NoDup_three {A} (a b d : A) : a ≠ b → a ≠ d → b ≠ d → NoDup [a; b; d].
Proof.
  intros Hab Had Hbd. constructor; [by intros [?|[?|?%not_elem_of_nil]%elem_of_cons]%elem_of_cons|].
  constructor; [by intros [?|?%not_elem_of_nil]%elem_of_cons|]. apply NoDup_singleton.
Qed.

Lemma distinct_ids (im : gmap go_type SharedIndexInformer) i1 i2 i3 :
  (∀ t t' i i', im !! t = Some i → im !! t' = Some i' → informer_id i = informer_id i' → t = t') →
  im !! T_ProvisionedService = Some i1 → im !! T_ServiceBinding = Some i2 → im !! T_ServiceBindingProjection = Some i3 →
  NoDup (map informer_id [i1; i2; i3]).
Proof.
  intros Hinj Hi1 Hi2 Hi3. apply NoDup_three; intros Heq.
  - discriminate (Hinj _ _ _ _ Hi1 Hi2 Heq).
  - discriminate (Hinj _ _ _ _ Hi1 Hi3 Heq).
  - discriminate (Hinj _ _ _ _ Hi2 Hi3 Heq).
Qed.

Lemma three_informers (im : gmap go_type SharedIndexInformer) (kinds : gset go_type) :
  dom im = kinds → kinds = {[T_ProvisionedService; T_ServiceBinding; T_ServiceBindingProjection]} →
  ∃ i1 i2 i3, im = {[T_ProvisionedService := i1; T_ServiceBinding := i2; T_ServiceBindingProjection := i3]}.
Proof.
  intros Hdom ->. assert (Hin : ∀ t, is_Some (im !! t) ↔
    t = T_ProvisionedService ∨ t = T_ServiceBinding ∨ t = T_ServiceBindingProjection)
    by (intros t; rewrite <- elem_of_dom, Hdom; set_solver).
  destruct (im !! T_ProvisionedService) as [i1|] eqn:E1; [|exfalso; eapply is_Some_None; rewrite <- E1; apply Hin; auto].
  destruct (im !! T_ServiceBinding) as [i2|] eqn:E2; [|exfalso; eapply is_Some_None; rewrite <- E2; apply Hin; auto].
  destruct (im !! T_ServiceBindingProjection) as [i3|] eqn:E3;
    [|exfalso; eapply is_Some_None; rewrite <- E3; apply Hin; auto].
  exists i1, i2, i3. apply map_eq. intros [].
  all: rewrite ?lookup_insert_eq, ?lookup_insert_ne, ?lookup_singleton_eq, ?lookup_singleton_ne by done; try done.
  all: apply eq_None_not_Some; rewrite Hin; naive_solver.
Qed.

(** Whatever the order of the functions, start-up is the same. *)
Lemma start l ctx w :
  l ≡ₚ own ++ fl → w_config_calls w = calls → supplied cfg m fl ctx →
  ∃ dc ctx' w' infs i1 i2 i3, setup_in_order l ctx cfg w = Done ((ctx', infs), w') ∧
    has_started ctx (length (w_factories w)) c dc w ctx' w' infs i1 i2 i3 ∧ w_config_calls w' = calls'.
Proof.
  intros Hl Hw Hsup. destruct (clients_phase l ctx w Hl Hw Hsup) as (ctx1 & Hrun1 & Hk1 & Ha1).
  pose proof Hk1 as [Hv1 Hsc1 Hre1 Ho1 _]. cbn in Ho1.
  set (w1 := mkWorld calls' (w_factories w) (w_informer_calls w)) in *.
  destruct (factories_phase l ctx1 w1 Hl) as (ctx2 & Hrun2 & Hk2 & Ha2);
    [by rewrite Hv1, Value_eq|done| |].
  { intros k Hk. destruct (supplied_factories _ _ _ _ Hsup k Hk); [left; set_solver|by right]. }
  rewrite Hsc1, Hre1 in Hrun2. cbn in Hrun2.
  set (w2 := mkWorld calls' _ _) in Hrun2. pose proof Hk2 as [[_ _ Hre2 Ho2 _] _]. cbn in Ho2.
  destruct (proj1 (proj1 Ha2)) as [dc Hdc].
  destruct (ducks_phase l ctx2 w2 dc Hl Hdc Ha2) as (ctx3 & Hrun3 & Hk3 & Ha3).
  { intros k Hk. destruct (supplied_ducks _ _ _ _ Hsup k Hk); [left; set_solver|by right]. }
  pose proof Hk3 as [[_ _ Hre3 _ _] Hd3].
  destruct (informers_labels l Hl) as (ls & Hls & Hkinds).
  destruct (eachInformers_run ctx (w_factories w) c m _ _ ctx3 w2 ∅ Hls Ha3)
    as (ctx' & w' & im & infs & Hrun & [Hf' Hw' Hsc Hkey _ Hinj] & [Hk Hd'] & Hcalls & _ & Hdom & Hin).
  { split; try (by intros *; rewrite lookup_empty); [|done].
    unfold factory_Get. by rewrite (keeps_value _ _ _ Hk3), Value_ne, (keeps_value _ _ _ Hk2), Value_eq by done. }
  destruct (three_informers im (list_to_set (omap id ls))) as (i1 & i2 & i3 & ->); [set_solver| |].
  { apply set_eq. intros t. rewrite elem_of_omap_id, Hkinds, own_kinds_elem. set_solver. }
  exists dc, ctx', w', infs, i1, i2, i3. split.
  { unfold setup_in_order. by rewrite (ibind_Done _ _ _ _ _ Hrun1), (ibind_Done _ _ _ _ _ Hrun2), (ibind_Done _ _ _ _ _ Hrun3). }
  split; [|by rewrite Hcalls]. set (im := {[_ := i1; _ := i2; _ := i3]}) in *.
  assert (Hm : im !! T_ProvisionedService = Some i1 ∧ im !! T_ServiceBinding = Some i2 ∧
    im !! T_ServiceBindingProjection = Some i3) by (by unfold im; simplify_map_eq).
  destruct Hm as (Hi1 & Hi2 & Hi3).
  assert (Hresync : ctx_ResyncPeriod ctx' = ctx_ResyncPeriod ctx3) by apply (grows_resync _ _ _ Hk).
  split; [|exact Hw'|by apply Hsc|by apply Hsc|by apply Hsc| |].
  - split.
    + unfold client_Get. rewrite (grows_value _ _ _ Hk), (keeps_value _ _ _ Hk3), Value_ne, (keeps_value _ _ _ Hk2),
        Value_ne, Hv1, Value_eq by done. done.
    + done.
    + unfold provisionedservice.Get, kind_Get. by rewrite Hkey, decide_True by eauto.
    + unfold servicebinding.Get, kind_Get. by rewrite Hkey, decide_True by eauto.
    + unfold servicebindingprojection.Get, kind_Get. by rewrite Hkey, decide_True by eauto.
    + unfold serviceable_Get. rewrite (grows_value _ _ _ Hk), (keeps_value _ _ _ Hk3), Value_eq by done.
      by rewrite Hresync, Hre3.
    + by rewrite Hd', Hd3.
  - by apply (distinct_ids im).
  - intros i. rewrite Hin. split.
    + intros (t & [->|[->| ->]]%Hkinds%own_kinds_elem & Hmt); rewrite !elem_of_cons;
        [left|right; left|right; right; left]; congruence.
    + intros [->|[->|[->|[]%elem_of_nil]%elem_of_cons]%elem_of_cons]%elem_of_cons; eexists;
        (split; [apply Hkinds, own_kinds_elem|eassumption]); auto.
Qed.
End start.

(** *** What the packages register *)
Section inits.
Context `{!InjectionRegistry (DynamicClient := DynamicClient) (ForeignClient := ForeignClient)
  (ForeignInformer := ForeignInformer)}.
Context `{!InjectionRegistryLaws (DynamicClient := DynamicClient) (ForeignClient := ForeignClient)
  (ForeignInformer := ForeignInformer)}.

(** An [init] function appends what it registers. *)
Definition appends (init : Registry → Registry) : Prop :=
  ∀ r, Registered (init r) = Registered r ++ Registered (init emptyRegistry).

Lemma Register_appends i : appends (Register i).
Proof. intros r. by rewrite !Registered_Register, Registered_empty. Qed.

Lemma appends_compose f g : appends f → appends g → appends (λ r, g (f r)).
Proof. intros Hf Hg r. by rewrite Hg, Hf, (Hg (f _)), <- (assoc_L (++)). Qed.

Lemma run_inits_Registered inits :
  Forall appends inits →
  Registered (run_inits inits) = flat_map (λ init, Registered (init emptyRegistry)) inits.
Proof.
  intros Hi. unfold run_inits.
  assert (Hr : ∀ r, Registered (foldl (λ r init, init r) r inits)
    = Registered r ++ flat_map (λ init, Registered (init emptyRegistry)) inits);
    [|by rewrite Hr, Registered_empty].
  induction Hi as [|init inits Hinit _ IH]; intros r; cbn; [by rewrite app_nil_r|].
  by rewrite IH, Hinit, <- (assoc_L (++)).
Qed.

(** Whatever the order in which Go runs the functions, the registry has the same injectors. *)
Lemma run_inits_permuted inits own fl :
  inits ≡ₚ own ++ map Register fl → Forall appends own →
  Registered (run_inits inits) ≡ₚ flat_map (λ init, Registered (init emptyRegistry)) own ++ fl.
Proof.
  intros Hperm Hown. assert (Forall appends inits) as Hi.
  { rewrite Hperm. apply Forall_app. split; [done|]. apply Forall_map, Forall_true. apply Register_appends. }
  rewrite run_inits_Registered by done. rewrite (Permutation_flat_map _ Hperm), flat_map_app.
  f_equiv. clear Hperm Hi. induction fl as [|i fl IH]; [done|]. cbn.
  rewrite Registered_Register, Registered_empty. cbn. by rewrite IH.
Qed.

Lemma manager_inits_append env : Forall appends (manager_inits env).
Proof.
  repeat constructor; try apply Register_appends.
  apply (appends_compose (RegisterClient _) (RegisterClientFetcher _)); apply Register_appends.
Qed.
Lemma fake_inits_append : Forall appends fake_inits.
Proof.
  repeat constructor; try apply Register_appends.
  apply (appends_compose (RegisterClient _) (RegisterClientFetcher _)); apply Register_appends.
Qed.

Definition registers (inits : list (Registry → Registry)) : list injector :=
  flat_map (λ init, Registered (init emptyRegistry)) inits.

Lemma manager_registers env : own_injectors (registers (manager_inits env)) (client_withClient env) factory_withInformerFactory.
Proof.
  unfold registers, manager_inits. cbn [flat_map]. unfold client_init, RegisterClientFetcher, RegisterClient.
  unfold factory_init, serviceable_init, provisionedservice_init, servicebinding_init, servicebindingprojection_init,
    RegisterInformerFactory, RegisterDuck, RegisterInformer.
  rewrite !Registered_Register, !Registered_empty. split; try done. repeat constructor.
Qed.
Lemma fake_registers :
  own_injectors (registers fake_inits) (λ ctx cfg, ilift (fakeclient_withClient ctx cfg)) fakefactory_withInformerFactory.
Proof.
  unfold registers, fake_inits. cbn [flat_map]. unfold fakeclient_init, RegisterClientFetcher, RegisterClient.
  unfold fakefactory_init, fakeserviceable_init, provisionedservice_fake_init, servicebinding_fake_init,
    servicebindingprojection_fake_init, RegisterInformerFactory, RegisterDuck, RegisterInformer.
  rewrite !Registered_Register, !Registered_empty. split; try done. repeat constructor.
Qed.

(** C30: in whatever order Go runs the [init] functions of the packages that the manager imports
    and of those of other modules, start-up returns with the same context, provided that
    [NewForConfigOrDie] constructs the clientset from the configuration, and that the
    functions of the other modules are [foreign] and [supplied]: they keep what these
    packages store and return, the later ones once the clients are there, one of which is
    the dynamic client.  The context has the clientset that was constructed from the
    configuration and one informer factory over it, restricted to the context's namespace;
    the informers of the three kinds are distinct
    objects of that factory, restricted alike, with the context's resync period, not yet
    started and returned to be started; and the duck factory is over the dynamic client
    that the context has. *)
Theorem manager_starts env inits fl m ctx cfg w cs log :
  inits ≡ₚ manager_inits env ++ map Register fl → Forall (foreign cfg m) fl → supplied cfg m fl ctx →
  NewForConfigOrDie env cfg (w_config_calls w) = (Done cs, log) →
  ∃ dc ctx' w' infs i1 i2 i3,
    SetupInformers (run_inits inits) ctx cfg w = Done ((ctx', infs), w') ∧
    has_started ctx (length (w_factories w)) (RealClientset cs) dc w ctx' w' infs i1 i2 i3 ∧
    w_config_calls w' = log.
Proof.
  intros Hinits Hfl Hsup Hcs. setoid_rewrite SetupInformers_runs.
  apply (start (client_withClient env) factory_withInformerFactory (registers (manager_inits env)) fl m
    (RealClientset cs) cfg (w_config_calls w) log); try done.
  - intros ctx0 w0 Hw0. unfold client_withClient, ibind, config_call. by rewrite Hw0, Hcs.
  - intros ctx0 w0 ctx' w' Hrun. unfold client_withClient, ibind, config_call, iret in Hrun.
    destruct (NewForConfigOrDie env cfg (w_config_calls w0)) as [[?|] ?]; [|done]. by injection Hrun as <- _.
  - intros ctx0 w0 Hc. unfold factory_withInformerFactory, client_Get. rewrite Hc.
    rewrite (ilift_run _ (RealClientset cs)) by done. unfold ibind, new_factory, iret.
    by rewrite scope_options_namespace.
  - apply manager_registers.
  - apply (run_inits_permuted _ _ _ Hinits), manager_inits_append.
Qed.

(** The fake packages, in any order, leave a context that the same getters read. *)
Theorem fakes_start inits fl m ctx cfg w cs :
  inits ≡ₚ fake_inits ++ map Register fl → Forall (foreign cfg m) fl → supplied cfg m fl ctx →
  NewSimpleClientset [] = Done cs →
  ∃ dc ctx' w' infs i1 i2 i3,
    SetupInformers (run_inits inits) ctx cfg w = Done ((ctx', infs), w') ∧
    has_started ctx (length (w_factories w)) (AFakeClientset cs) dc w ctx' w' infs i1 i2 i3 ∧
    w_config_calls w' = w_config_calls w.
Proof.
  intros Hinits Hfl Hsup Hcs. setoid_rewrite SetupInformers_runs.
  apply (start (λ ctx cfg, ilift (fakeclient_withClient ctx cfg)) fakefactory_withInformerFactory (registers fake_inits) fl m
    (AFakeClientset cs) cfg (w_config_calls w) (w_config_calls w)); try done.
  - intros ctx0 [? ? ?] <-. unfold fakeclient_withClient, fakeclient_With. by rewrite Hcs.
  - intros ctx0 w0 ctx' w' Hrun. unfold ilift, fakeclient_withClient, fakeclient_With in Hrun.
    rewrite Hcs in Hrun. by injection Hrun as <- _.
  - intros ctx0 w0 Hc. unfold fakefactory_withInformerFactory, fakeclient_Get. rewrite Hc.
    rewrite (ilift_run _ cs) by done. unfold ibind, new_factory, iret. by rewrite scope_options_namespace.
  - apply fake_registers.
  - apply (run_inits_permuted _ _ _ Hinits), fake_inits_append.
Qed.
End inits.
End facts.

(** ** The schemes *)

(** The [init] functions of the three controllers add the same types: client-go's scheme
    then knows exactly what it knew and the types of the four groups. *)
Theorem controller_inits_scheme s x :
  x ∈ servicebinding_controller_init (provisionedservice_controller_init (servicebindingprojection_controller_init s)) ↔
  x ∈ s ∨ x ∈ AddToScheme [].
Proof.
  unfold servicebinding_controller_init, provisionedservice_controller_init, servicebindingprojection_controller_init.
  assert (Hadd : ∀ s', x ∈ AddToScheme s' ↔ x ∈ s' ∨ x ∈ AddToScheme []).
  { intros s'. unfold AddToScheme, servicebinding_addKnownTypes, labsinternal_addKnownTypes, labs_addKnownTypes,
      duck_addKnownTypes, AddKnownTypes. rewrite !elem_of_app, elem_of_nil. tauto. }
  rewrite (Hadd (AddToScheme (AddToScheme s))), (Hadd (AddToScheme s)), (Hadd s). tauto.
Qed.

(** ** Witnesses *)
#[local] Existing Instance string_opaque.
#[local] Existing Instance sample_rest.
#[local] Existing Instance sample_trackers.

(** A registry that lists what it is given. *)
Definition list_registry : InjectionRegistry (DynamicClient := string) (ForeignClient := unit) (ForeignInformer := unit) := {|
  Registry := list injector; emptyRegistry := []; Register i r := r ++ [i]; Registered r := r;
  SetupInformers := setup_in_order;
|}.
#[local] Existing Instance list_registry.

#[local] Instance list_registry_laws : InjectionRegistryLaws.
Proof. by split. Qed.

Notation sample_injector := (injector (DynamicClient := string) (ForeignClient := unit) (ForeignInformer := unit)).

(** knative's dynamic client, which takes the place of the one that is there; its client and
    factory of the core kinds, an informer that needs the factory, and a duck that panics
    without a dynamic client. *)
Definition dynamic_client : sample_injector :=
  Client (λ ctx _, iret (mkCtx (ctx_Value ctx) (ctx_NamespaceScope ctx) (ctx_ResyncPeriod ctx) (Some "configured")
    (ctx_Others ctx))).
Definition with_other (k : string) (ctx : Ctx (DynamicClient := string)) : Ctx :=
  mkCtx (ctx_Value ctx) (ctx_NamespaceScope ctx) (ctx_ResyncPeriod ctx) (ctx_DynamicClient ctx) ({[k]} ∪ ctx_Others ctx).
Definition needs {A} (k : string) (m : I A) (ctx : Ctx (DynamicClient := string)) : I A :=
  if decide (k ∈ ctx_Others ctx) then m else λ _, Panic.
Definition core_client : sample_injector := Client (λ ctx _, iret (with_other "client" ctx)).
Definition core_factory : sample_injector := InformerFactory (λ ctx, needs "client" (iret (with_other "factory" ctx)) ctx).
Definition core_informer : sample_injector := Informer (λ ctx, needs "factory" (iret (ctx, inr ())) ctx).
Definition podspecable : sample_injector :=
  Duck (λ ctx, match ctx_DynamicClient ctx with Some _ => iret (with_other "podspecable" ctx) | None => λ _, Panic end).

Definition other_modules : list sample_injector :=
  [podspecable; core_informer; core_factory; dynamic_client; core_client].
Definition sample_modules : modules := mkModules {["client"]} {["factory"]} {["podspecable"]}.

Lemma with_other_keeps k ctx : keeps ctx (with_other k ctx).
Proof. split; [split|]; try done. cbn. set_solver. Qed.

Lemma needs_there {A} k (m : I A) ctx : k ∈ ctx_Others ctx → needs k m ctx = m.
Proof. intros Hk. unfold needs. by rewrite decide_True. Qed.

Lemma sample_foreign : Forall (foreign sample_config sample_modules) other_modules.
Proof.
  repeat apply Forall_cons_2; [..|apply Forall_nil_2]; cbn.
  - intros ctx w [[[dc Hdc] _] _]. rewrite Hdc. eexists. split; [reflexivity|apply with_other_keeps].
  - intros ctx w [[_ Hf] _]. exists ctx, [()]. unfold single. rewrite needs_there by (cbn in Hf; set_solver).
    split; [reflexivity|done].
  - intros ctx w [_ Hc]. eexists. rewrite needs_there by (cbn in Hc; set_solver).
    split; [reflexivity|apply with_other_keeps].
  - intros ctx w _. eexists. split; [reflexivity|]. split; done.
  - intros ctx w _. eexists. split; [reflexivity|apply with_other_keeps].
Qed.

Lemma sample_supplied ctx : supplied sample_config sample_modules other_modules ctx.
Proof.
  split.
  - right. eexists. split; [do 3 apply list_elem_of_further; apply list_elem_of_here|].
    intros c w c' w' _ Hrun. by injection Hrun as <- _.
  - intros k Hk. cbn in Hk. apply elem_of_singleton in Hk as ->. right. eexists. split; [do 4 apply list_elem_of_further; apply list_elem_of_here|].
    intros c w c' w' _ Hrun. injection Hrun as <- _. cbn. set_solver.
  - intros k Hk. cbn in Hk. apply elem_of_singleton in Hk as ->. right. eexists. split; [do 2 apply list_elem_of_further; apply list_elem_of_here|].
    intros c w c' w' [_ Hc] Hrun. cbn in Hrun. rewrite needs_there in Hrun by (cbn in Hc; set_solver).
    injection Hrun as <- _. cbn. set_solver.
  - intros k Hk. cbn in Hk. apply elem_of_singleton in Hk as ->. right. eexists. split; [apply list_elem_of_here|].
    intros c w c' w' _ Hrun. cbn in Hrun. destruct (ctx_DynamicClient c); [|done]. injection Hrun as <- _. cbn. set_solver.
Qed.

(** The packages in the opposite order, in a context with another dynamic client. *)
Definition start_from : Ctx (DynamicClient := string) := mkCtx (λ _, None) "team-a" 36000 (Some "default") ∅.

Lemma manager_starts_witness :
  ∃ ctx' w' infs i1 i2 i3,
    SetupInformers (run_inits (reverse (manager_inits sample_config_env ++ map Register other_modules)))
      start_from sample_config empty_world = Done ((ctx', infs), w') ∧
    servicebinding.Get ctx' = Done 0 ∧ informer_namespace i2 = "team-a" ∧ inl i1 ∈ infs ∧ inl i3 ∈ infs.
Proof.
  destruct (manager_starts sample_config_env
    (reverse (manager_inits sample_config_env ++ map Register other_modules))
    other_modules sample_modules start_from sample_config empty_world
    sample_clientset (built None sample_config sample_clientset) (reverse_Permutation _) sample_foreign
    (sample_supplied _) eq_refl)
    as (dc & ctx' & w' & infs & i1 & i2 & i3 & Hrun & Hst & _).
  exists ctx', w', infs, i1, i2, i3. split_and!; [exact Hrun|..].
  - exact (started_servicebinding _ _ _ _ (hs_started _ _ _ _ _ _ _ _ _ _ _ Hst)).
  - exact (scoped_namespace _ _ _ (hs_servicebinding _ _ _ _ _ _ _ _ _ _ _ Hst)).
  - apply (hs_returned _ _ _ _ _ _ _ _ _ _ _ Hst). apply list_elem_of_here.
  - apply (hs_returned _ _ _ _ _ _ _ _ _ _ _ Hst). do 2 apply list_elem_of_further. apply list_elem_of_here.
Defined.
