(* ===== verification/TestSupport.v ===== *)
(** * The support code of the unit tests

    [pkg/reconciler/testing]: [listers.go], which sorts the objects of a test row by type
    and gives listers over them, and [factory.go], which builds a reconciler over fake
    clients.  The sorter, the fake clients of Kubernetes and of the dynamic client, the
    reactors of knative and [encoding/json] are interfaces.  A context is the one of
    [Injection] with what the other modules keep in it. *)
From S2P Require Import Prelude Api Effects Conditions Projection Binding Provisioned Resolver.
From S2P Require Import KindReconciler Kinds Admission Clients Clientset FakeClients.
From S2P Require Import Heap Informers Injection.

Local Open Scope go_scope.

(** ** listers.go *)

(** The types of the client-go clientset, and its [AddToScheme]. *)
Class KubeTypes := {
  KubeType : Type;
  T_Namespace : KubeType;
  T_Secret : KubeType;
  fakekube_types : list (GroupVersionKind * KubeType);
}.

Definition test_type `{KubeTypes} : Type := go_type + KubeType.
Definition test_scheme `{KubeTypes} : Type := list (GroupVersionKind * test_type).

(** [reconciler/testing.ObjectSorter] of knative: objects in one indexer for each type of a
    scheme.  An object of another type makes [AddObjects] panic. *)
Class ObjectSorters `{Opaque, ObjectTrackers, KubeTypes} := {
  object_type : RuntimeObj → test_type;
  Sorter : Type;
  LabelSelectorType : Type;
  NewObjectSorter : test_scheme → Sorter;
  AddObjects : list RuntimeObj → Sorter → outcome Sorter;
  IndexerForObjectType K : Sorter → test_type → Indexer LabelSelectorType K;
  ObjectsForSchemeFunc : Sorter → (test_scheme → test_scheme) → list RuntimeObj;
}.

Class ObjectSorterLaws `{ObjectSorters} := {
  AddObjects_known objs s :
    Forall (λ o, object_type o ∈ map snd s) objs → ∃ so, AddObjects objs (NewObjectSorter s) = Done so;
  (** "all the objects of the types of the scheme function" *)
  ObjectsForSchemeFunc_objects objs s so f o :
    AddObjects objs (NewObjectSorter s) = Done so →
    o ∈ ObjectsForSchemeFunc so f ↔ o ∈ objs ∧ object_type o ∈ map snd (f []);
}.

Section listers.
Context `{ObjectSorters}.

Definition fakekube_AddToScheme (s : test_scheme) : test_scheme :=
  s ++ map (λ '(k, t), (k, inr t)) fakekube_types.
(** [fake_AddToScheme] of [FakeClients], on a scheme that also has other types. *)
Definition fakeservicebindings_AddToScheme (s : test_scheme) : test_scheme :=
  s ++ map (λ '(k, t), (k, inl t)) (fake_AddToScheme []).

Definition clientSetSchemes : list (test_scheme → test_scheme) :=
  [fakekube_AddToScheme; fakeservicebindings_AddToScheme].

Record Listers := mkListers { sorter : Sorter }.

Definition NewScheme : test_scheme := foldl (λ scheme addTo, addTo scheme) [] clientSetSchemes.

Definition NewListers (objs : list RuntimeObj) : outcome Listers :=
  let scheme := NewScheme in
  let! sorter := AddObjects objs (NewObjectSorter scheme) in
  Done (mkListers sorter).

Definition Listers_NewScheme (l : Listers) : test_scheme := NewScheme.
Definition IndexerFor K (l : Listers) (t : test_type) : Indexer LabelSelectorType K :=
  IndexerForObjectType K (sorter l) t.
Definition GetKubeObjects (l : Listers) : list RuntimeObj := ObjectsForSchemeFunc (sorter l) fakekube_AddToScheme.
Definition GetServiceBindingsObjects (l : Listers) : list RuntimeObj :=
  ObjectsForSchemeFunc (sorter l) fakeservicebindings_AddToScheme.

(** [corev1listers.NewNamespaceLister] and [NewSecretLister] of client-go *)
Definition GetNamespaceLister {K Lister} (NewNamespaceLister : Indexer LabelSelectorType K → Lister) (l : Listers) : Lister :=
  NewNamespaceLister (IndexerFor K l (inr T_Namespace)).
Definition GetSecretLister {K Lister} (NewSecretLister : Indexer LabelSelectorType K → Lister) (l : Listers) : Lister :=
  NewSecretLister (IndexerFor K l (inr T_Secret)).
Definition GetServiceBindingLister (l : Listers) : kindLister LabelSelectorType ServiceBinding :=
  ServiceBindings.NewServiceBindingLister (IndexerFor _ l (inl T_ServiceBinding)).
Definition GetServiceBindingProjectionLister (l : Listers) : kindLister LabelSelectorType ServiceBindingProjection :=
  ServiceBindingProjections.NewServiceBindingProjectionLister (IndexerFor _ l (inl T_ServiceBindingProjection)).
Definition GetProvisionedServiceLister (l : Listers) : kindLister LabelSelectorType ProvisionedService :=
  ProvisionedServices.NewProvisionedServiceLister (IndexerFor _ l (inl T_ProvisionedService)).
End listers.

(** ** factory.go *)

(** [ToAPIVersionAndKind] and [String] of [schema.GroupVersionKind]. *)
Class GroupVersionKinds := {
  ToAPIVersionAndKind : GroupVersionKind → string * string;
  GVK_String : GroupVersionKind → string;
}.

(** The tests' view of objects: kinds in a scheme, [TypeMeta], JSON. *)
Class ObjectCodecs `{ObjectSorters} := {
  RuntimeDeepCopy : RuntimeObj → RuntimeObj;
  ObjectKinds : test_scheme → RuntimeObj → result error (list GroupVersionKind);
  SetTypeMeta : RuntimeObj → string → string → result error RuntimeObj;
  Marshal : RuntimeObj → result error string;
  UnmarshalUnstructured : string → result error RuntimeObj;
}.

Section to_unstructured.
Context `{ObjectCodecs, !GroupVersionKinds}.

(** [t.Fatal] ends the test.  A type without kinds would be an index out of range. *)
Definition or_fatal {A} (r : result error A) : outcome A := match r with Ok a => Done a | Err _ => Panic end.

Fixpoint ToUnstructured (sch : test_scheme) (objs : list RuntimeObj) : outcome (list RuntimeObj) :=
  match objs with
  | [] => Done []
  | obj :: objs =>
      let obj := RuntimeDeepCopy obj in
      let! gvks := or_fatal (ObjectKinds sch obj) in
      let! gvk := deref (head gvks) in
      let '(apiv, k) := ToAPIVersionAndKind gvk in
      let! obj := or_fatal (SetTypeMeta obj apiv k) in
      let! b := or_fatal (Marshal obj) in
      let! u := or_fatal (UnmarshalUnstructured b) in
      let! us := ToUnstructured sch objs in
      Done (u :: us)
  end.
End to_unstructured.

(** A reactor of a fake client: those of [factory.go], those of the test row, and what
    client-go and knative have. *)
Inductive reactor {Row Library : Type} :=
| Handled                      (** [return true, nil, nil] *)
| IndexCreated                 (** add the created object to its indexer; not handled *)
| GenerateName                 (** [rtesting.PrependGenerateNameReactor] *)
| ValidateCreates
| ValidateUpdates
| RowReactor (r : Row)
| LibraryReactor (r : Library).
Arguments reactor : clear implicits.

(** The chain of a fake client: for which verb and resource, in the order they are tried. *)
Definition reaction_chain (Row Library : Type) : Type := list (string * string * reactor Row Library).

Definition PrependReactor {Row Library} (verb resource : string) (r : reactor Row Library)
    (c : reaction_chain Row Library) : reaction_chain Row Library := (verb, resource, r) :: c.

Section factory.
Context `{ObjectCodecs, !GroupVersionKinds, !RestLibrary} {DynamicClient Row Library Controller : Type}.
Local Notation chain := (reaction_chain Row Library).

(** The context of a test: [Injection]'s, the references that the tracker has when the
    context is read, whether it has the logger and the kube client, and the size of the
    event recorder's buffer. *)
Record TestCtx := mkTestCtx {
  tc_ctx : Ctx (DynamicClient := DynamicClient);
  tc_tracker : option (list Reference);
  tc_logger : bool;
  tc_recorder : option nat;
  tc_kubeClient : bool;
}.

(** [rtesting.TableRow], the fields the factory reads. *)
Record TableRow := mkTableRow {
  row_Objects : list RuntimeObj;
  row_Ctx : option TestCtx;
  row_WithReactors : list Row;
}.

(** The three clients with their chains. *)
Record clients := mkClients { kubeChain : chain; servicebindingsChain : chain; dynamicChain : chain }.

(** [With] of the fake kube client and of the fake dynamic client, and the reactor that
    [NewSimpleClientset] gives to the fake clientset of this repository. *)
Context (fakekube_With : list RuntimeObj → outcome chain).
Context (fakedynamic_With : Ctx (DynamicClient := DynamicClient) → test_scheme → list RuntimeObj →
  outcome (Ctx (DynamicClient := DynamicClient) * chain)).
Context (ObjectReaction : Tracker → Library).
Context (background : TestCtx) (NewFakeTracker : list Reference).
(** The reconciler's interface [reconciler.LeaderAware], when it has it. *)
Context (Promote : Controller → option Controller).

Definition maxEventBufferSize : nat := 10.

Definition Ctor : Type := TestCtx → Listers → clients → Controller.

(** The context that the constructor gets, with the clients as they are then. *)
Definition decorate (ls : Listers) (row : TableRow) : outcome (TestCtx * clients) :=
  let ctx := default background (row_Ctx row) in
  let! kube := fakekube_With (GetKubeObjects ls) in
  let! (c, cs) := fakeclient_With (tc_ctx ctx) (GetServiceBindingsObjects ls) in
  let servicebindings := map (λ '(verb, resource, o), (verb, resource, LibraryReactor (ObjectReaction o)))
    (fake_reactors cs) in
  let! objects := ToUnstructured (Listers_NewScheme ls) (row_Objects row) in
  let! (c, dynamic) := fakedynamic_With c (Listers_NewScheme ls) objects in
  let ctx := mkTestCtx c (Some NewFakeTracker) true (Some maxEventBufferSize) true in
  let dynamic := PrependReactor "patch" "*" Handled dynamic in
  let kube := PrependReactor "create" "*" IndexCreated kube in
  let servicebindings := PrependReactor "create" "*" GenerateName servicebindings in
  Done (ctx, mkClients kube servicebindings dynamic).

(** The loop over [r.WithReactors]. *)
Definition prependRow (cs : clients) (reactors : list Row) : clients :=
  foldl (λ cs r, mkClients (PrependReactor "*" "*" (RowReactor r) (kubeChain cs))
    (PrependReactor "*" "*" (RowReactor r) (servicebindingsChain cs))
    (PrependReactor "*" "*" (RowReactor r) (dynamicChain cs))) cs reactors.

(** [MakeFactory(ctor)(t, r)]: the controller, the row with its new context, and the
    clients, which the action recorder and the event list read. *)
Definition MakeFactory (ctor : Ctor) (row : TableRow) : outcome (Controller * TableRow * clients) :=
  let! ls := NewListers (row_Objects row) in
  let! (ctx, cs) := decorate ls row in
  let c := ctor ctx ls cs in
  let row := mkTableRow (row_Objects row) (Some ctx) (row_WithReactors row) in
  let c := default c (Promote c) in
  let cs := prependRow cs (row_WithReactors row) in
  let cs := mkClients (kubeChain cs) (PrependReactor "create" "*" ValidateCreates (servicebindingsChain cs)) (dynamicChain cs) in
  let cs := mkClients (kubeChain cs) (PrependReactor "update" "*" ValidateUpdates (servicebindingsChain cs)) (dynamicChain cs) in
  Done (c, row, cs).

(** *** The tracker *)

(** [ctx.Value(TrackerKey).(tracker.Interface)] *)
Definition GetTracker (ctx : TestCtx) : outcome (list Reference) := deref (tc_tracker ctx).

(** The messages of [t.Errorf]; the loop returns at the first reference that fits. *)
Definition AssertTrackingObject (gvk : GroupVersionKind) (namespace name : string) (row : TableRow) :
    outcome (list string) :=
  let '(apiVersion, kind) := ToAPIVersionAndKind gvk in
  let! ctx := deref (row_Ctx row) in
  let! refs := GetTracker ctx in
  Done (if existsb (λ ref, bool_decide (Reference_APIVersion ref = apiVersion)
          && bool_decide (Reference_Name ref = name) && bool_decide (Reference_Namespace ref = namespace)
          && bool_decide (Reference_Kind ref = kind)) refs
        then []
        else ["Object was not tracked - " +:+ GVK_String gvk +:+ ", Name=" +:+ name +:+ ", Namespace=" +:+ namespace]).

Definition AssertTrackingProvisionedService (namespace name : string) : TableRow → outcome (list string) :=
  AssertTrackingObject (WithKind PS.SchemeGroupVersion "ProvisionedService") namespace name.

Definition AssertTrackingSecret (namespace name : string) : TableRow → outcome (list string) :=
  AssertTrackingObject (WithKind (mkGroupVersion "" "v1") "Secret") namespace name.
End factory.

(** ** Which objects go where *)
Section listers_facts.
Context `{ObjectSorterLaws}.

Lemma fakeservicebindings_types (t : test_type) :
  t ∈ map snd (fakeservicebindings_AddToScheme []) ↔ ∃ g, t = inl g.
Proof.
  split; [intros ([k x] & -> & ([k' g] & [= _ ->] & _)%list_elem_of_fmap)%list_elem_of_fmap; by exists g|].
  intros (g & ->). unfold fakeservicebindings_AddToScheme. cbn. rewrite !elem_of_cons. destruct g; tauto.
Qed.

Lemma fakekube_types_in (t : test_type) :
  t ∈ map snd (fakekube_AddToScheme []) ↔ ∃ k, t = inr k ∧ k ∈ map snd fakekube_types.
Proof.
  unfold fakekube_AddToScheme. cbn. rewrite map_map. split.
  - intros ([v k] & -> & Hk)%list_elem_of_fmap. exists k. split; [done|]. by apply (list_elem_of_fmap_2 snd) in Hk.
  - intros (k & -> & ([v k'] & -> & Hk)%list_elem_of_fmap). apply list_elem_of_fmap. by exists (v, k').
Qed.

Lemma NewScheme_types t :
  t ∈ map snd NewScheme ↔ t ∈ map snd (fakekube_AddToScheme []) ∨ t ∈ map snd (fakeservicebindings_AddToScheme []).
Proof. unfold NewScheme, clientSetSchemes. cbn [foldl]. unfold fakeservicebindings_AddToScheme. rewrite map_app, elem_of_app. done. Qed.

(** The listers can be made for objects of the types of client-go and of this repository;
    the fake clientset of this repository then gets its own objects, and the one of
    Kubernetes the others: every object goes to exactly one of them. *)
Theorem NewListers_sorts objs :
  Forall (λ o, object_type o ∈ map snd NewScheme) objs →
  ∃ ls, NewListers objs = Done ls ∧ ∀ o,
    (o ∈ GetServiceBindingsObjects ls ↔ o ∈ objs ∧ ∃ t, object_type o = inl t) ∧
    (o ∈ GetKubeObjects ls ↔ o ∈ objs ∧ ∃ t, object_type o = inr t).
Proof.
  intros Hobjs. destruct (AddObjects_known objs NewScheme Hobjs) as (so & Hso).
  exists (mkListers so). unfold NewListers. rewrite Hso. split; [done|]. intros o.
  unfold GetServiceBindingsObjects, GetKubeObjects. cbn [sorter].
  rewrite !(ObjectsForSchemeFunc_objects objs NewScheme so _ o Hso), fakeservicebindings_types, fakekube_types_in.
  split; [done|]. split; intros [Ho Ht]; (split; [done|]); [naive_solver|].
  rewrite Forall_forall in Hobjs. specialize (Hobjs o Ho). destruct Ht as (t & Ht).
  apply NewScheme_types in Hobjs as [Hk|Hs]; [by apply fakekube_types_in in Hk|].
  apply fakeservicebindings_types in Hs as (g & Hg). congruence.
Qed.
End listers_facts.

(** ** What the reactors of a row see *)
Section factory_facts.
Context `{ObjectCodecs, !GroupVersionKinds, !RestLibrary} {DynamicClient Row Library Controller : Type}.
Context (fakekube_With : list RuntimeObj → outcome (reaction_chain Row Library)).
Context (fakedynamic_With : Ctx (DynamicClient := DynamicClient) → test_scheme → list RuntimeObj →
  outcome (Ctx (DynamicClient := DynamicClient) * reaction_chain Row Library)).
Context (ObjectReaction : Tracker → Library).
Context (background : TestCtx (DynamicClient := DynamicClient)) (NewFakeTracker : list Reference).
Context (Promote : Controller → option Controller).
Local Notation MakeFactory :=
  (MakeFactory fakekube_With fakedynamic_With ObjectReaction background NewFakeTracker Promote).

Lemma prependRow_chains cs reactors :
  let row := reverse (map (λ r, ("*", "*", RowReactor r)) reactors) in
  prependRow (Row := Row) (Library := Library) cs reactors =
    mkClients (row ++ kubeChain cs) (row ++ servicebindingsChain cs) (row ++ dynamicChain cs).
Proof.
  cbn zeta. revert cs. induction reactors as [|r reactors IH]; intros cs; [by destruct cs|].
  unfold prependRow in *. cbn [foldl]. rewrite IH. unfold PrependReactor. cbn [map kubeChain servicebindingsChain dynamicChain].
  by rewrite !reverse_cons, <- !(assoc_L (++)).
Qed.

(** The reactors of a row are tried in the opposite order, after the validation of creations
    and updates, so they only see those that are valid, and before the defaults: names are
    generated, created objects are indexed and patches answered only when no reactor of the
    row handles the action. *)
Theorem MakeFactory_chains ctor row c row' cs :
  MakeFactory ctor row = Done (c, row', cs) →
  let reactors := reverse (map (λ r, ("*", "*", RowReactor r)) (row_WithReactors row)) in
  ∃ ls kube dynamic clientset (ctx ctx' : Ctx (DynamicClient := DynamicClient)),
    NewListers (row_Objects row) = Done ls ∧
    fakekube_With (GetKubeObjects ls) = Done kube ∧
    fakeclient_With ctx (GetServiceBindingsObjects ls) = Done (ctx', clientset) ∧
    kubeChain cs = reactors ++ ("create", "*", IndexCreated) :: kube ∧
    servicebindingsChain cs =
      ("update", "*", ValidateUpdates) :: ("create", "*", ValidateCreates) :: reactors ++
      ("create", "*", GenerateName) :: [("*", "*", LibraryReactor (ObjectReaction (FakeClients.GetTracker clientset)))] ∧
    dynamicChain cs = reactors ++ ("patch", "*", Handled) :: dynamic.
Proof.
  unfold TestSupport.MakeFactory, decorate. intros Hrun. cbn zeta.
  apply obind_Done in Hrun as (ls & Hls & Hrun). apply obind_Done in Hrun as ([ctx cl] & Hdec & Hrun).
  apply obind_Done in Hdec as (kube & Hkube & Hdec). apply obind_Done in Hdec as ([ctx1 clientset] & Hcs & Hdec).
  apply obind_Done in Hdec as (us & Hus & Hdec). apply obind_Done in Hdec as ([ctx2 dynamic] & Hdyn & Hdec).
  injection Hdec as <- <-. injection Hrun as _ _ <-. rewrite prependRow_chains.
  exists ls, kube, dynamic, clientset, (tc_ctx (default background (row_Ctx row))), ctx1. split_and!; try done.
  cbn. unfold fakeclient_With in Hcs. destruct (NewSimpleClientset _) as [cs0|] eqn:Hnew; [|done].
  injection Hcs as _ ->. unfold NewSimpleClientset in Hnew. destruct (addObjects _ _) as [o|]; [|done].
  by injection Hnew as <-.
Qed.

(** An assertion about the tracker reports nothing exactly when the object is tracked. *)
Theorem AssertTrackingObject_tracked gvk namespace name (row : TableRow (DynamicClient := DynamicClient) (Row := Row)) ctx refs :
  row_Ctx row = Some ctx → TestSupport.GetTracker ctx = Done refs →
  AssertTrackingObject gvk namespace name row = Done [] ↔
  ∃ ref, ref ∈ refs ∧ (Reference_APIVersion ref, Reference_Kind ref) = ToAPIVersionAndKind gvk ∧
    Reference_Namespace ref = namespace ∧ Reference_Name ref = name.
Proof.
  intros Hctx Hrefs. unfold AssertTrackingObject. rewrite Hctx. cbn [deref obind]. rewrite Hrefs. cbn [obind].
  destruct (ToAPIVersionAndKind gvk) as [apiVersion kind]. case_match eqn:He.
  - split; [intros _|done]. apply existsb_exists in He as (ref & Hin & Hb).
    rewrite !andb_true_iff, !bool_decide_eq_true in Hb. exists ref. rewrite list_elem_of_In. naive_solver.
  - split; [done|]. intros (ref & Hin & [= Ha Hk] & Hns & Hn). apply not_true_iff_false in He. destruct He.
    apply existsb_exists. exists ref. rewrite <- list_elem_of_In, !andb_true_iff, !bool_decide_eq_true. naive_solver.
Qed.
End factory_facts.

(** ** An instance *)
#[local] Instance sample_opaque : Opaque := {| opaque := unit; opaque_zero := (); |}.

(** Of Kubernetes' types the namespace and the secret; an object is its type. *)
#[local] Instance sample_kube : KubeTypes := {|
  KubeType := bool; T_Namespace := true; T_Secret := false;
  fakekube_types := [(mkGVK "" "v1" "Namespace", true); (mkGVK "" "v1" "Secret", false)];
|}.
#[local] Instance test_type_eq_dec : EqDecision test_type.
Proof. solve_decision. Defined.
#[local] Instance sample_trackers : ObjectTrackers := {|
  RuntimeObj := test_type; Tracker := list test_type; NewObjectTracker := []; Add t o := Ok (o :: t);
  WatchInterface := unit; tracker_Watch _ _ _ := Ok ();
|}.
#[local] Instance sample_sorter : ObjectSorters := {|
  object_type o := o;
  Sorter := test_scheme * list test_type;
  LabelSelectorType := unit;
  NewObjectSorter s := (s, []);
  AddObjects objs so := if decide (Forall (λ o, o ∈ map snd (fst so)) objs) then Done (fst so, snd so ++ objs) else Panic;
  IndexerForObjectType K so t :=
    {| GetByKey _ := Ok None; ListAll _ := ([], None); ListAllByNamespace _ _ := ([], None) |};
  ObjectsForSchemeFunc so f := filter (λ o, o ∈ map snd (f [])) (snd so);
|}.
#[local] Instance sample_sorter_laws : ObjectSorterLaws.
Proof.
  split.
  - intros objs s Hobjs. eexists. cbn. by rewrite decide_True.
  - intros objs s so f o Hso. cbn in Hso. destruct (decide _) as [_|]; [|done]. injection Hso as <-.
    cbn. rewrite list_elem_of_filter. tauto.
Qed.

Definition sample_binding : RuntimeObj := inl T_ServiceBinding.
Definition sample_objects : list RuntimeObj := [sample_binding; inr T_Secret].

Lemma NewListers_sorts_witness :
  ∃ ls, NewListers sample_objects = Done ls ∧
    sample_binding ∈ GetServiceBindingsObjects ls ∧ sample_binding ∉ GetKubeObjects ls.
Proof.
  destruct (NewListers_sorts sample_objects) as (ls & Hls & Ho).
  { repeat constructor; apply (bool_decide_unpack _); vm_compute; exact I. }
  exists ls. destruct (Ho (sample_binding)) as [Hs Hk]. split_and!; [exact Hls| |].
  - apply Hs. split; [apply list_elem_of_here|by eexists].
  - intros [_ (t & [=])]%Hk.
Defined.
