(* ===== verification/Controllers.v ===== *)
(** * The controllers

    The [NewController] functions of [pkg/reconciler/*/controller.go]: which informers
    feed which keys to a controller's queue, what a controller is given from the
    context, and the [ListAll] of the binding webhook.

    The queue, the event handlers and the tracker are knative's and client-go's: the
    class [KnativeController], with their documented behaviour as laws.  A handler is the
    keys it enqueues for an event. *)
From S2P Require Import Prelude Api Conditions Effects Projection Binding Provisioned Resolver.
From S2P Require Import Resources BindingReconciler KindReconciler Kinds Admission Clients.
From S2P Require Import ClientsFacts Clientset FakeClients Informers Injection.

Local Open Scope go_scope.

(** [types.NamespacedName] *)
Definition NamespacedName : Type := string * string.

(** What an informer tells its handlers. *)
Inductive informer_event (K : Type) :=
| OnAdd (obj : K)
| OnUpdate (oldObj newObj : K)
| OnDelete (obj : K).
Arguments OnAdd {_} _.
Arguments OnUpdate {_} _ _.
Arguments OnDelete {_} _.

(** [cache.ResourceEventHandler] *)
Definition handler (K : Type) : Type := informer_event K → list NamespacedName.

Class KnativeController `{Opaque} := {
  (** Methods of [controller.Impl]. *)
  Enqueue : ObjectMeta → list NamespacedName;
  EnqueueControllerOf : ObjectMeta → list NamespacedName;
  (** Functions of [knative.dev/pkg/controller] and [k8s.io/client-go/tools/cache]. *)
  FilterControllerGK : GroupKind → ObjectMeta → bool;
  HandleAll {K} : (K → list NamespacedName) → handler K;
  FilteringResourceEventHandler {K} : (K → bool) → handler K → handler K;
}.

Class KnativeControllerLaws `{Kmeta, !KnativeController} := {
  (** "takes a resource, converts it into a namespace/name string" *)
  Enqueue_key m : Enqueue m = [(Meta_Namespace m, Meta_Name m)];
  (** "takes a resource, identifies its controller resource, converts it into a
      namespace/name string" *)
  EnqueueControllerOf_owner m owner gvk :
    Meta_OwnerReferences m = [NewControllerRef owner gvk] →
    EnqueueControllerOf m = [(Meta_Namespace m, Meta_Name owner)];
  (** "filter based on the controlling resource's GroupKind"; the group and the version of
      an [apiVersion] are separated by its only slash. *)
  FilterControllerGK_owner gk m owner gvk :
    slash_free (GVK_Group gvk) = true → slash_free (GVK_Version gvk) = true →
    Meta_OwnerReferences m = [NewControllerRef owner gvk] →
    FilterControllerGK gk m = bool_decide (gk = (GVK_Group gvk, GVK_Kind gvk));
  (** Both depend on the owner references, and on the namespace. *)
  EnqueueControllerOf_refs m m' :
    Meta_OwnerReferences m = Meta_OwnerReferences m' → Meta_Namespace m = Meta_Namespace m' →
    EnqueueControllerOf m = EnqueueControllerOf m';
  FilterControllerGK_refs gk m m' :
    Meta_OwnerReferences m = Meta_OwnerReferences m' → FilterControllerGK gk m = FilterControllerGK gk m';
  FilterControllerGK_none gk m : Meta_OwnerReferences m = [] → FilterControllerGK gk m = false;
  (** "sends all events to the given handler; for updates, only the new object" *)
  HandleAll_event K h (e : informer_event K) :
    HandleAll h e = match e with OnAdd k | OnUpdate _ k | OnDelete k => h k end;
  (** "applies the filter to all events; an object that starts passing the filter after an
      update is considered an add, one that stops passing it a delete" *)
  Filtering_event K f h (e : informer_event K) :
    FilteringResourceEventHandler f h e =
    match e with
    | OnAdd k => if f k then h (OnAdd k) else []
    | OnUpdate old new =>
        match f old, f new with
        | true, true => h (OnUpdate old new)
        | false, true => h (OnAdd new)
        | true, false => h (OnDelete old)
        | false, false => []
        end
    | OnDelete k => if f k then h (OnDelete k) else []
    end;
}.

(** ** pkg/resolver.NewServiceableResolver *)
Section resolver.
Context `{Opaque, !KnativeController} {DynamicClient : Type}.

(** [tracker.New(callback, lease)] is knative's.  The resolver calls it in two ways: when it
    tracks a service, a call in the log of [Resolver], and when a tracked object changes, which
    is here the parameter [OnChanged]: the keys that the callback is given then. *)
Record ServiceableResolver := mkResolver {
  resolver_factory : duckInformerFactory (DynamicClient := DynamicClient);
  resolver_handler : handler ObjectMeta;
}.

Definition NewServiceableResolver `{!RestLibrary, !ObjectTrackers} (ctx : Ctx (DynamicClient := DynamicClient))
    (OnChanged : ObjectMeta → list NamespacedName) : outcome ServiceableResolver :=
  let! factory := serviceable_Get ctx in
  Done (mkResolver factory (HandleAll OnChanged)).
End resolver.

(** ** pkg/reconciler/servicebinding.NewController *)
Section servicebinding.
Context `{Kmeta, !KnativeController, !SchemaGuess, !SemanticEquality, !ConditionManager}.
Context `{!RestLibrary, !ObjectTrackers} {DynamicClient : Type}.
Context `{!KnativeReconciler controller_event ServiceBinding ServiceBindingStatus}.
Context (benv : BindingEnv controller_event) (leader : string → string → bool).
Context (OnChanged : ObjectMeta → list NamespacedName).

Record servicebinding_controller := mkServiceBindingController {
  sbc_impl : reconcilerImpl (K := ServiceBinding) (E := controller_event);
  sbc_bindingclient : clientset_interface;
  sbc_projectionLister : nat;
  sbc_resolver : ServiceableResolver (DynamicClient := DynamicClient);
  sbc_bindingHandler : handler ServiceBinding;
  sbc_projectionHandler : handler ServiceBindingProjection;
}.

(** The generated [NewImpl] takes its informer and its client from the context too. *)
Definition servicebinding_NewImpl (ctx : Ctx (DynamicClient := DynamicClient)) :
    outcome (reconcilerImpl (K := ServiceBinding) (E := controller_event)) :=
  let! _ := Injection.servicebinding.Get ctx in
  let! _ := client_Get ctx in
  Kinds.servicebinding.NewImpl leader (ServiceBinding_Interface benv) [].

(** The handlers of the two informers. *)
Definition servicebinding_bindingHandler : handler ServiceBinding := HandleAll (λ b, Enqueue (SB_Meta b)).
Definition servicebinding_projectionHandler : handler ServiceBindingProjection :=
  FilteringResourceEventHandler
    (λ p, FilterControllerGK (servicebinding_Kind "ServiceBinding") (SBP_Meta p))
    (HandleAll (λ p, EnqueueControllerOf (SBP_Meta p))).

(** The reconciler's own tracker, [r.tracker], is left out: nothing uses it. *)
Definition servicebinding_NewController (ctx : Ctx (DynamicClient := DynamicClient)) :
    outcome servicebinding_controller :=
  let! serviceBindingProjectionInformer := Injection.servicebindingprojection.Get ctx in
  let! serviceBindingInformer := Injection.servicebinding.Get ctx in
  let! bindingclient := client_Get ctx in
  let! impl := servicebinding_NewImpl ctx in
  let! resolver := NewServiceableResolver ctx OnChanged in
  let handleMatchingControllers := servicebinding_projectionHandler in
  Done {|
    sbc_impl := impl;
    sbc_bindingclient := bindingclient;
    sbc_projectionLister := serviceBindingProjectionInformer;
    sbc_resolver := resolver;
    sbc_bindingHandler := servicebinding_bindingHandler;
    sbc_projectionHandler := handleMatchingControllers;
  |}.
End servicebinding.

(** ** pkg/reconciler/provisionedservice.NewController *)
Section provisionedservice.
Context `{Opaque, !KnativeController, !ConditionManager, !RestLibrary, !ObjectTrackers}.
Context {DynamicClient : Type}.
Context `{!KnativeReconciler (kind_event ProvisionedService) ProvisionedService ProvisionedServiceStatus}.
Context (clock : list (kind_event ProvisionedService) → Time) (leader : string → string → bool).

Record provisionedservice_controller := mkProvisionedServiceController {
  psc_impl : reconcilerImpl (K := ProvisionedService) (E := kind_event ProvisionedService);
  psc_handler : handler ProvisionedService;
}.

Definition provisionedservice_NewController (ctx : Ctx (DynamicClient := DynamicClient)) :
    outcome provisionedservice_controller :=
  let! provisionedserviceInformer := Injection.provisionedservice.Get ctx in
  let! _ := client_Get ctx in
  let! impl := Kinds.provisionedservice.NewImpl leader (ProvisionedService_Interface clock) [] in
  Done (mkProvisionedServiceController impl (HandleAll (λ p, Enqueue (PS_Meta p)))).
End provisionedservice.

(** ** pkg/reconciler/servicebindingprojection *)
Section servicebindingprojection.
Context `{Opaque, !KnativeController, !RestLibrary, !ObjectTrackers} {DynamicClient Selector : Type}.
(** The cache of the informer of a factory. *)
Context (indexer : nat → Indexer Selector ServiceBindingProjection) (everything : Selector).
Context (NewNotFound : GroupKind → string → error).

(** knative's namespace informer with its [Lister], and its factory of informers for
    objects that hold pods, from the context; the tracker's [OnChanged]. *)
Context {NamespaceInformer NamespaceLister PodSpecableFactory : Type}.
Context (nsinformer_Get : Ctx (DynamicClient := DynamicClient) → outcome NamespaceInformer).
Context (nsinformer_Lister : NamespaceInformer → NamespaceLister).
Context (podspecable_Get : Ctx (DynamicClient := DynamicClient) → outcome PodSpecableFactory).
Context (OnChanged : ObjectMeta → list NamespacedName).

(** [duck.CachedInformerFactory] around a [duck.EnqueueInformerFactory]. *)
Record trackedFactory := mkTrackedFactory {
  tf_Delegate : PodSpecableFactory;
  tf_EventHandler : handler ObjectMeta;
}.

(** The fields of [psbinding.BaseReconciler] that [NewController] sets. *)
Record BaseReconciler := mkBaseReconciler {
  br_GVR : GroupVersionResource;
  br_Get : string → string → result error ServiceBindingProjection;
  br_DynamicClient : DynamicClient;
  br_component : string;
  br_NamespaceLister : NamespaceLister;
  br_Factory : trackedFactory;
}.

Definition controllerAgentName : string := "servicebindingprojection-controller".

Definition servicebindingprojection_NewController (ctx : Ctx (DynamicClient := DynamicClient)) :
    outcome (BaseReconciler * handler ServiceBindingProjection) :=
  let! serviceBindingProjectionInformer := Injection.servicebindingprojection.Get ctx in
  let! nsInformer := nsinformer_Get ctx in
  let! dc := match ctx_DynamicClient ctx with Some dc => Done dc | None => Panic end in
  let! psInformerFactory := podspecable_Get ctx in
  let c := {|
    br_GVR := mkGVR (GV_Group SchemeGroupVersion) (GV_Version SchemeGroupVersion) "servicebindingprojections";
    br_Get namespace name := ServiceBindingProjections.NamespaceLister_Get
      (indexer serviceBindingProjectionInformer) NewNotFound namespace name;
    br_DynamicClient := dc;
    br_component := controllerAgentName;
    br_NamespaceLister := nsinformer_Lister nsInformer;
    br_Factory := mkTrackedFactory psInformerFactory (HandleAll OnChanged);
  |} in
  Done (c, HandleAll (λ p, Enqueue (SBP_Meta p))).

(** [ListAll] adds the handler to the informer and returns a function; [psbinding.Bindable]
    is an interface that the pointers of the list implement. *)
Definition ListAll (ctx : Ctx (DynamicClient := DynamicClient)) (h : handler ServiceBindingProjection) :
    outcome (handler ServiceBindingProjection * (unit → result error (list ServiceBindingProjection))) :=
  let! serviceBindingProjectionInformer := Injection.servicebindingprojection.Get ctx in
  Done (h, λ _,
    let '(l, err) := ServiceBindingProjections.Lister_List (indexer serviceBindingProjectionInformer) everything in
    match err with
    | Some err => Err err
    | None => Ok (foldl (λ bl elt, bl ++ [elt]) [] l)
    end).
End servicebindingprojection.
