(* ===== verification/ControllersFacts.v ===== *)
(** * The controllers notice what concerns them

    With the context of start-up every [NewController] returns; a change of a binding or of
    the projection made for it enqueues the binding's key, and a new leader enqueues every
    cached object. *)
From S2P Require Import Prelude Api Conditions Effects Projection Binding Provisioned Resolver.
From S2P Require Import Resources BindingReconciler BindingReconcilerFacts KindReconciler Kinds.
From S2P Require Import KindReconcilerFacts Admission Clients ClientsFacts Clientset ClientsetFacts.
From S2P Require Import FakeClients Informers Injection InjectionFacts Controllers.

Definition event_objects {K} (e : informer_event K) : list K :=
  match e with OnAdd k | OnDelete k => [k] | OnUpdate old new => [old; new] end.

(** The object as it is after the event, or was last. *)
Definition event_subject {K} (e : informer_event K) : K :=
  match e with OnAdd k | OnDelete k | OnUpdate _ k => k end.

Section handlers.
Context `{KnativeControllerLaws}.

Lemma HandleAll_subject {K} (h : K → list NamespacedName) e : HandleAll h e = h (event_subject e).
Proof. rewrite HandleAll_event. by destruct e. Qed.

(** A filter that all objects of an event pass, or none. *)
Lemma Filtering_all {K} (f : K → bool) (h : handler K) e :
  Forall (λ k, f k = true) (event_objects e) → FilteringResourceEventHandler f h e = h e.
Proof.
  rewrite Filtering_event. destruct e; cbn; intros Hf; repeat (apply Forall_cons in Hf as [-> Hf]); done.
Qed.

Lemma Filtering_none {K} (f : K → bool) (h : handler K) e :
  Forall (λ k, f k = false) (event_objects e) → FilteringResourceEventHandler f h e = [].
Proof.
  rewrite Filtering_event. destruct e; cbn; intros Hf; repeat (apply Forall_cons in Hf as [-> Hf]); done.
Qed.

Lemma subject_in {K} (P : K → Prop) e : Forall P (event_objects e) → P (event_subject e).
Proof. destruct e; cbn; intros Hp; repeat (apply Forall_cons in Hp as [? Hp]); done. Qed.
End handlers.

(** ** The [ServiceBinding] controller *)
Section servicebinding.
Context `{HK : Kmeta, HL : !KmetaLaws, HC : !KnativeController, HCL : !KnativeControllerLaws}.
Context `{!SchemaGuess, SE : SemanticEquality, !ConditionManager, !RestLibrary, !ObjectTrackers}.
Context {DynamicClient : Type}.
Context `{!KnativeReconciler controller_event ServiceBinding ServiceBindingStatus}.
Context (benv : BindingEnv controller_event) (leader : string → string → bool).
Context (OnChanged : ObjectMeta → list NamespacedName).

(** [p] is a version of the projection made for [b]. *)
Definition made_for (b : ServiceBinding) (p : ServiceBindingProjection) : Prop :=
  ∃ made, MakeServiceBindingProjection (Err := error) b = Done (Ok made) ∧
    Meta_Namespace (SBP_Meta p) = Meta_Namespace (SBP_Meta made) ∧
    Meta_OwnerReferences (SBP_Meta p) = Meta_OwnerReferences (SBP_Meta made).

Lemma made_for_owner b p :
  made_for b p →
  Meta_Namespace (SBP_Meta p) = Meta_Namespace (SB_Meta b) ∧
  Meta_OwnerReferences (SBP_Meta p) = [NewControllerRef (SB_Meta b) (SB.GetGroupVersionKind b)].
Proof.
  intros (made & Hm & -> & ->). unfold MakeServiceBindingProjection in Hm.
  destruct (SBStatus_Binding (SB_Status b)) as [secret|]; [|done].
  destruct (SBSpec_Workload (SB_Spec b)) as [workload|]; [|done]. by injection Hm as <-.
Qed.

(** C20: in the context of start-up [NewController] returns a controller over the injected
    client and informers, and its handlers bring the reconciler the keys it needs: every
    event on a binding enqueues that binding; every event on a projection that was made
    for a binding enqueues the binding; events on projections without an owner enqueue
    nothing. *)
Theorem servicebinding_controller_watches (ctx : Ctx (DynamicClient := DynamicClient)) n cs dc :
  started ctx n cs dc →
  ∃ c, servicebinding_NewController benv leader OnChanged ctx = Done c ∧
    ServiceBinding_controller benv leader = Done (sbc_impl c) ∧
    sbc_bindingclient c = cs ∧ sbc_projectionLister c = n ∧
    duck_Client (resolver_factory (sbc_resolver c)) = dc ∧
    (∀ e, let b := event_subject e in
       sbc_bindingHandler c e = [(Meta_Namespace (SB_Meta b), Meta_Name (SB_Meta b))]) ∧
    (∀ b e, Forall (made_for b) (event_objects e) →
       sbc_projectionHandler c e = [(Meta_Namespace (SB_Meta b), Meta_Name (SB_Meta b))]) ∧
    (∀ e, Forall (λ p, Meta_OwnerReferences (SBP_Meta p) = []) (event_objects e) →
       sbc_projectionHandler c e = []).
Proof.
  intros Hst. unfold servicebinding_NewController, servicebinding_NewImpl, NewServiceableResolver.
  rewrite (started_servicebindingprojection _ _ _ _ Hst), (started_servicebinding _ _ _ _ Hst),
    (started_client _ _ _ _ Hst), (started_serviceable _ _ _ _ Hst).
  eexists. split; [reflexivity|]. cbn [sbc_impl sbc_bindingclient sbc_projectionLister sbc_resolver
    sbc_bindingHandler sbc_projectionHandler resolver_factory duck_Client].
  unfold servicebinding_bindingHandler, servicebinding_projectionHandler. split_and!; try done.
  - intros e. cbn zeta. by rewrite HandleAll_subject, Enqueue_key.
  - intros b e He. rewrite Filtering_all.
    + apply subject_in in He as [Hns Hrefs]%made_for_owner.
      by rewrite HandleAll_subject, (EnqueueControllerOf_owner _ _ _ Hrefs), Hns.
    + eapply Forall_impl; [exact He|]. intros p [_ Hrefs]%made_for_owner.
      by rewrite (FilterControllerGK_owner _ _ (SB_Meta b) (SB.GetGroupVersionKind b) eq_refl eq_refl Hrefs).
  - intros e He. apply Filtering_none. eapply Forall_impl; [exact He|]. intros p. apply FilterControllerGK_none.
Qed.
End servicebinding.

(** ** The other controllers *)
Section others.
Context `{HK : Kmeta, HL : !KmetaLaws, HC : !KnativeController, HCL : !KnativeControllerLaws}.
Context `{!ConditionManager, !RestLibrary, !ObjectTrackers} {DynamicClient Selector : Type}.
Context `{!KnativeReconciler (kind_event ProvisionedService) ProvisionedService ProvisionedServiceStatus}.
Context (clock : list (kind_event ProvisionedService) → Time) (leader : string → string → bool).
Context (indexer : nat → Indexer Selector ServiceBindingProjection) (everything : Selector).
Context (NewNotFound : GroupKind → string → error).

Context {NamespaceInformer NamespaceLister PodSpecableFactory : Type}.
Context (nsinformer_Get : Ctx (DynamicClient := DynamicClient) → outcome NamespaceInformer).
Context (nsinformer_Lister : NamespaceInformer → NamespaceLister).
Context (podspecable_Get : Ctx (DynamicClient := DynamicClient) → outcome PodSpecableFactory).
Context (OnChanged : ObjectMeta → list NamespacedName).

(** In the context of start-up the other controllers are built over the same factory:
    events on services and projections enqueue their keys, the projection controller gets
    projections from the factory's cache and tells its tracker of every change of a workload
    (once knative's own informers are in the context), and the webhook's [ListAll] lists all
    projections of that cache, or fails with its error. *)
Theorem other_controllers_watch (ctx : Ctx (DynamicClient := DynamicClient)) n cs dc h nsi psf :
  started ctx n cs dc → nsinformer_Get ctx = Done nsi → podspecable_Get ctx = Done psf →
  (∃ c, provisionedservice_NewController clock leader ctx = Done c ∧
     ∀ e, let s := event_subject e in psc_handler c e = [(Meta_Namespace (PS_Meta s), Meta_Name (PS_Meta s))]) ∧
  (∃ c w, servicebindingprojection_NewController indexer NewNotFound nsinformer_Get nsinformer_Lister podspecable_Get
       OnChanged ctx = Done (c, w) ∧
     br_DynamicClient c = dc ∧ br_NamespaceLister c = nsinformer_Lister nsi ∧ tf_Delegate (br_Factory c) = psf ∧
     (∀ e, tf_EventHandler (br_Factory c) e = OnChanged (event_subject e)) ∧
     (∀ ns name, br_Get c ns name =
        namespaceLister_Get (indexer n) NewNotFound (labsinternal_Resource "servicebindingprojection") ns name) ∧
     ∀ e, let p := event_subject e in w e = [(Meta_Namespace (SBP_Meta p), Meta_Name (SBP_Meta p))]) ∧
  ∃ list, ListAll indexer everything ctx h = Done (h, list) ∧
    list () = match Clients.ListAll (indexer n) everything with (_, Some err) => Err err | (l, None) => Ok l end.
Proof.
  intros Hst Hns Hps. split_and!.
  - unfold provisionedservice_NewController.
    rewrite (started_provisionedservice _ _ _ _ Hst), (started_client _ _ _ _ Hst).
    eexists. split; [reflexivity|]. intros e. cbn. by rewrite HandleAll_subject, Enqueue_key.
  - unfold servicebindingprojection_NewController.
    rewrite (started_servicebindingprojection _ _ _ _ Hst), Hns. cbn [obind].
    rewrite (started_dynamic _ _ _ _ Hst). cbn [obind]. rewrite Hps.
    eexists _, _. split; [reflexivity|]. split_and!; try done; intros e; cbn; by rewrite HandleAll_subject, ?Enqueue_key.
  - unfold ListAll. rewrite (started_servicebindingprojection _ _ _ _ Hst). eexists. split; [reflexivity|].
    unfold ServiceBindingProjections.Lister_List, lister_List.
    destruct (Clients.ListAll (indexer n) everything) as [l [err|]]; [done|].
    fold (appendAll (appendAll l)). by rewrite !appendAll_id.
Qed.
End others.

(** ** Promotion *)
Section promotion.
Context `{Opaque} {K Status Selector : Type} `{!Kind K Status} (everything : Selector).
Implicit Types (ix : Indexer Selector K).

Definition object_key (k : K) : NamespacedName := (Meta_Namespace (kind_meta k), Meta_Name (kind_meta k)).

Lemma PromoteFunc_map l : PromoteFunc (l, None) = (map object_key l, None).
Proof.
  unfold PromoteFunc. f_equal.
  assert (∀ acc, foldl (λ keys elt, keys ++ [(Meta_Namespace (kind_meta elt), Meta_Name (kind_meta elt))]) acc l
    = acc ++ map object_key l) as Hl; [|apply (Hl [])].
  induction l as [|k l IH]; intros acc; cbn; [by rewrite app_nil_r|]. by rewrite IH, <- (assoc_L (++)).
Qed.

(** A replica that becomes the leader misses nothing: when the cache can be listed and
    holds the objects [objs], promotion enqueues the key of each of them, once, and
    nothing else; when it cannot, promotion enqueues nothing and returns the error. *)
Theorem PromoteFunc_enqueues_all ix objs l err :
  holds everything ix objs → Clients.ListAll ix everything = (l, err) → (err = None → l ≡ₚ objs) →
  let '(keys, err') := PromoteFunc (lister_List ix everything) in
  err' = err ∧
  match err with
  | Some _ => keys = []
  | None => NoDup keys ∧ ∀ key, key ∈ keys ↔ ∃ k, k ∈ objs ∧ object_key k = key
  end.
Proof.
  intros Hix Hl Hobjs. unfold lister_List. rewrite Hl, appendAll_id.
  destruct err as [err|]; [done|]. rewrite PromoteFunc_map. split; [done|].
  specialize (Hobjs eq_refl). split.
  - rewrite (Permutation_map object_key Hobjs). pose proof (holds_keys _ _ _ Hix) as Hnd.
    apply NoDup_fmap_1 with (f := λ key : NamespacedName, key.1 +:+ "/" +:+ key.2).
    rewrite <- list_fmap_compose. exact Hnd.
  - intros key. rewrite (Permutation_map object_key Hobjs), list_elem_of_fmap. naive_solver.
Qed.
End promotion.

(** ** Witnesses *)
#[local] Existing Instance string_opaque.
#[local] Existing Instance sample_rest.
#[local] Existing Instance sample_trackers.
#[local] Existing Instance sample_guess.
#[local] Existing Instance sample_knative.

(** The group of an [apiVersion]: what is before the slash. *)
Fixpoint group_of (s : string) : string :=
  match s with
  | EmptyString => ""
  | String a s => if bool_decide (a = "/"%char) then "" else String a (group_of s)
  end.

Lemma group_of_slash g v : slash_free g = true → group_of (g +:+ "/" +:+ v) = g.
Proof.
  unfold slash_free. induction g as [|a g IH]; intros Hg; [done|]. cbn in Hg.
  apply andb_prop in Hg as [Ha Hg]. rewrite str_app_cons. cbn [group_of].
  destruct (bool_decide (a = "/"%char)); [done|]. by rewrite IH.
Qed.

Definition sample_knative_controller : KnativeController := {|
  Enqueue m := [(Meta_Namespace m, Meta_Name m)];
  EnqueueControllerOf m :=
    match List.find (λ r, bool_decide (OwnerReference_Controller r = Some true)) (Meta_OwnerReferences m) with
    | Some r => [(Meta_Namespace m, OwnerReference_Name r)]
    | None => []
    end;
  FilterControllerGK gk m :=
    match List.find (λ r, bool_decide (OwnerReference_Controller r = Some true)) (Meta_OwnerReferences m) with
    | Some r => bool_decide (gk = (group_of (OwnerReference_APIVersion r), OwnerReference_Kind r))
    | None => false
    end;
  HandleAll K h e := match e with OnAdd k | OnUpdate _ k | OnDelete k => h k end;
  FilteringResourceEventHandler K f h e :=
    match e with
    | OnAdd k => if f k then h (OnAdd k) else []
    | OnUpdate old new =>
        match f old, f new with
        | true, true => h (OnUpdate old new)
        | false, true => h (OnAdd new)
        | true, false => h (OnDelete old)
        | false, false => []
        end
    | OnDelete k => if f k then h (OnDelete k) else []
    end;
|}.
#[local] Existing Instance sample_knative_controller.

Lemma sample_knative_controller_laws : KnativeControllerLaws.
Proof.
  split; [done| | | | | |by intros ? ? []|by intros ? ? ? []].
  - intros m owner gvk Hm. cbn. by rewrite Hm.
  - intros gk m owner gvk Hg _ Hm. cbn [FilterControllerGK sample_knative_controller]. rewrite Hm.
    change (bool_decide (gk = (group_of (GVK_Group gvk +:+ "/" +:+ GVK_Version gvk), GVK_Kind gvk))
            = bool_decide (gk = (GVK_Group gvk, GVK_Kind gvk))). by rewrite group_of_slash.
  - intros m m' Hm Hn. cbn. by rewrite Hm, Hn.
  - intros gk m m' Hm. cbn. by rewrite Hm.
  - intros gk m Hm. cbn. by rewrite Hm.
Defined.
#[local] Existing Instance sample_knative_controller_laws.

(** The context after start-up, with everything the packages store. *)
Definition started_context : Ctx (DynamicClient := unit) :=
  let values k :=
    match k with
    | client_Key => Some (VClient (RealClientset sample_clientset))
    | factory_Key => Some (VFactory 0)
    | serviceable_Key => Some (VDuck (mkDuckFactory () zeroServiceableType 36000))
    | informer_Key t => Some (VInformer t 0)
    | _ => None
    end in
  mkCtx values "team-a" 36000 (Some ()) ∅.

Lemma started_context_started : started started_context 0 (RealClientset sample_clientset) ().
Proof. by split. Defined.

(** The projection of a binding that has its secret. *)
Definition bound_binding : ServiceBinding :=
  mkSB (newMeta "app-db" "team-a") (SB_Spec db_binding)
    (mkSBStatus 1 [] (Some (mkLocalObjectReference "my-secret"))).

Definition bound_projection : ServiceBindingProjection :=
  match MakeServiceBindingProjection (Err := error) bound_binding with
  | Done (Ok p) => p | _ => FakeServiceBindingProjections.zero end.

(** The status of the projection changes: the binding is reconciled again. *)
Lemma servicebinding_controller_watches_witness :
  ∃ c, servicebinding_NewController (sample_env (Ok (database "my-secret")) (Err not_found)) (λ _ _, true) (λ _, []) started_context = Done c ∧
    sbc_projectionHandler c (OnUpdate bound_projection bound_projection) = [("team-a", "app-db")].
Proof.
  destruct (servicebinding_controller_watches (sample_env (Ok (database "my-secret")) (Err not_found)) (λ _ _, true)
    (λ _, []) started_context 0 (RealClientset sample_clientset) () started_context_started)
    as (c & Hc & _ & _ & _ & _ & _ & Hp & _).
  exists c. split; [exact Hc|]. apply (Hp bound_binding).
  assert (made_for bound_binding bound_projection) as Hm by (exists bound_projection; done).
  by repeat constructor.
Defined.

Definition projections : list ServiceBindingProjection := [bound_projection].

Definition projection_indexer : nat → Indexer unit ServiceBindingProjection := λ _, {|
  GetByKey key := Ok (List.find (λ k, bool_decide (namespaceKey k = key)) projections);
  Clients.ListAll _ := (projections, None);
  ListAllByNamespace ns _ := (filter (λ k, Meta_Namespace (kind_meta k) = ns) projections, None);
|}.

Lemma other_controllers_watch_witness :
  ∃ list, ListAll projection_indexer () started_context (λ _, []) = Done (λ _, [], list) ∧
    list () = Ok projections.
Proof.
  destruct (other_controllers_watch (λ _, 0%Z) (λ _ _, true) projection_indexer () (λ _ _, not_found)
    (λ _, Done ()) (λ i, i) (λ _, Done ()) (λ _, []) started_context 0 (RealClientset sample_clientset) () (λ _, [])
    () () started_context_started eq_refl eq_refl) as (_ & _ & list & Hl & Heq).
  by exists list.
Defined.

Lemma PromoteFunc_enqueues_all_witness :
  let '(keys, err) := PromoteFunc (lister_List (list_indexer [sample_service]) ()) in
  err = None ∧ NoDup keys.
Proof.
  pose proof (PromoteFunc_enqueues_all () (list_indexer [sample_service]) [sample_service] [sample_service] None) as Hp.
  destruct (PromoteFunc _) as [keys err]. destruct Hp as [-> [Hnd _]]; [|done|done|by split].
  apply list_indexer_holds; [apply NoDup_singleton|]. by intros k ->%list_elem_of_singleton.
Defined.
