(* ===== verification/System.v ===== *)
(** * The controller at work

    The [ServiceBinding] controller with everything around it: the work queue, the caches
    that the informers keep and the notifications that have not reached them yet, the API
    server's bindings and projections, the tracked services, and other actors.

    A step is one reconciliation of a queued key, the delivery of one notification, or
    whatever another actor does to a binding, a projection or a service.  A reconciliation
    takes time: it reads the cached binding, the service and the cached projection, and
    writes the projection and the status, at times between which anything may happen
    ([reconciliation]); [process] is one that nothing interrupts.  The retries of the status
    update follow each other at once.  The caches may be arbitrarily old and the server may
    refuse anything.  The informers deliver every change in order; a relist, which may skip
    changes, is not modelled.

    What the API server, the informers, the queue and the tracker do is what Kubernetes and
    knative document; the reconciliation and the handlers are the code's. *)
From S2P Require Import Prelude Api Conditions Effects Projection Binding BindingFacts Resolver.
From S2P Require Import Resources BindingReconciler BindingReconcilerFacts Cluster.
From S2P Require Import KindReconciler Kinds ClientsFacts Controllers.

(** ** Bindings on the API server *)
Class BindingServer `{Opaque} (BServer : Type) := {
  b_get : BServer → object_name → option ServiceBinding;
  b_update_status : BServer → string → ServiceBinding → BServer * result error ServiceBinding;
}.

(** An update of the status changes nothing else of the object but its version, and fails
    without an effect. *)
Class BindingServerLaws `{BindingServer BServer} := {
  b_update_result s namespace b :
    match b_update_status s namespace b with
    | (s', Ok q) =>
        SB_Status q = SB_Status b ∧
        (∃ current, b_get s (namespace, name b) = Some current ∧ same_binding current q ∧
          Meta_DeletionTimestamp (SB_Meta q) = Meta_DeletionTimestamp (SB_Meta current) ∧
          Meta_Generation (SB_Meta q) = Meta_Generation (SB_Meta current)) ∧
        ∀ k, b_get s' k = if decide (k = (namespace, name b)) then Some q else b_get s k
    | (s', Err _) => True
    end;
}.

(** What the generated reconciler uses of knative, for bindings: the processing around
    [ReconcileKind] sets the defaults and otherwise works on [GetStatus()], which for a
    binding is a new object each time ([SB.GetStatus]); the comparisons of statuses are
    sound; the key of an object is its namespace and its name around its only slash. *)
Class BindingProcessing `{Opaque, !KnativeReconciler controller_event ServiceBinding ServiceBindingStatus} := {
  PreProcess_defaults b : PreProcessReconcile b = SB.SetDefaults b;
  PostProcess_keeps b old : PostProcessReconcile b old = b;
  Semantic_status s s' : Semantic_DeepEqual s s' = true → s = s';
  reflect_status s s' : reflect_DeepEqual s s' = true → s = s';
  SplitMetaNamespaceKey_key namespace n :
    slash_free namespace = true → slash_free n = true →
    SplitMetaNamespaceKey (namespace +:+ "/" +:+ n) = Ok (namespace, n);
  SplitMetaNamespaceKey_slashes namespace n :
    slash_free namespace && slash_free n = false →
    ∃ err, SplitMetaNamespaceKey (namespace +:+ "/" +:+ n) = Err err;
}.

(** The name of the binding that has a UID. *)
Class UidNames := uid_name : string → string.

(** ** Notifications *)
Section informer.
Context {K : Type}.
Implicit Types (cache : gmap object_name K) (h : handler K).

(** The object under a name is now the one given, or is gone. *)
Definition change : Type := object_name * option K.

Definition apply_change cache (c : change) : gmap object_name K := partial_alter (λ _, c.2) c.1 cache.

Definition notification cache (c : change) : option (informer_event K) :=
  match cache !! c.1, c.2 with
  | None, None => None
  | None, Some new => Some (OnAdd new)
  | Some old, Some new => Some (OnUpdate old new)
  | Some old, None => Some (OnDelete old)
  end.

(** The keys that the handler enqueues when the change reaches the cache. *)
Definition enqueued h cache (c : change) : list object_name :=
  match notification cache c with Some e => h e | None => [] end.

(** Delivering the changes enqueues [k] at some point. *)
Fixpoint will_enqueue h cache (cs : list change) (k : object_name) : Prop :=
  match cs with
  | [] => False
  | c :: cs => k ∈ enqueued h cache c ∨ will_enqueue h (apply_change cache c) cs k
  end.
End informer.
Arguments change _ : clear implicits.

Section system.
Context `{Kmeta, !KnativeController, !SchemaGuess, !SemanticEquality, !ConditionManager}.
Context `{!KnativeReconciler controller_event ServiceBinding ServiceBindingStatus}.
Context {PServer BServer : Type} `{!ApiServer PServer, !BindingServer BServer}.
Context `{!UidNames}.
Implicit Types (b : ServiceBinding) (p : ServiceBindingProjection) (k : object_name).

Record system := mkSystem {
  projections : PServer;
  bindings : BServer;
  (** What the informers know, and the changes that have not reached them. *)
  projectionCache : gmap object_name ServiceBindingProjection;
  bindingCache : gmap object_name ServiceBinding;
  projectionWatch : list (change ServiceBindingProjection);
  bindingWatch : list (change ServiceBinding);
  services : ResolverEnv controller_event;
  (** Which binding tracks which service. *)
  tracked : list (object_name * Reference);
  queue : gset object_name;
}.
Implicit Types (σ : system).

(** ** A reconciliation *)
Definition from_cache {K} (cache : gmap object_name K) (k : object_name) : result error K :=
  match cache !! k with Some o => Ok o | None => Err (ApiError "NotFound" "not found") end.

Definition kind_env σ : KindEnv controller_event ServiceBinding := {|
  env_ListerGet namespace name _ := from_cache (bindingCache σ) (namespace, name);
  env_ClientGet namespace name _ :=
    match b_get (bindings σ) (namespace, name) with
    | Some b => Ok b | None => Err (ApiError "NotFound" "not found") end;
  env_UpdateStatus namespace b _ := (b_update_status (bindings σ) namespace b).2;
  env_PatchFinalizers _ _ _ _ _ := Err (ApiError "Forbidden" "forbidden");
|}.

Definition binding_env σ (clock : Time) : BindingEnv controller_event :=
  cluster_env (projections σ) (from_cache (projectionCache σ)) clock (services σ).

Definition key_string k : string := k.1 +:+ "/" +:+ k.2.

Definition run_key σ (clock : Time) k : outcome (option failure) * list controller_event :=
  ServiceBinding_Reconcile (kind_env σ) (binding_env σ clock) (λ _ _, true) (key_string k) [].

(** *** What it leaves *)
Definition binding_calls (log : list controller_event) : list binding_event :=
  omap (λ e, match e with inr e => Some e | inl _ => None end) log.
Definition kind_calls (log : list controller_event) : list (kind_event ServiceBinding) :=
  omap (λ e, match e with inl e => Some e | inr _ => None end) log.

(** The changes the server makes known. *)
Definition projection_change (e : binding_event) : option (change ServiceBindingProjection) :=
  match e with
  | EvCreateProjection namespace p (Ok q) | EvUpdateProjection namespace p (Ok q) => Some (key_in namespace p, Some q)
  | _ => None
  end.
Definition binding_change (e : kind_event ServiceBinding) : option (change ServiceBinding) :=
  match e with EvUpdateStatus namespace b (Ok q) => Some ((namespace, name b), Some q) | _ => None end.

Definition apply_status (s : BServer) (e : kind_event ServiceBinding) : BServer :=
  match e with EvUpdateStatus namespace b (Ok _) => (b_update_status s namespace b).1 | _ => s end.

(** A service that was tracked without an error. *)
Definition tracking (e : binding_event) : option (object_name * Reference) :=
  match e with
  | EvResolver (EvTrackReference ref parent None) => Some ((Meta_Namespace parent, Meta_Name parent), ref)
  | _ => None
  end.

(** A key whose reconciliation fails is queued again. *)
Definition requeued k (res : outcome (option failure)) : gset object_name :=
  match res with Done None => ∅ | _ => {[ k ]} end.

Definition process σ (clock : Time) k : system :=
  let '(res, log) := run_key σ clock k in
  {| projections := foldl apply_event (projections σ) (binding_calls log);
     bindings := foldl apply_status (bindings σ) (kind_calls log);
     projectionCache := projectionCache σ;
     bindingCache := bindingCache σ;
     projectionWatch := projectionWatch σ ++ omap projection_change (binding_calls log);
     bindingWatch := bindingWatch σ ++ omap binding_change (kind_calls log);
     services := services σ;
     tracked := tracked σ ++ omap tracking (binding_calls log);
     queue := queue σ ∖ {[ k ]} ∪ requeued k res |}.

(** ** Deliveries *)
Definition deliver_projection σ (c : change ServiceBindingProjection) (cs : list (change ServiceBindingProjection)) :
    system := {|
  projections := projections σ; bindings := bindings σ;
  projectionCache := apply_change (projectionCache σ) c; bindingCache := bindingCache σ;
  projectionWatch := cs; bindingWatch := bindingWatch σ;
  services := services σ; tracked := tracked σ;
  queue := queue σ ∪ list_to_set (enqueued servicebinding_projectionHandler (projectionCache σ) c) |}.

Definition deliver_binding σ (c : change ServiceBinding) (cs : list (change ServiceBinding)) : system := {|
  projections := projections σ; bindings := bindings σ;
  projectionCache := projectionCache σ; bindingCache := apply_change (bindingCache σ) c;
  projectionWatch := projectionWatch σ; bindingWatch := cs;
  services := services σ; tracked := tracked σ;
  queue := queue σ ∪ list_to_set (enqueued servicebinding_bindingHandler (bindingCache σ) c) |}.

(** ** Other actors *)
Definition identified b : Prop := uid_name (Meta_UID (SB_Meta b)) = name b.

(** A binding that validation and the API server accept under the name. *)
Definition admitted k b : Prop :=
  key_of b = k ∧ identified b ∧ complete b ∧ slash_free k.1 = true ∧ slash_free k.2 = true.

(** The controller of the projection, if it is a binding, is named in its reference. *)
Definition owner_named p : Prop := ∀ b, identified b → IsControlledBy (SBP_Meta p) (SB_Meta b) = true →
  FilterControllerGK (Admission.servicebinding_Kind "ServiceBinding") (SBP_Meta p) = true ∧
  EnqueueControllerOf (SBP_Meta p) = [(Meta_Namespace (SBP_Meta p), name b)].

(** A projection is not handed over: an actor that wants another owner deletes it first. *)
Definition same_owner (old new : ServiceBindingProjection) : Prop := ∀ b, identified b →
  IsControlledBy (SBP_Meta old) (SB_Meta b) = true → IsControlledBy (SBP_Meta new) (SB_Meta b) = true.

Definition projection_change_ok (old : option ServiceBindingProjection) (new : option ServiceBindingProjection) : Prop :=
  match new with
  | None => True
  | Some new => owner_named new ∧ match old with Some old => same_owner old new | None => True end
  end.

Definition change_projection σ (s : PServer) k (o : option ServiceBindingProjection) : system := {|
  projections := s; bindings := bindings σ;
  projectionCache := projectionCache σ; bindingCache := bindingCache σ;
  projectionWatch := projectionWatch σ ++ [(k, o)]; bindingWatch := bindingWatch σ;
  services := services σ; tracked := tracked σ; queue := queue σ |}.

Definition change_binding σ (s : BServer) k (o : option ServiceBinding) : system := {|
  projections := projections σ; bindings := s;
  projectionCache := projectionCache σ; bindingCache := bindingCache σ;
  projectionWatch := projectionWatch σ; bindingWatch := bindingWatch σ ++ [(k, o)];
  services := services σ; tracked := tracked σ; queue := queue σ |}.

(** ** Services *)

(** The resolver answers [secret] for the reference. *)
Definition resolution {E : Type} (env : ResolverEnv E) (ref : Reference) (parent : ObjectMeta)
    (secret : LocalObjectReference) : Prop :=
  ∃ calls, resolves ref parent calls (Ok (Some secret)) ∧ Forall (resolver_answers env) calls.

Definition service_of b : Reference :=
  serviceRef b (default (mkReference "" "" "" "" None) (SBSpec_Service (SB_Spec b))).

Definition change_services σ (env : ResolverEnv controller_event) (ks : gset object_name) : system := {|
  projections := projections σ; bindings := bindings σ;
  projectionCache := projectionCache σ; bindingCache := bindingCache σ;
  projectionWatch := projectionWatch σ; bindingWatch := bindingWatch σ;
  services := env; tracked := tracked σ; queue := queue σ ∪ ks |}.

(** ** Runs *)

(** What happens around the reconciliations. *)
Inductive around σ : system → Prop :=
| around_deliver_projection c cs : projectionWatch σ = c :: cs → around σ (deliver_projection σ c cs)
| around_deliver_binding c cs : bindingWatch σ = c :: cs → around σ (deliver_binding σ c cs)
(** Another actor creates, updates or deletes a projection or a binding. *)
| around_change_projection s k o :
    (∀ k', api_get s k' = if decide (k' = k) then o else api_get (projections σ) k') →
    (∀ k' p, api_seen (projections σ) k' p → api_seen s k' p) →
    projection_change_ok (api_get (projections σ) k) o →
    around σ (change_projection σ s k o)
| around_change_binding s k o :
    (∀ k', b_get s k' = if decide (k' = k) then o else b_get (bindings σ) k') →
    (∀ b, o = Some b → admitted k b) →
    around σ (change_binding σ s k o)
(** Services change; the tracker enqueues the bindings that track one whose answer
    changes, and resyncs and promotions may enqueue any. *)
| around_change_services env ks :
    (∀ k b, b_get (bindings σ) k = Some b → (k, service_of b) ∈ tracked σ →
      k ∈ ks ∨ ∀ secret, resolution (services σ) (service_of b) (SB_Meta b) secret →
        resolution env (service_of b) (SB_Meta b) secret) →
    around σ (change_services σ env ks).

(** While a worker has [k], the others work on other keys. *)
Inductive meanwhile k σ : system → Prop :=
| meanwhile_around σ' : around σ σ' → meanwhile k σ σ'
| meanwhile_process clock k' : k' ≠ k → k' ∈ queue σ → meanwhile k σ (process σ clock k').

(** *** A reconciliation takes time *)

(** What a reconciliation reads: the cached binding, services, the cached projection, and what
    it writes to, each at its time. *)
Definition patchwork σ1 σ2 σ3 σ4 σ5 : system := {|
  bindingCache := bindingCache σ1; services := services σ2; projectionCache := projectionCache σ3;
  projections := projections σ4; bindings := bindings σ5;
  projectionWatch := projectionWatch σ5; bindingWatch := bindingWatch σ5;
  tracked := tracked σ5; queue := queue σ5 |}.

Definition take_key σ k : system := {|
  projections := projections σ; bindings := bindings σ;
  projectionCache := projectionCache σ; bindingCache := bindingCache σ;
  projectionWatch := projectionWatch σ; bindingWatch := bindingWatch σ;
  services := services σ; tracked := tracked σ; queue := queue σ ∖ {[ k ]} |}.

Definition track_calls σ (log : list controller_event) : system := {|
  projections := projections σ; bindings := bindings σ;
  projectionCache := projectionCache σ; bindingCache := bindingCache σ;
  projectionWatch := projectionWatch σ; bindingWatch := bindingWatch σ;
  services := services σ; tracked := tracked σ ++ omap tracking (binding_calls log); queue := queue σ |}.

Definition write_projection σ (log : list controller_event) : system := {|
  projections := foldl apply_event (projections σ) (binding_calls log); bindings := bindings σ;
  projectionCache := projectionCache σ; bindingCache := bindingCache σ;
  projectionWatch := projectionWatch σ ++ omap projection_change (binding_calls log);
  bindingWatch := bindingWatch σ;
  services := services σ; tracked := tracked σ; queue := queue σ |}.

Definition write_status σ (log : list controller_event) : system := {|
  projections := projections σ; bindings := foldl apply_status (bindings σ) (kind_calls log);
  projectionCache := projectionCache σ; bindingCache := bindingCache σ;
  projectionWatch := projectionWatch σ;
  bindingWatch := bindingWatch σ ++ omap binding_change (kind_calls log);
  services := services σ; tracked := tracked σ; queue := queue σ |}.

Definition requeue σ k (res : outcome (option failure)) : system := {|
  projections := projections σ; bindings := bindings σ;
  projectionCache := projectionCache σ; bindingCache := bindingCache σ;
  projectionWatch := projectionWatch σ; bindingWatch := bindingWatch σ;
  services := services σ; tracked := tracked σ; queue := queue σ ∪ requeued k res |}.

(** A worker takes [k]; it reads the binding in [σ1], tracks the service, looks it up in
    [σ2], reads the projection in [σ3], writes it in [σ4], and the status in [σ5].  Anything
    may happen meanwhile. *)
Inductive reconciliation σ k : system → Prop :=
| reconciled clock σ1 σ2 σ3 σ4 σ5 σ6 res log :
    run_key (patchwork σ1 σ2 σ3 σ4 σ5) clock k = (res, log) →
    rtc (meanwhile k) (take_key σ k) σ1 →
    rtc (meanwhile k) (track_calls σ1 log) σ2 →
    rtc (meanwhile k) σ2 σ3 →
    rtc (meanwhile k) σ3 σ4 →
    rtc (meanwhile k) (write_projection σ4 log) σ5 →
    rtc (meanwhile k) (write_status σ5 log) σ6 →
    reconciliation σ k (requeue σ6 k res).

Inductive system_step σ : system → Prop :=
| step_reconcile k σ' : k ∈ queue σ → reconciliation σ k σ' → system_step σ σ'
| step_around σ' : around σ σ' → system_step σ σ'.

(** The controller has heard all about [k]. *)
Definition current σ k : Prop :=
  bindingCache σ !! k = b_get (bindings σ) k ∧ projectionCache σ !! k = api_get (projections σ) k.

(** The controller works, and hears what changed before it goes on. *)
Inductive works σ : system → Prop :=
| works_deliver_projection c cs : projectionWatch σ = c :: cs → works σ (deliver_projection σ c cs)
| works_deliver_binding c cs : bindingWatch σ = c :: cs → works σ (deliver_binding σ c cs)
| works_process clock k :
    projectionWatch σ = [] → bindingWatch σ = [] → k ∈ queue σ → works σ (process σ clock k).

(** Nothing is left to do. *)
Definition at_rest σ : Prop := queue σ = ∅ ∧ projectionWatch σ = [] ∧ bindingWatch σ = [].

(** The changes are those of objects that actors may write. *)
Fixpoint projection_changes_ok (cache : gmap object_name ServiceBindingProjection)
    (cs : list (change ServiceBindingProjection)) : Prop :=
  match cs with
  | [] => True
  | c :: cs => projection_change_ok (cache !! c.1) c.2 ∧ projection_changes_ok (apply_change cache c) cs
  end.

(** The controller starts: it knows nothing, and will be told of all stored objects. *)
Record started σ : Prop := {
  started_projectionCache : projectionCache σ = ∅;
  started_bindingCache : bindingCache σ = ∅;
  started_projections k :
    api_get (projections σ) k = foldl apply_change ∅ (projectionWatch σ) !! k;
  started_bindings k : b_get (bindings σ) k = foldl apply_change ∅ (bindingWatch σ) !! k;
  started_seen k p : (k, Some p) ∈ projectionWatch σ → api_seen (projections σ) k p;
  started_projections_ok : projection_changes_ok ∅ (projectionWatch σ);
  started_bindings_ok k b : (k, Some b) ∈ bindingWatch σ → admitted k b;
}.

(** ** In sync *)

(** The status of [b] reports the secret and the projection [p]. *)
Definition reports b (secret : LocalObjectReference) p : Prop :=
  SBStatus_Binding (SB_Status b) = SBStatus_Binding (SB_Status (with_secret b secret)) ∧
  SBStatus_ObservedGeneration (SB_Status b) = Meta_Generation (SB_Meta b) ∧
  ∃ r c pr, conds3 (SB_Status b) r c pr ∧ MC_Status c = ConditionTrue ∧ says pr (projected p) ∧
    (valid_status (projected p).1.1 → MC_Status r = (projected p).1.1).

(** The stored projection [p] of [b] is what [b] asks for with the secret that its service
    publishes, and the status of [b] reports it. *)
Definition in_sync_with σ k b (secret : LocalObjectReference) p : Prop :=
  resolution (services σ) (service_of b) (SB_Meta b) secret ∧
  api_get (projections σ) k = Some p ∧
  Cluster.settled (SB.SetDefaults b) secret p ∧
  reports b secret p.

Definition in_sync σ k b : Prop := ∃ secret p, in_sync_with σ k b secret p.

(** A notification that enqueues [k] is on its way. *)
Definition coming σ k : Prop :=
  will_enqueue servicebinding_bindingHandler (bindingCache σ) (bindingWatch σ) k ∨
  will_enqueue servicebinding_projectionHandler (projectionCache σ) (projectionWatch σ) k.

Definition awake σ k : Prop := k ∈ queue σ ∨ coming σ k.

(** Nothing to do for [b], and its service will enqueue it when there is. *)
Definition rested σ k b : Prop :=
  in_sync σ k b ∧ (is_secret (service_of b) ∨ (k, service_of b) ∈ tracked σ).
End system.
