(* ===== verification/SystemRuns.v ===== *)
(** * One reconciliation in the system

    What the handlers enqueue, what notifications that are on their way will enqueue, and
    what the reconciliation of a key changes: at most the projection and the status of its
    binding; and when it succeeds without a write, that the cached projection is in sync. *)
From S2P Require Import Prelude Api Conditions Effects Projection ProjectionLemmas ProjectionFacts.
From S2P Require Import Binding BindingFacts Resolver Resources BindingReconciler BindingReconcilerFacts.
From S2P Require Import Cluster ClusterFacts EndToEnd.
From S2P Require Import KindReconciler Kinds KindReconcilerFacts ClientsFacts Controllers ControllersFacts System.

(** ** Notifications *)
Section notifications.
Context {K : Type}.
Implicit Types (cache : gmap object_name K) (h : handler K) (cs : list (change K)).

Lemma apply_change_eq cache (c : change K) : apply_change cache c !! c.1 = c.2.
Proof. unfold apply_change. by rewrite lookup_partial_alter_eq. Qed.

Lemma apply_change_ne cache (c : change K) k : c.1 ≠ k → apply_change cache c !! k = cache !! k.
Proof. intros Hk. unfold apply_change. by rewrite lookup_partial_alter_ne. Qed.

Lemma will_enqueue_app h cache cs cs' k :
  will_enqueue h cache (cs ++ cs') k ↔
  will_enqueue h cache cs k ∨ will_enqueue h (foldl apply_change cache cs) cs' k.
Proof.
  revert cache. induction cs as [|c cs IH]; intros cache; cbn [app will_enqueue foldl]; [tauto|].
  rewrite IH. tauto.
Qed.

(** A new change that enqueues [k] when what the cache will hold by then is told of it. *)
Lemma will_enqueue_new h cache cs (c : change K) k :
  k ∈ enqueued h (foldl apply_change cache cs) c → will_enqueue h cache (cs ++ [c]) k.
Proof. intros Hk. apply will_enqueue_app. right. by left. Qed.

(** If the first change of [k] enqueues it, a stale cache will. *)
Lemma stale_will_enqueue h cache cs k :
  (∀ cache' (c : change K), c ∈ cs → c.1 = k → cache' !! k = cache !! k → cache !! k ≠ None ∨ c.2 ≠ None →
    k ∈ enqueued h cache' c) →
  foldl apply_change cache cs !! k ≠ cache !! k → will_enqueue h cache cs k.
Proof.
  assert (∀ cache0, cache0 !! k = cache !! k →
    (∀ cache' (c : change K), c ∈ cs → c.1 = k → cache' !! k = cache !! k → cache !! k ≠ None ∨ c.2 ≠ None →
      k ∈ enqueued h cache' c) →
    foldl apply_change cache0 cs !! k ≠ cache !! k → will_enqueue h cache0 cs k) as Hgen; [|by apply Hgen].
  induction cs as [|c cs IH]; intros cache0 Hcache Hch Hstale; cbn [foldl will_enqueue] in *; [done|].
  assert ((c.1 = k ∧ (cache !! k ≠ None ∨ c.2 ≠ None)) ∨ apply_change cache0 c !! k = cache !! k) as [[Hk Hs]|Hk].
  { destruct (decide (c.1 = k)) as [<-|Hk]; [rewrite apply_change_eq|right; by rewrite apply_change_ne].
    destruct (cache !! c.1), c.2; auto. }
  - left. apply Hch; [by left|done|done|done].
  - right. apply IH; [done| |done]. intros cache' c' Hc'. apply Hch. by right.
Qed.
End notifications.

Section facts.
Context `{KmetaLaws, !KnativeController, !KnativeControllerLaws, !SchemaGuess}.
Context `{!SemanticEquality, !SemanticEqualityLaws, !ConditionManager}.
Context `{!KnativeReconciler controller_event ServiceBinding ServiceBindingStatus}.
Context `{!KnativeReconcilerLaws controller_event ServiceBinding ServiceBindingStatus}.
Context {PServer BServer : Type} `{!ApiServer PServer, !ApiServerLaws}.
Context `{!BindingServer BServer, !BindingServerLaws}.
Context `{!UidNames}.
Implicit Types (b : ServiceBinding) (p q : ServiceBindingProjection) (k : object_name).
Implicit Types (σ : system (PServer := PServer) (BServer := BServer)).


(** ** The handlers *)
Lemma binding_enqueued cache (c : change ServiceBinding) k :
  c.1 = k → (∀ b, cache !! k = Some b ∨ c.2 = Some b → key_of b = k) → cache !! k ≠ None ∨ c.2 ≠ None →
  k ∈ enqueued servicebinding_bindingHandler cache c.
Proof.
  destruct c as [k' o]. cbn. intros -> Hkey Hsome. unfold enqueued, notification, servicebinding_bindingHandler. cbn.
  destruct (cache !! k) as [old|] eqn:Hold, o as [new|]; rewrite ?HandleAll_event, ?Enqueue_key.
  1,3: rewrite <- (Hkey new) by auto; by left.
  - rewrite <- (Hkey old) by auto. by left.
  - by destruct Hsome.
Qed.

(** A projection that binding [b] controls, under its name. *)
Definition owned b p : Prop :=
  IsControlledBy (SBP_Meta p) (SB_Meta b) = true ∧ owner_named p ∧ Meta_Namespace (SBP_Meta p) = ns b.

Lemma owned_enqueues b p :
  identified b → owned b p →
  FilterControllerGK (Admission.servicebinding_Kind "ServiceBinding") (SBP_Meta p) = true ∧
  EnqueueControllerOf (SBP_Meta p) = [key_of b].
Proof. intros Hid (Hc & Hown & Hns). destruct (Hown b Hid Hc) as [Hf He]. by rewrite He, Hns. Qed.

(** An event after which, or before which, the projection is one that [b] controls. *)
Lemma projection_enqueued cache (c : change ServiceBindingProjection) b :
  identified b → c.1 = key_of b →
  match cache !! key_of b, c.2 with
  | Some old, Some new => owned b old ∧ owned b new
  | Some old, None => owned b old
  | None, Some new => owned b new
  | None, None => False
  end → key_of b ∈ enqueued servicebinding_projectionHandler cache c.
Proof.
  destruct c as [k o]. cbn. intros Hid -> Hown. unfold enqueued, notification, servicebinding_projectionHandler. cbn.
  destruct (cache !! key_of b) as [old|], o as [new|]; [destruct Hown as [Hold Hown]| | |done];
    destruct (owned_enqueues _ _ Hid Hown) as [Hf He]; rewrite Filtering_event; cbn.
  - destruct (owned_enqueues _ _ Hid Hold) as [-> _]. rewrite Hf, HandleAll_event, He. by left.
  - rewrite Hf, HandleAll_event, He. by left.
  - rewrite Hf, HandleAll_event, He. by left.
Qed.

(** ** Defaults *)
Lemma SetDefaults_meta b : SB_Meta (SB.SetDefaults b) = SB_Meta b.
Proof. unfold SB.SetDefaults. by case_bool_decide. Qed.
Lemma SetDefaults_status b : SB_Status (SB.SetDefaults b) = SB_Status b.
Proof. unfold SB.SetDefaults. by case_bool_decide. Qed.
Lemma SetDefaults_service b : SBSpec_Service (SB_Spec (SB.SetDefaults b)) = SBSpec_Service (SB_Spec b).
Proof. unfold SB.SetDefaults. by case_bool_decide. Qed.
Lemma SetDefaults_workload b : SBSpec_Workload (SB_Spec (SB.SetDefaults b)) = SBSpec_Workload (SB_Spec b).
Proof. unfold SB.SetDefaults. by case_bool_decide. Qed.
Lemma SetDefaults_key b : key_of (SB.SetDefaults b) = key_of b.
Proof. unfold key_of, ns, name. by rewrite SetDefaults_meta. Qed.
Lemma SetDefaults_owned b p : owned (SB.SetDefaults b) p ↔ owned b p.
Proof. unfold owned, ns. by rewrite SetDefaults_meta. Qed.

(** ** What a run of [projects] changes *)

(** The projection that [b] makes names it as its owner. *)
Lemma made_owner_named b secret desired q :
  identified b → asks b secret desired → persisted desired q → owner_named q.
Proof.
  intros Hid Hask (_ & _ & _ & Hrefs) b2 Hid2 Hc. unfold asks in Hask.
  destruct (SBSpec_Workload (SB_Spec b)) as [workload|] eqn:Hw;
    [|by unfold MakeServiceBindingProjection in Hask; cbn in Hask; rewrite Hw in Hask].
  destruct (Make_Done (Err := error) (with_secret b secret) _ workload eq_refl Hw)
    as (d & Hd & _ & _ & _ & _ & _ & _ & Ho). assert (d = desired) as -> by congruence.
  rewrite <- Hrefs in Ho. cbn in Ho.
  rewrite (IsControlledBy_new _ _ _ _ Ho), bool_decide_eq_true in Hc.
  assert (name b2 = name b) as Hn by (rewrite <- Hid, <- Hid2; by rewrite Hc).
  split.
  - by rewrite (FilterControllerGK_owner _ _ (SB_Meta b) (SB.GetGroupVersionKind b) eq_refl eq_refl Ho).
  - by rewrite (EnqueueControllerOf_owner _ _ _ Ho), Hn.
Qed.

Lemma refs_owner_named p q :
  owner_named p → Meta_OwnerReferences (SBP_Meta q) = Meta_OwnerReferences (SBP_Meta p) →
  Meta_Namespace (SBP_Meta q) = Meta_Namespace (SBP_Meta p) → owner_named q.
Proof.
  intros Hp Hrefs Hns b Hid Hc. rewrite (IsControlledBy_refs _ _ _ Hrefs) in Hc.
  rewrite (FilterControllerGK_refs _ _ _ Hrefs), (EnqueueControllerOf_refs _ _ Hrefs Hns), Hns. by apply Hp.
Qed.

(** The projection of [b] at most, and then from none or an owned one to an owned one. *)
Record changed s b q s' : Prop := {
  changed_stores : stores s s' (key_of b) q;
  changed_owned : owned b q;
  changed_ok : projection_change_ok (api_get s (key_of b)) (Some q);
  changed_current : ∀ current, api_get s (key_of b) = Some current → owned b current;
}.

Inductive projects_change s b new s' : Prop :=
| change_none : omap projection_change new = [] → same_objects s s' → projects_change s b new s'
| change_one q : omap projection_change new = [(key_of b, Some q)] → changed s b q s' →
    projects_change s b new s'.

Lemma create_change s b secret desired q :
  identified b → asks b secret desired → (api_create s (ns b) desired).2 = Ok q →
  changed s b q (api_create s (ns b) desired).1.
Proof.
  intros Hid Hask Hq. destruct (asks_owned _ _ _ Hask) as [Hn Hc].
  assert (key_in (ns b) desired = key_of b) as Hk by (unfold key_in; by rewrite Hn).
  pose proof (create_result s (ns b) desired) as Hr.
  destruct (api_create s (ns b) desired) as [s' r]. cbn in Hq |- *. subst r. rewrite Hk in Hr.
  destruct Hr as (Hg & Hp & Hs).
  assert (api_get s' (key_of b) = Some q) as Hq by (by rewrite Hs, decide_True).
  pose proof (seen_named _ _ _ (get_seen _ _ _ Hq)) as [= Hns _].
  pose proof (made_owner_named b secret desired q Hid Hask Hp) as Hnamed.
  split; [done| |by rewrite Hg|by rewrite Hg].
  split_and!; [by rewrite (persisted_owner _ _ _ Hp)|done|done].
Qed.

Lemma update_change s b secret desired p q :
  asks b secret desired → api_seen s (key_of b) p → owner_named p →
  IsControlledBy (SBP_Meta p) (SB_Meta b) = true →
  (api_update s (ns b) (withDesired desired p)).2 = Ok q →
  api_get s (key_of b) = Some p ∧ changed s b q (api_update s (ns b) (withDesired desired p)).1.
Proof.
  intros Hask Hseen Hnamed Hc Hq. pose proof (seen_key s b desired p Hseen) as Hk.
  pose proof (update_result s (ns b) (withDesired desired p)) as Hr.
  destruct (api_update s (ns b) _) as [s' r]. cbn in Hq |- *. subst r. rewrite Hk in Hr.
  destruct Hr as ((current & Hg & Hv & _) & (_ & _ & _ & Hrefs) & Hs).
  assert (current = p) as -> by (eapply seen_version; [by apply get_seen|done|done]).
  assert (api_get s' (key_of b) = Some q) as Hq by (by rewrite Hs, decide_True).
  pose proof (seen_named _ _ _ (get_seen _ _ _ Hq)) as [= Hns _].
  pose proof (seen_named _ _ _ Hseen) as [= Hns' _].
  change (Meta_OwnerReferences (SBP_Meta (withDesired desired p)))
    with (Meta_OwnerReferences (SBP_Meta p)) in Hrefs.
  assert (owner_named q) as Hnamed' by (eapply refs_owner_named; [done|done|congruence]).
  split; [done|]. split; [done| | |].
  - split_and!; [by rewrite (IsControlledBy_refs _ _ _ Hrefs)|done|done].
  - rewrite Hg. split; [done|]. intros b2 _. by rewrite (IsControlledBy_refs _ _ _ Hrefs).
  - rewrite Hg. intros current [= <-]. done.
Qed.

Lemma create_failed s b desired (e : error) :
  (api_create s (ns b) desired).2 = Err e → same_objects s (api_create s (ns b) desired).1.
Proof.
  intros He. pose proof (create_result s (ns b) desired) as Hr.
  destruct (api_create s (ns b) desired) as [s' r]. cbn in He |- *. by subst r.
Qed.

Lemma update_failed s b p (e : error) :
  (api_update s (ns b) p).2 = Err e → same_objects s (api_update s (ns b) p).1.
Proof.
  intros He. pose proof (update_result s (ns b) p) as Hr.
  destruct (api_update s (ns b) p) as [s' r]. cbn in He |- *. by subst r.
Qed.

Lemma projects_changes {E} s cached clock (resolver : ResolverEnv E) b secret desired new r :
  identified b → observed s cached → (∀ p, cached (key_of b) = Ok p → owner_named p) →
  asks b secret desired → projects b desired new r →
  Forall (answers (cluster_env s cached clock resolver)) new →
  projects_change s b new (foldl apply_event s new) ∧
  ∀ p, r = Ok p → (∃ q, omap projection_change new = [(key_of b, Some q)]) ∨
    (cached (key_of b) = Ok p ∧ IsControlledBy (SBP_Meta p) (SB_Meta b) = true ∧ same_projection desired p = true).
Proof.
  intros Hid Hobs Hnamed Hask Hp Hans.
  pose proof (proj1 (asks_owned _ _ _ Hask)) as Hn.
  assert (key_in (ns b) desired = key_of b) as Hk by (unfold key_in; by rewrite Hn).
  destruct Hp; apply Forall_cons in Hans as [[l Hl] Hans]; cbn in Hl; change (ns b, name b) with (key_of b) in Hl.
  - apply Forall_cons in Hans as [[l' Hl'] _]. cbn in Hl'. split.
    + eapply change_one; [cbn; by rewrite Hk|]. by eapply create_change.
    + intros p0 _. left. exists p. cbn. by rewrite Hk.
  - apply Forall_cons in Hans as [[l' Hl'] _]. cbn in Hl'. split; [|done].
    apply change_none; [done|]. by eapply create_failed.
  - split; [|done]. by apply change_none.
  - split; [|done]. by apply change_none.
  - split; [by apply change_none|]. intros p' [= <-]. by right.
  - apply Forall_cons in Hans as [[l' Hl'] _]. cbn in Hl'.
    pose proof (seen_key s b desired p (Hobs _ _ Hl)) as Hk'.
    destruct (update_change s b secret desired p p' Hask (Hobs _ _ Hl) (Hnamed _ Hl)) as [_ Hch]; [done|done|].
    split.
    + eapply change_one; [cbn; by rewrite Hk'|exact Hch].
    + intros p0 _. left. exists p'. cbn. by rewrite Hk'.
  - apply Forall_cons in Hans as [[l' Hl'] _]. cbn in Hl'. split; [|done].
    apply change_none; [done|]. by eapply update_failed.
Qed.

(** ** What a run of [ReconcileKind] changes, and when it succeeds *)
Lemma no_changes t calls : omap projection_change (EvNow t :: map EvResolver calls) = [].
Proof. cbn. by induction calls. Qed.

Lemma changes_after t calls new :
  omap projection_change (EvNow t :: map EvResolver calls ++ new) = omap projection_change new.
Proof. cbn. by induction calls. Qed.

Lemma apply_after s t calls new :
  foldl apply_event s (EvNow t :: map EvResolver calls ++ new) = foldl apply_event s new.
Proof. cbn. by rewrite foldl_app, apply_resolver. Qed.

Lemma projects_change_after s b t calls new s' :
  projects_change s b new s' → projects_change s b (EvNow t :: map EvResolver calls ++ new) s'.
Proof.
  intros [Hn Hs|q Hq Hch]; [apply change_none|apply (change_one _ _ _ _ q)]; by rewrite ?changes_after.
Qed.

Lemma resolves_tracked b service calls r t new :
  resolves (serviceRef b service) (SB_Meta b) calls (Ok r) →
  is_secret (serviceRef b service) ∨
    (key_of b, serviceRef b service) ∈ omap tracking (EvNow t :: map EvResolver calls ++ new).
Proof. intros Hr. inversion Hr; subst; [by left|]. right. by left. Qed.

(** A successful run: it wrote the projection, or the cached one is settled and the status
    reports it. *)
Record succeeded {E} (cached : cache) (resolver : ResolverEnv E) b service b' new : Prop := {
  succeeded_tracked : is_secret (serviceRef b service) ∨ (key_of b, serviceRef b service) ∈ omap tracking new;
  succeeded_in_sync : (∃ q, omap projection_change new = [(key_of b, Some q)]) ∨
    ∃ secret p, resolution resolver (serviceRef b service) (SB_Meta b) secret ∧
      cached (key_of b) = Ok p ∧ Cluster.settled b secret p ∧ reports b' secret p;
}.

(** The status that a successful run sets. *)
Lemma propagated_reports b t secret b1 p status :
  available b t secret b1 → SB.PropagateServiceBindingProjectionStatus (Some p) t (SB_Status b1) = Done status →
  reports (set_SB_Status b1 (SB.set_ObservedGeneration status (Meta_Generation (SB_Meta b1)))) secret p.
Proof.
  intros Hav Hprop. destruct (available_frame _ _ _ _ Hav) as (_ & _ & Hb & _ & r & c & pr & Hconds & Hct).
  destruct (propagated_status _ _ _ _ _ _ _ Hconds Hct Hprop) as (Hb' & r' & pr' & Hconds' & Hsay & Hready).
  split; [by cbn; rewrite Hb', Hb|]. split; [done|]. by exists r', c, pr'.
Qed.

Lemma reports_same b b' secret p :
  SB_Meta b' = SB_Meta b → SB_Status b = SB_Status b' → reports b' secret p → reports b secret p.
Proof.
  intros Hmeta Hst (Hb & Hg & Hr). unfold reports. rewrite Hst, <- Hmeta. done.
Qed.

Lemma reconciles_changes {E} s cached clock (resolver : ResolverEnv E) b service new b' ev :
  identified b → observed s cached → (∀ p, cached (key_of b) = Ok p → owner_named p) →
  reconciles b service new b' ev → Forall (answers (cluster_env s cached clock resolver)) new →
  SB_Meta b' = SB_Meta b ∧
  projects_change s b new (foldl apply_event s new) ∧
  (event_result ev = None → Meta_DeletionTimestamp (SB_Meta b) = None →
    succeeded cached resolver b service b' new).
Proof.
  intros Hid Hobs Hnamed Hrec Hans.
  assert (∀ t calls secret b1 desired calls' r,
    Forall (answers (cluster_env s cached clock resolver)) (EvNow t :: map EvResolver calls ++ calls') →
    resolves (serviceRef b service) (SB_Meta b) calls (Ok (Some secret)) → available b t secret b1 →
    MakeServiceBindingProjection (Err := error) b1 = Done (Ok desired) → projects b1 desired calls' r →
    resolution resolver (serviceRef b service) (SB_Meta b) secret ∧ SB_Meta b1 = SB_Meta b ∧
    asks b secret desired ∧ projects_change s b calls' (foldl apply_event s calls') ∧
    ∀ p, r = Ok p → (∃ q, omap projection_change calls' = [(key_of b, Some q)]) ∨
      (cached (key_of b) = Ok p ∧ IsControlledBy (SBP_Meta p) (SB_Meta b) = true ∧ same_projection desired p = true))
    as Hprojects.
  { intros t calls secret b1 desired calls' r [_ [Hc%answers_calls Hc']%Forall_app]%Forall_cons Hr Hav Hm Hp.
    destruct (available_asks _ _ _ _ _ Hav Hm) as [Hmeta Hask]. apply (projects_ext _ b) in Hp; [|done].
    split; [by exists calls|]. do 2 (split; [done|]). by eapply projects_changes. }
  destruct Hrec as [d Hd|t calls err _ Hr|t calls secret b1 desired calls' err _ Hr Hav Hm Hp
    |t calls secret b1 desired calls' p status _ Hr Hav Hm Hp Hprop].
  - split; [done|]. split; [by apply change_none|congruence].
  - split; [done|]. split; [|done]. apply change_none; [apply no_changes|].
    cbn. by rewrite apply_resolver.
  - destruct (Hprojects _ _ _ _ _ _ _ Hans Hr Hav Hm Hp) as (_ & Hmeta & _ & Hch & _).
    split; [done|]. split; [|done]. rewrite apply_after. by apply projects_change_after.
  - destruct (Hprojects _ _ _ _ _ _ _ Hans Hr Hav Hm Hp) as (Hres & Hmeta & Hask & Hch & Hok).
    split; [done|]. split; [rewrite apply_after; by apply projects_change_after|]. intros _ _.
    split; [by eapply resolves_tracked|]. rewrite changes_after.
    destruct (Hok p eq_refl) as [Hq|(Hcached & Hc & Hsame)]; [by left|right].
    exists secret, p. split; [done|]. split; [done|]. split; [split; [done|by exists desired]|].
    by eapply propagated_reports.
Qed.

(** ** A reconciliation of a key *)
Context `{!BindingProcessing}.

Lemma kind_calls_inl (l : list (kind_event ServiceBinding)) : kind_calls (map inl l) = l.
Proof. unfold kind_calls. induction l as [|e l IH]; cbn; [done|]. by rewrite IH. Qed.
Lemma kind_calls_inr (l : list binding_event) : kind_calls (map inr l) = [].
Proof. unfold kind_calls. by induction l. Qed.
Lemma binding_calls_inl (l : list (kind_event ServiceBinding)) : binding_calls (map inl l) = [].
Proof. unfold binding_calls. by induction l. Qed.
Lemma binding_calls_inr (l : list binding_event) : binding_calls (map inr l) = l.
Proof. unfold binding_calls. induction l as [|e l IH]; cbn; [done|]. by rewrite IH. Qed.
Lemma kind_calls_app (l l' : list controller_event) : kind_calls (l ++ l') = kind_calls l ++ kind_calls l'.
Proof. apply omap_app. Qed.
Lemma binding_calls_app (l l' : list controller_event) :
  binding_calls (l ++ l') = binding_calls l ++ binding_calls l'.
Proof. apply omap_app. Qed.

(** Calls that store no status change nothing. *)
Lemma not_stored_quiet s (l : list (kind_event ServiceBinding)) :
  Forall not_stored l → omap binding_change l = [] ∧ foldl apply_status s l = s.
Proof.
  induction 1 as [|e l He Hl [IH1 IH2]]; [done|]. cbn.
  destruct e as [| |namespace b [q|err]| |]; cbn in *; done.
Qed.

Lemma event_records_quiet (ev : option Event) : Forall not_stored (event_records (K := ServiceBinding) ev).
Proof. destruct ev as [ev|]; [|constructor]. repeat constructor. unfold event_record. by case_match. Qed.

(** What the reconciliation of a binding does, whatever the answers to its calls: the calls,
    and its status update. *)
Inductive run_of (kenv : KindEnv controller_event ServiceBinding) (benv : BindingEnv controller_event) k b
    (res : option failure) (log : list controller_event) : Prop :=
| run_deleted :
    Meta_DeletionTimestamp (SB_Meta b) ≠ None → log = [inl (EvListerGet k.1 k.2 (Ok b))] → res = None →
    run_of kenv benv k b res log
| run_reconciles service b' ev new updates tail err :
    SBSpec_Service (SB_Spec b) = Some service →
    log = inl (EvListerGet k.1 k.2 (Ok b)) :: map inr new ++ map inl (updates ++ tail) →
    reconciles (SB.SetDefaults b) service new b' ev →
    Forall (answers benv) new → Forall (kind_answers kenv) updates → Forall not_stored tail →
    updates = [] ∧ err = None ∧ SB_Status b = SB_Status b' ∨
      SB_Status b ≠ SB_Status b' ∧ update_shape b b' updates err ∧
      (∀ q : ServiceBinding, (∀ l, env_UpdateStatus kenv (ns b) (kind_set_status b (SB_Status b')) l = Ok q) →
        err = None ∧ (updates = [] ∨ updates = [update_from b' b (Ok q)])) →
    res = match err with Some err => Some (FError err) | None => event_result ev end →
    run_of kenv benv k b res log.

Section run.
Context (kenv : KindEnv controller_event ServiceBinding) (benv : BindingEnv controller_event).

(** The update of a status that changed. *)
Lemma update_run b b' l :
  Semantic_DeepEqual (SB_Status b) (SB_Status b') = false →
  ∃ updates err, updateStatus inl kenv b b' l = (Done err, l ++ map inl updates) ∧
    Forall (kind_answers kenv) updates ∧
    SB_Status b ≠ SB_Status b' ∧ update_shape b b' updates err ∧
    (∀ q : ServiceBinding, (∀ l, env_UpdateStatus kenv (ns b) (kind_set_status b (SB_Status b')) l = Ok q) →
      err = None ∧ (updates = [] ∨ updates = [update_from b' b (Ok q)])).
Proof.
  intros Hsem. destruct (updateStatus_shape inl kenv b b' l) as (updates & err & Hupd & Hans & Hshape).
  exists updates, err. split_and!; [done|done| |done|].
  - intros Heq. by rewrite Heq, Semantic_DeepEqual_refl in Hsem.
  - intros q Hq. destruct (updateStatus_accepted inl kenv b b' l q) as (new & Hrun & Hnew); [apply Hq|].
    pose proof (eq_trans (eq_sym Hrun) Hupd) as [= <- Hlog]. split; [done|].
    apply app_inv_head, (inj (fmap inl)) in Hlog. subst. destruct Hnew as [[-> _]|Hnew]; [by left|by right].
Qed.

(** [Reconcile] once it has the binding, for the key of a leader. *)
Definition reconcile_found (rec : ServiceBinding → M controller_event (ServiceBinding * option Event)) b :
    M controller_event (option failure) :=
  if negb (IsZero (Meta_DeletionTimestamp (SB_Meta b))) then ret None
  else bind (rec (PreProcessReconcile b)) (λ '(resource, ev),
    let resource := PostProcessReconcile resource b in
    if Semantic_DeepEqual (kind_status b) (kind_status resource) then reportEvent inl ev
    else bind (updateStatus inl kenv b resource) (λ err,
      match err with
      | None => reportEvent inl ev
      | Some err => bind (Recorder_Eventf inl EventTypeWarning "UpdateFailed"
          ("Failed to update status for " +:+ quoted (Meta_Name (kind_meta resource)) +:+ ": " +:+ Error err))
          (λ _, ret (Some (FError err)))
      end)).

Lemma found_run k b :
  complete b →
  ∃ res log, reconcile_found (BindingReconciler.ReconcileKind inr benv) b [inl (EvListerGet k.1 k.2 (Ok b))] = (Done res, log) ∧
    run_of kenv benv k b res log.
Proof.
  intros [[service Hs] [workload Hw]]. unfold reconcile_found.
  destruct (IsZero (Meta_DeletionTimestamp (SB_Meta b))) eqn:Hdel; cbn [negb].
  2: { do 2 eexists. split; [reflexivity|]. apply run_deleted; [by destruct (Meta_DeletionTimestamp _)|done|done]. }
  rewrite PreProcess_defaults.
  destruct (reconcile_run inr benv (SB.SetDefaults b) service workload [inl (EvListerGet k.1 k.2 (Ok b))])
    as (new & b' & ev & Hrun & Hrec & Hans); [by rewrite SetDefaults_service|by rewrite SetDefaults_workload|].
  rewrite (bind_Done _ _ _ _ _ Hrun). cbn zeta. rewrite PostProcess_keeps.
  change (kind_status b) with (SB_Status b). change (kind_status b') with (SB_Status b').
  destruct (Semantic_DeepEqual (SB_Status b) (SB_Status b')) eqn:Hsem.
  - rewrite reportEvent_eq. do 2 eexists. split; [reflexivity|].
    eapply (run_reconciles _ _ _ _ _ _ service b' ev new [] _ None); [done|by rewrite <- (assoc_L (++))|done|done
      |constructor|apply event_records_quiet|left; split_and!; [done|done|by apply Semantic_status]|done].
  - match goal with |- context [bind (updateStatus _ _ _ _) _ ?l] =>
      destruct (update_run b b' l Hsem) as (updates & err & Hupd & Hkans & Hright) end.
    rewrite (bind_Done _ _ _ _ _ Hupd). destruct err as [err|].
    + unfold Recorder_Eventf. rewrite bind_call. do 2 eexists. split; [reflexivity|].
      eapply (run_reconciles _ _ _ _ _ _ service b' ev new updates [_] (Some err));
        [done|rewrite map_app, <- !(assoc_L (++)); reflexivity|done|done|done|by repeat constructor|by right|done].
    + rewrite reportEvent_eq. do 2 eexists. split; [reflexivity|].
      eapply (run_reconciles _ _ _ _ _ _ service b' ev new updates _ None);
        [done|rewrite map_app, <- !(assoc_L (++)); reflexivity|done|done|done|apply event_records_quiet|by right|done].
Qed.

(** What [Reconcile] does with the key of a leader. *)
Lemma led_run_eq (leads : string → string → bool) k :
  leads k.1 k.2 = true → slash_free k.1 = true → slash_free k.2 = true →
  ServiceBinding_Reconcile kenv benv leads (key_string k) [] =
  let answer := env_ListerGet kenv k.1 k.2 [] in
  match answer with
  | Err err => ret (if IsNotFound err then None else Some (FError err))
  | Ok b => reconcile_found (BindingReconciler.ReconcileKind inr benv) b
  end [inl (EvListerGet k.1 k.2 answer)].
Proof.
  intros Hled Hns Hn. unfold ServiceBinding_Reconcile, ServiceBinding_controller,
    servicebinding.NewImpl, NewReconciler, servicebinding.Reconcile.
  rewrite bool_decide_eq_false_2 by (cbn; lia). cbn [foldl]. rewrite !bind_pure.
  by rewrite (Reconcile_leader_eq (E := controller_event) inl kenv _ _ k.1 k.2)
    by (done || by apply SplitMetaNamespaceKey_key).
Qed.

Lemma invalid_run_eq leads k :
  slash_free k.1 && slash_free k.2 = false →
  ServiceBinding_Reconcile kenv benv leads (key_string k) [] = (Done None, []).
Proof.
  intros Hk. unfold ServiceBinding_Reconcile, ServiceBinding_controller,
    servicebinding.NewImpl, NewReconciler, servicebinding.Reconcile.
  rewrite bool_decide_eq_false_2 by (cbn; lia). cbn [foldl]. rewrite !bind_pure.
  destruct (SplitMetaNamespaceKey_slashes _ _ Hk) as [err Herr].
  unfold KindReconciler.Reconcile, newState. change (SplitMetaNamespaceKey (key_string k) = Err err) in Herr.
  unfold controller_event in *. by rewrite Herr.
Qed.

(** Who does not lead the key skips it, without a call. *)
Lemma skipped_run_eq (leads : string → string → bool) k :
  leads k.1 k.2 = false →
  ∃ res, ServiceBinding_Reconcile kenv benv leads (key_string k) [] = (Done res, []) ∧
    (res = None ∨ res = Some (FSkipKey (key_string k))).
Proof.
  intros Hk. destruct (slash_free k.1 && slash_free k.2) eqn:Hsl; [|exists None; split; [by apply invalid_run_eq|by left]].
  apply andb_true_iff in Hsl as [Hns Hn].
  unfold ServiceBinding_Reconcile, ServiceBinding_controller, servicebinding.NewImpl, NewReconciler, servicebinding.Reconcile.
  rewrite bool_decide_eq_false_2 by (cbn; lia). cbn [foldl]. rewrite !bind_pure.
  pose proof (SplitMetaNamespaceKey_key _ _ Hns Hn) as Hs. change (SplitMetaNamespaceKey (key_string k) = Ok (k.1, k.2)) in Hs.
  unfold KindReconciler.Reconcile, newState, controller_event in *. rewrite Hs.
  unfold isNotLeaderNorObserver. cbn [IsLeaderFor state_isLeader]. rewrite Hk. cbn. eauto.
Qed.
End run.

(** The reconciliation of a key that is not in the cache. *)
Lemma run_key_uncached σ clock k :
  bindingCache σ !! k = None →
  ∃ log, run_key σ clock k = (Done None, log) ∧ binding_calls log = [] ∧ Forall not_stored (kind_calls log).
Proof.
  intros Hb. unfold run_key. destruct (slash_free k.1 && slash_free k.2) eqn:Hk.
  - apply andb_true_iff in Hk as [Hns Hn]. rewrite led_run_eq by done. cbn zeta. cbn [env_ListerGet kind_env].
    unfold from_cache. replace (k.1, k.2) with k by (by destruct k). rewrite Hb. cbn. eexists. split; [done|].
    split; [done|]. by repeat constructor.
  - rewrite invalid_run_eq by done. exists []. repeat constructor.
Qed.

(** What the reconciliation of a cached binding did: its calls, and its status update. *)
Inductive ran σ clock b (res : option failure) (log : list controller_event) : Prop :=
| ran_deleted :
    Meta_DeletionTimestamp (SB_Meta b) ≠ None → binding_calls log = [] → Forall not_stored (kind_calls log) →
    res = None → ran σ clock b res log
| ran_reconciles service b' ev updates err :
    SBSpec_Service (SB_Spec b) = Some service →
    reconciles (SB.SetDefaults b) service (binding_calls log) b' ev →
    Forall (answers (binding_env σ clock)) (binding_calls log) →
    Forall (kind_answers (kind_env σ)) updates →
    updates = [] ∧ err = None ∧ SB_Status b = SB_Status b' ∨
      SB_Status b ≠ SB_Status b' ∧ update_shape b b' updates err ∧
      (∀ q : ServiceBinding, (b_update_status (bindings σ) (ns b) (kind_set_status b (SB_Status b'))).2 = Ok q →
        err = None ∧ (updates = [] ∨ updates = [update_from b' b (Ok q)])) →
    omap binding_change (kind_calls log) = omap binding_change updates →
    (∀ s, foldl apply_status s (kind_calls log) = foldl apply_status s updates) →
    res = match err with Some err => Some (FError err) | None => event_result ev end →
    ran σ clock b res log.

Lemma quiet_tail (es updates tail : list (kind_event ServiceBinding)) :
  Forall not_stored es → Forall not_stored tail →
  omap binding_change (es ++ updates ++ tail) = omap binding_change updates ∧
  ∀ s, foldl apply_status s (es ++ updates ++ tail) = foldl apply_status s updates.
Proof.
  intros He Ht. split.
  - rewrite !omap_app.
    assert (∀ l, Forall not_stored l → omap binding_change l = []) as Hq.
    { induction 1 as [|e l Hl _ IH]; [done|]. destruct e as [| |? ? [?|?]| |]; cbn in *; done. }
    by rewrite (Hq es He), (Hq tail Ht), app_nil_r.
  - intros s. rewrite !foldl_app, (proj2 (not_stored_quiet _ _ He)). by rewrite (proj2 (not_stored_quiet _ _ Ht)).
Qed.

Ltac calls_eq := rewrite ?binding_calls_app, ?kind_calls_app; cbn [binding_calls kind_calls];
  rewrite ?binding_calls_inl, ?binding_calls_inr, ?kind_calls_inl, ?kind_calls_inr, ?app_nil_r.

Lemma run_key_cached σ clock k b :
  bindingCache σ !! k = Some b → admitted k b →
  ∃ res log, run_key σ clock k = (Done res, log) ∧ ran σ clock b res log.
Proof.
  intros Hb (Hkey & Hid & Hc & Hns & Hn).
  destruct (found_run (kind_env σ) (binding_env σ clock) k b Hc) as (res & log & Hrun & Hof).
  exists res, log. unfold run_key. rewrite led_run_eq by done. cbn zeta. cbn [env_ListerGet kind_env].
  unfold from_cache. replace (k.1, k.2) with k by (by destruct k). rewrite Hb. split; [exact Hrun|].
  destruct Hof as [Hdel -> ->|service b' ev new updates tail err Hs -> Hrec Hans Hkans Ht Hupd ->].
  { apply ran_deleted; [done|done|by repeat constructor|done]. }
  destruct (quiet_tail [EvListerGet k.1 k.2 (Ok b)] updates tail) as [Hch Happ]; [by repeat constructor|done|].
  change (inl (EvListerGet k.1 k.2 (Ok b)) :: map inr new ++ map inl (updates ++ tail))
    with ([inl (EvListerGet k.1 k.2 (Ok b))] ++ map inr new ++ map inl (updates ++ tail) : list controller_event).
  eapply (ran_reconciles _ _ _ _ _ service b' ev updates err); calls_eq; [done..| |exact Hch|exact Happ|done].
  destruct Hupd as [Hupd|(Hne & Hshape & Hok)]; [by left|right]. split_and!; [done|done|]. intros q Hq. apply Hok. intros l. exact Hq.
Qed.

(** [q] is [current] with the status of [b']. *)
Record updated current b' (q : ServiceBinding) : Prop := {
  updated_same : same_binding current q;
  updated_status : SB_Status q = SB_Status b';
  updated_deletion : Meta_DeletionTimestamp (SB_Meta q) = Meta_DeletionTimestamp (SB_Meta current);
  updated_generation : Meta_Generation (SB_Meta q) = Meta_Generation (SB_Meta current);
}.

(** What a status update changes: the stored object under the key at most, and nothing of
    it but its version and its status. *)
Inductive status_outcome (s : BServer) k b b' updates (err : option error) : Prop :=
| status_kept :
    omap binding_change updates = [] → foldl apply_status s updates = s →
    (err = None → b_get s k = Some b → SB_Status b = SB_Status b') →
    status_outcome s k b b' updates err
| status_changed (current q : ServiceBinding) :
    omap binding_change updates = [(k, Some q)] → b_get s k = Some current → updated current b' q →
    (∀ k', b_get (foldl apply_status s updates) k' = if decide (k' = k) then Some q else b_get s k') →
    status_outcome s k b b' updates err.

Lemma update_outcome σ k b b' updates err :
  key_of b = k → (∀ current, b_get (bindings σ) k = Some current → key_of current = k) →
  SB_Meta b' = SB_Meta b → Forall (kind_answers (kind_env σ)) updates →
  updates = [] ∧ err = None ∧ SB_Status b = SB_Status b' ∨ SB_Status b ≠ SB_Status b' ∧ update_shape b b' updates err →
  status_outcome (bindings σ) k b b' updates err.
Proof.
  intros Hkey Hstored Hmeta Hans [(-> & _ & Hst)|[_ Hshape]]; [by apply status_kept|].
  assert (∀ l base, Forall (kind_answers (kind_env σ)) l → is_base b b' l base →
    base = b ∨ b_get (bindings σ) k = Some base) as Hbase.
  { intros l base Hl [->|Hin]; [by left|right].
    apply (proj1 (Forall_forall _ _) Hl) in Hin as [log Hget]. cbn in Hget.
    change (kind_meta b') with (SB_Meta b') in Hget. rewrite Hmeta in Hget.
    change (Meta_Namespace (SB_Meta b), Meta_Name (SB_Meta b)) with (key_of b) in Hget. rewrite Hkey in Hget.
    destruct (b_get (bindings σ) k); congruence. }
  destruct Hshape as [updates err Hq Herr|pre base q Hq Hb].
  - destruct (not_stored_quiet (bindings σ) _ Hq) as [Hch Happ]. apply status_kept; [done|done|].
    intros -> Hget. destruct (Herr eq_refl) as (base & Heq%reflect_status & Hb).
    destruct (Hbase _ _ Hans Hb) as [->|Hget']; [done|]. rewrite Hget in Hget'.
    apply (inj Some) in Hget' as <-. exact Heq.
  - apply Forall_app in Hans as [Hans Hupd]. apply Forall_cons in Hupd as [[log Hupd] _].
    destruct (not_stored_quiet (bindings σ) _ Hq) as [Hch Happ].
    assert (key_of base = k) as Hkb by (destruct (Hbase _ _ Hans Hb) as [->|Hget]; [done|by apply Hstored]).
    pose proof (b_update_result (bindings σ) (ns base) (kind_set_status base (kind_status b'))) as Hr.
    change ((b_update_status (bindings σ) (ns base) (kind_set_status base (kind_status b'))).2 = Ok q) in Hupd.
    change (name (kind_set_status base (kind_status b'))) with (name base) in Hr.
    change (ns base, name base) with (key_of base) in Hr. rewrite Hkb in Hr.
    destruct (b_update_status (bindings σ) (ns base) _) as [s' r] eqn:Hs. cbn in Hupd. subst r.
    destruct Hr as (Hst & (current & Hget & Hsame & Hdel & Hgen) & Hframe).
    apply (status_changed _ _ _ _ _ _ current q); [|done|by split|].
    + rewrite omap_app, Hch. cbn. by rewrite <- Hkb.
    + intros k'. rewrite foldl_app, Happ. cbn. change (Meta_Namespace (SB_Meta base)) with (ns base).
      change (kind_set_status base (kind_status b')) with (mkSB (SB_Meta base) (SB_Spec base) (SB_Status b')) in Hs.
      rewrite Hs. apply Hframe.
Qed.

(** ** Projections on their way *)
Lemma projection_changes_app cache cs cs' :
  projection_changes_ok cache (cs ++ cs') ↔
  projection_changes_ok cache cs ∧ projection_changes_ok (foldl apply_change cache cs) cs'.
Proof. revert cache. induction cs as [|c cs IH]; intros cache; cbn; [tauto|]. rewrite IH. tauto. Qed.

Lemma changes_owner_named cache cs k p :
  (∀ k p, cache !! k = Some p → owner_named p) → projection_changes_ok cache cs →
  foldl apply_change cache cs !! k = Some p → owner_named p.
Proof.
  revert cache. induction cs as [|c cs IH]; intros cache Hcache; cbn; [by eauto|]. intros [Hc Hcs].
  apply IH; [|done]. intros k' p'. destruct (decide (c.1 = k')) as [<-|Hk].
  - rewrite apply_change_eq. unfold System.projection_change_ok in Hc. destruct c.2; [|done]. intros [= <-]. apply Hc.
  - rewrite apply_change_ne by done. apply Hcache.
Qed.

(** The cached projection of [b] is one it controls, and not the stored one any more. *)
Lemma stale_projection cache cs b p :
  identified b → cache !! key_of b = Some p → owned b p →
  projection_changes_ok cache cs → (∀ k q, (k, Some q) ∈ cs → Meta_Namespace (SBP_Meta q) = k.1) →
  foldl apply_change cache cs !! key_of b ≠ Some p →
  will_enqueue servicebinding_projectionHandler cache cs (key_of b).
Proof.
  intros Hid Hcache Hp. revert cache Hcache. induction cs as [|c cs IH]; intros cache Hcache; cbn; [done|].
  intros [Hc Hcs] Hns Hne. destruct (decide (c.1 = key_of b)) as [Hk|Hk].
  - left. apply projection_enqueued; [done|done|]. rewrite Hcache.
    rewrite Hk, Hcache in Hc. unfold System.projection_change_ok in Hc.
    destruct c as [k o]. cbn in *. subst k. destruct o as [new|]; [|done].
    split; [done|]. destruct Hc as [Hnamed Hsame]. split_and!; [by apply Hsame, Hp|done|].
    apply (Hns (key_of b) new). by left.
  - right. apply IH; [by rewrite apply_change_ne|done| |done]. intros k q Hin. apply (Hns k q). by right.
Qed.
End facts.
