(* ===== verification/SystemFacts.v ===== *)
(** * The books of the controller

    What the caches hold and what the notifications tell add up to what the server stores
    ([books]), and a stored binding whose projection or status is not in sync is in the
    queue, or a notification that will enqueue it is on its way ([guarded]).  A
    reconciliation that nothing interrupts, and everything around it, keep both. *)
From S2P Require Import Prelude Api Conditions Effects Projection ProjectionLemmas ProjectionFacts.
From S2P Require Import Binding BindingFacts Resolver Resources BindingReconciler BindingReconcilerFacts.
From S2P Require Import Cluster ClusterFacts EndToEnd.
From S2P Require Import KindReconciler Kinds KindReconcilerFacts ClientsFacts Controllers ControllersFacts System SystemRuns.

Section facts.
Context `{KmetaLaws, !KnativeController, !KnativeControllerLaws, !SchemaGuess}.
Context `{!SemanticEquality, !SemanticEqualityLaws, !ConditionManager}.
Context `{!KnativeReconciler controller_event ServiceBinding ServiceBindingStatus}.
Context `{!KnativeReconcilerLaws controller_event ServiceBinding ServiceBindingStatus}.
Context {PServer BServer : Type} `{!ApiServer PServer, !ApiServerLaws}.
Context `{!BindingServer BServer, !BindingServerLaws}.
Context `{!UidNames}.
Implicit Types (b : ServiceBinding) (p q : ServiceBindingProjection) (k : object_name).
Implicit Types (σ : system (PServer := PServer) (BServer := BServer)).
Context `{!BindingProcessing}.

(** ** The invariant *)

(** What the caches hold and the notifications tell adds up to what the server stores. *)
Record books σ : Prop := {
  books_projections k : api_get (projections σ) k = foldl apply_change (projectionCache σ) (projectionWatch σ) !! k;
  books_bindings k : b_get (bindings σ) k = foldl apply_change (bindingCache σ) (bindingWatch σ) !! k;
  books_seen k p : projectionCache σ !! k = Some p ∨ (k, Some p) ∈ projectionWatch σ → api_seen (projections σ) k p;
  books_owners k p : projectionCache σ !! k = Some p → owner_named p;
  books_changes : projection_changes_ok (projectionCache σ) (projectionWatch σ);
  books_admitted k b : bindingCache σ !! k = Some b ∨ (k, Some b) ∈ bindingWatch σ → admitted k b;
}.

(** The live bindings under the keys in [led] wait for nothing. *)
Definition guarded (led : object_name → bool) σ : Prop := books σ ∧ ∀ k b, led k = true →
  b_get (bindings σ) k = Some b → Meta_DeletionTimestamp (SB_Meta b) = None → awake σ k ∨ rested σ k b.

Definition invariant : system → Prop := guarded (λ _, true).

(** *** Writes *)
Inductive wrote_projections σ σ' : Prop :=
| wrote_no_projection : projectionWatch σ' = projectionWatch σ → same_objects (projections σ) (projections σ') →
    wrote_projections σ σ'
| wrote_projection k o :
    projectionWatch σ' = projectionWatch σ ++ [(k, o)] →
    (∀ k', api_get (projections σ') k' = if decide (k' = k) then o else api_get (projections σ) k') →
    projection_change_ok (api_get (projections σ) k) o →
    wrote_projections σ σ'.

Inductive wrote_bindings σ σ' : Prop :=
| wrote_no_binding : bindingWatch σ' = bindingWatch σ → bindings σ' = bindings σ → wrote_bindings σ σ'
| wrote_binding k o :
    bindingWatch σ' = bindingWatch σ ++ [(k, o)] →
    (∀ k', b_get (bindings σ') k' = if decide (k' = k) then o else b_get (bindings σ) k') →
    (∀ b, o = Some b → admitted k b) →
    wrote_bindings σ σ'.

Record wrote σ σ' : Prop := {
  wrote_projectionCache : projectionCache σ' = projectionCache σ;
  wrote_bindingCache : bindingCache σ' = bindingCache σ;
  wrote_seen k p : api_seen (projections σ) k p → api_seen (projections σ') k p;
  wrote_ps : wrote_projections σ σ';
  wrote_bs : wrote_bindings σ σ';
}.

Lemma lookup_after {K} (cache : gmap object_name K) (cs : list (change K)) k o k' :
  foldl apply_change cache (cs ++ [(k, o)]) !! k' =
  if decide (k' = k) then o else foldl apply_change cache cs !! k'.
Proof.
  rewrite foldl_app. cbn. case_decide as Hk.
  - subst k'. apply (apply_change_eq _ (k, o)).
  - by apply (apply_change_ne _ (k, o)).
Qed.

Lemma books_wrote σ σ' : books σ → wrote σ σ' → books σ'.
Proof.
  intros [Hp Hb Hseen Hown Hch Hadm] [Hpc Hbc Hmono Hps Hbs].
  assert ((∀ k, b_get (bindings σ') k = foldl apply_change (bindingCache σ) (bindingWatch σ') !! k) ∧
    (∀ k b, bindingCache σ !! k = Some b ∨ (k, Some b) ∈ bindingWatch σ' → admitted k b)) as [Hb' Hadm'].
  { destruct Hbs as [-> ->|k o -> Hget Hok]; [done|]. split.
    - intros k'. by rewrite Hget, lookup_after, Hb.
    - intros k' b [Hk|[Hk|[= -> <-]%list_elem_of_singleton]%elem_of_app]; auto. }
  assert ((∀ k, api_get (projections σ') k = foldl apply_change (projectionCache σ) (projectionWatch σ') !! k) ∧
    (∀ k p, projectionCache σ !! k = Some p ∨ (k, Some p) ∈ projectionWatch σ' → api_seen (projections σ') k p) ∧
    projection_changes_ok (projectionCache σ) (projectionWatch σ')) as (Hp' & Hseen' & Hch').
  { destruct Hps as [-> Hsame|k o -> Hget Hok].
    - split_and!; [intros k; by rewrite Hsame|auto|done].
    - split_and!.
      + intros k'. by rewrite Hget, lookup_after, Hp.
      + intros k' p [Hk|[Hk|[= -> <-]%list_elem_of_singleton]%elem_of_app]; [auto|auto|].
        apply get_seen. by rewrite Hget, decide_True.
      + apply projection_changes_app. split; [done|]. cbn. by rewrite <- Hp. }
  split; rewrite ?Hpc, ?Hbc; done.
Qed.

Lemma coming_wrote σ σ' k : wrote σ σ' → coming σ k → coming σ' k.
Proof.
  intros [Hpc Hbc _ Hps Hbs]. unfold coming. rewrite Hpc, Hbc. intros [Hk|Hk]; [left|right].
  - destruct Hbs as [-> _|k' o -> _ _]; [done|]. apply will_enqueue_app. by left.
  - destruct Hps as [-> _|k' o -> _ _]; [done|]. apply will_enqueue_app. by left.
Qed.

Lemma stored_admitted σ k b : books σ → b_get (bindings σ) k = Some b → admitted k b.
Proof.
  intros [_ Hb _ _ _ Hadm]. rewrite Hb. revert Hadm. clear Hb. generalize (bindingCache σ). intros cache.
  revert cache. induction (bindingWatch σ) as [|c cs IH]; intros cache Hadm; cbn; [by auto|].
  apply IH. intros k' b' [Hk|Hk]; [|apply Hadm; right; by right]. destruct c as [k0 o].
  destruct (decide (k0 = k')) as [->|Hne].
  - rewrite (apply_change_eq _ (k', o)) in Hk. cbn in Hk. subst o. apply Hadm. right. by left.
  - rewrite (apply_change_ne _ (k0, o)) in Hk by done. auto.
Qed.

Lemma admitted_same k b b' : same_binding b b' → admitted k b → admitted k b'.
Proof.
  intros [Hk Hu _ _ Hs] (Hkey & Hid & Hc & Hn). split_and!; [by rewrite Hk|..|apply Hn|apply Hn].
  - unfold System.identified in *. rewrite Hu, Hid. unfold key_of in Hk. by injection Hk.
  - unfold complete in *. by rewrite Hs.
Qed.

Lemma stored_owner_named σ k p : books σ → api_get (projections σ) k = Some p → owner_named p.
Proof. intros [Hp _ _ Hown Hch _]. rewrite Hp. by eapply changes_owner_named. Qed.

(** A binding that has changed since the cache saw it. *)
Lemma stale_binding σ k b :
  books σ → b_get (bindings σ) k = Some b → bindingCache σ !! k ≠ Some b → coming σ k.
Proof.
  intros Hbooks Hb Hne. left. apply stale_will_enqueue.
  - intros cache' [k' o] Hin Hk Heq Hs. cbn in Hk. subst k'. rewrite <- Heq in Hs. apply binding_enqueued; [done| |done].
    intros b' [Hb'|Hb'].
    + destruct (books_admitted _ Hbooks k b') as [Hk _]; [left; by rewrite <- Heq|done].
    + cbn in Hb'. subst o. destruct (books_admitted _ Hbooks k b') as [Hk _]; [by right|done].
  - rewrite <- (books_bindings _ Hbooks), Hb. congruence.
Qed.

(** *** The projection of a binding at rest *)
Lemma in_sync_owned σ k b : books σ → admitted k b → in_sync σ k b →
  ∃ p, api_get (projections σ) k = Some p ∧ owned b p.
Proof.
  intros Hbooks (Hkey & _) (secret & p & _ & Hget & [Hc _] & _). exists p. split; [done|].
  rewrite SetDefaults_meta in Hc. split_and!; [done|by eapply stored_owner_named|].
  pose proof (seen_named _ _ _ (get_seen _ _ _ Hget)) as Hn. subst k. by injection Hn.
Qed.

(** A new projection, or none, in the place of an owned one wakes the binding up. *)
Lemma owned_change_awake σ k b p o s' :
  books σ → admitted k b → api_get (projections σ) k = Some p → owned b p →
  projection_change_ok (Some p) o → (∀ q, o = Some q → api_get s' k = Some q) →
  will_enqueue servicebinding_projectionHandler (projectionCache σ) (projectionWatch σ ++ [(k, o)]) k.
Proof.
  intros Hbooks (<- & Hid & _) Hget Hp Hok Hs'. apply will_enqueue_new. apply projection_enqueued; [done|done|].
  rewrite <- (books_projections _ Hbooks), Hget. cbn. destruct o as [q|]; [|done]. destruct Hok as [Hnamed Hsame].
  split; [done|]. split_and!; [by apply Hsame, Hp|done|].
  pose proof (seen_named _ _ _ (get_seen _ _ _ (Hs' q eq_refl))) as Hn. by injection Hn.
Qed.

(** A binding at rest stays so, or wakes up, when a projection is written. *)
Lemma rested_write σ σ' k b :
  books σ → wrote_projections σ σ' → admitted k b →
  projectionCache σ' = projectionCache σ → services σ' = services σ → (∀ x, x ∈ tracked σ → x ∈ tracked σ') →
  rested σ k b → awake σ' k ∨ rested σ' k b.
Proof.
  intros Hbooks Hps Hadm Hcache Hsv Htr [Hsync Ht].
  assert (is_secret (service_of b) ∨ (k, service_of b) ∈ tracked σ') as Ht' by (destruct Ht; auto).
  assert (api_get (projections σ') k = api_get (projections σ) k → rested σ' k b) as Hkept.
  { intros Heq. split; [|done]. destruct Hsync as (secret & p & Hr & Hg & Hset & Hrep).
    exists secret, p. unfold in_sync_with. by rewrite Hsv, Heq. }
  destruct Hps as [Hw Hsame|k' o Hw Hget Hok]; [right; by apply Hkept|].
  destruct (decide (k = k')) as [<-|Hne]; [left|right; apply Hkept; by rewrite Hget, decide_False].
  destruct (in_sync_owned σ k b Hbooks Hadm Hsync) as (p & Hg & Hp).
  right; right. rewrite Hcache, Hw. rewrite Hg in Hok.
  apply (owned_change_awake σ k b p o (projections σ')); [done|done|done|done|done|].
  intros q ->. by rewrite Hget, decide_True.
Qed.

(** *** Processing a key *)

(** What a reconciliation of [k] leaves. *)
Record processed σ clock k : Prop := {
  processed_wrote : wrote σ (process σ clock k);
  processed_stored k' : k' ≠ k → b_get (bindings (process σ clock k)) k' = b_get (bindings σ) k';
  processed_tracked x : x ∈ tracked σ → x ∈ tracked (process σ clock k);
  processed_queue k' : k' ≠ k → k' ∈ queue σ → k' ∈ queue (process σ clock k);
  processed_live b :
    b_get (bindings (process σ clock k)) k = Some b → Meta_DeletionTimestamp (SB_Meta b) = None →
    awake (process σ clock k) k ∨ rested (process σ clock k) k b;
}.

Lemma projection_changes_wrote σ σ' b new :
  books σ → identified b → projectionWatch σ' = projectionWatch σ ++ omap projection_change new →
  projects_change (projections σ) b new (projections σ') → wrote_projections σ σ'.
Proof.
  intros Hbooks Hid Hw [Hn Hs|q Hq [Hs _ Hok _]]; [apply wrote_no_projection|].
  - by rewrite Hw, Hn, app_nil_r.
  - done.
  - apply (wrote_projection _ _ (key_of b) (Some q)); [by rewrite Hw, Hq|done|done].
Qed.

Lemma seen_kept s (new : list binding_event) k p : api_seen s k p → api_seen (foldl apply_event s new) k p.
Proof.
  revert s. induction new as [|e new IH]; intros s Hp; cbn; [done|]. apply IH.
  destruct e; cbn; [done|done|done|by apply seen_create|by apply seen_update|done].
Qed.

(** A reconciliation that did nothing. *)
Lemma process_quiet σ clock k log res :
  books σ → run_key σ clock k = (Done res, log) → binding_calls log = [] → Forall not_stored (kind_calls log) →
  (∀ b, b_get (bindings σ) k = Some b → Meta_DeletionTimestamp (SB_Meta b) = None → coming σ k) →
  processed σ clock k.
Proof.
  intros Hbooks Hrun Hb Hk Hcoming. destruct (not_stored_quiet (bindings σ) _ Hk) as [Hch Happ].
  assert (bindings (process σ clock k) = bindings σ) as Hbs by (unfold process; by rewrite Hrun).
  assert (wrote σ (process σ clock k)) as Hw.
  { split.
    1,2: unfold process; by rewrite Hrun.
    + intros k' p. unfold process. by rewrite Hrun, Hb.
    + apply wrote_no_projection; unfold process; rewrite Hrun; cbn; by rewrite Hb, ?app_nil_r.
    + apply wrote_no_binding; [|done]. unfold process. rewrite Hrun. cbn. by rewrite Hch, app_nil_r. }
  split; [done|..].
  - intros k' _. by rewrite Hbs.
  - intros x. unfold process. rewrite Hrun. cbn. by rewrite Hb, app_nil_r.
  - intros k' Hne. unfold process. rewrite Hrun. cbn. set_solver.
  - intros b. rewrite Hbs. intros Hg Hlive. left. right. by eapply coming_wrote, Hcoming.
Qed.

Lemma process_uncached σ clock k : books σ → bindingCache σ !! k = None → processed σ clock k.
Proof.
  intros Hbooks Hb. destruct (run_key_uncached σ clock k Hb) as (log & Hrun & Hcalls & Hk).
  eapply process_quiet; [done..|]. intros b Hg _. eapply stale_binding; [done..|congruence].
Qed.

Lemma cached_observed σ : books σ → observed (projections σ) (from_cache (projectionCache σ)).
Proof.
  intros Hbooks k p. unfold from_cache. destruct (_ !! k) eqn:Hk; [|done]. intros [= <-].
  apply (books_seen _ Hbooks). by left.
Qed.

Lemma cached_owner_named σ k p : books σ → from_cache (projectionCache σ) k = Ok p → owner_named p.
Proof.
  intros Hbooks. unfold from_cache. destruct (_ !! k) as [p0|] eqn:Hk; [|done]. intros [= <-].
  by eapply books_owners.
Qed.

(** A reconciliation that asked for no write, from the current binding. *)
Lemma succeeded_rested σ σ' k b service b' new :
  books σ → admitted k b → SBSpec_Service (SB_Spec b) = Some service →
  omap projection_change new = [] → SB_Meta b' = SB_Meta b → SB_Status b = SB_Status b' →
  succeeded (from_cache (projectionCache σ)) (services σ) (SB.SetDefaults b) service b' new →
  same_objects (projections σ) (projections σ') → services σ' = services σ →
  (∀ x, x ∈ omap tracking new → x ∈ tracked σ') →
  coming σ k ∨ rested σ' k b.
Proof.
  intros Hbooks (<- & Hid & _) Hs Hnone Hmeta Hst [Ht Hsync] Hsame Hsv Htr.
  assert (serviceRef (SB.SetDefaults b) service = service_of b) as Hsvc.
  { unfold service_of. rewrite Hs. cbn. unfold serviceRef, ns. by rewrite SetDefaults_meta. }
  rewrite Hsvc, ?SetDefaults_key, ?SetDefaults_meta in *.
  destruct Hsync as [[q Hq]|(secret & p & Hr & Hcached & Hset & Hrep)]; [congruence|].
  unfold from_cache in Hcached. destruct (projectionCache σ !! key_of b) as [p0|] eqn:Hc; [|done].
  injection Hcached as ->.
  assert (owned b p) as Hown.
  { split_and!; [by destruct Hset as [Hp _]; rewrite SetDefaults_meta in Hp|by eapply books_owners|].
    pose proof (seen_named _ _ _ (books_seen _ Hbooks _ _ (or_introl Hc))) as Hn. by injection Hn. }
  assert (api_get (projections σ) (key_of b) = Some p ∨ coming σ (key_of b)) as [Hg|]; [|right|by left].
  { rewrite (books_projections _ Hbooks).
    destruct (decide (foldl apply_change (projectionCache σ) (projectionWatch σ) !! key_of b = Some p)) as [|Hne];
      [by left|right; right]. apply (stale_projection _ _ b p); [done|done|done|apply Hbooks| |done].
    intros k q Hin. pose proof (seen_named _ _ _ (books_seen _ Hbooks _ _ (or_intror Hin))) as <-. done. }
  split.
  - exists secret, p. unfold in_sync_with. rewrite Hsv, Hsame. split_and!; [done|done|done|].
    by eapply reports_same.
  - destruct Ht as [Ht|Ht]; [by left|right]. by apply Htr.
Qed.

Lemma process_fields σ clock k res log :
  run_key σ clock k = (res, log) →
  process σ clock k = {|
    projections := foldl apply_event (projections σ) (binding_calls log);
    bindings := foldl apply_status (bindings σ) (kind_calls log);
    projectionCache := projectionCache σ;
    bindingCache := bindingCache σ;
    projectionWatch := projectionWatch σ ++ omap projection_change (binding_calls log);
    bindingWatch := bindingWatch σ ++ omap binding_change (kind_calls log);
    services := services σ;
    tracked := tracked σ ++ omap tracking (binding_calls log);
    queue := queue σ ∖ {[ k ]} ∪ requeued k res |}.
Proof. intros Hrun. unfold process. by rewrite Hrun. Qed.

(** A written status wakes its binding up, and so does a written projection. *)
Lemma status_coming σ k (current q : ServiceBinding) :
  books σ → b_get (bindings σ) k = Some current → admitted k q →
  will_enqueue servicebinding_bindingHandler (bindingCache σ) (bindingWatch σ ++ [(k, Some q)]) k.
Proof.
  intros Hbooks Hg [Hq _]. apply will_enqueue_new, binding_enqueued; [done| |right; done].
  intros b'. rewrite <- (books_bindings _ Hbooks). intros [Hb'|[= <-]]; [|done].
  apply (stored_admitted σ k b' Hbooks Hb').
Qed.

Lemma projection_coming σ b q s' :
  books σ → identified b → changed (projections σ) b q s' →
  will_enqueue servicebinding_projectionHandler (projectionCache σ)
    (projectionWatch σ ++ [(key_of b, Some q)]) (key_of b).
Proof.
  intros Hbooks Hid [_ Hq _ Hcur]. apply will_enqueue_new, projection_enqueued; [done|done|].
  rewrite <- (books_projections _ Hbooks). cbn. destruct (api_get _ _) as [current|]; auto.
Qed.

Lemma status_changes_wrote σ σ' k b b' updates err :
  books σ → status_outcome (bindings σ) k b b' updates err →
  bindingWatch σ' = bindingWatch σ ++ omap binding_change updates →
  bindings σ' = foldl apply_status (bindings σ) updates → wrote_bindings σ σ'.
Proof.
  intros Hbooks Hout Hw Hb. destruct Hout as [Hn Heq _|current q Hq Hg Hsame Hframe].
  - apply wrote_no_binding; [by rewrite Hw, Hn, app_nil_r|by rewrite Hb].
  - apply (wrote_binding _ _ k (Some q)); [by rewrite Hw, Hq|by rewrite Hb|].
    intros b0 [= <-]. eapply admitted_same, stored_admitted; [apply Hsame|done|done].
Qed.

(** What a run of a cached binding writes. *)
Lemma process_wrote σ clock k b b' res log updates err :
  books σ → identified (SB.SetDefaults b) → run_key σ clock k = (res, log) →
  projects_change (projections σ) (SB.SetDefaults b) (binding_calls log)
    (foldl apply_event (projections σ) (binding_calls log)) →
  omap binding_change (kind_calls log) = omap binding_change updates →
  foldl apply_status (bindings σ) (kind_calls log) = foldl apply_status (bindings σ) updates →
  status_outcome (bindings σ) k b b' updates err →
  wrote σ (process σ clock k).
Proof.
  intros Hbooks Hid Hrun Hprojects Hch Happ Hout. rewrite (process_fields σ clock k _ log Hrun), Hch, Happ.
  split; [done|done|intros k' p; by apply seen_kept|by eapply projection_changes_wrote; [done|exact Hid|done|]|].
  by eapply status_changes_wrote.
Qed.

Lemma process_cached σ clock k b : books σ → bindingCache σ !! k = Some b → processed σ clock k.
Proof.
  intros Hbooks Hb. pose proof (books_admitted _ Hbooks k b (or_introl Hb)) as Hadm.
  destruct (run_key_cached σ clock k b Hb Hadm) as (res & log & Hrun & Hran).
  destruct Hran as [Hdel Hcalls Hquiet _|service b' ev updates err Hs Hrec Hans Hkans Hupd Hch Happ Hres].
  { eapply process_quiet; [done..|]. intros b0 Hg Hlive. eapply stale_binding; [done..|]. congruence. }
  pose proof Hadm as (Hkey & Hid & _). set (calls := binding_calls log) in *.
  assert (identified (SB.SetDefaults b)) as Hid'
    by (unfold System.identified, name; by rewrite SetDefaults_meta).
  destruct (reconciles_changes (projections σ) _ clock (services σ) _ service calls b' ev Hid'
    (cached_observed σ Hbooks)) as (Hmeta & Hprojects & Hsucc); [|done|done|].
  { intros p. by apply cached_owner_named. }
  rewrite SetDefaults_meta in Hmeta, Hsucc.
  pose proof (update_outcome σ k b b' updates err Hkey
    (λ c Hc, proj1 (stored_admitted σ k c Hbooks Hc)) Hmeta Hkans ltac:(tauto)) as Hout.
  pose proof (process_fields σ clock k _ log Hrun) as Hp. rewrite Hch, Happ in Hp. fold calls in Hp.
  assert (wrote σ (process σ clock k)) as Hw.
  { by eapply process_wrote. }
  split; [done|..].
  - intros k' Hne. rewrite Hp. cbn. destruct Hout as [_ -> _|current q _ _ _ Hframe]; [done|]. by rewrite Hframe, decide_False.
  - intros x. rewrite Hp. cbn. rewrite elem_of_app. by left.
  - intros k' Hne. rewrite Hp. cbn. set_solver.
  - intros b0 Hg0 Hlive. rewrite Hp in Hg0. cbn in Hg0.
    destruct Hout as [Hn Heq Hst|current q Hq Hg Hsame Hframe].
    2: { left; right; left. rewrite Hp. cbn. rewrite Hq. eapply status_coming; [done..|].
         eapply admitted_same, stored_admitted; [apply Hsame|done|done]. }
    rewrite Heq in Hg0. destruct (decide (bindingCache σ !! k = Some b0)) as [Hb0|Hne].
    2: { left; right. eapply coming_wrote; [done|]. by eapply stale_binding. }
    assert (b0 = b) as -> by congruence.
    destruct Hprojects as [Hnone Hsame|q Hq Hchd].
    2: { left; right; right. rewrite Hp. cbn. rewrite Hq, SetDefaults_key, <- Hkey.
         rewrite <- (SetDefaults_key b). by eapply projection_coming. }
    destruct res as [f|]; [left; left; rewrite Hp; cbn; set_solver|].
    destruct err as [e|]; [done|].
    destruct (succeeded_rested σ (process σ clock k) k b service b' calls) as [Hc|Hr];
      [done|done|done|done|done|by apply Hst|by apply Hsucc; [symmetry|]|by rewrite Hp|by rewrite Hp| | |by right].
    { intros x Hx. rewrite Hp. cbn. apply elem_of_app. by right. }
    left; right. by eapply coming_wrote.
Qed.

Lemma process_processed σ clock k : books σ → processed σ clock k.
Proof.
  intros Hbooks. destruct (bindingCache σ !! k) as [b|] eqn:Hb; [by eapply process_cached|by apply process_uncached].
Qed.

(** *** The steps *)
Lemma awake_wrote σ σ' k : wrote σ σ' → (k ∈ queue σ → k ∈ queue σ') → awake σ k → awake σ' k.
Proof. intros Hw Hq [Hk|Hk]; [left; auto|right; by eapply coming_wrote]. Qed.

Lemma process_invariant led σ clock k : guarded led σ → guarded led (process σ clock k).
Proof.
  intros [Hbooks Hinv]. destruct (process_processed σ clock k Hbooks) as [Hw Hst Htr Hq Hlive].
  split; [by eapply books_wrote|]. intros k' b Hled Hg Hl. destruct (decide (k' = k)) as [->|Hne]; [by apply Hlive|].
  rewrite Hst in Hg by done. destruct (Hinv k' b Hled Hg Hl) as [Hk|Hk].
  - left. eapply awake_wrote; eauto.
  - eapply rested_write; [done|apply Hw|by eapply stored_admitted|apply Hw| |done|done].
    unfold process. by destruct (run_key σ clock k).
Qed.

Lemma awake_delivered_projection σ c cs k :
  projectionWatch σ = c :: cs → awake σ k → awake (deliver_projection σ c cs) k.
Proof.
  intros Hw [Hk|[Hk|Hk]]; [left; cbn; set_solver|right; by left|]. rewrite Hw in Hk.
  destruct Hk as [Hk|Hk]; [left; cbn|right; by right]. apply elem_of_union. right. by apply elem_of_list_to_set.
Qed.

Lemma awake_delivered_binding σ c cs k :
  bindingWatch σ = c :: cs → awake σ k → awake (deliver_binding σ c cs) k.
Proof.
  intros Hw [Hk|[Hk|Hk]]; [left; cbn; set_solver| |right; by right]. rewrite Hw in Hk.
  destruct Hk as [Hk|Hk]; [left; cbn|right; by left]. apply elem_of_union. right. by apply elem_of_list_to_set.
Qed.

Lemma deliver_projection_invariant led σ c cs :
  projectionWatch σ = c :: cs → guarded led σ → guarded led (deliver_projection σ c cs).
Proof.
  intros Hw [[Hp Hb Hseen Hown Hch Hadm] Hinv]. rewrite Hw in Hp, Hseen, Hch. destruct Hch as [Hc Hch]. split.
  - split; cbn; [done|done| | |done|done].
    + intros k p [Hk|Hk]; [|apply Hseen; right; by right].
      destruct c as [k' o]. destruct (decide (k' = k)) as [->|Hne].
      * rewrite (apply_change_eq _ (k, o)) in Hk. cbn in Hk. subst o. apply Hseen. right. by left.
      * rewrite (apply_change_ne _ (k', o)) in Hk by done. auto.
    + intros k p. eapply (changes_owner_named _ [c]); [done|]. by split.
  - intros k b Hled Hg Hl. destruct (Hinv k b Hled Hg Hl); [left; by apply awake_delivered_projection|by right].
Qed.

Lemma deliver_binding_invariant led σ c cs :
  bindingWatch σ = c :: cs → guarded led σ → guarded led (deliver_binding σ c cs).
Proof.
  intros Hw [[Hp Hb Hseen Hown Hch Hadm] Hinv]. rewrite Hw in Hb, Hadm. split.
  - split; cbn; [done|done|done|done|done|]. intros k b [Hk|Hk]; [|apply Hadm; right; by right].
    destruct c as [k' o]. destruct (decide (k' = k)) as [->|Hne].
    + rewrite (apply_change_eq _ (k, o)) in Hk. cbn in Hk. subst o. apply Hadm. right. by left.
    + rewrite (apply_change_ne _ (k', o)) in Hk by done. auto.
  - intros k b Hled Hg Hl. destruct (Hinv k b Hled Hg Hl); [left; by apply awake_delivered_binding|by right].
Qed.

(** Somebody wrote: what changed is on its way to the caches. *)
Lemma wrote_invariant led σ σ' :
  wrote σ σ' → services σ' = services σ → (∀ x, x ∈ tracked σ → x ∈ tracked σ') →
  (∀ k, k ∈ queue σ → k ∈ queue σ') → guarded led σ → guarded led σ'.
Proof.
  intros Hw Hsv Htr Hq [Hbooks Hinv]. split; [by eapply books_wrote|]. intros k b Hled Hg Hl.
  assert (b_get (bindings σ) k = Some b → awake σ' k ∨ rested σ' k b) as Hkept.
  { intros Hg0. destruct (Hinv k b Hled Hg0 Hl) as [Hk|Hk]; [left; by eapply awake_wrote; eauto|].
    eapply rested_write; [done|apply Hw|by eapply stored_admitted|apply Hw|done|done|done]. }
  destruct (wrote_bs _ _ Hw) as [_ Heq|k' o Hbw Hget Hok]; [rewrite Heq in Hg; by apply Hkept|].
  rewrite Hget in Hg. case_decide as Hk; [|by apply Hkept]. subst k' o. left; right; left.
  rewrite (wrote_bindingCache _ _ Hw), Hbw. apply will_enqueue_new, binding_enqueued; [done| |right; done].
  intros b'. rewrite <- (books_bindings _ Hbooks). intros [Hb'|[= <-]]; [apply (stored_admitted σ k b' Hbooks Hb')|by apply Hok].
Qed.

Lemma change_projection_invariant led σ s k o :
  (∀ k', api_get s k' = if decide (k' = k) then o else api_get (projections σ) k') →
  (∀ k' p, api_seen (projections σ) k' p → api_seen s k' p) →
  projection_change_ok (api_get (projections σ) k) o →
  guarded led σ → guarded led (change_projection σ s k o).
Proof.
  intros Hget Hseen Hok. apply wrote_invariant; [|done..].
  split; [done|done|done|by apply (wrote_projection _ _ k o)|by apply wrote_no_binding].
Qed.

Lemma change_binding_invariant led σ s k o :
  (∀ k', b_get s k' = if decide (k' = k) then o else b_get (bindings σ) k') →
  (∀ b, o = Some b → admitted k b) →
  guarded led σ → guarded led (change_binding σ s k o).
Proof.
  intros Hget Hok. apply wrote_invariant; [|done..].
  split; [done|done|done|by apply wrote_no_projection|by apply (wrote_binding _ _ k o)].
Qed.

(** A reference to a secret does not need the resolver. *)
Lemma secret_resolution {E} (env env' : ResolverEnv E) ref parent secret :
  is_secret ref → resolution env ref parent secret → resolution env' ref parent secret.
Proof. intros Hs (calls & Hr & _). exists []. inversion Hr; subst; [|done]. by split; [apply resolves_secret|]. Qed.

Lemma change_services_invariant led σ env ks :
  (∀ k b, b_get (bindings σ) k = Some b → (k, service_of b) ∈ tracked σ →
    k ∈ ks ∨ ∀ secret, resolution (services σ) (service_of b) (SB_Meta b) secret →
      resolution env (service_of b) (SB_Meta b) secret) →
  guarded led σ → guarded led (change_services σ env ks).
Proof.
  intros Hks [Hbooks Hinv]. split.
  - destruct Hbooks. by split.
  - intros k b Hled Hg Hl. destruct (Hinv k b Hled Hg Hl) as [[Hk|Hk]|[(secret & p & Hr & Hsync) Ht]];
      [left; left; cbn; set_solver|left; by right|].
    destruct Ht as [Ht|Ht].
    + right. split; [|by left]. exists secret, p. split; [|done]. by eapply secret_resolution.
    + destruct (Hks k b Hg Ht) as [Hk|Hk]; [left; left; cbn; set_solver|].
      right. split; [|by right]. exists secret, p. split; [by apply Hk|done].
Qed.

Lemma started_invariant led σ : started σ → guarded led σ.
Proof.
  intros [Hpc Hbc Hp Hb Hseen Hch Hadm].
  assert (books σ) as Hbooks.
  { split; rewrite ?Hpc, ?Hbc; [done|done| |by intros k p; rewrite lookup_empty|done|].
    - intros k p [Hk|Hk]; [by rewrite lookup_empty in Hk|auto].
    - intros k b [Hk|Hk]; [by rewrite lookup_empty in Hk|auto]. }
  split; [done|]. intros k b _ Hg _. left; right. eapply stale_binding; [done..|]. by rewrite Hbc, lookup_empty.
Qed.

Lemma at_rest_in_sync led σ k b :
  guarded led σ → led k = true → at_rest σ → b_get (bindings σ) k = Some b → Meta_DeletionTimestamp (SB_Meta b) = None → in_sync σ k b.
Proof.
  intros [_ Hinv] Hled (Hq & Hp & Hb) Hg Hl. destruct (Hinv k b Hled Hg Hl) as [[Hk|Hk]|[Hsync _]]; [exfalso..|done].
  - rewrite Hq in Hk. set_solver.
  - unfold coming in Hk. rewrite Hp, Hb in Hk. cbn in Hk. tauto.
Qed.
End facts.
