(* ===== verification/WakeUps.v ===== *)
(** * No lost wake-ups

    A reconciliation takes time, and anything may happen meanwhile.  Still no wake-up is
    lost: what a reconciliation has read is either still so when it ends, or its key is
    awake again.  So in every run of the controller, when the queue is empty and all is
    delivered, every binding is in sync. *)
From S2P Require Import Prelude Api Conditions Effects Projection ProjectionLemmas ProjectionFacts.
From S2P Require Import Binding BindingFacts Resolver Resources BindingReconciler BindingReconcilerFacts.
From S2P Require Import Cluster ClusterFacts EndToEnd.
From S2P Require Import KindReconciler Kinds KindReconcilerFacts ClientsFacts Controllers ControllersFacts System SystemRuns SystemFacts.

Section facts.
Context `{KmetaLaws, !KnativeController, !KnativeControllerLaws, !SchemaGuess}.
Context `{!SemanticEquality, !SemanticEqualityLaws, !ConditionManager}.
Context `{!KnativeReconciler controller_event ServiceBinding ServiceBindingStatus}.
Context `{!KnativeReconcilerLaws controller_event ServiceBinding ServiceBindingStatus}.
Context {PServer BServer : Type} `{!ApiServer PServer, !ApiServerLaws}.
Context `{!BindingServer BServer, !BindingServerLaws}.
Context `{!UidNames}.
Context `{!BindingProcessing}.
Implicit Types (b : ServiceBinding) (p q : ServiceBindingProjection) (k : object_name).
Implicit Types (σ : system (PServer := PServer) (BServer := BServer)) (led : object_name → bool).

(** ** Meanwhile *)
Lemma around_invariant led σ σ' : around σ σ' → guarded led σ → guarded led σ'.
Proof.
  intros []; eauto using deliver_projection_invariant, deliver_binding_invariant, change_projection_invariant,
    change_binding_invariant, change_services_invariant.
Qed.

Lemma meanwhile_invariant led k σ σ' : meanwhile k σ σ' → guarded led σ → guarded led σ'.
Proof. intros [σ1 Ha|clock k' _ _]; [by apply around_invariant|apply process_invariant]. Qed.

Lemma meanwhiles_invariant led k σ σ' : rtc (meanwhile k) σ σ' → guarded led σ → guarded led σ'.
Proof. induction 1; eauto using meanwhile_invariant. Qed.

Lemma books_guarded σ : books σ ↔ guarded (λ _, false) σ.
Proof. split; [by split|by intros []]. Qed.

Lemma meanwhile_books k σ σ' : meanwhile k σ σ' → books σ → books σ'.
Proof. rewrite !books_guarded. apply meanwhile_invariant. Qed.

Lemma meanwhiles_books k σ σ' : rtc (meanwhile k) σ σ' → books σ → books σ'.
Proof. rewrite !books_guarded. apply meanwhiles_invariant. Qed.

(** *** The key stays awake *)
Lemma wrote_change_projection σ s k o :
  (∀ k', api_get s k' = if decide (k' = k) then o else api_get (projections σ) k') →
  (∀ k' p, api_seen (projections σ) k' p → api_seen s k' p) →
  projection_change_ok (api_get (projections σ) k) o → wrote σ (change_projection σ s k o).
Proof. intros Hget Hseen Hok. split; [done|done|done|by apply (wrote_projection _ _ k o)|by apply wrote_no_binding]. Qed.

Lemma wrote_change_binding σ s k o :
  (∀ k', b_get s k' = if decide (k' = k) then o else b_get (bindings σ) k') →
  (∀ b, o = Some b → admitted k b) → wrote σ (change_binding σ s k o).
Proof. intros Hget Hok. split; [done|done|done|by apply wrote_no_projection|by apply (wrote_binding _ _ k o)]. Qed.

Lemma meanwhile_awake k σ σ' : books σ → meanwhile k σ σ' → awake σ k → awake σ' k.
Proof.
  intros Hbooks [σ1 [c cs Hw|c cs Hw|s k' o Hget Hseen Hok|s k' o Hget Hok|env ks _]|clock k' Hne _].
  - by apply awake_delivered_projection.
  - by apply awake_delivered_binding.
  - by apply awake_wrote; [apply wrote_change_projection|].
  - by apply awake_wrote; [apply wrote_change_binding|].
  - intros [Hk|Hk]; [left; cbn; set_solver|by right].
  - destruct (process_processed σ clock k' Hbooks) as [Hw _ _ Hq _]. apply awake_wrote; [done|]. by apply Hq.
Qed.

(** Of what holds, and keeps holding while the key is not awake. *)
Lemma meanwhiles_keep (P : system → Prop) k σ σ' :
  (∀ σ σ', books σ → meanwhile k σ σ' → P σ → awake σ' k ∨ P σ') →
  rtc (meanwhile k) σ σ' → books σ → awake σ k ∨ P σ → awake σ' k ∨ P σ'.
Proof.
  intros HP. induction 1 as [σ|σ σ1 σ2 Hm _ IH]; [done|]. intros Hbooks Hk.
  apply IH; [by eapply meanwhile_books|]. destruct Hk as [Hk|Hk]; [left; by eapply meanwhile_awake|eauto].
Qed.


Lemma meanwhiles_awake k σ σ' : books σ → rtc (meanwhile k) σ σ' → awake σ k → awake σ' k.
Proof.
  intros Hbooks Hm Hk. destruct (meanwhiles_keep (λ _, False) k σ σ') as [|[]]; [naive_solver|done|done|by left|done].
Qed.

(** *** What was read *)
Lemma meanwhile_binding k o σ σ' :
  books σ → meanwhile k σ σ' → b_get (bindings σ) k = o → awake σ' k ∨ b_get (bindings σ') k = o.
Proof.
  intros Hbooks [σ1 [c cs Hw|c cs Hw|s k' o' Hget Hseen Hok|s k' o' Hget Hok|env ks _]|clock k' Hne _] Ho; [by right..| |by right|].
  - destruct (decide (k = k')) as [<-|Hne]; [|right; cbn; by rewrite Hget, decide_False].
    destruct (decide (o' = o)) as [->|Hno]; [right; cbn; by rewrite Hget, decide_True|left; right; left; cbn].
    apply will_enqueue_new, binding_enqueued; [done|..].
    + intros b. rewrite <- (books_bindings _ Hbooks). intros [Hb|Hb]; [apply (stored_admitted σ k b Hbooks Hb)|by apply Hok].
    + rewrite <- (books_bindings _ Hbooks), Ho. destruct o; [by left|right; cbn; congruence].
  - destruct (process_processed σ clock k' Hbooks) as [_ Hst _ _ _]. right. by rewrite Hst.
Qed.

Lemma meanwhiles_binding k o σ σ' :
  books σ → rtc (meanwhile k) σ σ' → awake σ k ∨ b_get (bindings σ) k = o → awake σ' k ∨ b_get (bindings σ') k = o.
Proof.
  intros Hbooks Hm. apply (meanwhiles_keep (λ σ, b_get (bindings σ) k = o) k σ σ'); [|done|done].
  intros. by eapply meanwhile_binding.
Qed.

Lemma meanwhile_frame k σ σ' :
  books σ → meanwhile k σ σ' →
  (∀ x, x ∈ tracked σ → x ∈ tracked σ') ∧ (∀ k' p, api_seen (projections σ) k' p → api_seen (projections σ') k' p).
Proof.
  intros Hbooks [σ1 []|clock k' Hne _]; [by split..|].
  destruct (process_processed σ clock k' Hbooks) as [Hw _ Htr _ _]. split; [done|apply Hw].
Qed.

Lemma meanwhiles_seen k σ σ' :
  books σ → rtc (meanwhile k) σ σ' → ∀ k' p, api_seen (projections σ) k' p → api_seen (projections σ') k' p.
Proof.
  intros Hbooks Hm. induction Hm as [σ|σ σ1 σ2 Hm _ IH]; [done|]. intros k' p Hp.
  apply IH; [by eapply meanwhile_books|]. by apply (meanwhile_frame k σ).
Qed.

Lemma meanwhiles_tracked k σ σ' :
  books σ → rtc (meanwhile k) σ σ' → ∀ x, x ∈ tracked σ → x ∈ tracked σ'.
Proof.
  intros Hbooks Hm. induction Hm as [σ|σ σ1 σ2 Hm _ IH]; [done|]. intros x Hx.
  apply IH; [by eapply meanwhile_books|]. by apply (meanwhile_frame k σ).
Qed.

(** The service of the binding still answers what it answered. *)
Definition still_resolves (env : ResolverEnv controller_event) k b σ : Prop :=
  b_get (bindings σ) k = Some b ∧ (is_secret (service_of b) ∨ (k, service_of b) ∈ tracked σ) ∧
  ∀ secret, resolution env (service_of b) (SB_Meta b) secret →
    resolution (services σ) (service_of b) (SB_Meta b) secret.

Lemma meanwhile_resolves env k b σ σ' :
  books σ → meanwhile k σ σ' → still_resolves env k b σ → awake σ' k ∨ still_resolves env k b σ'.
Proof.
  intros Hbooks Hm (Hg & Ht & Hres).
  destruct (meanwhile_binding k (Some b) σ σ' Hbooks Hm Hg) as [Haw|Hg']; [by left|].
  assert (is_secret (service_of b) ∨ (k, service_of b) ∈ tracked σ') as Ht'
    by (destruct Ht as [Ht|Ht]; [by left|right; by apply (meanwhile_frame k σ)]).
  assert (services σ' = services σ → awake σ' k ∨ still_resolves env k b σ') as Hsame
    by (intros Heq; right; split_and!; [done|done|by rewrite Heq]).
  destruct Hm as [σ1 [c cs Hw|c cs Hw|s k' o' Hget Hseen Hok|s k' o' Hget Hok|env' ks Hks]|clock k' Hne _];
    [by apply Hsame..| |apply Hsame; unfold process; by destruct (run_key σ clock k')].
  destruct Ht as [Ht|Ht].
  - right. split_and!; [done|done|]. intros secret Hs. by eapply secret_resolution.
  - destruct (Hks k b Hg Ht) as [Hk|Hk]; [left; left; cbn; set_solver|]. right. split_and!; [done|done|].
    intros secret Hs. by apply Hk, Hres.
Qed.

(** ** The parts of a reconciliation *)

(** The keys that are promised while a worker has [k]. *)
Definition except k led : object_name → bool := λ k', led k' && negb (bool_decide (k' = k)).

Lemma guarded_except led k σ : guarded led σ → guarded (except k led) σ.
Proof. intros [Hbooks Hinv]. split; [done|]. intros k' b [Hled _]%andb_true_iff. by apply Hinv. Qed.

Lemma except_guarded led k σ :
  guarded (except k led) σ →
  (∀ b, b_get (bindings σ) k = Some b → Meta_DeletionTimestamp (SB_Meta b) = None → awake σ k ∨ rested σ k b) →
  guarded led σ.
Proof.
  intros [Hbooks Hinv] Hk. split; [done|]. intros k' b Hled Hg Hl.
  destruct (decide (k' = k)) as [->|Hne]; [by apply Hk|]. apply Hinv; [|done|done].
  unfold except. by rewrite Hled, bool_decide_eq_false_2.
Qed.

Lemma take_key_guarded led k σ : guarded led σ → guarded (except k led) (take_key σ k).
Proof.
  intros [[] Hinv]. split; [by split|]. intros k' b [Hled Hne]%andb_true_iff Hg Hl.
  apply negb_true_iff, bool_decide_eq_false in Hne.
  destruct (Hinv k' b Hled Hg Hl) as [[Hk|Hk]|Hk]; [left; left; cbn; set_solver|left; by right|by right].
Qed.

Lemma track_calls_guarded led σ log : guarded led σ → guarded led (track_calls σ log).
Proof.
  apply wrote_invariant; [|done| |done]; [split; [done|done|done|by apply wrote_no_projection|by apply wrote_no_binding]|].
  intros x Hx. cbn. apply elem_of_app. by left.
Qed.

Lemma requeue_guarded led σ k res : guarded led σ → guarded led (requeue σ k res).
Proof.
  apply wrote_invariant; [|done|done|intros k' Hk'; cbn; set_solver].
  split; [done|done|done|by apply wrote_no_projection|by apply wrote_no_binding].
Qed.

Lemma write_projection_wrote σ b log :
  books σ → identified b →
  projects_change (projections σ) b (binding_calls log) (foldl apply_event (projections σ) (binding_calls log)) →
  wrote σ (write_projection σ log).
Proof.
  intros Hbooks Hid Hch. split; [done|done|intros k' p; by apply seen_kept| |by apply wrote_no_binding].
  by eapply projection_changes_wrote.
Qed.

Lemma write_status_wrote σ k b b' log updates err :
  books σ → status_outcome (bindings σ) k b b' updates err →
  omap binding_change (kind_calls log) = omap binding_change updates →
  foldl apply_status (bindings σ) (kind_calls log) = foldl apply_status (bindings σ) updates →
  wrote σ (write_status σ log).
Proof.
  intros Hbooks Hout Hch Happ. split; [done|done|done|by apply wrote_no_projection|].
  eapply status_changes_wrote; [done|exact Hout|cbn; by rewrite Hch|cbn; by rewrite Happ].
Qed.

Section moments.
Context (led : object_name → bool) (k : object_name) (log : list controller_event).
Context (σ1 σ2 σ3 σ4 σ5 σ6 : system (PServer := PServer) (BServer := BServer)).
Context (Hg1 : guarded (except k led) σ1).
Context (M2 : rtc (meanwhile k) (track_calls σ1 log) σ2).
Context (M3 : rtc (meanwhile k) σ2 σ3).
Context (M4 : rtc (meanwhile k) σ3 σ4).

Lemma moment2 : guarded (except k led) σ2.
Proof. eapply meanwhiles_invariant; [exact M2|]. by apply track_calls_guarded. Qed.
Lemma moment3 : guarded (except k led) σ3.
Proof. eapply meanwhiles_invariant; [exact M3|exact moment2]. Qed.
Lemma moment4 : guarded (except k led) σ4.
Proof. eapply meanwhiles_invariant; [exact M4|exact moment3]. Qed.

Context (Wp : wrote σ4 (write_projection σ4 log)).
Context (M5 : rtc (meanwhile k) (write_projection σ4 log) σ5).

Lemma write_projection_guarded led' : guarded led' σ4 → guarded led' (write_projection σ4 log).
Proof. by apply wrote_invariant. Qed.
Lemma moment5 : guarded (except k led) σ5.
Proof. eapply meanwhiles_invariant; [exact M5|apply write_projection_guarded; exact moment4]. Qed.

Context (Ws : wrote σ5 (write_status σ5 log)).
Context (M6 : rtc (meanwhile k) (write_status σ5 log) σ6).

Lemma write_status_guarded led' : guarded led' σ5 → guarded led' (write_status σ5 log).
Proof. by apply wrote_invariant. Qed.
Lemma moment6 : guarded (except k led) σ6.
Proof. eapply meanwhiles_invariant; [exact M6|apply write_status_guarded; exact moment5]. Qed.

(** Once awake, the key stays so. *)
Lemma awake_status : awake (write_status σ5 log) k → awake σ6 k.
Proof. eapply meanwhiles_awake; [|exact M6]. apply (books_wrote σ5); [apply moment5|exact Ws]. Qed.
Lemma awake_5 : awake σ5 k → awake σ6 k.
Proof. intros Hk. apply awake_status. by eapply awake_wrote. Qed.
Lemma awake_projection : awake (write_projection σ4 log) k → awake σ6 k.
Proof.
  intros Hk. apply awake_5. eapply meanwhiles_awake; [|exact M5|exact Hk].
  apply (books_wrote σ4); [apply moment4|exact Wp].
Qed.
Lemma awake_4 : awake σ4 k → awake σ6 k.
Proof. intros Hk. apply awake_projection. by eapply awake_wrote. Qed.
Lemma awake_3 : awake σ3 k → awake σ6 k.
Proof. intros Hk. apply awake_4. eapply meanwhiles_awake; [apply moment3|exact M4|exact Hk]. Qed.
Lemma awake_2 : awake σ2 k → awake σ6 k.
Proof. intros Hk. apply awake_3. eapply meanwhiles_awake; [apply moment2|exact M3|exact Hk]. Qed.
Lemma awake_1 : awake σ1 k → awake σ6 k.
Proof.
  intros Hk. apply awake_2. eapply meanwhiles_awake; [|exact M2|exact Hk]. by apply (track_calls_guarded (except k led)).
Qed.

(** The binding stays as it was, or the key is awake. *)
Lemma binding_2 : awake σ2 k ∨ b_get (bindings σ2) k = b_get (bindings σ1) k.
Proof.
  apply (meanwhiles_binding k _ (track_calls σ1 log)); [by apply (track_calls_guarded (except k led))|exact M2|by right].
Qed.
Lemma binding_3 : awake σ3 k ∨ b_get (bindings σ3) k = b_get (bindings σ1) k.
Proof. apply (meanwhiles_binding k _ σ2); [apply moment2|exact M3|exact binding_2]. Qed.
Lemma binding_5 : awake σ5 k ∨ b_get (bindings σ5) k = b_get (bindings σ1) k.
Proof.
  apply (meanwhiles_binding k _ (write_projection σ4 log)); [apply (books_wrote σ4); [apply moment4|exact Wp]|exact M5|].
  destruct (meanwhiles_binding k (b_get (bindings σ1) k) σ3 σ4) as [Hk|Hk];
    [apply moment3|exact M4|exact binding_3|left; by eapply awake_wrote|by right].
Qed.
Lemma binding_6 :
  bindings (write_status σ5 log) = bindings σ5 → awake σ6 k ∨ b_get (bindings σ6) k = b_get (bindings σ1) k.
Proof.
  intros Heq. apply (meanwhiles_binding k _ (write_status σ5 log));
    [apply (books_wrote σ5); [apply moment5|exact Ws]|exact M6|].
  rewrite Heq. destruct binding_5 as [Hk|Hk]; [left; by eapply awake_wrote|by right].
Qed.

(** Nothing was done, from a binding that is not current. *)
Lemma reconciled_quiet :
  bindings (write_status σ5 log) = bindings σ5 →
  (∀ b, b_get (bindings σ1) k = Some b → Meta_DeletionTimestamp (SB_Meta b) = None → awake σ1 k) →
  guarded led σ6.
Proof.
  intros Heq Hlive. apply (except_guarded led k); [exact moment6|]. intros b Hg Hl. left.
  destruct (binding_6 Heq) as [Hk|Hk]; [done|]. apply awake_1, (Hlive b); [congruence|done].
Qed.

(** All was found in sync. *)
Lemma reconciled_in_sync b :
  b_get (bindings σ3) k = Some b → rested σ3 k b → guarded led σ6.
Proof.
  intros Hg Hrest. apply (except_guarded led k); [exact moment6|].
  assert (guarded (λ k', bool_decide (k' = k)) σ3) as Hg3.
  { split; [apply moment3|]. intros k' b' ->%bool_decide_eq_true Hg' _. right. congruence. }
  apply (meanwhiles_invariant _ k _ _ M4), write_projection_guarded, (meanwhiles_invariant _ k _ _ M5),
    write_status_guarded, (meanwhiles_invariant _ k _ _ M6) in Hg3.
  intros b' Hg' Hl'. apply Hg3; [by apply bool_decide_eq_true|done|done].
Qed.
End moments.

Lemma quiet_writes σ log :
  binding_calls log = [] → Forall not_stored (kind_calls log) →
  wrote σ (write_projection σ log) ∧ wrote σ (write_status σ log) ∧ bindings (write_status σ log) = bindings σ.
Proof.
  intros Hb Hk. destruct (not_stored_quiet (bindings σ) _ Hk) as [Hch Happ]. split_and!; [|..|exact Happ].
  - split; [done|done|intros k p; cbn; by rewrite Hb| |by apply wrote_no_binding].
    apply wrote_no_projection; cbn; by rewrite Hb, ?app_nil_r.
  - split; [done|done|done|by apply wrote_no_projection|].
    apply wrote_no_binding; cbn; [by rewrite Hch, app_nil_r|by rewrite Happ].
Qed.

Lemma succeeded_later (cached : cache) (env env' : ResolverEnv controller_event) b service b' new :
  (∀ secret, resolution env (serviceRef b service) (SB_Meta b) secret →
    resolution env' (serviceRef b service) (SB_Meta b) secret) →
  succeeded cached env b service b' new → succeeded cached env' b service b' new.
Proof.
  intros Hres [Ht [Hq|(secret & p & Hr & Hsync)]]; split; [done|by left|done|right].
  exists secret, p. split; [by apply Hres|done].
Qed.

Lemma service_of_default b service :
  SBSpec_Service (SB_Spec b) = Some service → serviceRef (SB.SetDefaults b) service = service_of b.
Proof. intros Hs. unfold service_of. rewrite Hs. cbn. unfold serviceRef, ns. by rewrite SetDefaults_meta. Qed.

(** A reconciliation of a cached binding that found nothing to write. *)
Lemma reconciled_succeeded led k log σ1 σ2 σ3 σ4 σ5 σ6 b service b' :
  guarded (except k led) σ1 →
  rtc (meanwhile k) (track_calls σ1 log) σ2 → rtc (meanwhile k) σ2 σ3 → rtc (meanwhile k) σ3 σ4 →
  wrote σ4 (write_projection σ4 log) → rtc (meanwhile k) (write_projection σ4 log) σ5 →
  wrote σ5 (write_status σ5 log) → rtc (meanwhile k) (write_status σ5 log) σ6 →
  bindingCache σ1 !! k = Some b → SBSpec_Service (SB_Spec b) = Some service →
  omap projection_change (binding_calls log) = [] → bindings (write_status σ5 log) = bindings σ5 →
  SB_Meta b' = SB_Meta b → (b_get (bindings σ5) k = Some b → SB_Status b = SB_Status b') →
  (Meta_DeletionTimestamp (SB_Meta b) = None →
    succeeded (from_cache (projectionCache σ3)) (services σ2) (SB.SetDefaults b) service b' (binding_calls log)) →
  guarded led σ6.
Proof.
  intros Hg1 M2 M3 M4 Wp M5 Ws M6 Hb Hs Hnone Heq Hmeta Hst Hsucc.
  pose proof (books_admitted _ (proj1 Hg1) k b (or_introl Hb)) as Hadm.
  pose proof (moment6 led k log σ1 σ2 σ3 σ4 σ5 σ6 Hg1 M2 M3 M4 Wp M5 Ws M6) as Hg6.
  assert (awake σ6 k → guarded led σ6) as Hawake by (intros Hk; apply (except_guarded led k); [done|by left]).
  destruct (decide (b_get (bindings σ1) k = Some b)) as [Hg|Hne].
  2: { apply (reconciled_quiet led k log σ1 σ2 σ3 σ4 σ5 σ6); [done..|]. intros b0 Hg0 _. right. eapply stale_binding; [apply Hg1|exact Hg0|congruence]. }
  destruct (Meta_DeletionTimestamp (SB_Meta b)) as [d|] eqn:Hdel.
  { apply (reconciled_quiet led k log σ1 σ2 σ3 σ4 σ5 σ6); [done..|]. intros b0 Hg0 Hl0. congruence. }
  pose proof (moment2 led k log σ1 σ2 Hg1 M2) as Hg2. pose proof (moment3 led k log σ1 σ2 σ3 Hg1 M2 M3) as Hg3.
  destruct (binding_5 led k log σ1 σ2 σ3 σ4 σ5 Hg1 M2 M3 M4 Wp M5) as [Hk|Hb5]; [apply Hawake; by apply (awake_5 led k log σ1 σ2 σ3 σ4 σ5 σ6)|].
  destruct (binding_2 led k log σ1 σ2 Hg1 M2) as [Hk|Hb2]; [apply Hawake; by apply (awake_2 led k log σ1 σ2 σ3 σ4 σ5 σ6)|].
  rewrite Hg in Hb5, Hb2. destruct (Hsucc eq_refl) as [Htracked Hsync].
  assert (still_resolves (services σ2) k b σ2) as Hstill.
  { split_and!; [done| |done]. rewrite <- (service_of_default b service Hs). destruct Htracked as [Ht|Ht]; [by left|right].
    apply (meanwhiles_tracked k (track_calls σ1 log)); [by apply (track_calls_guarded (except k led))|exact M2|].
    cbn. apply elem_of_app. right. rewrite SetDefaults_key in Ht. by destruct Hadm as [<- _]. }
  destruct (meanwhiles_keep (still_resolves (services σ2) k b) k σ2 σ3) as [Hk|(Hb3 & _ & Hres)];
    [intros; by eapply meanwhile_resolves|exact M3|apply Hg2|by right|apply Hawake; by apply (awake_3 led k log σ1 σ2 σ3 σ4 σ5 σ6)|].
  destruct (succeeded_rested σ3 σ3 k b service b' (binding_calls log)) as [Hk|Hr];
    [apply Hg3|done|done|done|done|by apply Hst| |done|done| |apply Hawake, (awake_3 led k log σ1 σ2 σ3 σ4 σ5 σ6); [done..|by right]|by apply (reconciled_in_sync led k log σ1 σ2 σ3 σ4 σ5 σ6 Hg1 M2 M3 M4 Wp M5 Ws M6 b)].
  - eapply succeeded_later; [|by apply Hsucc]. intros secret.
    rewrite (service_of_default b service Hs), SetDefaults_meta. apply Hres.
  - intros x Hx. apply (meanwhiles_tracked k σ2 σ3 (proj1 Hg2) M3).
    apply (meanwhiles_tracked k (track_calls σ1 log)); [by apply (track_calls_guarded (except k led))|exact M2|].
    cbn. apply elem_of_app. by right.
Qed.

Lemma reconciled_cached led k log σ1 σ2 σ3 σ4 σ5 σ6 clock b res :
  guarded (except k led) σ1 →
  rtc (meanwhile k) (track_calls σ1 log) σ2 → rtc (meanwhile k) σ2 σ3 → rtc (meanwhile k) σ3 σ4 →
  rtc (meanwhile k) (write_projection σ4 log) σ5 → rtc (meanwhile k) (write_status σ5 log) σ6 →
  bindingCache σ1 !! k = Some b → ran (patchwork σ1 σ2 σ3 σ4 σ5) clock b res log →
  guarded led (requeue σ6 k (Done res)).
Proof.
  intros Hg1 M2 M3 M4 M5 M6 Hb Hran. pose proof (books_admitted _ (proj1 Hg1) k b (or_introl Hb)) as Hadm.
  pose proof (moment3 led k log σ1 σ2 σ3 Hg1 M2 M3) as [Hbooks3 _].
  pose proof (moment4 led k log σ1 σ2 σ3 σ4 Hg1 M2 M3 M4) as [Hbooks4 _].
  destruct Hran as [Hdel Hcalls Hquiet _|service b' ev updates err Hs Hrec Hans Hkans Hupd Hch Happ Hres].
  { apply requeue_guarded. destruct (quiet_writes σ4 log Hcalls Hquiet) as (Wp & _ & _).
    destruct (quiet_writes σ5 log Hcalls Hquiet) as (_ & Ws & Heq).
    apply (reconciled_quiet led k log σ1 σ2 σ3 σ4 σ5 σ6); [done..|].
    intros b0 Hg0 Hl0. right. eapply stale_binding; [apply Hg1|exact Hg0|congruence]. }
  pose proof Hadm as (Hkey & Hid & _).
  assert (identified (SB.SetDefaults b)) as Hid' by (unfold System.identified, name; by rewrite SetDefaults_meta).
  destruct (reconciles_changes (projections σ4) (from_cache (projectionCache σ3)) clock (services σ2) (SB.SetDefaults b)
    service (binding_calls log) b' ev Hid') as (Hmeta & Hprojects & Hsucc); [| |done|exact Hans|].
  { intros k' p Hp. by apply (meanwhiles_seen k σ3 σ4 Hbooks3 M4), cached_observed. }
  { intros p. by apply cached_owner_named. }
  rewrite SetDefaults_meta in Hmeta, Hsucc.
  assert (wrote σ4 (write_projection σ4 log)) as Wp by (by eapply write_projection_wrote).
  pose proof (moment5 led k log σ1 σ2 σ3 σ4 σ5 Hg1 M2 M3 M4 Wp M5) as [Hbooks5 _].
  pose proof (update_outcome (patchwork σ1 σ2 σ3 σ4 σ5) k b b' updates err Hkey
    (λ c Hc, proj1 (stored_admitted σ5 k c Hbooks5 Hc)) Hmeta Hkans ltac:(tauto)) as Hout.
  change (bindings (patchwork σ1 σ2 σ3 σ4 σ5)) with (bindings σ5) in Hout.
  assert (wrote σ5 (write_status σ5 log)) as Ws by (by eapply write_status_wrote).
  pose proof (moment6 led k log σ1 σ2 σ3 σ4 σ5 σ6 Hg1 M2 M3 M4 Wp M5 Ws M6) as Hg6.
  destruct res as [f|]; [|destruct err as [e|]; [done|]].
  { apply (except_guarded led k); [by apply requeue_guarded|]. left; left. cbn. set_solver. }
  apply requeue_guarded. assert (awake σ6 k → guarded led σ6) as Hawake
    by (intros Hk; apply (except_guarded led k); [done|by left]).
  destruct Hout as [Hn Heq Hst|current q Hq Hg Hsame Hframe].
  2: { apply Hawake, (awake_status led k log σ1 σ2 σ3 σ4 σ5 σ6); [done..|]. right; left. cbn. rewrite Hch, Hq.
       eapply status_coming; [done..|]. eapply admitted_same, stored_admitted; [apply Hsame|done|done]. }
  destruct Hprojects as [Hnone Hsame|q Hq Hchd].
  2: { apply Hawake, (awake_projection led k log σ1 σ2 σ3 σ4 σ5 σ6); [done..|]. right; right. cbn.
       rewrite Hq, SetDefaults_key, <- Hkey, <- (SetDefaults_key b). by eapply projection_coming. }
  eapply (reconciled_succeeded led k log σ1 σ2 σ3 σ4 σ5 σ6 b service b'); try done.
  - cbn. by rewrite Happ.
  - by apply Hst.
  - by apply Hsucc.
Qed.

Lemma reconciliation_invariant led σ k σ' : reconciliation σ k σ' → guarded led σ → guarded led σ'.
Proof.
  intros [clock σ1 σ2 σ3 σ4 σ5 σ6 res log Hrun M1 M2 M3 M4 M5 M6] Hg.
  assert (guarded (except k led) σ1) as Hg1 by (by eapply meanwhiles_invariant, take_key_guarded).
  destruct (bindingCache σ1 !! k) as [b|] eqn:Hb.
  - destruct (run_key_cached (patchwork σ1 σ2 σ3 σ4 σ5) clock k b Hb) as (res' & log' & Hrun' & Hran);
      [apply (books_admitted _ (proj1 Hg1)); by left|].
    pose proof (eq_trans (eq_sym Hrun) Hrun') as [= -> ->]. by eapply reconciled_cached.
  - destruct (run_key_uncached (patchwork σ1 σ2 σ3 σ4 σ5) clock k Hb) as (log' & Hrun' & Hcalls & Hquiet).
    pose proof (eq_trans (eq_sym Hrun) Hrun') as [= -> ->]. apply requeue_guarded.
    destruct (quiet_writes σ4 log' Hcalls Hquiet) as (Wp & _ & _).
    destruct (quiet_writes σ5 log' Hcalls Hquiet) as (_ & Ws & Heq).
    apply (reconciled_quiet led k log' σ1 σ2 σ3 σ4 σ5 σ6); [done..|].
    intros b0 Hg0 Hl0. right. eapply stale_binding; [apply Hg1|exact Hg0|congruence].
Qed.

(** ** Runs *)

(** A reconciliation that nothing interrupts. *)
Lemma process_reconciliation σ clock k : reconciliation σ k (process σ clock k).
Proof.
  destruct (run_key σ clock k) as [res log] eqn:Hrun.
  rewrite (process_fields σ clock k res log Hrun).
  by apply (reconciled σ k clock (take_key σ k) (track_calls (take_key σ k) log) (track_calls (take_key σ k) log)
    (track_calls (take_key σ k) log) (write_projection (track_calls (take_key σ k) log) log)
    (write_status (write_projection (track_calls (take_key σ k) log) log) log) res log).
Qed.

Lemma works_step σ σ' : works σ σ' → system_step σ σ'.
Proof.
  intros [c cs Hw|c cs Hw|clock k _ _ Hk]; [by apply step_around, around_deliver_projection
    |by apply step_around, around_deliver_binding|]. eapply step_reconcile; [exact Hk|apply process_reconciliation].
Qed.

Lemma works_steps σ σ' : rtc works σ σ' → rtc system_step σ σ'.
Proof. induction 1 as [σ|σ σ1 σ2 Hw _ IH]; [done|]. eapply rtc_l; [by apply works_step|done]. Qed.

Lemma run_invariant σ σ' : started σ → rtc system_step σ σ' → invariant σ'.
Proof.
  intros Hs Hrun. apply (started_invariant (λ _, true)) in Hs. unfold invariant in *.
  induction Hrun as [σ|σ σ1 σ2 Hstep _ IH]; [done|].
  apply IH. destruct Hstep; eauto using reconciliation_invariant, around_invariant.
Qed.

(** No lost wake-ups: in every run of the controller from its start, in which anything
    may happen between the reads and the writes of a reconciliation, every stored live
    binding is in the queue, or a notification that will enqueue it is on its way, or it is
    in sync: its projection is what it asks for with the secret that its service publishes
    now, its status reports both, and it tracks that service. *)
Theorem no_lost_wakeups σ σ' k b :
  started σ → rtc system_step σ σ' →
  b_get (bindings σ') k = Some b → Meta_DeletionTimestamp (SB_Meta b) = None →
  awake σ' k ∨ rested σ' k b.
Proof. intros Hs Hrun. by apply (run_invariant σ σ' Hs Hrun). Qed.

(** At rest all is in sync: when the queue is empty and all notifications are delivered,
    the stored projection of every live binding is what the binding asks for with the
    secret that its service publishes, its status reports both, and binding any workload
    with the projection delivers the secret to every target container. *)
Theorem quiescent_in_sync `{!SemanticEqualityFields} σ σ' :
  started σ → rtc system_step σ σ' →
  at_rest σ' →
  ∀ k b, b_get (bindings σ') k = Some b → Meta_DeletionTimestamp (SB_Meta b) = None →
  ∃ secret p, in_sync_with σ' k b secret p ∧
    ∀ ps, ∃ ps', Do p ps = Done ps' ∧
      delivered (SB.SetDefaults b) (LocalObjectReference_Name secret) ps ps'.
Proof.
  intros Hs Hrun Hrest k b Hg Hl.
  destruct (at_rest_in_sync (λ _, true) σ' k b (run_invariant σ σ' Hs Hrun)) as (secret & p & Hsync); [done..|].
  exists secret, p. split; [done|]. intros ps. by apply Do_delivers, settled_made, Hsync.
Qed.
End facts.

(** ** Witnesses *)
#[local] Existing Instance string_opaque.
#[local] Existing Instance sample_guess.
#[local] Existing Instance sample_knative_controller.
#[local] Existing Instance sample_knative_controller_laws.

(** Bindings by name; an update needs the current version. *)
Definition bump (m : ObjectMeta) : ObjectMeta :=
  {| Meta_Name := Meta_Name m; Meta_Namespace := Meta_Namespace m; Meta_UID := Meta_UID m;
     Meta_ResourceVersion := Meta_ResourceVersion m +:+ "'"; Meta_Generation := Meta_Generation m;
     Meta_DeletionTimestamp := Meta_DeletionTimestamp m; Meta_Labels := Meta_Labels m;
     Meta_Annotations := Meta_Annotations m; Meta_OwnerReferences := Meta_OwnerReferences m;
     Meta_Finalizers := Meta_Finalizers m; Meta_Rest := Meta_Rest m |}.

#[local] Instance map_server : BindingServer (gmap object_name ServiceBinding) := {|
  b_get s k := s !! k;
  b_update_status s namespace b :=
    match s !! (namespace, name b) with
    | None => (s, Err not_found)
    | Some current =>
        if decide (Meta_ResourceVersion (SB_Meta current) = Meta_ResourceVersion (SB_Meta b)) then
          let q := mkSB (bump (SB_Meta current)) (SB_Spec current) (SB_Status b) in
          (<[(namespace, name b) := q]> s, Ok q)
        else (s, Err (ApiError "Conflict" "the object has been modified"))
    end;
|}.

#[local] Instance map_server_laws : BindingServerLaws.
Proof.
  split. intros s namespace b. cbn. destruct (s !! _) as [current|] eqn:Hg; [|done]. case_decide; [|done].
  split; [done|]. split.
  - exists current. done.
  - intros k. case_decide as Hk; [subst k; by rewrite lookup_insert_eq|by rewrite lookup_insert_ne].
Qed.

(** Keys are cut at their slash. *)
Fixpoint cut_slash (s : string) : option (string * string) :=
  match s with
  | EmptyString => None
  | String a t =>
      if bool_decide (a = "/"%char) then Some ("", t)
      else match cut_slash t with Some (x, y) => Some (String a x, y) | None => None end
  end.

Definition cut_key (key : string) : result error (string * string) :=
  match cut_slash key with
  | None => Ok ("", key)
  | Some (namespace, n) =>
      match cut_slash n with None => Ok (namespace, n) | Some _ => Err (PlainError "unexpected key format") end
  end.

Lemma cut_slash_free s t :
  slash_free s = true → cut_slash s = None ∧ cut_slash (s +:+ "/" +:+ t) = Some (s, t).
Proof.
  induction s as [|a s IH]; [done|]. intros [Ha Hs]%andb_true_iff. destruct (IH Hs) as [H1 H2].
  apply negb_true_iff in Ha. change (String a s +:+ "/" +:+ t) with (String a (s +:+ "/" +:+ t)).
  cbn [cut_slash]. by rewrite Ha, H1, H2.
Qed.

Lemma cut_slash_some s t : is_Some (cut_slash (s +:+ "/" +:+ t)).
Proof.
  induction s as [|a s [[x y] IH]]; [by eexists|].
  change (String a s +:+ "/" +:+ t) with (String a (s +:+ "/" +:+ t)). cbn [cut_slash].
  case_bool_decide; [by eexists|]. rewrite IH. by eexists.
Qed.

Lemma cut_slash_more s : slash_free s = false → ∃ x y, ∀ t, cut_slash (s +:+ t) = Some (x, y +:+ t).
Proof.
  induction s as [|a s IH]; [done|]. intros [Ha|Hs]%andb_false_iff.
  - apply negb_false_iff in Ha. exists "", s. intros t. change (String a s +:+ t) with (String a (s +:+ t)).
    cbn [cut_slash]. by rewrite Ha.
  - destruct (IH Hs) as (x & y & Hxy). destruct (bool_decide (a = "/"%char)) eqn:Ha.
    + exists "", s. intros t. change (String a s +:+ t) with (String a (s +:+ t)). cbn [cut_slash]. by rewrite Ha.
    + exists (String a x), y. intros t. change (String a s +:+ t) with (String a (s +:+ t)). cbn [cut_slash].
      by rewrite Ha, Hxy.
Qed.

#[local] Instance binding_knative : KnativeReconciler controller_event ServiceBinding ServiceBindingStatus := {|
  SplitMetaNamespaceKey := cut_key;
  PreProcessReconcile := SB.SetDefaults;
  PostProcessReconcile b _ := b;
  Semantic_DeepEqual s s' := bool_decide (s = s');
  reflect_DeepEqual s s' := bool_decide (s = s');
  RetryUpdateConflicts := retry 4 0;
|}.

#[local] Instance binding_knative_laws : KnativeReconcilerLaws controller_event ServiceBinding ServiceBindingStatus.
Proof.
  refine (@Build_KnativeReconcilerLaws _ _ _ binding_knative 4 (λ f s log, eq_refl) (λ s, _)).
  by apply bool_decide_eq_true_2.
Qed.

#[local] Instance binding_processing : BindingProcessing.
Proof.
  split; [done|done|intros s s'; apply bool_decide_eq_true_1|intros s s'; apply bool_decide_eq_true_1| |]; intros namespace n; cbn; unfold cut_key.
  - intros Hns Hn. rewrite (proj2 (cut_slash_free _ n Hns)). by rewrite (proj1 (cut_slash_free n "" Hn)).
  - intros Hsl. destruct (slash_free namespace) eqn:Hns.
    + rewrite (proj2 (cut_slash_free _ n Hns)). destruct (cut_slash_more n Hsl) as (x & y & Hxy).
      pose proof (Hxy "") as Hx. rewrite str_app_nil_r in Hx. rewrite Hx. by eexists.
    + destruct (cut_slash_more _ Hns) as (x & y & Hxy). rewrite Hxy.
      destruct (cut_slash_some y n) as [z ->]. by eexists.
Qed.

Definition db_services (secret : string) : ResolverEnv controller_event :=
  env_resolver (sample_env (Ok (database secret)) (Err not_found)).

(** A binding is stored; the controller has not heard of it. *)
Definition system0 : system (PServer := log_server) (BServer := gmap object_name ServiceBinding) := {|
  projections := empty_server;
  bindings := {[ key_of db_binding := db_binding ]};
  projectionCache := ∅; bindingCache := ∅;
  projectionWatch := [];
  bindingWatch := [(key_of db_binding, Some db_binding)];
  services := db_services "my-secret"; tracked := []; queue := ∅ |}.

(** The controller works until nothing is left to do. *)
Definition settle_step (σ : system (PServer := log_server) (BServer := gmap object_name ServiceBinding)) :=
  match projectionWatch σ, bindingWatch σ, elements (queue σ) with
  | c :: cs, _, _ => deliver_projection σ c cs
  | [], c :: cs, _ => deliver_binding σ c cs
  | [], [], k :: _ => process σ 50%Z k
  | [], [], [] => σ
  end.

#[local] Instance any_uid : UidNames := λ _, "b".

Lemma settle_step_works σ : rtc works σ (settle_step σ).
Proof.
  unfold settle_step. destruct (projectionWatch σ) eqn:Hp; [|by apply rtc_once, works_deliver_projection].
  destruct (bindingWatch σ) eqn:Hb; [|by apply rtc_once, works_deliver_binding].
  destruct (elements (queue σ)) as [|k ks] eqn:Hq; [done|].
  apply rtc_once, works_process; [done|done|]. apply elem_of_elements. rewrite Hq. by left.
Qed.

Lemma settle_works n σ : rtc works σ (Nat.iter n settle_step σ).
Proof. induction n as [|n IH]; [reflexivity|]. etransitivity; [exact IH|]. apply settle_step_works. Qed.

Lemma settle_run n σ : rtc system_step σ (Nat.iter n settle_step σ).
Proof. apply works_steps, settle_works. Qed.

Lemma system0_started : started system0.
Proof.
  split; [reflexivity|reflexivity|..].
  - intros k. reflexivity.
  - intros k. cbn [bindings bindingWatch system0 foldl]. unfold apply_change. cbn [fst snd].
    by rewrite <- insert_empty.
  - intros k p Hin. by apply elem_of_nil in Hin.
  - exact I.
  - intros k b Hin. apply list_elem_of_singleton in Hin. injection Hin as -> ->.
    split; [reflexivity|]. split; [reflexivity|]. split; [exact db_complete|]. split; reflexivity.
Qed.

(** What is stored after [n] steps. *)
Definition db_after (n : nat) : ServiceBinding :=
  default db_binding (bindings (Nat.iter n settle_step system0) !! key_of db_binding).

(** While the controller reconciles the binding for the first time, between its look at the
    service and its write of the projection, the service publishes another secret. *)
Definition heard0 : system (PServer := log_server) (BServer := gmap object_name ServiceBinding) :=
  Nat.iter 1 settle_step system0.
Definition first_log : list controller_event := (run_key heard0 50%Z (key_of db_binding)).2.
Definition rotated : system (PServer := log_server) (BServer := gmap object_name ServiceBinding) :=
  change_services (track_calls (take_key heard0 (key_of db_binding)) first_log) (db_services "new-secret")
    {[ key_of db_binding ]}.
Definition interrupted : system (PServer := log_server) (BServer := gmap object_name ServiceBinding) :=
  write_status (write_projection rotated first_log) first_log.

Lemma interrupted_run : rtc system_step system0 (requeue interrupted (key_of db_binding) (Done None)).
Proof.
  etransitivity; [exact (settle_run 1 system0)|]. apply rtc_once. apply (step_reconcile _ (key_of db_binding));
    [apply (bool_decide_unpack _); vm_compute; exact I|].
  apply (reconciled _ _ 50%Z (take_key heard0 (key_of db_binding))
    (track_calls (take_key heard0 (key_of db_binding)) first_log) rotated rotated
    (write_projection rotated first_log) interrupted _ first_log); [vm_compute; reflexivity|done|done| |done|done|done].
  apply rtc_once, meanwhile_around, around_change_services. intros k b Hg _. left.
  change ((({[ key_of db_binding := db_binding ]} : gmap object_name ServiceBinding) !! k) = Some b) in Hg.
  apply lookup_singleton_Some in Hg as [<- _]. by apply elem_of_singleton.
Qed.

Lemma no_lost_wakeups_witness :
  let σ := requeue interrupted (key_of db_binding) (Done None) in
  let b := default db_binding (bindings σ !! key_of db_binding) in
  awake σ (key_of db_binding) ∨ rested σ (key_of db_binding) b.
Proof.
  apply (no_lost_wakeups system0);
    [exact system0_started|exact interrupted_run|vm_compute; reflexivity|vm_compute; reflexivity].
Defined.

(** It has processed the binding twice, and rests. *)
Lemma quiescent_in_sync_witness :
  ∃ secret p, in_sync_with (Nat.iter 5 settle_step system0) (key_of db_binding) (db_after 5) secret p ∧
    ∃ ps', Do p ProjectionFacts.Sample.workload = Done ps' ∧
      delivered (SB.SetDefaults (db_after 5)) (LocalObjectReference_Name secret) ProjectionFacts.Sample.workload ps'.
Proof.
  destruct (quiescent_in_sync system0 (Nat.iter 5 settle_step system0) system0_started (settle_run 5 system0))
    with (k := key_of db_binding) (b := db_after 5) as (secret & p & Hsync & Hdo);
    [vm_compute; split_and!; reflexivity|vm_compute; reflexivity..|].
  exists secret, p. split; [exact Hsync|exact (Hdo ProjectionFacts.Sample.workload)].
Defined.
