(* ===== verification/Settling.v ===== *)
(** * The controller settles

    Left alone, with a server that takes its writes and services that publish their
    secrets, the controller stops: every run of it is finite in which it hears what changed
    before it goes on, and ends with every binding in sync.  A run of [ReconcileKind] never undoes what the one before it did, down
    to the reasons, messages and transition times in the status. *)
From S2P Require Import Prelude Api Conditions Effects Projection ProjectionLemmas ProjectionFacts.
From S2P Require Import Binding BindingFacts Resolver Resources BindingReconciler BindingReconcilerFacts.
From S2P Require Import Cluster ClusterFacts EndToEnd KindReconciler Kinds KindReconcilerFacts ClientsFacts.
From S2P Require Import Controllers ControllersFacts System SystemRuns SystemFacts WakeUps.

(** ** The status is a fixed point *)
Section status.
Context `{Kmeta, !SchemaGuess, !SemanticEquality, !ConditionManager}.
Implicit Types (st : ServiceBindingStatus) (b : ServiceBinding) (p : ServiceBindingProjection).

(** What a successful reconciliation leaves in the status. *)
Record final_status st (secret : LocalObjectReference) (generation : Z) p : Prop := {
  final_generation : SBStatus_ObservedGeneration st = generation;
  final_binding : SBStatus_Binding st = Some (mkLocalObjectReference (LocalObjectReference_Name secret));
  final_conditions : ∃ r c pr, conds3 st r c pr ∧
    (MC_Type r = "Ready" ∧ MC_Type c = "ServiceAvailable" ∧ MC_Type pr = "ProjectionReady") ∧
    says c (ConditionTrue, "Available", "") ∧ says pr (projected p) ∧
    match summary c pr with Some v => says r v | None => True end;
}.

Lemma mark_said t v c : says c v → mark t v c = c.
Proof. intros (Hs & Hr & Hm). unfold mark. rewrite <- Hs, decide_True by done. rewrite <- Hr, <- Hm. by destruct c. Qed.

Lemma markReady_said t c pr r :
  match summary c pr with Some v => says r v | None => True end → markReady t c pr r = r.
Proof. unfold markReady. destruct (summary c pr); [apply mark_said|done]. Qed.

Lemma markReady_says t c pr r :
  match summary c pr with Some v => says (markReady t c pr r) v | None => True end.
Proof. unfold markReady. destruct (summary c pr); [apply mark_says|done]. Qed.

Lemma markReady_Type t c pr r : MC_Type (markReady t c pr r) = MC_Type r.
Proof. unfold markReady. by destruct (summary c pr). Qed.

Lemma Initialize_typed t st :
  ∃ r c pr, conds3 (SB.InitializeConditions t st) r c pr ∧
    MC_Type r = "Ready" ∧ MC_Type c = "ServiceAvailable" ∧ MC_Type pr = "ProjectionReady".
Proof.
  unfold conds3, SB.InitializeConditions. rewrite foldl_lastOfType. do 3 eexists. split; [reflexivity|].
  split_and!; by apply lastOfType_Type.
Qed.

Lemma Initialize_typed_id t st r c pr :
  conds3 st r c pr → MC_Type r = "Ready" ∧ MC_Type c = "ServiceAvailable" ∧ MC_Type pr = "ProjectionReady" →
  SB.InitializeConditions t st = st.
Proof.
  intros Hc Ht. unfold SB.InitializeConditions. rewrite foldl_lastOfType, Hc.
  edestruct (lastOfType_three) as (-> & -> & ->); [exact Ht|]. by apply set_Conditions_id.
Qed.

(** What the two marks of a successful run leave. *)
Lemma marked_final b t secret b' p st :
  available b t secret b' → SB.PropagateServiceBindingProjectionStatus (Some p) t (SB_Status b') = Done st →
  final_status (SB.set_ObservedGeneration st (Meta_Generation (SB_Meta b))) secret (Meta_Generation (SB_Meta b)) p.
Proof.
  intros (st1 & Hst1 & ->) Hprop. destruct (Initialize_typed t (SB_Status b)) as (r & c & pr & Hconds & Hr & Hc & Hpr).
  rewrite (MarkServiceAvailable_eq t _ r c pr) in Hst1 by exact Hconds. injection Hst1 as <-.
  erewrite Propagate_eq in Hprop by reflexivity. injection Hprop as <-.
  split; [done|done|]. do 3 eexists. split; [reflexivity|]. rewrite !markReady_Type.
  split_and!; [done|done|done|apply mark_says..|apply markReady_says].
Qed.

(** They do not change what they left. *)
Lemma final_marked b t secret b' p st :
  final_status (SB_Status b) secret (Meta_Generation (SB_Meta b)) p →
  available b t secret b' → SB.PropagateServiceBindingProjectionStatus (Some p) t (SB_Status b') = Done st →
  SB.set_ObservedGeneration st (Meta_Generation (SB_Meta b)) = SB_Status b.
Proof.
  intros [Hg Hb (r & c & pr & Hconds & Htypes & Hc & Hpr & Hr)] (st1 & Hst1 & ->) Hprop.
  rewrite (Initialize_typed_id t _ r c pr Hconds Htypes) in Hst1.
  rewrite (MarkServiceAvailable_eq t _ r c pr) in Hst1 by exact Hconds. cbn zeta in Hst1.
  rewrite (mark_said t _ c Hc), (markReady_said t _ _ _ Hr) in Hst1. injection Hst1 as <-.
  erewrite Propagate_eq in Hprop by reflexivity. cbn zeta in Hprop.
  rewrite (mark_said t _ pr Hpr), (markReady_said t _ _ _ Hr) in Hprop. injection Hprop as <-.
  unfold conds3 in Hconds. destruct (SB_Status b) as [g cs binding]. cbn in *. by subst.
Qed.

End status.

(** ** What is left to do, for keys [Q] of which [D] are finished *)
Section measure.
Context `{Countable A}.
Implicit Types (Q D : gset A) (k : A).

Definition remaining (Q D : gset A) : nat := 2 * size (Q ∖ D) + size (Q ∩ D).

Lemma remaining_done Q D k : k ∈ Q → k ∈ D → remaining (Q ∖ {[ k ]}) D < remaining Q D.
Proof.
  intros HQ HD. unfold remaining.
  assert (Q ∖ {[ k ]} ∖ D = Q ∖ D) as -> by set_solver.
  assert (size (Q ∖ {[ k ]} ∩ D) < size (Q ∩ D)); [|lia]. apply subset_size. set_solver.
Qed.

Lemma remaining_advance Q D k : k ∈ Q → k ∉ D → remaining Q (D ∪ {[ k ]}) < remaining Q D.
Proof.
  intros HQ HD. unfold remaining.
  assert (Q ∖ D = (Q ∖ (D ∪ {[ k ]})) ∪ {[ k ]}) as Heq.
  { apply set_eq. intros x. destruct (decide (x = k)); set_solver. }
  assert (size (Q ∖ D) = size (Q ∖ (D ∪ {[ k ]})) + 1) as ->.
  { rewrite Heq at 1. rewrite (size_union (Q ∖ (D ∪ {[ k ]})) {[ k ]}) by set_solver. by rewrite size_singleton. }
  assert (Q ∩ (D ∪ {[ k ]}) = (Q ∩ D) ∪ {[ k ]}) as -> by set_solver.
  rewrite (size_union (Q ∩ D) {[ k ]}) by set_solver. rewrite size_singleton. lia.
Qed.
End measure.

Section settling.
Context `{KmetaLaws, !KnativeController, !KnativeControllerLaws, !SchemaGuess}.
Context `{!SemanticEquality, !SemanticEqualityLaws, !ConditionManager}.
Context `{!KnativeReconciler controller_event ServiceBinding ServiceBindingStatus}.
Context `{!KnativeReconcilerLaws controller_event ServiceBinding ServiceBindingStatus}.
Context {PServer BServer : Type} `{!ApiServer PServer, !ApiServerLaws}.
Context `{!BindingServer BServer, !BindingServerLaws, !BindingProcessing}.
Context `{!UidNames}.
Implicit Types (b : ServiceBinding) (p q : ServiceBindingProjection) (k : object_name).
Implicit Types (σ : system (PServer := PServer) (BServer := BServer)).


(** ** The assumptions *)

(** The server takes the update of a status that has the stored version. *)
Definition status_accepting (s : BServer) : Prop := ∀ namespace b current,
  b_get s (namespace, name b) = Some current →
  Meta_ResourceVersion (SB_Meta current) = Meta_ResourceVersion (SB_Meta b) →
  ∃ q : ServiceBinding, (b_update_status s namespace b).2 = Ok q.

Definition live σ k b : Prop := b_get (bindings σ) k = Some b ∧ Meta_DeletionTimestamp (SB_Meta b) = None.

(** The services of all bindings are found, and publish their secrets. *)
Definition served σ : Prop := ∀ k b, live σ k b →
  ∃ secret, ∀ b', same_binding b b' → publishes (services σ) (service_of b') (SB_Meta b') secret.

(** No projection of another owner is in the way. *)
Definition unblocked σ : Prop := ∀ k b p, live σ k b →
  api_get (projections σ) k = Some p → IsControlledBy (SBP_Meta p) (SB_Meta b) = true.

Lemma works_until_rest σ : (∀ σ', ¬ works σ σ') → at_rest σ.
Proof.
  intros Hno. assert (projectionWatch σ = []) as Hp.
  { destruct (projectionWatch σ) eqn:Hp; [done|]. by edestruct Hno; eapply works_deliver_projection. }
  assert (bindingWatch σ = []) as Hb.
  { destruct (bindingWatch σ) eqn:Hb; [done|]. by edestruct Hno; eapply works_deliver_binding. }
  split; [|done]. apply elem_of_equiv_empty_L. intros k Hk. by apply (Hno (process σ 0%Z k)), works_process.
Qed.

(** ** A key that is done *)

(** There is nothing to do for [b]. *)
Definition final σ k b : Prop := ∃ secret p,
  publishes (services σ) (service_of b) (SB_Meta b) secret ∧
  api_get (projections σ) k = Some p ∧
  Cluster.settled (SB.SetDefaults b) secret p ∧
  final_status (SB_Status b) secret (Meta_Generation (SB_Meta b)) p.

Definition finished σ k : Prop := ∀ b, live σ k b → final σ k b.

Lemma heard_current σ k : books σ → projectionWatch σ = [] → bindingWatch σ = [] → current σ k.
Proof.
  intros Hbooks Hp Hb. split; [by rewrite (books_bindings _ Hbooks), Hb|by rewrite (books_projections _ Hbooks), Hp].
Qed.

Lemma fresh_projection σ k :
  current σ k → from_cache (projectionCache σ) k = fresh_cache (projections σ) k.
Proof. intros [_ Hp]. unfold from_cache, fresh_cache. by rewrite Hp. Qed.

Lemma no_writes_quiet (new : list binding_event) s :
  writes new = [] → omap projection_change new = [] ∧ foldl apply_event s new = s.
Proof.
  induction new as [|e new IH]; [done|]. unfold writes. cbn [List.filter]. destruct (is_write e) eqn:He; [done|].
  intros Hw. destruct (IH Hw) as [IH1 IH2]. destruct e; cbn in *; done.
Qed.

(** The reconciliation of a live binding whose service publishes a secret ends before the
    projection only when that fails. *)
Lemma published_reconciles (env : BindingEnv controller_event) b service new b' ev secret :
  reconciles b service new b' ev → Forall (answers env) new → Meta_DeletionTimestamp (SB_Meta b) = None →
  publishes (env_resolver env) (serviceRef b service) (SB_Meta b) secret →
  ∃ t calls calls' b1 desired r, new = EvNow t :: map EvResolver calls ++ calls' ∧
    available b t secret b1 ∧ SB_Meta b1 = SB_Meta b ∧ asks b secret desired ∧
    projects b desired calls' r ∧ Forall (answers env) calls' ∧
    ∀ p, r = Ok p → event_result ev = None ∧ ∃ st,
      SB.PropagateServiceBindingProjectionStatus (Some p) t (SB_Status b1) = Done st ∧
      SB_Status b' = SB.set_ObservedGeneration st (Meta_Generation (SB_Meta b)).
Proof.
  intros Hrec Hans Hd Hpub.
  destruct Hrec as [d Hd'|t calls err _ Hr|t calls secret' b1 desired calls' err _ Hr Hav Hm Hp
    |t calls secret' b1 desired calls' p status _ Hr Hav Hm Hp Hprop]; [congruence|..];
    apply Forall_cons in Hans as [_ Hans].
  - apply answers_calls in Hans. by pose proof (resolves_published _ _ _ _ _ _ Hpub Hr Hans).
  - apply Forall_app in Hans as [Hc%answers_calls Hc'].
    pose proof (resolves_published _ _ _ _ _ _ Hpub Hr Hc) as [= ->].
    destruct (available_asks _ _ _ _ _ Hav Hm) as [Hmeta Hask]. apply (projects_ext _ b) in Hp; [|done].
    exists t, calls, calls', b1, desired, (Err err). by split_and!.
  - apply Forall_app in Hans as [Hc%answers_calls Hc'].
    pose proof (resolves_published _ _ _ _ _ _ Hpub Hr Hc) as [= ->].
    destruct (available_asks _ _ _ _ _ Hav Hm) as [Hmeta Hask]. apply (projects_ext _ b) in Hp; [|done].
    exists t, calls, calls', b1, desired, (Ok p). split_and!; try done.
    intros p' [= <-]. split; [done|]. exists status. split; [done|]. cbn. by rewrite Hmeta.
Qed.

(** *** Processing a finished key *)

(** Only the queue changed: [k] is gone. *)
Record idle σ σ' k : Prop := {
  idle_bindings : bindings σ' = bindings σ;
  idle_projections : projections σ' = projections σ;
  idle_bindingCache : bindingCache σ' = bindingCache σ;
  idle_projectionCache : projectionCache σ' = projectionCache σ;
  idle_bindingWatch : bindingWatch σ' = bindingWatch σ;
  idle_projectionWatch : projectionWatch σ' = projectionWatch σ;
  idle_services : services σ' = services σ;
  idle_queue : queue σ' = queue σ ∖ {[ k ]};
}.

Lemma process_idle σ clock k log :
  run_key σ clock k = (Done None, log) → omap projection_change (binding_calls log) = [] →
  foldl apply_event (projections σ) (binding_calls log) = projections σ →
  omap binding_change (kind_calls log) = [] → foldl apply_status (bindings σ) (kind_calls log) = bindings σ →
  idle σ (process σ clock k) k.
Proof.
  intros Hrun Hp Hps Hb Hbs. rewrite (process_fields σ clock k _ log Hrun), Hp, Hps, Hb, Hbs.
  split; cbn; rewrite ?app_nil_r; try done. set_solver.
Qed.

Lemma quiet_idle σ clock k log :
  run_key σ clock k = (Done None, log) → binding_calls log = [] → Forall not_stored (kind_calls log) →
  idle σ (process σ clock k) k.
Proof.
  intros Hrun Hb Hk. destruct (not_stored_quiet (bindings σ) _ Hk) as [Hch Happ].
  apply (process_idle σ clock k log); rewrite ?Hb; done.
Qed.

Lemma service_of_defaults b service :
  SBSpec_Service (SB_Spec b) = Some service → serviceRef (SB.SetDefaults b) service = service_of b.
Proof. intros Hs. unfold service_of. rewrite Hs. cbn. unfold serviceRef, ns. by rewrite SetDefaults_meta. Qed.

(** Nothing is done for a key without a live binding. *)
Lemma process_dead σ clock k :
  books σ → current σ k → (∀ b, ¬ live σ k b) → idle σ (process σ clock k) k.
Proof.
  intros Hbooks [Hcached _] Hdead.
  destruct (bindingCache σ !! k) as [b|] eqn:Hb.
  2: { destruct (run_key_uncached σ clock k Hb) as (log & Hrun & Hc & Hk). by eapply quiet_idle. }
  assert (Meta_DeletionTimestamp (SB_Meta b) ≠ None) as Hdel by (intros Hd; by apply (Hdead b)).
  pose proof (books_admitted _ Hbooks k b (or_introl Hb)) as Hadm.
  destruct (run_key_cached σ clock k b Hb Hadm) as (res & log & Hrun & Hran).
  destruct Hran as [_ Hc Hk ->|service b' ev updates err Hs Hrec Hans Hkans Hupd Hch Happ ->]; [by eapply quiet_idle|].
  inversion Hrec as [d Hd Hnew Hb' Hev|? ? ? Hd|? ? ? ? ? ? ? Hd|? ? ? ? ? ? ? ? Hd];
    [|rewrite SetDefaults_meta in Hd; by destruct Hdel..].
  destruct Hupd as [(-> & -> & _)|[Hne _]]; [|by rewrite <- Hb', SetDefaults_status in Hne].
  cbn in Hch, Happ. subst ev. apply (process_idle σ clock k log); rewrite <- ?Hnew; done.
Qed.

Lemma process_final σ clock k b :
  books σ → current σ k → live σ k b → final σ k b →
  idle σ (process σ clock k) k.
Proof.
  intros Hbooks Hcur [Hg Hlive] (secret & p & Hpub & Hget & [Hc (d & Hask & Hsame)] & Hfinal).
  pose proof (proj1 Hcur) as Hb. rewrite Hg in Hb.
  pose proof (books_admitted _ Hbooks k b (or_introl Hb)) as Hadm.
  destruct (run_key_cached σ clock k b Hb Hadm) as (res & log & Hrun & Hran).
  destruct Hran as [Hdel|service b' ev updates err Hs Hrec Hans Hkans Hupd Hch Happ ->]; [done|].
  destruct (published_reconciles (binding_env σ clock) (SB.SetDefaults b) service _ b' ev secret Hrec Hans)
    as (t & calls & calls' & b1 & desired & r & Hnew & Hav & Hmeta & Hask' & Hp & Hans' & Hok);
    [by rewrite SetDefaults_meta|by rewrite (service_of_defaults b), SetDefaults_meta|].
  assert (desired = d) as -> by (by eapply asks_unique).
  destruct (projects_found (binding_env σ clock) (SB.SetDefaults b) d calls' r p Hp Hans') as [-> Hwr];
    [|done|done|].
  { intros l. cbn. change (from_cache (projectionCache σ) (key_of (SB.SetDefaults b)) = Ok p).
    rewrite SetDefaults_key. destruct Hadm as [-> _]. rewrite (fresh_projection σ k Hcur). unfold fresh_cache.
    by rewrite Hget. }
  destruct (Hok p eq_refl) as (Hev & st & Hprop & Hst).
  rewrite SetDefaults_meta in Hst.
  assert (SB_Status b' = SB_Status b) as Hstatus.
  { rewrite Hst, <- (SetDefaults_status b). rewrite <- (SetDefaults_meta b) in *.
    eapply final_marked; [|exact Hav|exact Hprop]. rewrite SetDefaults_status. exact Hfinal. }
  destruct Hupd as [(-> & -> & _)|[Hne _]]; [|by destruct Hne].
  destruct (no_writes_quiet (binding_calls log) (projections σ)) as [Hpc Hpa];
    [by rewrite Hnew, writes_calls|].
  cbn in Hch, Happ. rewrite Hev in Hrun. by apply (process_idle σ clock k log).
Qed.

Lemma process_finished σ clock k :
  books σ → current σ k → finished σ k → idle σ (process σ clock k) k.
Proof.
  intros Hbooks Hcur Hfin. destruct (b_get (bindings σ) k) as [b|] eqn:Hg.
  2: { apply process_dead; [done|done|]. intros b [Hg' _]. congruence. }
  destruct (Meta_DeletionTimestamp (SB_Meta b)) as [d|] eqn:Hd.
  { apply process_dead; [done|done|]. intros b' [Hg' Hd']. congruence. }
  eapply process_final; [done..|by split|]. by apply Hfin.
Qed.

(** *** Processing a key that is not finished *)

(** What the informers of [σ] will enqueue for the news [bs] and [ps]. *)
Definition told σ bs ps k : Prop :=
  will_enqueue servicebinding_bindingHandler (foldl apply_change (bindingCache σ) (bindingWatch σ)) bs k ∨
  will_enqueue servicebinding_projectionHandler (foldl apply_change (projectionCache σ) (projectionWatch σ)) ps k.

(** The news [σ'] has for the informers of [σ] are about [k]. *)
Record news σ σ' k bs ps : Prop := {
  news_bindingCache : bindingCache σ' = bindingCache σ;
  news_projectionCache : projectionCache σ' = projectionCache σ;
  news_bindingWatch : bindingWatch σ' = bindingWatch σ ++ bs;
  news_projectionWatch : projectionWatch σ' = projectionWatch σ ++ ps;
  news_told k' : told σ bs ps k' → k' = k;
}.

(** Only the objects of [k] changed, and [k] is finished; what the informers newly have to
    tell is about [k]. *)
Record advanced σ σ' k : Prop := {
  advanced_binding : ∀ b', live σ' k b' → ∃ b, live σ k b ∧ same_binding b b';
  advanced_bindings : ∀ k', k' ≠ k → b_get (bindings σ') k' = b_get (bindings σ) k';
  advanced_projections : ∀ k', k' ≠ k → api_get (projections σ') k' = api_get (projections σ) k';
  advanced_finished : finished σ' k;
  advanced_services : services σ' = services σ;
  advanced_queue : ∀ k', k' ∈ queue σ' → k' = k ∨ k' ∈ queue σ;
  advanced_news : ∃ bs ps, news σ σ' k bs ps;
}.

Lemma advanced_coming σ σ' k k' : advanced σ σ' k → coming σ' k' → k' = k ∨ coming σ k'.
Proof.
  intros Hadv. destruct (advanced_news _ _ _ Hadv) as (bs & ps & [Hbc Hpc Hbw Hpw Htold]).
  unfold coming. rewrite Hbc, Hpc, Hbw, Hpw, !will_enqueue_app. unfold told in Htold. naive_solver.
Qed.

Lemma idle_advanced σ σ' k : finished σ k → idle σ σ' k → advanced σ σ' k.
Proof.
  intros Hfin [Hb Hp Hbc Hpc Hbw' Hpw' Hsv Hq]. split.
  - intros b'. unfold live. rewrite Hb. by exists b'.
  - intros k' _. by rewrite Hb.
  - intros k' _. by rewrite Hp.
  - intros b. unfold live, final. rewrite Hb, Hp, Hsv. apply Hfin.
  - done.
  - intros k'. rewrite Hq. set_solver.
  - exists [], []. split; [done|done|by rewrite app_nil_r..|]. by intros k' [].
Qed.

(** Only the answer for the projection of the binding matters. *)
Lemma answers_cached {E} s (c c' : cache) clock (resolver : ResolverEnv E) b desired es r :
  projects b desired es r → c (key_of b) = c' (key_of b) → Forall (answers (cluster_env s c clock resolver)) es →
  Forall (answers (cluster_env s c' clock resolver)) es.
Proof.
  intros Hp Heq. rewrite !Forall_forall. intros Hes e He. specialize (Hes e He).
  assert (match e with EvGetProjection n m _ => (n, m) = key_of b | _ => True end) as Hkey
    by (destruct Hp; repeat (apply elem_of_cons in He as [->|He]; [done|]); by apply elem_of_nil in He).
  destruct e as [| |n m a| | |]; try done. destruct Hes as [l Hl]. exists l. cbn in *. by rewrite Hkey, <- Heq, <- Hkey.
Qed.

(** The events that the written objects cause. *)
Lemma binding_event_key cache k b k' :
  (∀ b, cache !! k = Some b → key_of b = k) → key_of b = k →
  k' ∈ enqueued servicebinding_bindingHandler cache (k, Some b) → k' = k.
Proof.
  intros Hcache Hk. unfold enqueued, notification, servicebinding_bindingHandler. cbn.
  destruct (cache !! k) as [old|]; rewrite HandleAll_event, Enqueue_key; intros ->%list_elem_of_singleton; done.
Qed.

Lemma projection_event_key cache b q k' :
  identified b → owned b q → (∀ p, cache !! key_of b = Some p → owned b p) →
  k' ∈ enqueued servicebinding_projectionHandler cache (key_of b, Some q) → k' = key_of b.
Proof.
  intros Hid Hq Hcache. destruct (owned_enqueues b q Hid Hq) as [Hf He].
  unfold enqueued, notification, servicebinding_projectionHandler. cbn.
  destruct (cache !! key_of b) as [old|]; rewrite Filtering_event; cbn.
  - destruct (owned_enqueues b old Hid (Hcache old eq_refl)) as [Hf' _].
    rewrite Hf, Hf', HandleAll_event, He. by intros ?%list_elem_of_singleton.
  - rewrite Hf, HandleAll_event, He. by intros ?%list_elem_of_singleton.
Qed.

Lemma same_refl b : same_binding b b.
Proof. by split. Qed.
Lemma same_trans b1 b2 b3 : same_binding b1 b2 → same_binding b2 b3 → same_binding b1 b3.
Proof. intros [] []. split; congruence. Qed.

Lemma SetDefaults_same b b' : same_binding b b' → same_binding (SB.SetDefaults b) (SB.SetDefaults b').
Proof.
  intros [Hk Hu Hl Ha Hs]. split; rewrite ?SetDefaults_key, ?SetDefaults_meta; try done.
  unfold SB.SetDefaults. unfold key_of in Hk. rewrite Hs. injection Hk as _ Hn. unfold name in Hn.
  case_bool_decide; cbn; by rewrite ?Hn, ?Hs.
Qed.

Lemma same_service b b' : same_binding b b' → service_of b' = service_of b.
Proof. intros [Hk _ _ _ Hs]. unfold service_of, serviceRef. rewrite Hs. unfold key_of in Hk. injection Hk as -> _. done. Qed.

(** The status that a run leaves on the server. *)
Lemma status_stored_after σ b b' updates err k :
  status_accepting (bindings σ) → b_get (bindings σ) k = Some b → key_of b = k → SB_Meta b' = SB_Meta b →
  Forall (kind_answers (kind_env σ)) updates →
  updates = [] ∧ err = None ∧ SB_Status b = SB_Status b' ∨
    SB_Status b ≠ SB_Status b' ∧ update_shape b b' updates err ∧
    (∀ q : ServiceBinding, (b_update_status (bindings σ) (ns b) (kind_set_status b (SB_Status b'))).2 = Ok q →
      err = None ∧ (updates = [] ∨ updates = [update_from b' b (Ok q)])) →
  ∃ b2, updated b b' b2 ∧
    (∀ k', b_get (foldl apply_status (bindings σ) updates) k' = if decide (k' = k) then Some b2 else b_get (bindings σ) k') ∧
    (omap binding_change updates = [] ∨ omap binding_change updates = [(k, Some b2)]).
Proof.
  intros Hacc Hg Hk Hmeta Hans Hupd.
  assert (err = None) as Herr.
  { destruct Hupd as [(_ & He & _)|(_ & _ & Hq)]; [done|].
    destruct (Hacc (ns b) (kind_set_status b (SB_Status b')) b) as [q Hq']; [|done|by apply (Hq q)].
    change (b_get (bindings σ) (key_of b) = Some b). by rewrite Hk. }
  assert (status_outcome (bindings σ) k b b' updates err) as Hout.
  { eapply update_outcome; [done| |done|done|tauto]. intros c. rewrite Hg. by intros [= <-]. }
  destruct Hout as [Hn Heq Hst|current q Hq Hg' Hsame Hframe].
  - exists b. split; [split; [apply same_refl|by apply Hst|done|done]|]. rewrite Heq. split; [|by left].
    intros k'. case_decide; [by subst|done].
  - assert (current = b) as -> by congruence. exists q. split; [done|]. split; [done|by right].
Qed.

(** What a run for [b] leaves: [b2], which is [b] with the final status, and its settled
    projection. *)
Lemma live_advanced σ σ' k b b' b2 bs new secret p :
  books σ → live σ k b →
  (∀ b', same_binding b b' → publishes (services σ) (service_of b') (SB_Meta b') secret) →
  updated b b' b2 →
  (∀ k', b_get (bindings σ') k' = if decide (k' = k) then Some b2 else b_get (bindings σ) k') →
  bs = [] ∨ bs = [(k, Some b2)] → bindingWatch σ' = bindingWatch σ ++ bs →
  projects_change (projections σ) (SB.SetDefaults b) new (projections σ') →
  projectionWatch σ' = projectionWatch σ ++ omap projection_change new →
  api_get (projections σ') k = Some p → Cluster.settled (SB.SetDefaults b) secret p →
  final_status (SB_Status b') secret (Meta_Generation (SB_Meta b)) p →
  services σ' = services σ ∧ bindingCache σ' = bindingCache σ ∧ projectionCache σ' = projectionCache σ →
  (∀ k', k' ∈ queue σ' → k' = k ∨ k' ∈ queue σ) →
  advanced σ σ' k.
Proof.
  intros Hbooks [Hg Hlive] Hpub [Hsame Hst Hdel Hgen] Hframe Hbs Hbw' Hprojects Hpw' Hget Hset Hfinal
    (Hsv & Hbcache & Hpcache) Hq.
  pose proof (stored_admitted σ k b Hbooks Hg) as (Hkey & Hid & _).
  assert (live σ' k b2) as Hlive2 by (split; [by rewrite Hframe, decide_True|congruence]).
  assert (∀ b3, live σ' k b3 → b3 = b2) as Honly.
  { intros b3 [Hg3 _]. rewrite Hframe, decide_True in Hg3 by done. congruence. }
  split; [| | | |done|done|].
  - intros b3 ->%Honly. by exists b.
  - intros k' Hne. by rewrite Hframe, decide_False.
  - intros k' Hne. destruct Hprojects as [_ Hsame'|q _ [Hs _ _ _]]; [by rewrite Hsame'|].
    rewrite Hs, decide_False; [done|]. by rewrite SetDefaults_key, Hkey.
  - intros b3 ->%Honly. exists secret, p. rewrite Hsv, Hst, Hgen. split_and!; [by apply Hpub|done| |done].
    eapply settled_same; [|done]. by apply SetDefaults_same.
  - exists bs, (omap projection_change new). split; [done..|]. intros k' [Hk|Hk].
    + destruct Hbs as [-> | ->]; [done|]. destruct Hk as [Hk|[]].
      eapply binding_event_key; [|by rewrite (same_key _ _ Hsame)|exact Hk].
      intros b0. rewrite <- (books_bindings _ Hbooks), Hg. by intros [= <-].
    + destruct Hprojects as [Hn _|q Hn [_ Ho _ Hcur]]; rewrite Hn in Hk; [done|]. destruct Hk as [Hk|[]].
      rewrite <- Hkey, <- (SetDefaults_key b). eapply projection_event_key; [|exact Ho| |exact Hk].
      * unfold System.identified, name. by rewrite SetDefaults_meta.
      * intros p0 Hp0. apply Hcur. by rewrite (books_projections _ Hbooks).
Qed.

Lemma requeued_queue (keys : gset object_name) k (res : outcome (option failure)) k' :
  k' ∈ keys ∖ {[ k ]} ∪ requeued k res → k' = k ∨ k' ∈ keys.
Proof. destruct res as [[f|]|]; cbn; set_solver. Qed.

Lemma process_live σ clock k b :
  books σ → current σ k → served σ → unblocked σ →
  accepting (projections σ) → status_accepting (bindings σ) → live σ k b →
  advanced σ (process σ clock k) k.
Proof.
  intros Hbooks Hcurrent Hserved Hun Hacc Hbacc [Hg Hlive].
  destruct (Hserved k b (conj Hg Hlive)) as [secret Hpub]. pose proof (proj1 Hcurrent) as Hb. rewrite Hg in Hb.
  pose proof (books_admitted _ Hbooks k b (or_introl Hb)) as Hadm. pose proof Hadm as (Hkey & Hid & _).
  assert (identified (SB.SetDefaults b)) as Hid' by (unfold System.identified, name; by rewrite SetDefaults_meta).
  destruct (run_key_cached σ clock k b Hb Hadm) as (res & log & Hrun & Hran).
  destruct Hran as [Hdel|service b' ev updates err Hs Hrec Hans Hkans Hupd Hch Happ _]; [done|].
  destruct (published_reconciles (binding_env σ clock) (SB.SetDefaults b) service _ b' ev secret Hrec Hans)
    as (t & calls & calls' & b1 & desired & r & Hnew & Hav & Hmeta & Hask & Hp & Hans' & Hok);
    [by rewrite SetDefaults_meta|rewrite (service_of_defaults b), SetDefaults_meta by done; apply Hpub, same_refl|].
  destruct (reconciles_changes (projections σ) _ clock (services σ) _ service (binding_calls log) b' ev Hid'
    (cached_observed σ Hbooks)) as (Hmeta' & Hprojects & _); [|exact Hrec|exact Hans|].
  { intros q. by apply cached_owner_named. }
  destruct (projects_settles (projections σ) clock (services σ) (SB.SetDefaults b) secret desired calls' r Hacc Hask Hp)
    as (p & -> & Hget & Hsettled).
  { eapply answers_cached; [exact Hp| |exact Hans']. rewrite SetDefaults_key, Hkey. by apply fresh_projection. }
  { intros p. rewrite SetDefaults_key, SetDefaults_meta, Hkey. by apply Hun. }
  rewrite SetDefaults_key, Hkey in Hget. rewrite SetDefaults_meta in Hmeta'.
  destruct (Hok p eq_refl) as (_ & st & Hprop & Hst).
  destruct (status_stored_after σ b b' updates err k Hbacc Hg Hkey Hmeta' Hkans Hupd) as (b2 & Hb2 & Hframe & Hbc).
  assert (foldl apply_event (projections σ) (binding_calls log) = foldl apply_event (projections σ) calls') as Hps
    by (rewrite Hnew; apply apply_after).
  pose proof (process_fields σ clock k _ log Hrun) as Heq. rewrite Hps, Hch, Happ in Heq. cbn in Heq.
  rewrite Hps in Hprojects.
  apply (live_advanced σ _ k b b' b2 (omap binding_change updates) (binding_calls log) secret p); rewrite ?Heq; cbn;
    [done|by split|done|done|done|done|done|done|done|done|done| |done|exact (requeued_queue (queue σ) k (Done res))].
  - pose proof (marked_final _ _ _ _ _ _ Hav Hprop) as Hf. rewrite <- Hst, (SetDefaults_meta b) in Hf. exact Hf.
Qed.

Lemma process_advances σ clock k :
  books σ → current σ k → served σ → unblocked σ →
  accepting (projections σ) → status_accepting (bindings σ) →
  advanced σ (process σ clock k) k.
Proof.
  intros Hbooks Hcur Hserved Hun Hacc Hbacc.
  assert ((∀ b, ¬ live σ k b) → advanced σ (process σ clock k) k) as Hdead.
  { intros Hno. apply idle_advanced; [intros b Hb; by destruct (Hno b)|by apply process_dead]. }
  destruct (b_get (bindings σ) k) as [b|] eqn:Hg; [|apply Hdead; intros b [Hg' _]; congruence].
  destruct (Meta_DeletionTimestamp (SB_Meta b)) as [d|] eqn:Hd; [apply Hdead; intros b' [Hg' Hd']; congruence|].
  eapply process_live; [done..|by split].
Qed.

(** The assumptions stay true. *)
Lemma advanced_served σ σ' k : advanced σ σ' k → served σ → served σ'.
Proof.
  intros Hadv Hserved k' b Hb. rewrite (advanced_services _ _ _ Hadv). destruct (decide (k' = k)) as [->|Hne].
  - destruct (advanced_binding _ _ _ Hadv b Hb) as (b0 & Hb0 & Hsame). destruct (Hserved k b0 Hb0) as [secret Hs].
    exists secret. intros b' Hb'. apply Hs. by eapply same_trans.
  - destruct Hb as [Hg Hd]. rewrite (advanced_bindings _ _ _ Hadv k' Hne) in Hg. by apply (Hserved k' b).
Qed.

Lemma advanced_unblocked σ σ' k : advanced σ σ' k → unblocked σ → unblocked σ'.
Proof.
  intros Hadv Hun k' b p Hb Hp. destruct (decide (k' = k)) as [->|Hne].
  - destruct (advanced_finished _ _ _ Hadv b Hb) as (secret & p' & _ & Hp' & [Hc _] & _).
    rewrite SetDefaults_meta in Hc. congruence.
  - destruct Hb as [Hg Hd]. rewrite (advanced_bindings _ _ _ Hadv k' Hne) in Hg.
    rewrite (advanced_projections _ _ _ Hadv k' Hne) in Hp. by apply (Hun k' b).
Qed.

Lemma finished_kept σ σ' k k' : advanced σ σ' k → finished σ k' → finished σ' k'.
Proof.
  intros Hadv Hfin. destruct (decide (k' = k)) as [->|Hne]; [apply Hadv|].
  intros b [Hg Hd]. unfold final.
  rewrite (advanced_bindings _ _ _ Hadv k' Hne) in Hg.
  rewrite (advanced_projections _ _ _ Hadv k' Hne), (advanced_services _ _ _ Hadv). by apply Hfin.
Qed.

(** The keys that the pending notifications enqueue are finitely many. *)
Lemma will_enqueue_finite {K} (h : handler K) cs : ∀ cache,
  ∃ Q : gset object_name, ∀ k, will_enqueue h cache cs k → k ∈ Q.
Proof.
  induction cs as [|c cs IH]; intros cache; [by exists ∅|]. destruct (IH (apply_change cache c)) as [Q HQ].
  exists (list_to_set (enqueued h cache c) ∪ Q). cbn. intros k [Hk|Hk]; apply elem_of_union; [left|right; auto].
  by apply elem_of_list_to_set.
Qed.

Lemma awake_finite σ : ∃ Q : gset object_name, ∀ k, awake σ k → k ∈ Q.
Proof.
  destruct (will_enqueue_finite servicebinding_bindingHandler (bindingWatch σ) (bindingCache σ)) as [Q1 HQ1].
  destruct (will_enqueue_finite servicebinding_projectionHandler (projectionWatch σ) (projectionCache σ)) as [Q2 HQ2].
  exists (queue σ ∪ Q1 ∪ Q2). intros k [Hk|[Hk|Hk]]; [|apply HQ1 in Hk|apply HQ2 in Hk]; set_solver.
Qed.

(** ** Every run ends *)
Context (Haccepting : ∀ s : PServer, accepting s) (Hstatus_accepting : ∀ s : BServer, status_accepting s).

Definition pending σ : nat := length (projectionWatch σ) + length (bindingWatch σ).

(** The keys [Q] that can still be processed, and those of them that are finished, [D]. *)
Record bounded σ (Q D : gset object_name) : Prop := {
  bounded_invariant : invariant σ;
  bounded_served : served σ;
  bounded_unblocked : unblocked σ;
  bounded_awake k : awake σ k → k ∈ Q;
  bounded_finished k : k ∈ D → finished σ k;
}.

Lemma deliver_projection_awake σ c cs k :
  projectionWatch σ = c :: cs → awake (deliver_projection σ c cs) k → awake σ k.
Proof.
  intros Hw [Hk|Hk].
  - cbn in Hk. apply elem_of_union in Hk as [Hk|Hk%elem_of_list_to_set]; [by left|]. right; right. rewrite Hw. by left.
  - right. destruct Hk as [Hk|Hk]; [by left|right; rewrite Hw; by right].
Qed.

Lemma deliver_binding_awake σ c cs k :
  bindingWatch σ = c :: cs → awake (deliver_binding σ c cs) k → awake σ k.
Proof.
  intros Hw [Hk|Hk].
  - cbn in Hk. apply elem_of_union in Hk as [Hk|Hk%elem_of_list_to_set]; [by left|]. right; left. rewrite Hw. by left.
  - right. destruct Hk as [Hk|Hk]; [left; rewrite Hw; by right|by right].
Qed.

Lemma deliver_projection_bounded σ c cs Q D :
  projectionWatch σ = c :: cs → bounded σ Q D → bounded (deliver_projection σ c cs) Q D.
Proof.
  intros Hw [Hinv Hs Hu Hq Hf]. split; [by apply deliver_projection_invariant|exact Hs|exact Hu| |exact Hf].
  intros k Hk. by eapply Hq, deliver_projection_awake.
Qed.

Lemma deliver_binding_bounded σ c cs Q D :
  bindingWatch σ = c :: cs → bounded σ Q D → bounded (deliver_binding σ c cs) Q D.
Proof.
  intros Hw [Hinv Hs Hu Hq Hf]. split; [by apply deliver_binding_invariant|exact Hs|exact Hu| |exact Hf].
  intros k Hk. by eapply Hq, deliver_binding_awake.
Qed.

Lemma idle_awake σ σ' k k' : idle σ σ' k → awake σ' k' → k' ∈ queue σ ∖ {[ k ]} ∨ coming σ k'.
Proof.
  intros Hidle. unfold awake, coming.
  by rewrite (idle_queue _ _ _ Hidle), (idle_bindingWatch _ _ _ Hidle), (idle_projectionWatch _ _ _ Hidle),
    (idle_bindingCache _ _ _ Hidle), (idle_projectionCache _ _ _ Hidle).
Qed.

Lemma advanced_awake σ σ' k k' : k ∈ queue σ → advanced σ σ' k → awake σ' k' → awake σ k'.
Proof.
  intros Hk Hadv [Hq|Hc].
  - left. by destruct (advanced_queue _ _ _ Hadv k' Hq) as [->|].
  - destruct (advanced_coming _ _ _ k' Hadv Hc) as [->|]; [by left|by right].
Qed.

Lemma heard_coming σ k : projectionWatch σ = [] → bindingWatch σ = [] → ¬ coming σ k.
Proof. unfold coming. intros -> ->. by intros []. Qed.

Lemma process_bounded σ clock k Q D :
  projectionWatch σ = [] → bindingWatch σ = [] → k ∈ queue σ → bounded σ Q D →
  ∃ Q' D', bounded (process σ clock k) Q' D' ∧ remaining Q' D' < remaining Q D.
Proof.
  intros Hpw Hbw Hk [Hinv Hs Hu Hq Hf]. assert (queue σ ⊆ Q) as Hsub by (intros k' Hk'; apply Hq; by left).
  assert (current σ k) as Hcur by (apply heard_current; [apply Hinv|done..]).
  assert (advanced σ (process σ clock k) k) as Hadv by (apply process_advances; [apply Hinv|done..]).
  assert (invariant (process σ clock k)) as Hinv' by (by apply process_invariant).
  assert (served (process σ clock k)) as Hs' by (by eapply advanced_served).
  assert (unblocked (process σ clock k)) as Hu' by (by eapply advanced_unblocked).
  destruct (decide (k ∈ D)) as [Hd|Hd].
  - exists (Q ∖ {[ k ]}), D. split; [|by apply remaining_done; [apply Hsub|]].
    assert (idle σ (process σ clock k) k) as Hidle by (apply process_finished; [apply Hinv|done|by apply Hf]).
    split; [done|done|done| |intros k' Hk'; by eapply finished_kept, Hf].
    intros k' [Hk'|[]%heard_coming]%(idle_awake σ _ k k' Hidle); [set_solver|done|done].
  - exists Q, (D ∪ {[ k ]}). split; [|by apply remaining_advance; [apply Hsub|]]. split; [done|done|done| |].
    + intros k' Hk'%(advanced_awake σ _ k k' Hk Hadv). by apply Hq.
    + intros k' [Hk'|Hk']%elem_of_union; [by eapply finished_kept, Hf|].
      apply elem_of_singleton in Hk' as ->. apply Hadv.
Qed.

Lemma bounded_ends n : ∀ σ Q D, remaining Q D < n → bounded σ Q D → sn works σ.
Proof.
  induction n as [|n IHn]; [lia|]. intros σ Q D Hn.
  assert (∀ m σ, pending σ < m → bounded σ Q D → sn works σ) as Hpending; [|by apply (Hpending (S (pending σ))); lia].
  clear σ. induction m as [|m IHm]; [lia|]. intros σ Hm Hb. constructor. intros σ' Hstep.
  destruct Hstep as [c cs Hw|c cs Hw|clock k Hpw Hbw Hk].
  - apply IHm; [|by apply deliver_projection_bounded]. unfold pending in *. rewrite Hw in Hm. cbn in *. lia.
  - apply IHm; [|by apply deliver_binding_bounded]. unfold pending in *. rewrite Hw in Hm. cbn in *. lia.
  - destruct (process_bounded σ clock k Q D Hpw Hbw Hk Hb) as (Q' & D' & Hb' & Hlt).
    apply (IHn _ Q' D'); [lia|done].
Qed.

(** The controller settles: left alone, with servers that take what their versions allow,
    services that are found and no foreign projections in the way, every run of the
    controller in which it hears what changed before it goes on ends, from every state that
    it can get into, whatever keys it picks and whatever its clock says.  It ends with an empty queue, no notification pending and
    every live binding in sync. *)
Theorem controller_settles σ0 σ :
  started σ0 → rtc system_step σ0 σ → served σ → unblocked σ →
  sn works σ ∧
  ∀ σ', rtc works σ σ' → (∀ σ'', ¬ works σ' σ'') →
    at_rest σ' ∧ ∀ k b, live σ' k b → in_sync σ' k b.
Proof.
  intros Hstart Hrun Hs Hu. pose proof (run_invariant σ0 σ Hstart Hrun) as Hinv. split.
  - destruct (awake_finite σ) as [Q HQ]. apply (bounded_ends (S (remaining Q ∅)) σ Q ∅); [lia|].
    split; [done|done|done|done|by intros k ?%elem_of_empty].
  - intros σ' Hworks Hno. apply works_until_rest in Hno. split; [done|]. intros k b [Hg Hl].
    apply (at_rest_in_sync (λ _, true)); [|done..].
    apply (run_invariant σ0 σ' Hstart). etransitivity; [exact Hrun|]. by apply works_steps.
Qed.
End settling.

(** ** Witness *)
#[local] Existing Instance string_opaque.
#[local] Existing Instance sample_guess.
#[local] Existing Instance sample_knative_controller.
#[local] Existing Instance sample_knative_controller_laws.
#[local] Existing Instance map_server.
#[local] Existing Instance map_server_laws.
#[local] Existing Instance binding_knative.
#[local] Existing Instance binding_knative_laws.
#[local] Existing Instance binding_processing.
#[local] Existing Instance any_uid.

Lemma map_accepting (s : gmap object_name ServiceBinding) : status_accepting s.
Proof.
  intros namespace b current. cbn. intros Hg Hv. destruct (s !! _) as [c|] eqn:Hc; [|congruence].
  rewrite decide_True by congruence. by eexists.
Qed.

Lemma system0_live k b : live system0 k b → k = key_of db_binding ∧ b = db_binding.
Proof.
  intros [Hg _]. cbn in Hg. apply lookup_singleton_Some in Hg as [Hk Hb]. by rewrite <- Hk, <- Hb.
Qed.

Lemma system0_served : served system0.
Proof.
  intros k b [-> ->]%system0_live. exists my_secret. intros b' Hsame. right.
  rewrite (same_service _ _ Hsame). split; [intros [_ ?]; discriminate|].
  exists (mkServiceableType (newMeta "db" "default") (mkServiceable my_secret)).
  split; [reflexivity|]. intros l. split_and!; reflexivity.
Qed.

Lemma system0_unblocked : unblocked system0.
Proof. intros k b p _ Hp. discriminate. Qed.

Lemma rest_stops σ : at_rest σ → ∀ σ', ¬ works σ σ'.
Proof. intros (Hq & Hp & Hb) σ' []; [congruence|congruence|]. set_solver. Qed.

(** From its start with one binding the controller stops; five steps are such a run. *)
Lemma controller_settles_witness :
  sn works system0 ∧ in_sync (Nat.iter 5 settle_step system0) (key_of db_binding) (db_after 5).
Proof.
  destruct (controller_settles log_accepting map_accepting system0 system0 system0_started (rtc_refl _ _)
    system0_served system0_unblocked) as [Hsn Hend].
  split; [exact Hsn|]. apply (Hend (Nat.iter 5 settle_step system0)).
  - apply settle_works.
  - apply rest_stops. vm_compute. split_and!; reflexivity.
  - vm_compute. split; reflexivity.
Defined.
