(* ===== verification/Replicas.v ===== *)
(** * Several replicas of the controller

    The manager runs in several replicas, which elect a leader for each bucket of keys.
    Every replica has its own informers, queue and tracker, as in [System]; the API server
    and the services are the same for all.  A replica reconciles the keys it leads and
    skips the others ([Reconcile] of the generated [reconciler.go]); when it becomes the
    leader of a bucket, [PromoteFunc] enqueues what its cache has.

    Nothing is assumed of the election: a key may have no leader, or several that do not
    know of each other yet.  Here a reconciliation is one step ([replica_works]); [Workers]
    has the steps of reconciliations that overlap. *)
From S2P Require Import Prelude Api Conditions Effects Projection Binding Resolver.
From S2P Require Import Resources BindingReconciler Cluster.
From S2P Require Import KindReconciler Kinds Controllers System.

Section replicas.
Context `{Kmeta, !KnativeController, !SchemaGuess, !SemanticEquality, !ConditionManager}.
Context `{!KnativeReconciler controller_event ServiceBinding ServiceBindingStatus}.
Context {PServer BServer : Type} `{!ApiServer PServer, !BindingServer BServer}.
Context `{!UidNames}.
Implicit Types (k : object_name) (σ : system (PServer := PServer) (BServer := BServer)).

(** What a replica keeps, and the keys it is the leader of. *)
Record replica := mkReplica {
  rep_projectionCache : gmap object_name ServiceBindingProjection;
  rep_bindingCache : gmap object_name ServiceBinding;
  rep_projectionWatch : list (change ServiceBindingProjection);
  rep_bindingWatch : list (change ServiceBinding);
  rep_tracked : list (object_name * Reference);
  rep_queue : gset object_name;
  rep_leads : object_name → bool;
}.

Record deployment := mkDeployment {
  all_projections : PServer;
  all_bindings : BServer;
  all_services : ResolverEnv controller_event;
  replicas : list replica;
}.
Implicit Types (r : replica) (ρ : deployment).

(** The system as a replica sees it, and what it keeps of one. *)
Definition view ρ r : system := {|
  projections := all_projections ρ; bindings := all_bindings ρ;
  projectionCache := rep_projectionCache r; bindingCache := rep_bindingCache r;
  projectionWatch := rep_projectionWatch r; bindingWatch := rep_bindingWatch r;
  services := all_services ρ; tracked := rep_tracked r; queue := rep_queue r |}.

(** What they share. *)
Definition cluster ρ : system := view ρ (mkReplica ∅ ∅ [] [] [] ∅ (λ _, false)).

Definition led ρ k : Prop := ∃ r, r ∈ replicas ρ ∧ rep_leads r k = true.

Definition own σ (leads : object_name → bool) : replica := {|
  rep_projectionCache := projectionCache σ; rep_bindingCache := bindingCache σ;
  rep_projectionWatch := projectionWatch σ; rep_bindingWatch := bindingWatch σ;
  rep_tracked := tracked σ; rep_queue := queue σ; rep_leads := leads |}.

(** ** Reconciliations *)
Definition run_replica σ (leads : object_name → bool) (clock : Time) k :
    outcome (option failure) * list controller_event :=
  ServiceBinding_Reconcile (kind_env σ) (binding_env σ clock) (λ namespace n, leads (namespace, n)) (key_string k) [].

(** knative queues a key again when its reconciliation fails, but not when it is skipped. *)
Definition requeued_unskipped k (res : outcome (option failure)) : gset object_name :=
  match res with Done (Some (FSkipKey _)) => ∅ | _ => requeued k res end.

Definition work σ (leads : object_name → bool) (clock : Time) k : system :=
  let '(res, log) := run_replica σ leads clock k in
  {| projections := foldl apply_event (projections σ) (binding_calls log);
     bindings := foldl apply_status (bindings σ) (kind_calls log);
     projectionCache := projectionCache σ;
     bindingCache := bindingCache σ;
     projectionWatch := projectionWatch σ ++ omap projection_change (binding_calls log);
     bindingWatch := bindingWatch σ ++ omap binding_change (kind_calls log);
     services := services σ;
     tracked := tracked σ ++ omap tracking (binding_calls log);
     queue := queue σ ∖ {[ k ]} ∪ requeued_unskipped k res |}.

(** The informers of a replica will be told of the changes. *)
Definition hears (ps : list (change ServiceBindingProjection)) (bs : list (change ServiceBinding)) r : replica := {|
  rep_projectionCache := rep_projectionCache r; rep_bindingCache := rep_bindingCache r;
  rep_projectionWatch := rep_projectionWatch r ++ ps; rep_bindingWatch := rep_bindingWatch r ++ bs;
  rep_tracked := rep_tracked r; rep_queue := rep_queue r; rep_leads := rep_leads r |}.

Definition replica_works ρ i r (clock : Time) k : deployment :=
  let σ := work (view ρ r) (rep_leads r) clock k in
  let log := (run_replica (view ρ r) (rep_leads r) clock k).2 in
  {| all_projections := projections σ; all_bindings := bindings σ; all_services := all_services ρ;
     replicas := <[i := own σ (rep_leads r)]>
       (map (hears (omap projection_change (binding_calls log)) (omap binding_change (kind_calls log))) (replicas ρ)) |}.

(** ** What else happens *)
Definition set_replica ρ i r : deployment :=
  mkDeployment (all_projections ρ) (all_bindings ρ) (all_services ρ) (<[i := r]> (replicas ρ)).

Definition all_change_projection ρ (s : PServer) k (o : option ServiceBindingProjection) : deployment :=
  mkDeployment s (all_bindings ρ) (all_services ρ) (map (hears [(k, o)] []) (replicas ρ)).
Definition all_change_binding ρ (s : BServer) k (o : option ServiceBinding) : deployment :=
  mkDeployment (all_projections ρ) s (all_services ρ) (map (hears [] [(k, o)]) (replicas ρ)).

Definition enqueues (ks : gset object_name) r : replica := {|
  rep_projectionCache := rep_projectionCache r; rep_bindingCache := rep_bindingCache r;
  rep_projectionWatch := rep_projectionWatch r; rep_bindingWatch := rep_bindingWatch r;
  rep_tracked := rep_tracked r; rep_queue := rep_queue r ∪ ks; rep_leads := rep_leads r |}.

(** The trackers of the replicas enqueue the keys [ks]. *)
Definition all_change_services ρ (env : ResolverEnv controller_event) (ks : replica → gset object_name) : deployment :=
  mkDeployment (all_projections ρ) (all_bindings ρ) env (map (λ r, enqueues (ks r) r) (replicas ρ)).

(** *** The election *)

(** [Promote] of knative: the replica leads the bucket, and [PromoteFunc] enqueues the listed
    objects, of which the queue takes those of the bucket. *)
Definition promote (bucket : object_name → bool) r : replica :=
  let cached := map snd (map_to_list (rep_bindingCache r)) in
  let keys := (PromoteFunc (K := ServiceBinding) (cached, None)).1 in
  {| rep_projectionCache := rep_projectionCache r; rep_bindingCache := rep_bindingCache r;
     rep_projectionWatch := rep_projectionWatch r; rep_bindingWatch := rep_bindingWatch r;
     rep_tracked := rep_tracked r;
     rep_queue := rep_queue r ∪ list_to_set (filter (λ k, bucket k = true) keys);
     rep_leads := λ k, rep_leads r k || bucket k |}.

(** [Demote] of knative. *)
Definition demote (bucket : object_name → bool) r : replica := {|
  rep_projectionCache := rep_projectionCache r; rep_bindingCache := rep_bindingCache r;
  rep_projectionWatch := rep_projectionWatch r; rep_bindingWatch := rep_bindingWatch r;
  rep_tracked := rep_tracked r; rep_queue := rep_queue r;
  rep_leads := λ k, rep_leads r k && negb (bucket k) |}.

(** A replica that starts leads nothing yet. *)
Definition starts ρ r : Prop := System.started (view ρ r) ∧ ∀ k, rep_leads r k = false.

(** ** Runs *)

(** What happens around the reconciliations of the replicas there are. *)
Inductive goes_on ρ : deployment → Prop :=
| replica_hears_projection i r c cs :
    replicas ρ !! i = Some r → rep_projectionWatch r = c :: cs →
    goes_on ρ (set_replica ρ i (own (deliver_projection (view ρ r) c cs) (rep_leads r)))
| replica_hears_binding i r c cs :
    replicas ρ !! i = Some r → rep_bindingWatch r = c :: cs →
    goes_on ρ (set_replica ρ i (own (deliver_binding (view ρ r) c cs) (rep_leads r)))
| replica_promoted i r bucket :
    replicas ρ !! i = Some r → goes_on ρ (set_replica ρ i (promote bucket r))
| replica_demoted i r bucket :
    replicas ρ !! i = Some r → goes_on ρ (set_replica ρ i (demote bucket r))
(** Other actors, as in [System]. *)
| deployment_change_projection s k o :
    (∀ k', api_get s k' = if decide (k' = k) then o else api_get (all_projections ρ) k') →
    (∀ k' p, api_seen (all_projections ρ) k' p → api_seen s k' p) →
    projection_change_ok (api_get (all_projections ρ) k) o →
    goes_on ρ (all_change_projection ρ s k o)
| deployment_change_binding s k o :
    (∀ k', b_get s k' = if decide (k' = k) then o else b_get (all_bindings ρ) k') →
    (∀ b, o = Some b → admitted k b) →
    goes_on ρ (all_change_binding ρ s k o).

(** The replicas work, one reconciliation after the other, in any order.  The caches of a
    replica that leads a key are up to date for this key when it reconciles it; of other
    keys it may still have much to hear. *)
Inductive replicas_work ρ : deployment → Prop :=
| work_hears_projection i r c cs :
    replicas ρ !! i = Some r → rep_projectionWatch r = c :: cs →
    replicas_work ρ (set_replica ρ i (own (deliver_projection (view ρ r) c cs) (rep_leads r)))
| work_hears_binding i r c cs :
    replicas ρ !! i = Some r → rep_bindingWatch r = c :: cs →
    replicas_work ρ (set_replica ρ i (own (deliver_binding (view ρ r) c cs) (rep_leads r)))
| work_works i r clock k :
    replicas ρ !! i = Some r → k ∈ rep_queue r → (rep_leads r k = true → current (view ρ r) k) →
    replicas_work ρ (replica_works ρ i r clock k).
End replicas.
