(* ===== verification/ReplicasFacts.v ===== *)
(** * What one replica does to the others

    A leader reconciles as the only replica does, and its writes are on their way to all;
    a follower leaves everything but its queue alone; a new leader has in its queue, or
    hears of, all that its cache may be wrong about. *)
From S2P Require Import Prelude Api Conditions Effects Projection ProjectionLemmas ProjectionFacts.
From S2P Require Import Binding BindingFacts Resolver Resources BindingReconciler BindingReconcilerFacts.
From S2P Require Import Cluster ClusterFacts EndToEnd.
From S2P Require Import KindReconciler Kinds KindReconcilerFacts ClientsFacts Controllers ControllersFacts.
From S2P Require Import System SystemRuns SystemFacts WakeUps Replicas.

Section facts.
Context `{KmetaLaws, !KnativeController, !KnativeControllerLaws, !SchemaGuess}.
Context `{!SemanticEquality, !SemanticEqualityLaws, !ConditionManager}.
Context `{!KnativeReconciler controller_event ServiceBinding ServiceBindingStatus}.
Context `{!KnativeReconcilerLaws controller_event ServiceBinding ServiceBindingStatus}.
Context {PServer BServer : Type} `{!ApiServer PServer, !ApiServerLaws}.
Context `{!BindingServer BServer, !BindingServerLaws}.
Context `{!UidNames}.
Context `{!BindingProcessing}.
Implicit Types (b : ServiceBinding) (k : object_name) (r : replica) (leads : object_name → bool).
Implicit Types (σ : system (PServer := PServer) (BServer := BServer)).
Implicit Types (ρ : deployment (PServer := PServer) (BServer := BServer)).

(** ** A reconciliation of a replica *)
(** The leader does what the only replica does. *)
Lemma run_replica_led σ leads clock k :
  leads k = true → run_replica σ leads clock k = run_key σ clock k.
Proof.
  intros Hk. unfold run_replica, run_key. destruct (slash_free k.1 && slash_free k.2) eqn:Hsl.
  - apply andb_true_iff in Hsl as [Hns Hn]. rewrite !led_run_eq by (done || by destruct k). done.
  - by rewrite !invalid_run_eq.
Qed.

(** The others skip the key, without a call. *)
Lemma run_replica_skips σ leads clock k :
  leads k = false →
  ∃ res, run_replica σ leads clock k = (Done res, []) ∧ (res = None ∨ res = Some (FSkipKey (key_string k))).
Proof. intros Hk. apply skipped_run_eq. by destruct k. Qed.

Lemma run_key_unskipped σ clock k : books σ → ∀ key, (run_key σ clock k).1 ≠ Done (Some (FSkipKey key)).
Proof.
  intros Hbooks key. destruct (bindingCache σ !! k) as [b|] eqn:Hb.
  - destruct (run_key_cached σ clock k b Hb (books_admitted _ Hbooks k b (or_introl Hb))) as (res & log & -> & Hran).
    destruct Hran as [_ _ _ ->|? ? ev ? err _ _ _ _ _ _ _ ->]; [done|].
    destruct err; [done|]. by destruct ev as [[]|].
  - destruct (run_key_uncached σ clock k Hb) as (log & -> & _). done.
Qed.

Lemma work_led σ leads clock k : books σ → leads k = true → work σ leads clock k = process σ clock k.
Proof.
  intros Hbooks Hk. unfold work, process. rewrite run_replica_led by done.
  pose proof (run_key_unskipped σ clock k Hbooks) as Hun. destruct (run_key σ clock k) as [res log]. cbn in Hun.
  f_equal. f_equal. destruct res as [[[]|]|]; try done. by edestruct Hun.
Qed.

Lemma work_skips σ leads clock k :
  leads k = false →
  work σ leads clock k = {|
    projections := projections σ; bindings := bindings σ;
    projectionCache := projectionCache σ; bindingCache := bindingCache σ;
    projectionWatch := projectionWatch σ; bindingWatch := bindingWatch σ;
    services := services σ; tracked := tracked σ; queue := queue σ ∖ {[ k ]} |}.
Proof.
  intros Hk. unfold work. destruct (run_replica_skips σ leads clock k Hk) as (res & -> & Hres).
  cbn. rewrite !app_nil_r. f_equal. destruct Hres as [-> | ->]; cbn; set_solver.
Qed.

(** ** Replicas *)
Lemma view_own ρ σ leads :
  projections σ = all_projections ρ → bindings σ = all_bindings ρ → services σ = all_services ρ →
  view ρ (own σ leads) = σ.
Proof. destruct ρ, σ. cbn. by intros -> -> ->. Qed.

Definition all_guarded ρ : Prop := ∀ r, r ∈ replicas ρ → guarded (rep_leads r) (view ρ r).

(** The writes of one replica are written for the others. *)
Lemma wrote_elsewhere ρ ρ' σ' r r' ps bs :
  wrote (view ρ r) σ' → projections σ' = all_projections ρ' → bindings σ' = all_bindings ρ' →
  projectionWatch σ' = rep_projectionWatch r ++ ps → bindingWatch σ' = rep_bindingWatch r ++ bs →
  wrote (view ρ r') (view ρ' (hears ps bs r')).
Proof.
  intros [_ _ Hseen Hps Hbs] Hp Hb Hpw Hbw. split; [done|done|..].
  - intros k p Hk. cbn in *. rewrite <- Hp. by apply Hseen.
  - destruct Hps as [Hw Hsame|k o Hw Hget Hok]; cbn in Hw; rewrite Hpw in Hw.
    + rewrite <- (app_nil_r (rep_projectionWatch r)) in Hw at 2. apply app_inv_head in Hw as ->.
      apply wrote_no_projection; cbn; [by rewrite app_nil_r|by rewrite <- Hp].
    + apply app_inv_head in Hw as ->. apply (wrote_projection _ _ k o); cbn; [done|by rewrite <- Hp|done].
  - destruct Hbs as [Hw Heq|k o Hw Hget Hok]; cbn in Hw; rewrite Hbw in Hw.
    + rewrite <- (app_nil_r (rep_bindingWatch r)) in Hw at 2. apply app_inv_head in Hw as ->.
      apply wrote_no_binding; cbn; [by rewrite app_nil_r|by rewrite <- Hb].
    + apply app_inv_head in Hw as ->. apply (wrote_binding _ _ k o); cbn; [done|by rewrite <- Hb|done].
Qed.

Lemma hears_nil r : hears [] [] r = r.
Proof. destruct r. unfold hears. cbn. by rewrite !app_nil_r. Qed.

(** A replica in the place of another, in the same world. *)
Lemma set_replica_guarded ρ i r' :
  all_guarded ρ → guarded (rep_leads r') (view ρ r') → all_guarded (set_replica ρ i r').
Proof.
  intros Hall Hr' r (j & Hj)%list_elem_of_lookup. cbn in Hj.
  apply list_lookup_insert_Some in Hj as [(_ & <- & _)|[_ Hj]]; [done|].
  apply (Hall r). by eapply list_elem_of_lookup_2.
Qed.

Lemma replica_works_guarded ρ i r clock k :
  all_guarded ρ → replicas ρ !! i = Some r → all_guarded (replica_works ρ i r clock k).
Proof.
  intros Hall Hi. pose proof (Hall r (list_elem_of_lookup_2 _ _ _ Hi)) as Hr.
  set (σ := view ρ r) in *. set (ρ' := replica_works ρ i r clock k).
  intros r' (j & Hj)%list_elem_of_lookup. unfold ρ', replica_works in Hj. cbn [replicas] in Hj. fold σ in Hj.
  apply list_lookup_insert_Some in Hj as [(_ & <- & _)|[_ Hj]].
  - cbn [rep_leads own]. rewrite view_own; [|done|done|].
    2: { cbn. unfold work. by destruct (run_replica σ (rep_leads r) clock k). }
    destruct (rep_leads r k) eqn:Hk; [rewrite work_led by (done || apply Hr); by apply process_invariant|].
    rewrite work_skips by done. destruct Hr as [[] Hinv]. split; [by split|].
    intros k' b Hled Hg Hl. destruct (Hinv k' b Hled Hg Hl) as [[Hq|Hc]|Hrest]; [left; left|left; by right|by right].
    cbn. assert (k' ≠ k) by congruence. cbn in Hq. set_solver.
  - rewrite list_lookup_fmap in Hj. apply fmap_Some in Hj as (r0 & Hj & ->).
    assert (guarded (rep_leads r0) (view ρ r0)) as Hr0 by (apply Hall; by eapply list_elem_of_lookup_2).
    cbn [rep_leads hears]. apply (wrote_invariant _ (view ρ r0)); [|done|done|done|exact Hr0].
    destruct (rep_leads r k) eqn:Hk.
    + rewrite run_replica_led by done.
      apply (wrote_elsewhere ρ ρ' (process σ clock k) r); [by apply process_processed, Hr|..];
        unfold ρ', replica_works; cbn [all_projections all_bindings]; fold σ; rewrite ?work_led by (done || apply Hr);
        try done; unfold process; by destruct (run_key σ clock k).
    + destruct (run_replica_skips σ (rep_leads r) clock k Hk) as (res & Hrun & _).
      rewrite Hrun. cbn [snd binding_calls kind_calls omap list_omap]. rewrite hears_nil.
      assert (projections σ = all_projections ρ' ∧ bindings σ = all_bindings ρ') as [Hp Hb]
        by (unfold ρ', replica_works; cbn [all_projections all_bindings]; fold σ; by rewrite work_skips).
      replace (view ρ' r0) with (view ρ r0) by (unfold view at 2; by rewrite <- Hp, <- Hb).
      by split; [..|apply wrote_no_projection|apply wrote_no_binding].
Qed.

(** A new leader hears of, or has in its queue, all that its cache may be wrong about. *)
Lemma PromoteFunc_keys (l : list ServiceBinding) : (PromoteFunc (l, None)).1 = map key_of l.
Proof. rewrite PromoteFunc_map. by apply (map_ext object_key key_of). Qed.

Lemma promote_awake ρ bucket r k b :
  books (view ρ r) → bucket k = true → b_get (all_bindings ρ) k = Some b → awake (view ρ (promote bucket r)) k.
Proof.
  intros Hbooks Hbucket Hg. assert (books (view ρ (promote bucket r))) as Hbooks' by (destruct Hbooks; by split).
  destruct (decide (rep_bindingCache r !! k = Some b)) as [Hb|Hb]; [left|right; by eapply stale_binding].
  cbn [queue view promote rep_queue]. rewrite PromoteFunc_keys. apply elem_of_union. right.
  apply elem_of_list_to_set, list_elem_of_filter. split; [done|]. apply list_elem_of_fmap. exists b.
  destruct (books_admitted _ Hbooks k b (or_introl Hb)) as [Hkey _]. split; [done|].
  apply list_elem_of_fmap. exists (k, b). split; [done|]. by apply elem_of_map_to_list.
Qed.

Lemma wrote_promote ρ bucket r : wrote (view ρ r) (view ρ (promote bucket r)).
Proof. by split; [..|apply wrote_no_projection|apply wrote_no_binding]. Qed.

Lemma wrote_demote ρ bucket r : wrote (view ρ r) (view ρ (demote bucket r)).
Proof. by split; [..|apply wrote_no_projection|apply wrote_no_binding]. Qed.

(** *** Other actors *)
Lemma wrote_projection_all ρ s k o r :
  (∀ k', api_get s k' = if decide (k' = k) then o else api_get (all_projections ρ) k') →
  (∀ k' p, api_seen (all_projections ρ) k' p → api_seen s k' p) →
  projection_change_ok (api_get (all_projections ρ) k) o →
  wrote (view ρ r) (view (all_change_projection ρ s k o) (hears [(k, o)] [] r)).
Proof.
  intros Hget Hseen Hok.
  split; [done|done|done|by apply (wrote_projection _ _ k o)|apply wrote_no_binding; [|done]]. cbn. by rewrite app_nil_r.
Qed.

Lemma wrote_binding_all ρ s k o r :
  (∀ k', b_get s k' = if decide (k' = k) then o else b_get (all_bindings ρ) k') →
  (∀ b, o = Some b → admitted k b) →
  wrote (view ρ r) (view (all_change_binding ρ s k o) (hears [] [(k, o)] r)).
Proof.
  intros Hget Hok.
  split; [done|done|done|apply wrote_no_projection; [|done]|by apply (wrote_binding _ _ k o)]. cbn. by rewrite app_nil_r.
Qed.

(** ** Followers *)

(** A replica that does not lead a key only takes it off its queue: the stored objects and
    the other replicas stay as they are. *)
Theorem follower_leaves_alone ρ i r clock k :
  replicas ρ !! i = Some r → rep_leads r k = false →
  let ρ' := replica_works ρ i r clock k in
  all_projections ρ' = all_projections ρ ∧ all_bindings ρ' = all_bindings ρ ∧
  (∀ j, j ≠ i → replicas ρ' !! j = replicas ρ !! j) ∧
  ∃ r', replicas ρ' !! i = Some r' ∧ rep_queue r' = rep_queue r ∖ {[ k ]} ∧
    rep_bindingCache r' = rep_bindingCache r ∧ rep_projectionCache r' = rep_projectionCache r ∧
    rep_tracked r' = rep_tracked r.
Proof.
  intros Hi Hk. cbn zeta. unfold replica_works. cbn [all_projections all_bindings replicas].
  destruct (run_replica_skips (view ρ r) (rep_leads r) clock k Hk) as (res & -> & _).
  rewrite work_skips by done. split_and!; [done|done|..].
  - intros j Hj. rewrite list_lookup_insert_ne by done. rewrite list_lookup_fmap. cbn.
    destruct (replicas ρ !! j); [|done]. cbn. by rewrite hears_nil.
  - eexists. split; [apply list_lookup_insert_eq; rewrite length_fmap; by eapply lookup_lt_Some|]. done.
Qed.
End facts.
