(* ===== verification/Workers.v ===== *)
(** * Workers that overlap

    Every replica has several workers ([threadiness] of knative's controller), so that
    reconciliations of different keys, and those of several replicas, of the same key even,
    overlap.  A step is one call of one worker: it reads, or writes, what there is at that
    time, and between any two calls anything may happen.  The work queue keeps two workers
    of a replica from the same key.

    What a worker calls next is what the code calls after the answers that it has got so
    far ([may_call]). *)
From S2P Require Import Prelude Api Conditions Effects Projection Binding Resolver.
From S2P Require Import Resources BindingReconciler BindingReconcilerFacts Cluster.
From S2P Require Import KindReconciler Kinds KindReconcilerFacts Controllers System Replicas.

Section workers.
Context `{Kmeta, !KnativeController, !SchemaGuess, !SemanticEquality, !ConditionManager}.
Context `{!KnativeReconciler controller_event ServiceBinding ServiceBindingStatus}.
Context {PServer BServer : Type} `{!ApiServer PServer, !BindingServer BServer}.
Context `{!UidNames}.
Implicit Types (k : object_name) (r : replica) (e : controller_event).
Implicit Types (σ : system (PServer := PServer) (BServer := BServer)).
Implicit Types (ρ : deployment (PServer := PServer) (BServer := BServer)).

(** A worker at a key: whether its replica led the key when it began, as [newState] found,
    and its calls so far. *)
Record worker := mkWorker { w_leads : bool; w_calls : list controller_event }.
Implicit Types (w : worker).

(** The code, with some answers to its calls. *)
Definition runs_to (leads : bool) k (res : outcome (option failure)) (log : list controller_event) : Prop :=
  ∃ kenv benv, ServiceBinding_Reconcile kenv benv (λ _ _, leads) (key_string k) [] = (res, log).

Definition may_call k w e : Prop := ∃ res rest, runs_to (w_leads w) k res (w_calls w ++ e :: rest).

Definition may_return k w (res : outcome (option failure)) : Prop := runs_to (w_leads w) k res (w_calls w).

(** The answer to a call is the one that the replica gets now. *)
Definition answered σ (clock : Time) e : Prop :=
  match e with
  | inl e => kind_answers (kind_env σ) e
  | inr e => answers (binding_env σ clock) e
  end.

Definition performed σ e : system := write_status (write_projection (track_calls σ [e]) [e]) [e].

Definition replica_calls ρ i r e : deployment :=
  let σ := performed (view ρ r) e in
  {| all_projections := projections σ; all_bindings := bindings σ; all_services := all_services ρ;
     replicas := <[i := own σ (rep_leads r)]>
       (map (hears (omap projection_change (binding_calls [e])) (omap binding_change (kind_calls [e]))) (replicas ρ)) |}.

(** ** Services *)

(** A call that finds the service, or something on the way to it. *)
Definition finds (ref : Reference) (e : resolver_event) : Prop :=
  match e with
  | EvTrackReference ref' _ None => ref' = ref
  | EvInformer gvr None => gvr = resourceFor ref
  | EvLookup gvr namespace n (Ok _) =>
      gvr = resourceFor ref ∧ namespace = Reference_Namespace ref ∧ n = Reference_Name ref
  | _ => False
  end.

(** What the resolver finds for the reference stays so. *)
Definition finds_still (env env' : ResolverEnv controller_event) (ref : Reference) : Prop :=
  ∀ e : resolver_event, finds ref e → resolver_answers env e → resolver_answers env' e.

(** ** Runs *)
Record operation := mkOperation {
  op_deployment : deployment (PServer := PServer) (BServer := BServer);
  (** The workers of every replica, by the keys that they work on. *)
  op_crews : list (gmap object_name worker);
}.
Implicit Types (φ : operation).

Inductive operation_step φ : operation → Prop :=
(** A worker takes a key that none of its replica has. *)
| worker_takes i r c k :
    replicas (op_deployment φ) !! i = Some r → op_crews φ !! i = Some c → k ∈ rep_queue r → c !! k = None →
    operation_step φ (mkOperation
      (set_replica (op_deployment φ) i (own (take_key (view (op_deployment φ) r) k) (rep_leads r)))
      (<[i := <[k := mkWorker (rep_leads r k) []]> c]> (op_crews φ)))
| worker_calls i r c k w clock e :
    replicas (op_deployment φ) !! i = Some r → op_crews φ !! i = Some c → c !! k = Some w →
    may_call k w e → answered (view (op_deployment φ) r) clock e →
    operation_step φ (mkOperation
      (replica_calls (op_deployment φ) i r e)
      (<[i := <[k := mkWorker (w_leads w) (w_calls w ++ [e])]> c]> (op_crews φ)))
| worker_returns i r c k w res :
    replicas (op_deployment φ) !! i = Some r → op_crews φ !! i = Some c → c !! k = Some w → may_return k w res →
    operation_step φ (mkOperation
      (set_replica (op_deployment φ) i (enqueues (requeued_unskipped k res) r))
      (<[i := delete k c]> (op_crews φ)))
| operation_goes_on ρ' : goes_on (op_deployment φ) ρ' → operation_step φ (mkOperation ρ' (op_crews φ))
(** Services change: the trackers enqueue the bindings that track one of which something
    that was found is not so any more, and resyncs may enqueue any. *)
| operation_change_services env ks :
    (∀ r k b, r ∈ replicas (op_deployment φ) → b_get (all_bindings (op_deployment φ)) k = Some b →
      (k, service_of b) ∈ rep_tracked r →
      k ∈ ks r ∨ finds_still (all_services (op_deployment φ)) env (service_of b)) →
    operation_step φ (mkOperation (all_change_services (op_deployment φ) env ks) (op_crews φ))
(** A replica stops, whatever its workers do. *)
| operation_stops i :
    operation_step φ (mkOperation
      (mkDeployment (all_projections (op_deployment φ)) (all_bindings (op_deployment φ)) (all_services (op_deployment φ))
        (delete i (replicas (op_deployment φ))))
      (delete i (op_crews φ)))
| operation_starts r :
    starts (op_deployment φ) r →
    operation_step φ (mkOperation
      (mkDeployment (all_projections (op_deployment φ)) (all_bindings (op_deployment φ)) (all_services (op_deployment φ))
        (replicas (op_deployment φ) ++ [r]))
      (op_crews φ ++ [∅])).

(** The replicas start, and nobody works yet. *)
Definition opened φ : Prop :=
  (∀ r, r ∈ replicas (op_deployment φ) → starts (op_deployment φ) r) ∧
  op_crews φ = map (λ _, ∅) (replicas (op_deployment φ)).

(** Nobody works any more. *)
Definition idle_crews φ : Prop := ∀ c, c ∈ op_crews φ → c = ∅.
End workers.
