(* ===== verification/WorkerCalls.v ===== *)
(** * The calls of a worker

    What a worker may call after the calls that it has made ([next_call]), and what it has
    learnt when it returns ([return_rested]). *)
From S2P Require Import Prelude Api Conditions Effects Projection ProjectionLemmas ProjectionFacts.
From S2P Require Import Binding BindingFacts Resolver Resources BindingReconciler BindingReconcilerFacts.
From S2P Require Import Cluster ClusterFacts EndToEnd.
From S2P Require Import KindReconciler Kinds KindReconcilerFacts ClientsFacts Controllers ControllersFacts.
From S2P Require Import System SystemRuns SystemFacts WakeUps Replicas ReplicasFacts Workers.

(** ** What holds along a log *)
Section along.
Context {E : Type} (P : list E → E → Prop).

(** Every event is as [P] says after the events before it. *)
Fixpoint along (pre log : list E) : Prop :=
  match log with [] => True | e :: log => P pre e ∧ along (pre ++ [e]) log end.

Lemma along_at pre log e rest : along pre (log ++ e :: rest) → P (pre ++ log) e.
Proof.
  revert pre. induction log as [|e' log IH]; intros pre; cbn.
  - intros [He _]. by rewrite app_nil_r.
  - intros [_ Hl]. by rewrite (cons_middle e' pre log), (assoc_L (++)); apply IH.
Qed.

Lemma along_app pre log log' : along pre log → along (pre ++ log) log' → along pre (log ++ log').
Proof.
  revert pre. induction log as [|e log IH]; intros pre; cbn; [by rewrite app_nil_r|].
  intros [He Hl] Hl'. split; [done|]. apply IH; [done|]. by rewrite <- (assoc_L (++)).
Qed.

Lemma along_all pre log : Forall (λ e, ∀ pre, P pre e) log → along pre log.
Proof. intros Hlog. revert pre. induction Hlog as [|e log He _ IH]; intros pre; cbn; auto. Qed.
End along.

Section calls.
Context `{KmetaLaws, !KnativeController, !KnativeControllerLaws, !SchemaGuess}.
Context `{!SemanticEquality, !SemanticEqualityLaws, !ConditionManager}.
Context `{!KnativeReconciler controller_event ServiceBinding ServiceBindingStatus}.
Context `{!KnativeReconcilerLaws controller_event ServiceBinding ServiceBindingStatus}.
Context {PServer BServer : Type} `{!ApiServer PServer, !ApiServerLaws}.
Context `{!BindingServer BServer, !BindingServerLaws}.
Context `{!UidNames}.
Context `{!BindingProcessing}.
Implicit Types (b : ServiceBinding) (p q : ServiceBindingProjection) (k : object_name).
Implicit Types (e : controller_event) (calls log : list controller_event).
Implicit Types (σ : system (PServer := PServer) (BServer := BServer)).

(** The binding that the worker got from its lister. *)
Definition listed k b calls : Prop := inl (EvListerGet k.1 k.2 (Ok b)) ∈ calls.

Lemma listed_app k b calls calls' : listed k b calls → listed k b (calls ++ calls').
Proof. intros Hb. apply elem_of_app. by left. Qed.

(** What a worker of [k] may call after [calls], as far as it matters to others. *)
Definition protocol k calls e : Prop :=
  match e with
  | inl (EvUpdateStatus namespace c (Ok _)) =>
      ∃ base st, c = kind_set_status base st ∧ namespace = ns base ∧
        (listed k base calls ∨ inl (EvClientGet k.1 k.2 (Ok base)) ∈ calls)
  | inr (EvResolver e) => ∃ b, listed k b calls ∧
      match e with
      | EvTrackReference ref parent _ => ref = service_of b ∧ (Meta_Namespace parent, Meta_Name parent) = k
      | EvInformer gvr _ => gvr = resourceFor (service_of b) ∧
          ∃ parent, inr (EvResolver (EvTrackReference (service_of b) parent None)) ∈ calls
      | EvLookup gvr namespace n _ =>
          gvr = resourceFor (service_of b) ∧ namespace = Reference_Namespace (service_of b) ∧
          n = Reference_Name (service_of b) ∧
          ∃ parent, inr (EvResolver (EvTrackReference (service_of b) parent None)) ∈ calls
      end
  | inr (EvCreateProjection namespace desired (Ok _)) => ∃ b secret,
      listed k b calls ∧ namespace = ns b ∧ asks (SB.SetDefaults b) secret desired
  | inr (EvUpdateProjection namespace new (Ok _)) => ∃ b p secret desired,
      listed k b calls ∧ inr (EvGetProjection k.1 k.2 (Ok p)) ∈ calls ∧ namespace = ns b ∧
      IsControlledBy (SBP_Meta p) (SB_Meta b) = true ∧ asks (SB.SetDefaults b) secret desired ∧
      new = withDesired desired p
  | _ => True
  end.

Lemma protocol_resolver k b service pre (calls : list resolver_event) r :
  listed k b pre → key_of b = k → SBSpec_Service (SB_Spec b) = Some service →
  resolves (serviceRef (SB.SetDefaults b) service) (SB_Meta (SB.SetDefaults b)) calls r →
  along (protocol k) pre (map inr (map EvResolver calls)).
Proof.
  intros Hb Hkey Hs Hr. rewrite (service_of_default b service Hs), SetDefaults_meta in Hr.
  assert (∀ l, listed k b (pre ++ l)) as Hl by (intros l; apply elem_of_app; by left).
  destruct Hr; cbn; repeat split; try exact I;
    exists b; rewrite <- ?(assoc_L (++)); (split; [first [done|apply Hl]|]); split_and?; try done; try apply (conj eq_refl Hkey);
    exists (SB_Meta b); apply elem_of_app; right; by left.
Qed.

Lemma protocol_projects k b b' secret desired pre new r :
  listed k b pre → key_of b = k → SB_Meta b' = SB_Meta b → asks (SB.SetDefaults b) secret desired →
  projects b' desired new r → along (protocol k) pre (map inr new).
Proof.
  intros Hb <- Hmeta Hask Hp. assert (∀ l, listed (key_of b) b (pre ++ l)) as Hl by (intros l; apply elem_of_app; by left).
  assert (ns b' = ns b ∧ name b' = name b) as [Hns Hn] by (unfold ns, name; by rewrite Hmeta).
  destruct Hp; rewrite ?Hns, ?Hn, ?Hmeta in *; cbn; split_and?; try exact I.
  - by exists b, secret.
  - exists b, p, secret, desired. split_and!; [done| |done..]. apply elem_of_app; right; by left.
Qed.

Lemma protocol_quiet k (l : list (kind_event ServiceBinding)) pre : Forall not_stored l → along (protocol k) pre (map inl l).
Proof.
  intros Hq. apply along_all, Forall_map. eapply Forall_impl; [exact Hq|]. intros e He pre'. by destruct e as [| |? ? []| |].
Qed.

Lemma protocol_updates k b b' pre updates err :
  listed k b pre → key_of b' = k → update_shape b b' updates err → along (protocol k) pre (map inl updates).
Proof.
  intros Hb Hkey [updates0 err0 Hq _|upre base q Hq Hbase]; [by apply protocol_quiet|].
  rewrite map_app. apply along_app; [by apply protocol_quiet|]. cbn. split; [|done].
  exists base, (kind_status b'). split_and!; [done|done|]. destruct Hbase as [->|Hin]; [left|right].
  - apply elem_of_app. by left.
  - apply elem_of_app. right. apply list_elem_of_fmap. exists (EvClientGet k.1 k.2 (Ok base)).
    split; [done|]. by rewrite <- Hkey.
Qed.

Lemma run_protocol kenv benv k b res log :
  key_of b = k → run_of kenv benv k b res log → along (protocol k) [] log.
Proof.
  intros Hkey [_ -> _|service b' ev new updates tail err Hs -> Hrec _ _ Htail Hupd _]; [done|].
  cbn [along]. split; [exact I|]. cbn [app]. set (pre := [inl (EvListerGet k.1 k.2 (Ok b))] : list controller_event).
  assert (∀ l, listed k b (pre ++ l)) as Hl by (intros l; apply elem_of_app; left; by left).
  assert (SB_Meta b' = SB_Meta b ∧ along (protocol k) pre (map inr new)) as [Hmeta Hnew].
  { destruct Hrec as [d Hd|t calls err' _ Hr|t calls secret b1 desired calls' err' _ Hr Hav Hm Hp
      |t calls secret b1 desired calls' p status _ Hr Hav Hm Hp Hprop].
    - by rewrite SetDefaults_meta.
    - split; [by cbn; rewrite SetDefaults_meta|]. cbn. split; [exact I|]. eapply protocol_resolver; [apply Hl|done..].
    - destruct (available_asks _ _ _ _ _ Hav Hm) as [Hmeta Hask]. rewrite SetDefaults_meta in Hmeta. split; [done|].
      cbn. split; [exact I|]. rewrite map_app. apply along_app; [eapply protocol_resolver; [apply Hl|done..]|].
      eapply (protocol_projects k b b1 secret); [|done..]. apply listed_app; by left.
    - destruct (available_asks _ _ _ _ _ Hav Hm) as [Hmeta Hask]. rewrite SetDefaults_meta in Hmeta. split; [done|].
      cbn. split; [exact I|]. rewrite map_app. apply along_app; [eapply protocol_resolver; [apply Hl|done..]|].
      eapply (protocol_projects k b b1 secret); [|done..]. apply listed_app; by left. }
  apply along_app; [done|]. rewrite map_app. apply along_app; [|by apply protocol_quiet].
  destruct Hupd as [(-> & _)|(_ & Hshape & _)]; [done|].
  eapply (protocol_updates k b b'); [apply Hl| |done]. unfold key_of, ns, name in *. by rewrite Hmeta.
Qed.
(** ** Runs *)
Lemma found_emits (kenv : KindEnv controller_event ServiceBinding) (benv : BindingEnv controller_event) b :
  emits (λ _, True) (reconcile_found kenv (BindingReconciler.ReconcileKind inr benv) b).
Proof.
  assert (∀ (ev : option Event), emits (λ _ : controller_event, True) (reportEvent (K := ServiceBinding) inl ev)) as Hreport.
  { intros ev l. rewrite reportEvent_eq. eexists. split; [done|]. by apply Forall_true. }
  unfold reconcile_found. case_match; [apply emits_ret|]. apply emits_bind.
  - unfold BindingReconciler.ReconcileKind, provisionedSecret, now, resolve.
    unfold serviceBindingProjection, reconcileServiceBindingProjection, createServiceBindingProjection.
    unfold ServiceableFromObjectReference, GetProjection, TrackReference, informer_Get, lister_Get.
    solve_emits; done.
  - intros [r ev]. cbn zeta. case_match; [apply Hreport|]. apply emits_bind.
    + intros l. destruct (updateStatus_shape inl kenv b (PostProcessReconcile r b) l) as (? & ? & -> & _).
      eexists. split; [done|]. by apply Forall_true.
    + intros [|]; [|apply Hreport]. solve_emits; done.
Qed.

(** What the code does with a key. *)
Inductive run_case (leads : bool) k (res : outcome (option failure)) log : Prop :=
| run_skips r :
    leads = false → log = [] → res = Done r → r = None ∨ r = Some (FSkipKey (key_string k)) → run_case leads k res log
| run_invalid : slash_free k.1 && slash_free k.2 = false → log = [] → run_case leads k res log
| run_unlisted err : log = [inl (EvListerGet k.1 k.2 (Err err))] → run_case leads k res log
| run_listed b rest :
    log = inl (EvListerGet k.1 k.2 (Ok b)) :: rest →
    (complete b → ∃ kenv benv r, res = Done r ∧ run_of kenv benv k b r log) → run_case leads k res log.

Lemma run_cases leads k res log : runs_to leads k res log → run_case leads k res log.
Proof.
  intros (kenv & benv & Hrun). destruct leads.
  2: { destruct (skipped_run_eq kenv benv (λ _ _, false) k eq_refl) as (r & Hskip & Hr).
       rewrite Hskip in Hrun. injection Hrun as <- <-. by eapply run_skips. }
  destruct (slash_free k.1 && slash_free k.2) eqn:Hk.
  2: { rewrite invalid_run_eq in Hrun by done. injection Hrun as <- <-. by apply run_invalid. }
  apply andb_true_iff in Hk as [Hns Hn]. rewrite led_run_eq in Hrun by done. cbn zeta in Hrun.
  destruct (env_ListerGet kenv k.1 k.2 []) as [b|err]; [|injection Hrun as _ <-; by eapply run_unlisted].
  destruct (found_emits kenv benv b [inl (EvListerGet k.1 k.2 (Ok b))]) as (rest & Hlog & _).
  rewrite Hrun in Hlog. cbn in Hlog. apply (run_listed _ _ _ _ b rest Hlog). intros Hc.
  destruct (found_run kenv benv k b Hc) as (r & log' & Hrun' & Hof). rewrite Hrun in Hrun'. injection Hrun' as -> <-.
  by exists kenv, benv, r.
Qed.

(** What the worker calls is as the protocol says, when what it got from its lister is a
    binding that can be stored. *)
Lemma next_call k w e :
  may_call k w e → (∀ b, listed k b (w_calls w ++ [e]) → admitted k b) → protocol k (w_calls w) e.
Proof.
  intros (res & rest & Hrun%run_cases) Hadm.
  destruct Hrun as [r _ Hlog|_ Hlog|err Hlog|b rest' Hlog Hof]; [by destruct (w_calls w)..| |].
  - destruct (w_calls w) as [|? [|]]; [|done..]. by injection Hlog as -> _.
  - assert (admitted k b) as Hb.
    { apply Hadm. destruct (w_calls w) as [|e' calls]; injection Hlog as -> _; by left. }
    destruct Hof as (kenv & benv & r & _ & Hof); [apply Hb|].
    eapply (along_at (protocol k) []). eapply run_protocol; [apply Hb|exact Hof].
Qed.

(** ** What a worker has learnt *)

(** What it got is in the records, and stays there. *)
Definition recorded σ e : Prop :=
  match e with
  | inl (EvListerGet namespace n (Ok b)) | inl (EvClientGet namespace n (Ok b)) => admitted (namespace, n) b
  | inr (EvGetProjection namespace n (Ok p)) => api_seen (projections σ) (namespace, n) p ∧ owner_named p
  | _ => True
  end.

(** A call that failed: the reconciliation will fail. *)
Definition in_vain (e : resolver_event) : Prop :=
  match e with
  | EvTrackReference _ _ (Some _) | EvInformer _ (Some _) | EvLookup _ _ _ (Err _) => True
  | _ => False
  end.

(** What the worker of the stored binding [b] read is still so, and it wrote nothing. *)
Definition fresh σ k b e : Prop :=
  match e with
  | inl (EvListerGet namespace n r) => (namespace, n) = k → r = Ok b
  | inl (EvClientGet namespace n (Ok c)) => (namespace, n) = k → c = b
  | inl (EvUpdateStatus _ _ (Ok _)) => False
  | inr (EvResolver e) => in_vain e ∨
      finds (service_of b) e ∧ resolver_answers (services σ) e ∧ (k, service_of b) ∈ tracked σ
  | inr (EvGetProjection namespace n (Ok p)) =>
      (namespace, n) = k → IsControlledBy (SBP_Meta p) (SB_Meta b) = true → api_get (projections σ) k = Some p
  | inr (EvCreateProjection _ _ (Ok _)) | inr (EvUpdateProjection _ _ (Ok _)) => False
  | _ => True
  end.
Lemma resolves_fresh σ k b (calls : list resolver_event) secret :
  resolves (service_of b) (SB_Meta b) calls (Ok (Some secret)) →
  Forall (fresh σ k b) (map inr (map EvResolver calls)) →
  resolution (services σ) (service_of b) (SB_Meta b) secret ∧
  (is_secret (service_of b) ∨ (k, service_of b) ∈ tracked σ).
Proof.
  intros Hr Hf. assert (Forall (λ e : resolver_event, in_vain e ∨ finds (service_of b) e ∧ resolver_answers (services σ) e ∧
    (k, service_of b) ∈ tracked σ) calls) as Hcalls by (by rewrite map_map, Forall_map in Hf).
  split.
  - exists calls. split; [done|].
    inversion Hr as [| | | | |t Hns]; subst; [constructor|].
    apply Forall_forall. intros e He. destruct (proj1 (Forall_forall _ _) Hcalls e He) as [Hv|(_ & Ha & _)]; [|done].
    rewrite !elem_of_cons, elem_of_nil in He. by destruct He as [->|[->|[->|[]]]].
  - inversion Hr as [| | | | |t Hns]; subst; [by left|right].
    by apply Forall_cons in Hcalls as [[[]|(_ & _ & Ht)] _].
Qed.

Lemma projects_fresh σ k b b' desired new p :
  key_of b = k → SB_Meta b' = SB_Meta b → projects b' desired new (Ok p) → Forall (fresh σ k b) (map inr new) →
  api_get (projections σ) k = Some p ∧ IsControlledBy (SBP_Meta p) (SB_Meta b) = true ∧ same_projection desired p = true.
Proof.
  intros <- Hmeta Hp Hf. assert (ns b' = ns b ∧ name b' = name b) as [Hns Hn] by (unfold ns, name; by rewrite Hmeta).
  rewrite Forall_map in Hf. inversion Hp as [e p' He| | | |p' Hc Hs|p' p'' Hc Hs|]; subst;
    repeat (apply Forall_cons in Hf as [? Hf]); cbn in *; try done.
  rewrite Hmeta in Hc. split_and!; [|done|done]. by rewrite Hns, Hn in *; auto.
Qed.

(** The status of [b] is what the worker wanted it to be. *)
Lemma updates_fresh σ k b b' updates :
  key_of b = k → SB_Meta b' = SB_Meta b →
  updates = [] ∧ SB_Status b = SB_Status b' ∨ update_shape b b' updates None →
  Forall (fresh σ k b) (map inl updates) → SB_Status b = SB_Status b'.
Proof.
  intros <- Hmeta [[_ Hst]|Hshape] Hf; [done|]. rewrite Forall_map in Hf.
  inversion Hshape as [new err Hq Herr|pre base q Hq Hb]; subst.
  - destruct (Herr eq_refl) as (base & Heq%reflect_status & [->|Hin]); [done|].
    change (SB_Status base = SB_Status b') in Heq.
    eapply Forall_forall in Hf; [|exact Hin]. cbn in Hf. change (kind_meta b') with (SB_Meta b') in Hf.
    rewrite Hmeta in Hf. by rewrite <- Heq, Hf.
  - apply Forall_app in Hf as [_ Hf]. by apply Forall_cons in Hf as [[] _].
Qed.

(** When the worker returns, its key is queued again, or all is in sync. *)
Lemma return_rested σ k w res b :
  may_return k w res → w_leads w = true → admitted k b → Meta_DeletionTimestamp (SB_Meta b) = None →
  Forall (fresh σ k b) (w_calls w) → k ∈ requeued_unskipped k res ∨ rested σ k b.
Proof.
  intros Hrun%run_cases Hled Hadm Hl Hf. pose proof Hadm as (Hkey & _ & Hc & Hsl).
  destruct Hrun as [r Hf' _ _|Hk _|err Hlog|b0 rest Hlog Hof]; [congruence|by rewrite (proj1 Hsl), (proj2 Hsl) in Hk|..].
  { rewrite Hlog in Hf. apply Forall_cons in Hf as [Hf _]. exfalso. cbn in Hf. destruct k. by specialize (Hf eq_refl). }
  assert (b0 = b) as ->.
  { rewrite Hlog in Hf. apply Forall_cons in Hf as [Hf _]. cbn in Hf. destruct k. by specialize (Hf eq_refl) as [= ->]. }
  destruct (Hof Hc) as (kenv & benv & r & -> & Hran). clear Hof Hlog.
  destruct Hran as [Hdel _ _|service b' ev new updates tail err Hs Hlog Hrec _ _ _ Hupd ->]; [done|].
  destruct err as [err|]; [left; cbn; by apply elem_of_singleton|].
  rewrite Hlog in Hf. apply Forall_cons in Hf as [_ [Hnew Hf]%Forall_app].
  rewrite map_app in Hf. apply Forall_app in Hf as [Hf _].
  inversion Hrec as [d Hd|t calls err' _ Hr|t calls secret b1 desired calls' err' _ Hr Hav Hm Hp
    |t calls secret b1 desired calls' p status _ Hr Hav Hm Hp Hprop]; subst new b' ev.
  - rewrite SetDefaults_meta in Hd. congruence.
  - left. cbn. by apply elem_of_singleton.
  - left. cbn. by apply elem_of_singleton.
  - right. cbn [map] in Hnew. apply Forall_cons in Hnew as [_ Hnew]. rewrite map_app in Hnew.
    apply Forall_app in Hnew as [Hcalls Hnew].
    destruct (available_asks _ _ _ _ _ Hav Hm) as [Hmeta Hask]. rewrite SetDefaults_meta in Hmeta.
    rewrite (service_of_default b service Hs), SetDefaults_meta in Hr.
    destruct (resolves_fresh σ k b calls secret Hr Hcalls) as [Hres Ht].
    destruct (projects_fresh σ k b b1 desired calls' p Hkey Hmeta Hp Hnew) as (Hg & Hcb & Hsame).
    assert (SB_Status b = SB_Status (set_SB_Status b1 (SB.set_ObservedGeneration status (Meta_Generation (SB_Meta b1))))) as Hst.
    { eapply (updates_fresh σ k b _ updates); [done|exact Hmeta| |exact Hf].
      destruct Hupd as [(? & _ & ?)|(_ & ? & _)]; auto. }
    split; [|done]. exists secret, p. split_and!; [done|done| |].
    + split; [by rewrite SetDefaults_meta|by exists desired].
    + eapply reports_same; [|exact Hst|by eapply propagated_reports]. exact Hmeta.
Qed.
End calls.
