(* ===== verification/Replay.v ===== *)
(** * Workers go on, and return

    A worker that has got some answers can go on, whatever the next ones are: run again with
    the answers that it has got ([replay_kind], [replay_binding]), the code makes the same
    calls ([replay_run]).  And no run makes more than [most_calls] calls. *)
From S2P Require Import Prelude Api Conditions Effects Projection Binding BindingFacts.
From S2P Require Import Resolver Resources BindingReconciler BindingReconcilerFacts Cluster ClusterFacts.
From S2P Require Import KindReconciler Kinds KindReconcilerFacts ClientsFacts Controllers ControllersFacts.
From S2P Require Import System SystemRuns Replicas Workers WorkerCalls.

(** ** Two runs of the same code *)
Section sync.
Context {E : Type} (A : list E → E → Prop) (same : E → E → Prop).

(** The logs agree up to two answers to the same call. *)
Definition diverge (n1 n2 : list E) : Prop := ∃ pre e1 e2 r1 r2,
  n1 = pre ++ e1 :: r1 ∧ n2 = pre ++ e2 :: r2 ∧ e1 ≠ e2 ∧ same e1 e2.

(** Both make the same calls as long as they get the same answers; the answers of the second
    are those of [A]. *)
Definition sync {X} (m1 m2 : M E X) : Prop := ∀ log, ∃ n1 n2,
  (m1 log).2 = log ++ n1 ∧ (m2 log).2 = log ++ n2 ∧ along A log n2 ∧ (m1 log = m2 log ∨ diverge n1 n2).

Lemma sync_quiet {X} (m : M E X) : (∀ log, (m log).2 = log) → sync m m.
Proof.
  intros Hm log. exists [], []. rewrite !app_nil_r, Hm. split_and!; [done|done|done|by left].
Qed.

Lemma sync_ret {X} (x : X) : sync (ret x) (ret x).
Proof. by apply sync_quiet. Qed.
Lemma sync_pure {X} (o : outcome X) : sync (pure o) (pure o).
Proof. by apply sync_quiet. Qed.

Lemma sync_call {R} `{EqDecision R} (ask1 ask2 : list E → R) ev :
  (∀ log, A log (ev (ask2 log))) → (∀ r1 r2, same (ev r1) (ev r2)) → Inj (=) (=) ev →
  sync (call ask1 ev) (call ask2 ev).
Proof.
  intros HA Hsame Hinj log. exists [ev (ask1 log)], [ev (ask2 log)]. split_and!; [done|done|by split|].
  destruct (decide (ask1 log = ask2 log)) as [Heq|Hne]; [left; unfold call; by rewrite Heq|right].
  exists [], (ev (ask1 log)), (ev (ask2 log)), [], []. split_and!; [done|done|by intros ?%Hinj|done].
Qed.

Lemma diverge_app n1 n2 n1' n2' : diverge n1 n2 → diverge (n1 ++ n1') (n2 ++ n2').
Proof.
  intros (pre & e1 & e2 & r1 & r2 & -> & -> & Hne & Hs).
  exists pre, e1, e2, (r1 ++ n1'), (r2 ++ n2'). by rewrite <- !(assoc_L (++)).
Qed.

Lemma diverge_pre n n1 n2 : diverge n1 n2 → diverge (n ++ n1) (n ++ n2).
Proof.
  intros (pre & e1 & e2 & r1 & r2 & -> & -> & Hne & Hs).
  exists (n ++ pre), e1, e2, r1, r2. by rewrite !(assoc_L (++)).
Qed.

(** What follows extends the logs. *)
Lemma sync_after1 {X Y} (f1 f2 : X → M E Y) (o : outcome X) log :
  (∀ x, sync (f1 x) (f2 x)) →
  ∃ n, (match o with Done x => f1 x log | Panic => (Panic, log) end).2 = log ++ n.
Proof.
  intros Hf. destruct o as [x|]; [|exists []; by rewrite app_nil_r]. destruct (Hf x log) as (n1 & _ & Hn & _). by exists n1.
Qed.

Lemma sync_after2 {X Y} (f1 f2 : X → M E Y) (o : outcome X) log :
  (∀ x, sync (f1 x) (f2 x)) →
  ∃ n, (match o with Done x => f2 x log | Panic => (Panic, log) end).2 = log ++ n ∧ along A log n.
Proof.
  intros Hf. destruct o as [x|]; [|exists []; by rewrite app_nil_r].
  destruct (Hf x log) as (_ & n2 & _ & Hn & Ha & _). by exists n2.
Qed.

Lemma sync_bind {X Y} (m1 m2 : M E X) (f1 f2 : X → M E Y) :
  sync m1 m2 → (∀ x, sync (f1 x) (f2 x)) → sync (bind m1 f1) (bind m2 f2).
Proof.
  intros Hm Hf log. destruct (Hm log) as (n1 & n2 & H1 & H2 & HA & Heq). unfold bind.
  destruct (m1 log) as [o1 l1], (m2 log) as [o2 l2]. cbn in H1, H2. subst l1 l2.
  destruct Heq as [[= <- <-%app_inv_head]|Hd].
  - destruct o1 as [x|]; [|exists n1, n1; split_and!; [done|done|done|by left]].
    destruct (Hf x (log ++ n1)) as (n1' & n2' & H1 & H2 & HA' & Heq).
    exists (n1 ++ n1'), (n1 ++ n2'). rewrite H1, H2, !(assoc_L (++)). split_and!; [done|done|by apply along_app|].
    destruct Heq as [?|Hd]; [by left|right; by apply diverge_pre].
  - destruct (sync_after1 f1 f2 o1 (log ++ n1) Hf) as (n1' & H1).
    destruct (sync_after2 f1 f2 o2 (log ++ n2) Hf) as (n2' & H2 & HA').
    exists (n1 ++ n1'), (n2 ++ n2'). rewrite H1, H2, !(assoc_L (++)).
    split_and!; [done|done|by apply along_app|right; by apply diverge_app].
Qed.

(** If the second run gets the answers of the first for a while, it makes the same calls. *)
Lemma sync_prefix {X} (m1 m2 : M E X) calls rest :
  sync m1 m2 → (m1 []).2 = calls ++ rest →
  (∀ pre e1 e2 r, calls = pre ++ e1 :: r → same e1 e2 → A pre e2 → e1 = e2) →
  ∃ rest', (m2 []).2 = calls ++ rest' ∧ along A [] (calls ++ rest').
Proof.
  intros Hm H1 Hans. destruct (Hm []) as (n1 & n2 & Hn1 & Hn2 & HA & Heq). cbn in Hn1, Hn2. rewrite H1 in Hn1. subst n1.
  rewrite Hn2. destruct Heq as [Heq|(pre & e1 & e2 & r1 & r2 & Hc & -> & Hne & Hs)].
  { exists rest. rewrite Heq, Hn2 in H1. by subst n2. }
  destruct (decide (length calls ≤ length pre)) as [Hlen|Hlen].
  - assert (∃ pre', pre = calls ++ pre') as [pre' ->].
    { exists (drop (length calls) pre). rewrite <- (take_drop (length calls) pre) at 1. f_equal.
      apply (f_equal (take (length calls))) in Hc.
      rewrite take_app_length, take_app_le in Hc by done. done. }
    exists (pre' ++ e2 :: r2). by rewrite <- (assoc_L (++)) in HA |- *.
  - exfalso. apply Hne. apply (Hans pre e1 e2 (take (length calls - S (length pre)) r1)); [|done|by eapply (along_at A [])].
    apply (f_equal (take (length calls))) in Hc. rewrite take_app_length in Hc. rewrite Hc at 1.
    rewrite take_app_ge by lia. f_equal. destruct (length calls - length pre) as [|n] eqn:Hn; [lia|]. cbn. f_equal. f_equal. lia.
Qed.
End sync.

(** ** Decidable equality of calls *)
#[export] Instance result_eq_dec {A} `{EqDecision A} : EqDecision (result error A).
Proof. solve_decision. Defined.
#[export] Instance ServiceableType_eq_dec `{Opaque} : EqDecision ServiceableType.
Proof. solve_decision. Defined.
#[export] Instance RuntimeObject_eq_dec `{Opaque} : EqDecision RuntimeObject.
Proof. solve_decision. Defined.
#[export] Instance resolver_event_eq_dec `{Opaque} : EqDecision resolver_event.
Proof. solve_decision. Defined.
#[export] Instance ServiceBindingProjection_eq_dec `{Opaque} : EqDecision ServiceBindingProjection.
Proof. solve_decision. Defined.
#[export] Instance binding_event_eq_dec `{Opaque} : EqDecision binding_event.
Proof. solve_decision. Defined.
#[export] Instance kind_event_eq_dec {K} `{EqDecision K} : EqDecision (kind_event K).
Proof. solve_decision. Defined.
#[export] Instance controller_event_eq_dec `{Opaque} : EqDecision controller_event.
Proof. unfold controller_event. apply _. Defined.

(** ** Replaying *)
Section replay.
Context `{KmetaLaws, !KnativeController, !SchemaGuess}.
Context `{!SemanticEquality, !ConditionManager}.
Context `{!KnativeReconciler controller_event ServiceBinding ServiceBindingStatus}.
Context `{!KnativeReconcilerLaws controller_event ServiceBinding ServiceBindingStatus}.
Context {PServer BServer : Type} `{!ApiServer PServer, !BindingServer BServer}.
Context `{!UidNames}.
Context `{!BindingProcessing}.
Implicit Types (σ : system (PServer := PServer) (BServer := BServer)).
Implicit Types (calls : list controller_event) (k : object_name).

(** The answer that was given to the call at this place of the log, or the one now. *)
Definition answer_at {R} calls (log : list controller_event) (given : controller_event → option R) (now : R) : R :=
  match calls !! length log with Some e => default now (given e) | None => now end.

Definition replay_kind calls σ : KindEnv controller_event ServiceBinding := {|
  env_ListerGet namespace n log := answer_at calls log
    (λ e, match e with inl (EvListerGet _ _ r) => Some r | _ => None end) (env_ListerGet (kind_env σ) namespace n log);
  env_ClientGet namespace n log := answer_at calls log
    (λ e, match e with inl (EvClientGet _ _ r) => Some r | _ => None end) (env_ClientGet (kind_env σ) namespace n log);
  env_UpdateStatus namespace b log := answer_at calls log
    (λ e, match e with inl (EvUpdateStatus _ _ r) => Some r | _ => None end) (env_UpdateStatus (kind_env σ) namespace b log);
  env_PatchFinalizers namespace n fs version log := env_PatchFinalizers (kind_env σ) namespace n fs version log;
|}.

Definition replay_resolver calls (env : ResolverEnv controller_event) : ResolverEnv controller_event := {|
  env_TrackReference ref parent log := answer_at calls log
    (λ e, match e with inr (EvResolver (EvTrackReference _ _ r)) => Some r | _ => None end) (env_TrackReference env ref parent log);
  env_Informer gvr log := answer_at calls log
    (λ e, match e with inr (EvResolver (EvInformer _ r)) => Some r | _ => None end) (env_Informer env gvr log);
  env_Lookup gvr namespace n log := answer_at calls log
    (λ e, match e with inr (EvResolver (EvLookup _ _ _ r)) => Some r | _ => None end) (env_Lookup env gvr namespace n log);
|}.

Definition replay_binding calls σ (clock : Time) : BindingEnv controller_event :=
  let env := binding_env σ clock in {|
  env_now log := answer_at calls log (λ e, match e with inr (EvNow t) => Some t | _ => None end) (env_now env log);
  env_resolver := replay_resolver calls (env_resolver env);
  env_GetProjection namespace n log := answer_at calls log
    (λ e, match e with inr (EvGetProjection _ _ r) => Some r | _ => None end) (env_GetProjection env namespace n log);
  env_CreateProjection namespace p log := answer_at calls log
    (λ e, match e with inr (EvCreateProjection _ _ r) => Some r | _ => None end) (env_CreateProjection env namespace p log);
  env_UpdateProjection namespace p log := answer_at calls log
    (λ e, match e with inr (EvUpdateProjection _ _ r) => Some r | _ => None end) (env_UpdateProjection env namespace p log);
|}.

(** The code goes on from the calls that the worker has made. *)
Definition resume σ (clock : Time) k (w : worker) : outcome (option failure) * list controller_event :=
  ServiceBinding_Reconcile (replay_kind (w_calls w) σ) (replay_binding (w_calls w) σ clock)
    (λ _ _, w_leads w) (key_string k) [].

(** *** The positions of the answers *)

(** The answer to [e] is the one that is given after the log [pre]. *)
Definition replayed calls σ (clock : Time) (pre : list controller_event) (e : controller_event) : Prop :=
  let kenv := replay_kind calls σ in
  let benv := replay_binding calls σ clock in
  match e with
  | inl (EvListerGet namespace n r) => env_ListerGet kenv namespace n pre = r
  | inl (EvClientGet namespace n r) => env_ClientGet kenv namespace n pre = r
  | inl (EvUpdateStatus namespace b r) => env_UpdateStatus kenv namespace b pre = r
  | inl (EvPatchFinalizers namespace n fs version r) => env_PatchFinalizers kenv namespace n fs version pre = r
  | inr (EvNow t) => env_now benv pre = t
  | inr (EvResolver (EvTrackReference ref parent r)) => env_TrackReference (env_resolver benv) ref parent pre = r
  | inr (EvResolver (EvInformer gvr r)) => env_Informer (env_resolver benv) gvr pre = r
  | inr (EvResolver (EvLookup gvr namespace n r)) => env_Lookup (env_resolver benv) gvr namespace n pre = r
  | inr (EvGetProjection namespace n r) => env_GetProjection benv namespace n pre = r
  | inr (EvCreateProjection namespace p r) => env_CreateProjection benv namespace p pre = r
  | inr (EvUpdateProjection namespace p r) => env_UpdateProjection benv namespace p pre = r
  | inl (EvKindRecord _ _ _) | inr (EvRecord _ _ _) => True
  end.

(** The same call, with any answers. *)
Definition same_call (e e' : controller_event) : Prop :=
  match e, e' with
  | inl (EvListerGet namespace n _), inl (EvListerGet namespace' n' _) => namespace = namespace' ∧ n = n'
  | inl (EvClientGet namespace n _), inl (EvClientGet namespace' n' _) => namespace = namespace' ∧ n = n'
  | inl (EvUpdateStatus namespace b _), inl (EvUpdateStatus namespace' b' _) => namespace = namespace' ∧ b = b'
  | inr (EvNow _), inr (EvNow _) => True
  | inr (EvResolver (EvTrackReference ref parent _)), inr (EvResolver (EvTrackReference ref' parent' _)) =>
      ref = ref' ∧ parent = parent'
  | inr (EvResolver (EvInformer gvr _)), inr (EvResolver (EvInformer gvr' _)) => gvr = gvr'
  | inr (EvResolver (EvLookup gvr namespace n _)), inr (EvResolver (EvLookup gvr' namespace' n' _)) =>
      gvr = gvr' ∧ namespace = namespace' ∧ n = n'
  | inr (EvGetProjection namespace n _), inr (EvGetProjection namespace' n' _) => namespace = namespace' ∧ n = n'
  | inr (EvCreateProjection namespace p _), inr (EvCreateProjection namespace' p' _) => namespace = namespace' ∧ p = p'
  | inr (EvUpdateProjection namespace p _), inr (EvUpdateProjection namespace' p' _) => namespace = namespace' ∧ p = p'
  | inl (EvKindRecord _ _ _), inl (EvKindRecord _ _ _) | inr (EvRecord _ _ _), inr (EvRecord _ _ _) => e = e'
  | _, _ => False
  end.

(** A call that was made gets its answer again. *)
Lemma replayed_again calls σ clock pre e e' rest :
  calls = pre ++ e :: rest → same_call e e' → replayed calls σ clock pre e' → e = e'.
Proof.
  intros Hcalls Hs Hr. assert (calls !! length pre = Some e) as Hat by (subst; by apply list_lookup_middle).
  destruct e as [[]|[|[]| | | |]], e' as [[]|[|[]| | | |]]; cbn in Hs; try done;
    cbn in Hr; unfold answer_at in Hr; rewrite ?Hat in Hr; cbn in Hr; naive_solver.
Qed.

(** The next one gets the answer of now. *)
Lemma replayed_now calls σ clock e : replayed calls σ clock calls e → answered σ clock e.
Proof.
  assert (calls !! length calls = None) as Hat by (by apply lookup_ge_None).
  destruct e as [[]|[|[]| | | |]]; cbn; unfold answer_at; rewrite ?Hat; intros Hr; try exact I; by exists calls.
Qed.
(** *** The code, run again *)
Section again.
Context (kenv : KindEnv controller_event ServiceBinding) (benv : BindingEnv controller_event).
Context (calls : list controller_event) (σ : system (PServer := PServer) (BServer := BServer)) (clock : Time).

Notation synced := (sync (replayed calls σ clock) same_call).
Notation kenv' := (replay_kind calls σ).
Notation benv' := (replay_binding calls σ clock).

Ltac solve_sync :=
  repeat first
    [ apply sync_bind; [|intros ?] | apply sync_ret | apply sync_pure
    | apply sync_call; [apply _|intros ?; first [reflexivity|exact I]|intros ? ?; cbn; auto|intros [] [] ?; congruence]
    | case_match ].

Lemma sync_resolve ref parent : synced (resolve inr benv ref parent) (resolve inr benv' ref parent).
Proof.
  unfold resolve, ServiceableFromObjectReference, TrackReference, informer_Get, lister_Get. solve_sync.
Qed.

Lemma sync_projection b : synced (serviceBindingProjection inr benv b) (serviceBindingProjection inr benv' b).
Proof.
  unfold serviceBindingProjection, reconcileServiceBindingProjection, createServiceBindingProjection.
  unfold GetProjection, CreateProjection, UpdateProjection, Eventf. solve_sync.
Qed.

Lemma sync_ReconcileKind b :
  synced (BindingReconciler.ReconcileKind inr benv b) (BindingReconciler.ReconcileKind inr benv' b).
Proof.
  unfold BindingReconciler.ReconcileKind, provisionedSecret, now.
  repeat first [apply sync_resolve | apply sync_projection | progress solve_sync].
Qed.

Lemma sync_attempt desired a b :
  synced (updateStatusAttempt inl kenv desired a b) (updateStatusAttempt inl kenv' desired a b).
Proof. unfold updateStatusAttempt, Client_Get, Client_UpdateStatus. solve_sync. Qed.

Lemma sync_updateStatus b b' : synced (updateStatus inl kenv b b') (updateStatus inl kenv' b b').
Proof.
  assert (∀ n a s, synced (retry n a (updateStatusAttempt inl kenv b') s) (retry n a (updateStatusAttempt inl kenv' b') s))
    as Hretry.
  { induction n as [|n IH]; intros a s; cbn [retry]; (apply sync_bind; [apply sync_attempt|]); intros [err s'];
      repeat case_match; first [apply IH|apply sync_ret]. }
  intros log. unfold updateStatus. rewrite !RetryUpdateConflicts_retry. apply Hretry.
Qed.

Lemma sync_reportEvent (ev : option Event) :
  synced (reportEvent (K := ServiceBinding) inl ev) (reportEvent (K := ServiceBinding) inl ev).
Proof. unfold reportEvent, Recorder_Eventf. solve_sync. Qed.

Lemma sync_found b :
  synced (reconcile_found kenv (BindingReconciler.ReconcileKind inr benv) b)
    (reconcile_found kenv' (BindingReconciler.ReconcileKind inr benv') b).
Proof.
  unfold reconcile_found, Recorder_Eventf.
  repeat first [apply sync_reportEvent | apply sync_updateStatus | apply sync_ReconcileKind | progress solve_sync].
Qed.

(** Run again with the answers of [calls], the code makes these calls, and the answers to
    what comes after them are those of now. *)
Lemma replay_run (leads : bool) k rest res :
  ServiceBinding_Reconcile kenv benv (λ _ _, leads) (key_string k) [] = (res, calls ++ rest) →
  ∃ res' rest', ServiceBinding_Reconcile kenv' benv' (λ _ _, leads) (key_string k) [] = (res', calls ++ rest') ∧
    along (replayed calls σ clock) [] (calls ++ rest').
Proof.
  intros Hrun. destruct leads.
  2: { destruct (skipped_run_eq kenv benv (λ _ _, false) k eq_refl) as (r & Hskip & _). rewrite Hskip in Hrun.
       injection Hrun as _ Hnil. destruct (app_eq_nil _ _ (eq_sym Hnil)) as [Hc _].
       destruct (skipped_run_eq kenv' benv' (λ _ _, false) k eq_refl) as (r' & Hskip' & _).
       exists (Done r'), []. rewrite Hskip'. by rewrite Hc. }
  destruct (slash_free k.1 && slash_free k.2) eqn:Hk.
  2: { rewrite invalid_run_eq in Hrun by done. injection Hrun as _ Hnil.
       destruct (app_eq_nil _ _ (eq_sym Hnil)) as [Hc _]. exists (Done None), [].
       rewrite invalid_run_eq by done. by rewrite Hc. }
  apply andb_true_iff in Hk as [Hns Hn]. rewrite led_run_eq in Hrun |- * by done.
  pose (run (kenv : KindEnv controller_event ServiceBinding) (benv : BindingEnv controller_event) :=
    bind (call (env_ListerGet kenv k.1 k.2) (λ r, inl (EvListerGet k.1 k.2 r))) (λ answer, match answer with
      | Err err => ret (if IsNotFound err then None else Some (FError err))
      | Ok b => reconcile_found kenv (BindingReconciler.ReconcileKind inr benv) b end)).
  assert (synced (run kenv benv) (run kenv' benv')) as Hsync.
  { apply sync_bind; [solve_sync|]. intros [b|err]; [apply sync_found|apply sync_ret]. }
  destruct (sync_prefix _ _ (run kenv benv) (run kenv' benv') calls rest Hsync) as (rest' & Hlog & HA).
  - change (run kenv benv [] = (res, calls ++ rest)) in Hrun. by rewrite Hrun.
  - intros pre e1 e2 r Hc Hs Hr. by eapply replayed_again.
  - exists (run kenv' benv' []).1, rest'. split; [|done]. rewrite <- Hlog.
    change (run kenv' benv' [] = ((run kenv' benv' []).1, (run kenv' benv' []).2)). by destruct (run kenv' benv' []).
Qed.
End again.

(** A worker that has begun a run returns, or makes a call and gets the answer of now. *)
Lemma worker_goes_on σ clock k w res rest :
  runs_to (w_leads w) k res (w_calls w ++ rest) →
  (∃ res', may_return k w res') ∨ ∃ e, may_call k w e ∧ answered σ clock e.
Proof.
  intros (kenv & benv & Hrun). destruct (replay_run kenv benv (w_calls w) σ clock _ _ _ _ Hrun) as (res' & rest' & Hrun' & HA).
  destruct rest' as [|e rest'].
  - left. exists res'. rewrite app_nil_r in Hrun'. by eexists _, _.
  - right. exists e. split; [by eexists res', rest', _, _|]. eapply replayed_now. by eapply (along_at _ []).
Qed.

(** *** How many calls *)
Definition most_calls : nat :=
  10 + 2 * retries (E := controller_event) (K := ServiceBinding) (Status := ServiceBindingStatus).

Section bounded.
Context {E : Type}.

Definition bounded {X} n (m : M E X) : Prop := ∀ log, length (m log).2 ≤ length log + n.

Lemma bounded_ret {X} n (x : X) : bounded n (ret x).
Proof. intros log. cbn. lia. Qed.
Lemma bounded_pure {X} n (o : outcome X) : bounded n (pure o).
Proof. intros log. cbn. lia. Qed.
Lemma bounded_call {R} n (ask : list E → R) ev : bounded (S n) (call ask ev).
Proof. intros log. unfold call. cbn. rewrite length_app. cbn. lia. Qed.
Lemma bounded_le {X} n n' (m : M E X) : n ≤ n' → bounded n m → bounded n' m.
Proof. intros Hle Hm log. specialize (Hm log). lia. Qed.

Lemma bounded_bind {X Y} n n' (m : M E X) (f : X → M E Y) :
  bounded n m → (∀ x, bounded n' (f x)) → bounded (n + n') (bind m f).
Proof.
  intros Hm Hf log. unfold bind. specialize (Hm log). destruct (m log) as [[x|] log']; cbn in *; [|lia].
  specialize (Hf x log'). lia.
Qed.

Lemma bounded_bind_pure {X Y} n (o : outcome X) (f : X → M E Y) :
  (∀ x, bounded n (f x)) → bounded n (bind (pure o) f).
Proof. apply (bounded_bind 0 n), bounded_pure. Qed.
Lemma bounded_bind_ret {X Y} n (x : X) (f : X → M E Y) :
  (∀ x, bounded n (f x)) → bounded n (bind (ret x) f).
Proof. apply (bounded_bind 0 n), bounded_ret. Qed.
Lemma bounded_bind_call {R Y} n (ask : list E → R) ev (f : R → M E Y) :
  (∀ r, bounded n (f r)) → bounded (S n) (bind (call ask ev) f).
Proof. apply (bounded_bind 1 n), bounded_call. Qed.
End bounded.

Ltac solve_bounded := repeat first
  [ apply bounded_ret | apply bounded_pure | apply bounded_call
  | apply bounded_bind_pure; intros ? | apply bounded_bind_ret; intros ? | apply bounded_bind_call; intros ?
  | case_match ].

Section calls.
Context (kenv : KindEnv controller_event ServiceBinding) (benv : BindingEnv controller_event).

Lemma bounded_resolve ref parent : bounded 3 (resolve inr benv ref parent : M controller_event _).
Proof. unfold resolve, ServiceableFromObjectReference, TrackReference, informer_Get, lister_Get. solve_bounded. Qed.

Lemma bounded_create b : bounded 1 (createServiceBindingProjection inr benv b : M controller_event _).
Proof. unfold createServiceBindingProjection, CreateProjection. solve_bounded. Qed.

Lemma bounded_reconcile b p : bounded 1 (reconcileServiceBindingProjection inr benv b p : M controller_event _).
Proof. unfold reconcileServiceBindingProjection, UpdateProjection. solve_bounded. Qed.

Lemma bounded_projection b : bounded 3 (serviceBindingProjection inr benv b : M controller_event _).
Proof.
  unfold serviceBindingProjection, GetProjection, Eventf. solve_bounded.
  - apply (bounded_bind 1 1); [apply bounded_reconcile|]. intros. solve_bounded.
  - apply (bounded_bind 1 1); [apply bounded_create|]. intros. solve_bounded.
Qed.

Lemma bounded_ReconcileKind b : bounded 7 (BindingReconciler.ReconcileKind inr benv b : M controller_event _).
Proof.
  unfold BindingReconciler.ReconcileKind, now, provisionedSecret. case_match; [apply bounded_ret|].
  apply bounded_bind_call. intros t. apply (bounded_bind 3 3); [solve_bounded; apply bounded_resolve|].
  intros [secret|err]; [|apply bounded_ret]. apply (bounded_bind 0 3); [solve_bounded|]. intros b'.
  apply (bounded_bind 3 0); [apply bounded_projection|]. intros [p|err]; [|apply bounded_ret].
  apply (bounded_bind 0 0); [solve_bounded|]. intros. solve_bounded.
Qed.

Lemma bounded_attempt desired a b : bounded 2 (updateStatusAttempt inl kenv desired a b : M controller_event _).
Proof.
  unfold updateStatusAttempt, Client_Get, Client_UpdateStatus. apply (bounded_bind 1 1); [solve_bounded|].
  intros. solve_bounded.
Qed.

Lemma bounded_attempt_first desired b : bounded 1 (updateStatusAttempt inl kenv desired 0 b : M controller_event _).
Proof.
  unfold updateStatusAttempt, Client_UpdateStatus. rewrite bool_decide_eq_false_2 by lia. solve_bounded.
Qed.

Lemma bounded_updateStatus b b' :
  bounded (1 + 2 * retries (E := controller_event) (K := ServiceBinding) (Status := ServiceBindingStatus))
    (updateStatus inl kenv b b').
Proof.
  assert (∀ n a s, bounded (2 * S n) (retry n a (updateStatusAttempt inl kenv b') s : M controller_event _)) as Hretry.
  { induction n as [|n IH]; intros a s; cbn [retry].
    - apply (bounded_bind 2 0); [apply bounded_attempt|]. intros [err s']. solve_bounded.
    - replace (2 * S (S n)) with (2 + 2 * S n) by lia. apply bounded_bind; [apply bounded_attempt|]. intros [err s'].
      repeat case_match; first [apply IH|apply bounded_ret]. }
  assert (∀ n, bounded (1 + 2 * n) (retry n 0 (updateStatusAttempt inl kenv b') b : M controller_event _)) as Hfirst.
  { intros [|n]; cbn [retry].
    - apply (bounded_bind 1 0); [apply bounded_attempt_first|]. intros [err s']. solve_bounded.
    - apply bounded_bind; [apply bounded_attempt_first|]. intros [err s'].
      repeat case_match; first [apply Hretry|apply bounded_ret]. }
  intros log. unfold updateStatus. rewrite RetryUpdateConflicts_retry. apply Hfirst.
Qed.

Lemma bounded_report (ev : option Event) : bounded 1 (reportEvent (K := ServiceBinding) inl ev : M controller_event _).
Proof. unfold reportEvent, Recorder_Eventf. solve_bounded. Qed.

Lemma bounded_found b :
  bounded (9 + 2 * retries (E := controller_event) (K := ServiceBinding) (Status := ServiceBindingStatus))
    (reconcile_found kenv (BindingReconciler.ReconcileKind inr benv) b).
Proof.
  unfold reconcile_found. case_match; [apply bounded_ret|].
  match goal with |- bounded (9 + ?n) _ => replace (9 + n) with (7 + (1 + n + 1)) by lia end.
  apply bounded_bind; [apply bounded_ReconcileKind|]. intros [r ev]. cbn zeta. case_match.
  - eapply bounded_le; [|apply bounded_report]. lia.
  - apply bounded_bind; [apply bounded_updateStatus|]. intros [err|]; [|apply bounded_report].
    unfold Recorder_Eventf. solve_bounded.
Qed.
End calls.

Lemma run_bounded leads k res log : runs_to leads k res log → length log ≤ most_calls.
Proof.
  intros (kenv & benv & Hrun).
  unfold most_calls. destruct leads.
  2: { destruct (skipped_run_eq kenv benv (λ _ _, false) k eq_refl) as (r & Hskip & _). rewrite Hskip in Hrun.
       injection Hrun as _ <-. cbn. lia. }
  destruct (slash_free k.1 && slash_free k.2) eqn:Hk.
  2: { rewrite invalid_run_eq in Hrun by done. injection Hrun as _ <-. cbn. lia. }
  apply andb_true_iff in Hk as [Hns Hn]. rewrite led_run_eq in Hrun by done. cbn zeta in Hrun.
  destruct (env_ListerGet kenv k.1 k.2 []) as [b|err]; [|injection Hrun as _ <-; cbn; lia].
  pose proof (bounded_found kenv benv b [inl (EvListerGet k.1 k.2 (Ok b))]) as Hb. rewrite Hrun in Hb. cbn in Hb |- *. lia.
Qed.
End replay.
