(* ===== verification/WorkersFacts.v ===== *)
(** * No lost wake-ups, whoever overlaps

    In every run of the replicas and their workers, every replica keeps the books of
    [SystemFacts], the keys that it leads and that no worker of it has are guarded, and of a
    key that one of its workers has: what the worker has read is still so, or the key is
    awake ([working]). *)
From S2P Require Import Prelude Api Conditions Effects Projection ProjectionLemmas ProjectionFacts.
From S2P Require Import Binding BindingFacts Resolver Resources BindingReconciler BindingReconcilerFacts.
From S2P Require Import Cluster ClusterFacts EndToEnd.
From S2P Require Import KindReconciler Kinds KindReconcilerFacts ClientsFacts Controllers ControllersFacts.
From S2P Require Import System SystemRuns SystemFacts WakeUps Replicas ReplicasFacts Workers WorkerCalls Replay.

Lemma Forall_unless {A} (Q : Prop) (P : A → Prop) l : Forall (λ x, Q ∨ P x) l → Q ∨ Forall P l.
Proof. induction 1 as [|x l [?|?] _ [?|?]]; auto. Qed.

Lemma Forall2_impl_in {A B} (P Q : A → B → Prop) l l' :
  Forall2 P l l' → (∀ x y, x ∈ l → P x y → Q x y) → Forall2 Q l l'.
Proof.
  induction 1 as [|x y l l' Hxy _ IH]; intros HQ; constructor; [apply HQ; [by left|done]|].
  apply IH. intros. apply HQ; [by right|done].
Qed.

Section facts.
Context `{KmetaLaws, !KnativeController, !KnativeControllerLaws, !SchemaGuess}.
Context `{!SemanticEquality, !SemanticEqualityLaws, !ConditionManager}.
Context `{!KnativeReconciler controller_event ServiceBinding ServiceBindingStatus}.
Context `{!KnativeReconcilerLaws controller_event ServiceBinding ServiceBindingStatus}.
Context {PServer BServer : Type} `{!ApiServer PServer, !ApiServerLaws}.
Context `{!BindingServer BServer, !BindingServerLaws}.
Context `{!UidNames}.
Context `{!BindingProcessing}.
Implicit Types (b : ServiceBinding) (p q : ServiceBindingProjection) (k : object_name) (r : replica).
Implicit Types (e : controller_event) (w : worker) (c : gmap object_name worker) (leads : object_name → bool).
Implicit Types (σ : system (PServer := PServer) (BServer := BServer)).
Implicit Types (ρ : deployment (PServer := PServer) (BServer := BServer)).
Implicit Types (φ : operation (PServer := PServer) (BServer := BServer)).

(** ** What others do *)

(** What happens, as far as it matters to the worker of [k]. *)
Inductive drift k σ : system → Prop :=
| drift_projection ch chs : projectionWatch σ = ch :: chs → drift k σ (deliver_projection σ ch chs)
| drift_binding ch chs : bindingWatch σ = ch :: chs → drift k σ (deliver_binding σ ch chs)
| drift_services env ks :
    (∀ b, b_get (bindings σ) k = Some b → (k, service_of b) ∈ tracked σ →
      k ∈ ks ∨ finds_still (services σ) env (service_of b)) →
    drift k σ (change_services σ env ks)
| drift_wrote σ' :
    wrote σ σ' → services σ' = services σ → (∀ x, x ∈ tracked σ → x ∈ tracked σ') →
    (k ∈ queue σ → k ∈ queue σ') → drift k σ σ'.

Lemma drift_awake k σ σ' : drift k σ σ' → awake σ k → awake σ' k.
Proof.
  intros [ch chs Hw|ch chs Hw|env ks _|σ1 Hw _ _ Hq]; [by apply awake_delivered_projection
    |by apply awake_delivered_binding| |by apply awake_wrote].
  intros [Hk|Hk]; [left; cbn; set_solver|by right].
Qed.

Lemma drift_seen k σ σ' k' p : drift k σ σ' → api_seen (projections σ) k' p → api_seen (projections σ') k' p.
Proof. intros [| | |σ1 Hw _ _ _]; [done..|apply Hw]. Qed.

Lemma drift_tracked k σ σ' x : drift k σ σ' → x ∈ tracked σ → x ∈ tracked σ'.
Proof. intros [| | |σ1 _ _ Ht _]; [done..|apply Ht]. Qed.

(** The stored binding stays, or its key is awake. *)
Lemma wrote_stored σ σ' k :
  books σ → wrote σ σ' → b_get (bindings σ') k = b_get (bindings σ) k ∨ awake σ' k.
Proof.
  intros Hbooks Hw. destruct (wrote_bs _ _ Hw) as [_ Heq|k' o Hbw Hget Hok]; [left; by rewrite Heq|].
  destruct (decide (k = k')) as [<-|Hne]; [|left; by rewrite Hget, decide_False].
  destruct (decide (o = b_get (bindings σ) k)) as [->|Hno]; [left; by rewrite Hget, decide_True|right; right; left].
  rewrite (wrote_bindingCache _ _ Hw), Hbw. apply will_enqueue_new, binding_enqueued; [done|..].
  - intros b. rewrite <- (books_bindings _ Hbooks). intros [Hb|Hb]; [apply (stored_admitted σ k b Hbooks Hb)|by apply Hok].
  - rewrite <- (books_bindings _ Hbooks). destruct o; [by right|left; congruence].
Qed.

Lemma drift_stored k σ σ' :
  books σ → drift k σ σ' → b_get (bindings σ') k = b_get (bindings σ) k ∨ awake σ' k.
Proof. intros Hbooks [| | |σ1 Hw _ _ _]; [by left..|by apply wrote_stored]. Qed.

(** So does the projection of the binding. *)
Lemma drift_owned k σ σ' b p :
  books σ → drift k σ σ' → admitted k b → api_get (projections σ) k = Some p → owned b p →
  api_get (projections σ') k = Some p ∨ awake σ' k.
Proof.
  intros Hbooks [| | |σ1 Hw _ _ _] Hadm Hg Hp; [by left..|].
  destruct (wrote_ps _ _ Hw) as [_ Hsame|k' o Hpw Hget Hok]; [left; by rewrite Hsame|].
  destruct (decide (k = k')) as [<-|Hne]; [right|left; by rewrite Hget, decide_False].
  right; right. rewrite (wrote_projectionCache _ _ Hw), Hpw. rewrite Hg in Hok.
  apply (owned_change_awake σ k b p o (projections σ1)); [done|done|done|done|done|].
  intros q ->. by rewrite Hget, decide_True.
Qed.

(** ** What a worker has read *)
Lemma drift_recorded k σ σ' e : drift k σ σ' → recorded σ e → recorded σ' e.
Proof.
  intros Hd. destruct e as [|[| |? ? []| | |]]; [done|done|done| |done..].
  intros [Hseen Hn]. split; [by eapply drift_seen|done].
Qed.

Lemma drift_fresh k σ σ' b e :
  books σ → drift k σ σ' → b_get (bindings σ) k = Some b → recorded σ e → fresh σ k b e →
  awake σ' k ∨ fresh σ' k b e.
Proof.
  intros Hbooks Hd Hb Hrec Hf. pose proof (stored_admitted σ k b Hbooks Hb) as Hadm.
  destruct e as [|[t|e|namespace n [p|]| | |]]; try (right; exact Hf).
  - destruct Hf as [Hv|(He & Ha & Ht)]; [right; by left|]. pose proof (drift_tracked _ _ _ _ Hd Ht) as Ht'.
    destruct Hd as [ch chs _|ch chs _|env ks Hks|σ1 _ Hsv _ _]; [right; by right..| |right; right; by rewrite Hsv].
    destruct (Hks b Hb Ht) as [Hk|Hk]; [left; left; cbn; set_solver|]. right; right. split_and!; [done|by apply Hk|done].
  - destruct Hrec as [Hseen Hnamed]. cbn in Hf |- *.
    destruct (decide ((namespace, n) = k)) as [<-|]; [|by right].
    destruct (IsControlledBy (SBP_Meta p) (SB_Meta b)) eqn:Hc; [|by right].
    destruct (drift_owned (namespace, n) σ σ' b p) as [Hg|Hk]; [done..|by apply Hf| |by right|by left].
    split_and!; [done|done|]. pose proof (seen_named _ _ _ Hseen) as [= -> _]. by destruct Hadm as [[= <- _] _].
Qed.

(** What holds of a worker: what it has read is still so, or its key is awake; and so it is
    when it will skip the key although its replica has become the leader. *)
Record working σ leads k w : Prop := {
  working_recorded : Forall (recorded σ) (w_calls w);
  working_fresh b : b_get (bindings σ) k = Some b → awake σ k ∨ Forall (fresh σ k b) (w_calls w);
  working_follower b : w_leads w = false → leads k = true → b_get (bindings σ) k = Some b → awake σ k;
}.

Lemma drift_working k σ σ' leads w : books σ → drift k σ σ' → working σ leads k w → working σ' leads k w.
Proof.
  intros Hbooks Hd [Hrec Hf Hl].
  assert (∀ b, b_get (bindings σ') k = Some b → b_get (bindings σ) k = Some b ∨ awake σ' k) as Hst.
  { intros b Hb. destruct (drift_stored k σ σ' Hbooks Hd) as [Heq|]; [left; congruence|by right]. }
  split.
  - eapply Forall_impl; [exact Hrec|]. intros e. by apply (drift_recorded k).
  - intros b Hb. destruct (Hst b Hb) as [Hb0|]; [|by left].
    destruct (Hf b Hb0) as [Hk|Hcalls]; [left; by eapply drift_awake|]. apply Forall_unless.
    apply Forall_forall. intros e He. apply (drift_fresh k σ); [done..| |]; by eapply Forall_forall in He.
  - intros b Hw Hk Hb. destruct (Hst b Hb) as [Hb0|]; [|done]. by eapply drift_awake; [|by eapply Hl].
Qed.
(** ** A call *)

(** What the worker learns from a call, and what others notice of it. *)
Record learns σ k e : Prop := {
  learns_wrote : wrote σ (performed σ e);
  learns_recorded : recorded (performed σ e) e;
  learns_fresh b : b_get (bindings (performed σ e)) k = Some b → awake (performed σ e) k ∨ fresh (performed σ e) k b e;
}.

Definition reads e : Prop :=
  match e with
  | inl (EvUpdateStatus _ _ (Ok _)) | inr (EvCreateProjection _ _ _) | inr (EvUpdateProjection _ _ _) => False
  | _ => True
  end.

Lemma performed_reads σ e : reads e → performed σ e = track_calls σ [e].
Proof.
  intros He. unfold performed, write_status, write_projection, track_calls. cbn.
  destruct e as [[| |? ? []| |]|]; [..|destruct b]; cbn in *; rewrite ?app_nil_r; done.
Qed.

Lemma wrote_track_calls σ log : wrote σ (track_calls σ log).
Proof. by split; [..|apply wrote_no_projection|apply wrote_no_binding]. Qed.

Lemma drift_track_calls k σ log : drift k σ (track_calls σ log).
Proof. apply drift_wrote; [apply wrote_track_calls|done| |done]. intros x Hx. cbn. apply elem_of_app. by left. Qed.

Lemma reads_learns σ k e :
  reads e → recorded σ e →
  (∀ b, b_get (bindings σ) k = Some b → awake σ k ∨ fresh (track_calls σ [e]) k b e) → learns σ k e.
Proof.
  intros He Hrec Hf. split; rewrite performed_reads by done; [apply wrote_track_calls| |exact Hf].
  by apply (drift_recorded k σ); [apply drift_track_calls|].
Qed.

Lemma performed_seen σ e k p : api_seen (projections σ) k p → api_seen (projections (performed σ e)) k p.
Proof. apply seen_kept. Qed.

(** A projection was written. *)
Lemma changed_learns σ k (e : binding_event) b q :
  books σ → admitted k b → projection_change e = Some (k, Some q) →
  changed (projections σ) (SB.SetDefaults b) q (projections (performed σ (inr e))) → learns σ k (inr e).
Proof.
  intros Hbooks Hadm He Hch. pose proof Hadm as (Hkey & Hid & _).
  assert (identified (SB.SetDefaults b)) as Hid' by (unfold System.identified, name; by rewrite SetDefaults_meta).
  rewrite <- Hkey, <- SetDefaults_key in He.
  assert (wrote_projections σ (performed σ (inr e))) as Hps.
  { apply (projection_changes_wrote σ _ (SB.SetDefaults b) [e]); [done|done|done|].
    apply (change_one _ _ _ _ q); [|done]. cbn. by rewrite He. }
  split.
  - split; [done|done|apply performed_seen|done|]. by apply wrote_no_binding; cbn; rewrite ?app_nil_r.
  - by destruct e as [| | |? ? []|? ? []|].
  - intros b' _. left; right; right. cbn. rewrite He, <- Hkey, <- (SetDefaults_key b). by eapply projection_coming.
Qed.

(** It could not be written. *)
Lemma unchanged_learns σ k (e : binding_event) :
  projection_change e = None → ¬ reads (inr e) → same_objects (projections σ) (projections (performed σ (inr e))) →
  learns σ k (inr e).
Proof.
  intros He Hw Hsame. destruct e as [| | |? ? []|? ? []|]; [by destruct Hw..|done| |done| |by destruct Hw].
  all: split; [|done|by right].
  all: split; [done|done|apply performed_seen|by apply wrote_no_projection; [cbn; rewrite app_nil_r|]|].
  all: by apply wrote_no_binding; cbn; rewrite ?app_nil_r.
Qed.

Lemma create_learns σ k namespace desired (r : result error ServiceBindingProjection) clock :
  books σ → answered σ clock (inr (EvCreateProjection namespace desired r)) →
  (∀ q, r = Ok q → ∃ b secret, admitted k b ∧ namespace = ns b ∧ asks (SB.SetDefaults b) secret desired) →
  learns σ k (inr (EvCreateProjection namespace desired r)).
Proof.
  intros Hbooks [l Hans] Hok. cbn in Hans. destruct r as [q|err].
  - destruct (Hok q eq_refl) as (b & secret & Hadm & -> & Hask). pose proof Hadm as (Hkey & Hid & _).
    assert (identified (SB.SetDefaults b)) as Hid' by (unfold System.identified, name; by rewrite SetDefaults_meta).
    assert (ns (SB.SetDefaults b) = ns b) as Hns by (unfold ns; by rewrite SetDefaults_meta).
    apply (changed_learns σ k _ b q); [done|done| |].
    + cbn. unfold key_in. rewrite (proj1 (asks_owned _ _ _ Hask)), <- Hns. by rewrite <- Hkey, <- SetDefaults_key.
    + cbn. rewrite <- Hns in *. by eapply create_change.
  - apply unchanged_learns; [done|by intros []|]. cbn. pose proof (create_result (projections σ) namespace desired) as Hr.
    destruct (api_create _ _ _) as [s' r]. cbn in Hans |- *. by subst r.
Qed.

Lemma update_learns σ k namespace new (r : result error ServiceBindingProjection) clock :
  books σ → answered σ clock (inr (EvUpdateProjection namespace new r)) →
  (∀ q, r = Ok q → ∃ b p secret desired, admitted k b ∧ namespace = ns b ∧ asks (SB.SetDefaults b) secret desired ∧
    api_seen (projections σ) k p ∧ owner_named p ∧ IsControlledBy (SBP_Meta p) (SB_Meta b) = true ∧
    new = withDesired desired p) →
  learns σ k (inr (EvUpdateProjection namespace new r)).
Proof.
  intros Hbooks [l Hans] Hok. cbn in Hans. destruct r as [q|err].
  - destruct (Hok q eq_refl) as (b & p & secret & desired & Hadm & -> & Hask & Hseen & Hnamed & Hc & ->).
    pose proof Hadm as (Hkey & Hid & _).
    assert (ns (SB.SetDefaults b) = ns b) as Hns by (unfold ns; by rewrite SetDefaults_meta).
    rewrite <- Hkey, <- SetDefaults_key in Hseen. rewrite <- (SetDefaults_meta b) in Hc. rewrite <- Hns in *.
    apply (changed_learns σ k _ b q); [done|done| |].
    + cbn. rewrite (seen_key _ _ desired p Hseen). by rewrite SetDefaults_key, Hkey.
    + cbn. by eapply update_change.
  - apply unchanged_learns; [done|by intros []|]. cbn. pose proof (update_result (projections σ) namespace new) as Hr.
    destruct (api_update _ _ _) as [s' r]. cbn in Hans |- *. by subst r.
Qed.

Lemma status_learns σ k namespace (new q : ServiceBinding) base st clock :
  books σ → answered σ clock (inl (EvUpdateStatus namespace new (Ok q))) →
  admitted k base → new = kind_set_status base st → namespace = ns base →
  learns σ k (inl (EvUpdateStatus namespace new (Ok q))).
Proof.
  intros Hbooks [l Hans] (Hkey & _) -> ->. cbn in Hans.
  pose proof (b_update_result (bindings σ) (ns base) (kind_set_status base st)) as Hr.
  change (name (kind_set_status base st)) with (name base) in Hr. change (ns base, name base) with (key_of base) in Hr.
  rewrite Hkey in Hr. destruct (b_update_status (bindings σ) (ns base) _) as [s' r] eqn:Hs. cbn in Hans. subst r.
  destruct Hr as (_ & (current & Hg & Hsame & _) & Hframe).
  assert (admitted k q) as Hq by (by eapply admitted_same, stored_admitted).
  set (e := inl (EvUpdateStatus (ns base) (kind_set_status base st) (Ok q))). set (σ' := performed σ e).
  assert (bindingWatch σ' = bindingWatch σ ++ [(k, Some q)]) as Hbw by (by rewrite <- Hkey).
  assert (bindings σ' = s') as Hbs by (cbn; change (Meta_Namespace (SB_Meta base)) with (ns base); by rewrite Hs).
  split; [|done|].
  - fold σ'. split; [done|done|done|by apply wrote_no_projection; cbn; rewrite ?app_nil_r|].
    apply (wrote_binding _ _ k (Some q)); [done|by rewrite Hbs|by intros ? [= <-]].
  - intros b _. left; right; left. fold σ'. rewrite Hbw. by apply (status_coming σ k current q).
Qed.
Lemma listed_admitted σ leads k w b : working σ leads k w → listed k b (w_calls w) → admitted k b.
Proof.
  intros [Hrec _ _] Hb. eapply Forall_forall in Hb; [|exact Hrec]. cbn in Hb. by destruct k.
Qed.

(** What the lister and the server answer goes into the records. *)
Lemma answered_recorded σ clock e : books σ → answered σ clock e → recorded σ e.
Proof.
  intros Hbooks Ha. destruct e as [[namespace n [b|]|namespace n [b|]| | |]|[| |namespace n [p|]| | |]]; try done;
    destruct Ha as [l Ha]; cbn in Ha |- *.
  - unfold from_cache in Ha. destruct (_ !! _) as [b0|] eqn:Hb in Ha; [|done]. injection Ha as ->.
    by eapply books_admitted; [|left].
  - destruct (b_get _ _) as [b0|] eqn:Hb in Ha; [|done]. injection Ha as ->. by eapply stored_admitted.
  - split; [by apply (cached_observed σ)|by eapply cached_owner_named].
Qed.

Lemma call_protocol σ leads k w clock e :
  books σ → working σ leads k w → may_call k w e → answered σ clock e → protocol k (w_calls w) e.
Proof.
  intros Hbooks Hw Hcall Ha. apply next_call; [done|]. intros b [Hb|Hb%list_elem_of_singleton]%elem_of_app.
  - by eapply listed_admitted.
  - subst e. apply answered_recorded in Ha; [|done]. cbn in Ha. by destruct k.
Qed.

(** A read is up to date, or the key is awake. *)
Lemma lister_learns σ k namespace n (r : result error ServiceBinding) clock :
  books σ → answered σ clock (inl (EvListerGet namespace n r)) → learns σ k (inl (EvListerGet namespace n r)).
Proof.
  intros Hbooks Ha. apply reads_learns; [done|by eapply answered_recorded|]. intros b Hb. destruct Ha as [l Ha]. cbn in Ha |- *.
  destruct (decide (bindingCache σ !! k = Some b)) as [Hc|Hc]; [right|left; right; by eapply stale_binding].
  intros Hk. rewrite Hk in Ha. unfold from_cache in Ha. by rewrite Hc in Ha.
Qed.

Lemma client_learns σ k namespace n (r : result error ServiceBinding) clock :
  books σ → answered σ clock (inl (EvClientGet namespace n r)) → learns σ k (inl (EvClientGet namespace n r)).
Proof.
  intros Hbooks Ha. apply reads_learns; [done|by eapply answered_recorded|]. intros b Hb. right. destruct Ha as [l Ha].
  destruct r as [b0|]; cbn in Ha |- *; [|done]. intros Hk. rewrite Hk, Hb in Ha. congruence.
Qed.

Lemma projection_learns σ k namespace n (r : result error ServiceBindingProjection) clock :
  books σ → answered σ clock (inr (EvGetProjection namespace n r)) → learns σ k (inr (EvGetProjection namespace n r)).
Proof.
  intros Hbooks Ha. pose proof (answered_recorded _ _ _ Hbooks Ha) as Hrec. apply reads_learns; [done|done|].
  intros b Hb. destruct Ha as [l Ha]. destruct r as [p|]; cbn in Ha, Hrec |- *; [|by right].
  destruct (decide ((namespace, n) = k)) as [Hk|]; [|by right]. rewrite Hk in *. destruct Hrec as [Hseen Hnamed].
  destruct (IsControlledBy (SBP_Meta p) (SB_Meta b)) eqn:Hc; [|by right].
  destruct (stored_admitted σ k b Hbooks Hb) as (Hkey & Hid & _).
  unfold from_cache in Ha. destruct (projectionCache σ !! k) as [p0|] eqn:Hcache; [|done]. injection Ha as ->.
  destruct (decide (api_get (projections σ) k = Some p)) as [Hg|Hne]; [by right|left; right; right].
  rewrite (books_projections _ Hbooks) in Hne. rewrite <- Hkey in *.
  apply (stale_projection _ _ b p); [done|done| |apply Hbooks| |done].
  - split_and!; [done|done|]. pose proof (seen_named _ _ _ Hseen) as Hn. by injection Hn.
  - intros k' q Hin. pose proof (seen_named _ _ _ (books_seen _ Hbooks _ _ (or_intror Hin))) as <-. done.
Qed.

Lemma resolver_learns σ leads k w clock (e : resolver_event) :
  books σ → working σ leads k w → answered σ clock (inr (EvResolver e)) →
  protocol k (w_calls w) (inr (EvResolver e)) → learns σ k (inr (EvResolver e)).
Proof.
  intros Hbooks Hw Ha (b & Hl & Hp). apply reads_learns; [done|done|]. intros b' Hb'. cbn in Ha.
  destruct (working_fresh _ _ _ _ Hw b' Hb') as [|Hf]; [by left|right]. cbn.
  assert (b = b') as <-.
  { eapply Forall_forall in Hl; [|exact Hf]. cbn in Hl. destruct k. by specialize (Hl eq_refl) as [= ->]. }
  assert (∀ parent, inr (EvResolver (EvTrackReference (service_of b) parent None)) ∈ w_calls w →
    (k, service_of b) ∈ tracked (track_calls σ [inr (EvResolver e)])) as Ht.
  { intros parent Hin. eapply Forall_forall in Hin; [|exact Hf]. destruct Hin as [[]|(_ & _ & Ht)].
    cbn. apply elem_of_app. by left. }
  destruct e as [ref parent [|]|gvr [|]|gvr namespace n [|]]; cbn in Hp |- *; try by left.
  - destruct Hp as [-> <-]. right. split_and!; [done|done|]. apply elem_of_app. right. by left.
  - destruct Hp as [-> [parent Hin]]. right. split_and!; [done|done|by eapply Ht].
  - destruct Hp as (-> & -> & -> & parent & Hin). right. split_and!; [done..|by eapply Ht].
Qed.

Lemma call_learns σ leads k w clock e :
  books σ → working σ leads k w → may_call k w e → answered σ clock e → learns σ k e.
Proof.
  intros Hbooks Hw Hcall Ha. pose proof (call_protocol σ leads k w clock e Hbooks Hw Hcall Ha) as Hp.
  pose proof (working_recorded _ _ _ _ Hw) as Hrec.
  destruct e as [[namespace n r|namespace n r|namespace new [q|err]| |]|[t|e|namespace n r|namespace desired r|namespace new r|]];
    try (apply reads_learns; [done|done|by right]).
  - by eapply lister_learns.
  - by eapply client_learns.
  - destruct Hp as (base & st & Hnew & Hns & Hbase).
    apply (status_learns σ k namespace new q base st clock); [done|done| |done|done].
    destruct Hbase as [Hl|Hin]; [by eapply listed_admitted|]. eapply Forall_forall in Hin; [|exact Hrec].
    cbn in Hin. by destruct k.
  - by eapply resolver_learns.
  - by eapply projection_learns.
  - apply (create_learns σ k namespace desired r clock); [done|done|]. intros q ->.
    destruct Hp as (b & secret & Hl & Hns & Hask). exists b, secret. split_and!; [by eapply listed_admitted|done|done].
  - apply (update_learns σ k namespace new r clock); [done|done|]. intros q ->.
    destruct Hp as (b & p & secret & desired & Hl & Hin & Hns & Hc & Hask & Hnew). exists b, p, secret, desired.
    eapply Forall_forall in Hin; [|exact Hrec]. cbn in Hin. destruct k. destruct Hin as [Hseen Hn].
    split_and!; try done. by eapply listed_admitted.
Qed.
(** ** A replica and its crew *)
Definition free c k : bool := bool_decide (c !! k = None).

(** The keys that the replica leads and that nobody works on are guarded; the workers know
    what is so, or their keys are awake. *)
Record manned ρ r c : Prop := {
  manned_guarded : guarded (λ k, rep_leads r k && free c k) (view ρ r);
  manned_working k w : c !! k = Some w → working (view ρ r) (rep_leads r) k w;
}.

Lemma guarded_mono led led' σ : (∀ k, led' k = true → led k = true) → guarded led σ → guarded led' σ.
Proof. intros Hled [Hbooks Hinv]. split; [done|]. intros k b Hk. by apply Hinv, Hled. Qed.

Lemma drift_manned ρ r c ρ' r' :
  manned ρ r c → rep_leads r' = rep_leads r → (∀ k, drift k (view ρ r) (view ρ' r')) →
  guarded (λ k, rep_leads r k && free c k) (view ρ' r') → manned ρ' r' c.
Proof.
  intros [[Hbooks _] Hw] Hl Hd Hg. split; rewrite Hl; [done|]. intros k w Hk.
  by eapply drift_working; [|apply Hd|apply Hw].
Qed.

Lemma wrote_manned ρ r c ρ' r' :
  manned ρ r c → rep_leads r' = rep_leads r → wrote (view ρ r) (view ρ' r') → all_services ρ' = all_services ρ →
  (∀ x, x ∈ rep_tracked r → x ∈ rep_tracked r') → (∀ k, k ∈ rep_queue r → k ∈ rep_queue r') → manned ρ' r' c.
Proof.
  intros Hm Hl Hw Hsv Ht Hq. apply (drift_manned ρ r); [done|done|intros k; by apply drift_wrote; auto|].
  by eapply wrote_invariant; [..|apply Hm].
Qed.

Lemma hears_projection_manned ρ r c ch chs :
  manned ρ r c → rep_projectionWatch r = ch :: chs →
  manned ρ (own (deliver_projection (view ρ r) ch chs) (rep_leads r)) c.
Proof.
  intros Hm Hw. apply (drift_manned ρ r); [done|done|intros k|]; rewrite view_own by done.
  - by apply drift_projection.
  - apply deliver_projection_invariant; [done|apply Hm].
Qed.

Lemma hears_binding_manned ρ r c ch chs :
  manned ρ r c → rep_bindingWatch r = ch :: chs →
  manned ρ (own (deliver_binding (view ρ r) ch chs) (rep_leads r)) c.
Proof.
  intros Hm Hw. apply (drift_manned ρ r); [done|done|intros k|]; rewrite view_own by done.
  - by apply drift_binding.
  - apply deliver_binding_invariant; [done|apply Hm].
Qed.

(** *** The election *)
Lemma promote_manned ρ bucket r c : manned ρ r c → manned ρ (promote bucket r) c.
Proof.
  intros [[Hbooks Hinv] Hw].
  assert (∀ k, drift k (view ρ r) (view ρ (promote bucket r))) as Hd
    by (intros k; apply drift_wrote; [apply wrote_promote|done|done|cbn; set_solver]).
  assert (guarded (λ k, rep_leads r k && free c k) (view ρ (promote bucket r))) as [Hbooks' Hinv'].
  { by apply (wrote_invariant _ (view ρ r)); [apply wrote_promote|done|done|intros k; cbn; set_solver|]. }
  split; [split; [done|]|].
  - intros k b [[Hled|Hb]%orb_true_iff Hfree]%andb_true_iff Hg Hl.
    + apply Hinv'; [by rewrite Hled, Hfree|done|done].
    + left. by eapply promote_awake.
  - intros k w Hk. destruct (drift_working k _ _ _ _ Hbooks (Hd k) (Hw k w Hk)) as [Hrec Hf Hl]. split; [done|done|].
    intros b Hskips [Hled|Hb]%orb_true_iff Hg; [by eapply Hl|by eapply promote_awake].
Qed.

Lemma demote_manned ρ bucket r c : manned ρ r c → manned ρ (demote bucket r) c.
Proof.
  intros [Hg Hw].
  assert (∀ k, drift k (view ρ r) (view ρ (demote bucket r))) as Hd
    by (intros k; by apply drift_wrote; [apply wrote_demote|..]).
  split.
  - apply (guarded_mono (λ k, rep_leads r k && free c k)).
    + intros k. cbn. destruct (rep_leads r k); [|done]. by destruct (bucket k).
    + by apply (wrote_invariant _ (view ρ r)); [apply wrote_demote|..].
  - intros k w Hk. destruct (drift_working k _ _ _ _ (proj1 Hg) (Hd k) (Hw k w Hk)) as [Hrec Hf Hl]. split; [done|done|].
    intros b Hskips [Hled _]%andb_true_iff Hb. by eapply Hl.
Qed.

(** *** Workers *)
Lemma takes_manned ρ r c k :
  manned ρ r c → c !! k = None →
  manned ρ (own (take_key (view ρ r) k) (rep_leads r)) (<[k := mkWorker (rep_leads r k) []]> c).
Proof.
  intros [Hg Hw] Hk. split; rewrite view_own by done.
  - apply (guarded_mono (except k (λ k, rep_leads r k && free c k))); [|by apply take_key_guarded].
    intros k'. cbn. unfold except, free.
    rewrite !andb_true_iff, negb_true_iff, bool_decide_eq_false, !bool_decide_eq_true, lookup_insert_None.
    intros (Hled & Hfree & Hne). auto.
  - intros k' w [[<- <-]|[Hne Hk']]%lookup_insert_Some.
    + split; [constructor|by right; constructor|]. cbn. intros b Hf Ht. congruence.
    + eapply drift_working; [apply Hg| |by apply Hw].
      apply drift_wrote; [by split; [..|apply wrote_no_projection|apply wrote_no_binding]|done|done|cbn; set_solver].
Qed.

(** The worker has made its call. *)
Lemma working_call σ leads k w e :
  working σ leads k w → learns σ k e → books σ → drift k σ (performed σ e) →
  working (performed σ e) leads k (mkWorker (w_leads w) (w_calls w ++ [e])).
Proof.
  intros Hw [_ Hrec Hf] Hbooks Hd. destruct (drift_working k _ _ _ _ Hbooks Hd Hw) as [Hrec' Hf' Hl']. split; cbn.
  - apply Forall_app. split; [done|]. by constructor.
  - intros b Hb. destruct (Hf' b Hb) as [|Hcalls]; [by left|]. destruct (Hf b Hb) as [|He]; [by left|right].
    apply Forall_app. split; [done|]. by constructor.
  - done.
Qed.

Lemma drift_performed k' σ k e : learns σ k e → drift k' σ (performed σ e).
Proof.
  intros [Hw _ _]. apply drift_wrote; [done|done| |done]. intros x Hx. cbn. apply elem_of_app. by left.
Qed.

Lemma calls_manned ρ ρ' r c k w clock e :
  manned ρ r c → c !! k = Some w → may_call k w e → answered (view ρ r) clock e →
  view ρ' (own (performed (view ρ r) e) (rep_leads r)) = performed (view ρ r) e →
  learns (view ρ r) k e ∧
  manned ρ' (own (performed (view ρ r) e) (rep_leads r)) (<[k := mkWorker (w_leads w) (w_calls w ++ [e])]> c).
Proof.
  intros [Hg Hw] Hk Hcall Ha Hview.
  assert (learns (view ρ r) k e) as Hlearns by (eapply call_learns; [apply Hg|by apply Hw|done|done]).
  split; [done|]. split; rewrite Hview.
  - apply (guarded_mono (λ k, rep_leads r k && free c k)).
    + intros k'. cbn. unfold free. rewrite !andb_true_iff, !bool_decide_eq_true, lookup_insert_None. tauto.
    + apply (wrote_invariant _ (view ρ r)); [apply Hlearns|done| |done|done].
      intros x Hx. cbn. apply elem_of_app. by left.
  - intros k' w' [[<- <-]|[Hne Hk']]%lookup_insert_Some.
    + apply working_call; [by apply Hw|done|apply Hg|by eapply drift_performed].
    + eapply drift_working; [apply Hg|by eapply drift_performed|by apply Hw].
Qed.

Lemma return_guards ρ r k w res b :
  books (view ρ r) → working (view ρ r) (rep_leads r) k w → may_return k w res → rep_leads r k = true →
  b_get (all_bindings ρ) k = Some b → Meta_DeletionTimestamp (SB_Meta b) = None →
  let r' := enqueues (requeued_unskipped k res) r in awake (view ρ r') k ∨ rested (view ρ r') k b.
Proof.
  intros Hbooks Hw Hret Hled Hb Hl. cbn zeta. set (r' := enqueues _ r).
  assert (awake (view ρ r) k → awake (view ρ r') k) as Haw.
  { intros [Hq|Hc]; [left; cbn; by apply elem_of_union_l|by right]. }
  destruct (w_leads w) eqn:Hwl; [|left; by eapply Haw, working_follower].
  destruct (working_fresh _ _ _ _ Hw b Hb) as [Hk|Hf]; [left; by apply Haw|].
  destruct (return_rested (view ρ r) k w res b) as [Hq|Hrest]; [done|done|by apply (stored_admitted (view ρ r))|done|done| |by right].
  left; left. cbn. by apply elem_of_union_r.
Qed.

(** The worker returns: its key is awake, or at rest, or not its replica's. *)
Lemma returns_manned ρ r c k w res :
  manned ρ r c → c !! k = Some w → may_return k w res →
  manned ρ (enqueues (requeued_unskipped k res) r) (delete k c).
Proof.
  intros [Hg Hw] Hk Hret. set (r' := enqueues _ r).
  assert (wrote (view ρ r) (view ρ r')) as Hwrote by (by split; [..|apply wrote_no_projection|apply wrote_no_binding]).
  assert (∀ k, drift k (view ρ r) (view ρ r')) as Hd by (intros k'; apply drift_wrote; [done|done|done|cbn; set_solver]).
  split.
  - assert (guarded (except k (λ k', rep_leads r k' && free (delete k c) k')) (view ρ r')) as Hg'.
    { apply (guarded_mono (λ k, rep_leads r k && free c k)).
      - intros k'. unfold except, free. rewrite !andb_true_iff, negb_true_iff, bool_decide_eq_false, !bool_decide_eq_true.
        intros [[Hled Hfree] Hne]. by rewrite lookup_delete_ne in Hfree by done.
      - apply (wrote_invariant _ (view ρ r)); [done|done|done|intros k'; cbn; set_solver|done]. }
    destruct (rep_leads r k) eqn:Hled.
    + apply (except_guarded _ k); [exact Hg'|]. intros b Hb Hl. eapply return_guards; [apply Hg|by apply Hw|done..].
    + apply (guarded_mono (except k (λ k', rep_leads r k' && free (delete k c) k'))); [|done].
      intros k' Hk'. change (rep_leads r' k') with (rep_leads r k') in Hk' |- *. unfold except. rewrite Hk'.
      apply andb_true_iff in Hk' as [Hk' _].
      by rewrite bool_decide_eq_false_2 by (intros ->; congruence).
  - intros k' w' [Hne Hk']%lookup_delete_Some. eapply drift_working; [apply Hg|apply Hd|by apply Hw].
Qed.
(** ** All replicas *)
Definition all_manned φ : Prop := Forall2 (manned (op_deployment φ)) (replicas (op_deployment φ)) (op_crews φ).

(** What the replicas share is as before. *)
Lemma same_manned ρ ρ' rs crews :
  (∀ r, view ρ' r = view ρ r) → Forall2 (manned ρ) rs crews → Forall2 (manned ρ') rs crews.
Proof. intros Heq Hall. eapply Forall2_impl; [exact Hall|]. intros r c [Hg Hw]. split; by rewrite Heq. Qed.

Lemma set_manned ρ crews i r' c' :
  Forall2 (manned ρ) (replicas ρ) crews → manned ρ r' c' →
  Forall2 (manned (set_replica ρ i r')) (replicas (set_replica ρ i r')) (<[i := c']> crews).
Proof. intros Hall Hm. apply (same_manned ρ); [done|]. by apply Forall2_insert. Qed.

(** One replica goes on. *)
Lemma goes_on_manned ρ crews i r r' :
  Forall2 (manned ρ) (replicas ρ) crews → replicas ρ !! i = Some r →
  (∀ c, manned ρ r c → manned ρ r' c) →
  Forall2 (manned (set_replica ρ i r')) (replicas (set_replica ρ i r')) crews.
Proof.
  intros Hall Hi Hm. destruct (Forall2_lookup_l _ _ _ _ _ Hall Hi) as (c & Hc & Hr).
  rewrite <- (list_insert_id crews i c) by done. apply set_manned; [done|by apply Hm].
Qed.

Lemma hears_manned ρ ρ' ps bs rs crews :
  Forall2 (manned ρ) rs crews → all_services ρ' = all_services ρ →
  (∀ r, wrote (view ρ r) (view ρ' (hears ps bs r))) → Forall2 (manned ρ') (map (hears ps bs) rs) crews.
Proof.
  intros Hall Hsv Hw. apply Forall2_fmap_l. eapply Forall2_impl; [exact Hall|]. intros r c Hm.
  by apply (wrote_manned ρ r).
Qed.

Lemma calls_all_manned ρ crews i r c k w clock e :
  Forall2 (manned ρ) (replicas ρ) crews → replicas ρ !! i = Some r → crews !! i = Some c → c !! k = Some w →
  may_call k w e → answered (view ρ r) clock e →
  Forall2 (manned (replica_calls ρ i r e)) (replicas (replica_calls ρ i r e))
    (<[i := <[k := mkWorker (w_leads w) (w_calls w ++ [e])]> c]> crews).
Proof.
  intros Hall Hi Hc Hk Hcall Ha. destruct (Forall2_lookup_l _ _ _ _ _ Hall Hi) as (c' & Hc' & Hm).
  assert (c' = c) as -> by congruence. set (ρ' := replica_calls ρ i r e).
  destruct (calls_manned ρ ρ' r c k w clock e) as [Hlearns Hm']; [done..|by apply view_own|].
  cbn [replicas replica_calls]. apply Forall2_insert; [|exact Hm']. apply (hears_manned ρ); [done|done|].
  intros r0. by apply (wrote_elsewhere ρ ρ' (performed (view ρ r) e) r); [apply Hlearns|..].
Qed.

(** What is found still, resolves still. *)
Lemma finds_still_resolution env env' ref parent secret :
  finds_still env env' ref → resolution env ref parent secret → resolution env' ref parent secret.
Proof.
  intros Hstill (calls & Hr & Hcalls). exists calls. split; [done|].
  inversion Hr as [| | | | |t Hns]; subst; [constructor|].
  repeat (apply Forall_cons in Hcalls as [? Hcalls]). repeat constructor; by apply Hstill.
Qed.

Lemma services_manned ρ env ks r c :
  (∀ k b, b_get (all_bindings ρ) k = Some b → (k, service_of b) ∈ rep_tracked r →
    k ∈ ks r ∨ finds_still (all_services ρ) env (service_of b)) →
  manned ρ r c → manned (all_change_services ρ env ks) (enqueues (ks r) r) c.
Proof.
  intros Hks Hm. apply (drift_manned ρ r); [done|done| |].
  - intros k. apply (drift_services k (view ρ r) env (ks r)). intros b Hb Ht. by apply Hks.
  - apply (change_services_invariant _ (view ρ r) env (ks r)); [|apply Hm]. intros k b Hb Ht.
    destruct (Hks k b Hb Ht) as [Hk|Hstill]; [by left|right]. intros secret. by apply finds_still_resolution.
Qed.

Lemma step_manned φ φ' : operation_step φ φ' → all_manned φ → all_manned φ'.
Proof.
  unfold all_manned. destruct φ as [ρ crews]. cbn.
  intros [i r c k Hi Hc Hq Hk|i r c k w clock e Hi Hc Hk Hcall Ha|i r c k w res Hi Hc Hk Hret|ρ' Hgo|env ks Hks|i|r Hr] Hall;
    cbn [op_deployment op_crews] in *.
  - destruct (Forall2_lookup_l _ _ _ _ _ Hall Hi) as (c' & Hc' & Hm). assert (c' = c) as -> by congruence.
    apply set_manned; [done|]. by apply (takes_manned ρ).
  - by eapply calls_all_manned.
  - destruct (Forall2_lookup_l _ _ _ _ _ Hall Hi) as (c' & Hc' & Hm). assert (c' = c) as -> by congruence.
    apply set_manned; [done|]. by apply (returns_manned ρ r c k w).
  - destruct Hgo as [i r c cs Hi Hw|i r c cs Hi Hw|i r bucket Hi|i r bucket Hi|s k o Hget Hseen Hok|s k o Hget Hok].
    + apply (goes_on_manned _ _ i r); [done|done|]. intros c'. by intros; apply hears_projection_manned.
    + apply (goes_on_manned _ _ i r); [done|done|]. intros c'. by intros; apply hears_binding_manned.
    + apply (goes_on_manned _ _ i r); [done|done|]. intros c. apply (promote_manned ρ).
    + apply (goes_on_manned _ _ i r); [done|done|]. intros c. apply (demote_manned ρ).
    + apply (hears_manned ρ); [done|done|]. intros r. by apply wrote_projection_all.
    + apply (hears_manned ρ); [done|done|]. intros r. by apply wrote_binding_all.
  - apply Forall2_fmap_l. eapply Forall2_impl_in; [exact Hall|]. intros r c Hr Hm. apply services_manned; [|done].
    intros k b. by apply Hks.
  - apply (same_manned ρ); [done|]. by apply Forall2_delete.
  - apply (same_manned ρ); [done|]. apply Forall2_app; [done|]. constructor; [|constructor]. split; [by apply started_invariant, Hr|done].
Qed.

Lemma run_manned φ φ' : opened φ → rtc operation_step φ φ' → all_manned φ'.
Proof.
  intros [Hstarts Hcrews] Hrun. assert (all_manned φ) as Hall.
  { unfold all_manned. rewrite Hcrews. apply Forall2_fmap_r. apply Forall_Forall2_diag, Forall_forall.
    intros r Hr. split; [by apply started_invariant, Hstarts|done]. }
  clear Hstarts Hcrews. induction Hrun as [φ|φ φ1 φ2 Hstep _ IH]; [done|]. by eapply IH, step_manned.
Qed.
(** *** No worker is stuck *)
Definition begun k w : Prop := ∃ res rest, runs_to (w_leads w) k res (w_calls w ++ rest).

Definition all_begun φ : Prop := ∀ i c k w, op_crews φ !! i = Some c → c !! k = Some w → begun k w.

Lemma set_begun (crews : list (gmap object_name worker)) i c :
  (∀ j c k w, crews !! j = Some c → c !! k = Some w → begun k w) → (∀ k w, c !! k = Some w → begun k w) →
  ∀ j c' k w, <[i := c]> crews !! j = Some c' → c' !! k = Some w → begun k w.
Proof. intros Hall Hc j c' k w [(-> & <- & _)|[_ Hj]]%list_lookup_insert_Some; [apply Hc|by apply (Hall j)]. Qed.

Lemma step_begun φ φ' : operation_step φ φ' → all_begun φ → all_begun φ'.
Proof.
  intros [i r c k Hi Hc Hq Hk|i r c k w clock e Hi Hc Hk Hcall Ha|i r c k w res Hi Hc Hk Hret|ρ' Hgo|env ks Hks|i|r Hr] Hall;
    unfold all_begun; cbn [op_crews]; [| | |exact Hall|exact Hall| |].
  - apply set_begun; [exact Hall|]. intros k' w' [[<- <-]|[_ Hk']]%lookup_insert_Some; [|by eapply Hall].
    set (σ := view (op_deployment φ) r).
    destruct (ServiceBinding_Reconcile (kind_env σ) (binding_env σ 0%Z) (λ _ _, rep_leads r k) (key_string k) [])
      as [res log] eqn:Hrun.
    by exists res, log, (kind_env σ), (binding_env σ 0%Z).
  - apply set_begun; [exact Hall|]. intros k' w' [[<- <-]|[_ Hk']]%lookup_insert_Some; [|by eapply Hall].
    destruct Hcall as (res & rest & Hrun). exists res, rest. cbn. by rewrite <- (assoc_L (++)).
  - apply set_begun; [exact Hall|]. intros k' w' [_ Hk']%lookup_delete_Some. by eapply Hall.
  - intros j c k w Hj. apply (Hall (if decide (j < i) then j else S j)). rewrite <- Hj.
    case_decide; [by rewrite list_lookup_delete_lt|by rewrite list_lookup_delete_ge by lia].
  - intros j c k w [Hj|[_ Hj]]%lookup_app_Some Hk; [by eapply Hall|].
    by apply list_lookup_singleton_Some in Hj as [_ <-].
Qed.

Lemma run_begun φ φ' : opened φ → rtc operation_step φ φ' → all_begun φ'.
Proof.
  intros [_ Hcrews] Hrun. assert (all_begun φ) as Hall.
  { intros i c k w Hc. rewrite Hcrews, list_lookup_fmap in Hc. by apply fmap_Some in Hc as (? & _ & ->). }
  clear Hcrews. induction Hrun as [φ|φ φ1 φ2 Hstep _ IH]; [done|]. by eapply IH, step_begun.
Qed.

(** ** Properties *)

(** C7: no lost wake-ups, whoever overlaps: in every run of any number of replicas, which
    start, stop, gain and lose the lead of keys at any time, with workers whose calls come in
    any order, interrupted by anything, a replica that leads the key of a stored live binding,
    and that none of its workers has, has the key in its queue, or a notification that will
    enqueue it is on its way to that replica, or the binding is in sync and that replica
    tracks its service. *)
Theorem leaders_lose_no_wakeups φ φ' i r c k b :
  opened φ → rtc operation_step φ φ' →
  replicas (op_deployment φ') !! i = Some r → op_crews φ' !! i = Some c →
  rep_leads r k = true → c !! k = None →
  b_get (all_bindings (op_deployment φ')) k = Some b → Meta_DeletionTimestamp (SB_Meta b) = None →
  awake (view (op_deployment φ') r) k ∨ rested (view (op_deployment φ') r) k b.
Proof.
  intros Ho Hrun Hi Hc Hled Hfree. pose proof (run_manned φ φ' Ho Hrun) as Hall.
  destruct (Forall2_lookup_l _ _ _ _ _ Hall Hi) as (c' & Hc' & [[_ Hg] _]). assert (c' = c) as -> by congruence.
  apply Hg. unfold free. by rewrite Hled, bool_decide_eq_true_2.
Qed.

(** C9: every reconciliation returns: in every run of the replicas, a worker that has a key
    has made at most ten calls and two for each retry of the status update, and whatever the
    answers are, now that anything may have happened since its last call, it goes on: it
    returns, or it makes another call within that bound. *)
Theorem workers_return φ φ' i r c k w (clock : Time) :
  opened φ → rtc operation_step φ φ' →
  replicas (op_deployment φ') !! i = Some r → op_crews φ' !! i = Some c → c !! k = Some w →
  length (w_calls w) ≤ most_calls ∧
  ∃ φ'', operation_step φ' φ'' ∧
    (op_crews φ'' !! i = Some (delete k c) ∨
     length (w_calls w) < most_calls ∧ ∃ e, answered (view (op_deployment φ') r) clock e ∧
       op_crews φ'' !! i = Some (<[k := mkWorker (w_leads w) (w_calls w ++ [e])]> c)).
Proof.
  intros Ho Hrun Hi Hc Hk. pose proof (lookup_lt_Some _ _ _ Hc) as Hlt.
  destruct (run_begun φ φ' Ho Hrun i c k w Hc Hk) as (res & rest & Hb).
  split; [apply run_bounded in Hb; rewrite length_app in Hb; lia|].
  destruct (worker_goes_on (view (op_deployment φ') r) clock k w res rest Hb) as [[res' Hret]|(e & Hcall & Ha)].
  - eexists. split; [by eapply worker_returns|left]. by apply list_lookup_insert_eq.
  - eexists. split; [by eapply worker_calls|right]. split; [|exists e; split; [done|by apply list_lookup_insert_eq]].
    destruct Hcall as (res' & rest' & Hr%run_bounded). rewrite length_app, length_cons in Hr. lia.
Qed.

(** C8: where a leader rests, its keys are in sync: when the queue of a replica is empty,
    nobody works there and it has heard of everything, the stored projection of every live
    binding whose key it leads is what the binding asks for with the secret that its service
    publishes, its status reports both, and binding any workload with the projection delivers
    the secret, whatever the workers of other replicas are doing. *)
Theorem leaders_quiescent_in_sync `{!SemanticEqualityFields} φ φ' i r :
  opened φ → rtc operation_step φ φ' →
  replicas (op_deployment φ') !! i = Some r → op_crews φ' !! i = Some ∅ → at_rest (view (op_deployment φ') r) →
  ∀ k b, rep_leads r k = true →
  b_get (all_bindings (op_deployment φ')) k = Some b → Meta_DeletionTimestamp (SB_Meta b) = None →
  ∃ secret p, in_sync_with (view (op_deployment φ') r) k b secret p ∧
    ∀ ps, ∃ ps', Do p ps = Done ps' ∧
      delivered (SB.SetDefaults b) (LocalObjectReference_Name secret) ps ps'.
Proof.
  intros Ho Hrun Hi Hc Hrest k b Hled Hb Hl. pose proof (run_manned φ φ' Ho Hrun) as Hall.
  destruct (Forall2_lookup_l _ _ _ _ _ Hall Hi) as (c' & Hc' & [Hg _]). assert (c' = ∅) as -> by congruence.
  destruct (at_rest_in_sync _ _ k b Hg) as (secret & p & Hsync); [unfold free; by rewrite Hled, bool_decide_eq_true_2|done..|].
  exists secret, p. split; [done|]. intros ps. by apply Do_delivers, settled_made, Hsync.
Qed.
End facts.

(** ** Schedules *)
#[local] Existing Instance string_opaque.
#[local] Existing Instance sample_guess.
#[local] Existing Instance sample_knative_controller.
#[local] Existing Instance sample_knative_controller_laws.
#[local] Existing Instance map_server.
#[local] Existing Instance map_server_laws.
#[local] Existing Instance binding_knative.
#[local] Existing Instance binding_knative_laws.
#[local] Existing Instance binding_processing.
#[local] Existing Instance any_uid.

Notation sample_deployment := (deployment (PServer := log_server) (BServer := gmap object_name ServiceBinding)).
Notation sample_operation := (operation (PServer := log_server) (BServer := gmap object_name ServiceBinding)).

Section schedules.
Implicit Types (σ : system (PServer := log_server) (BServer := gmap object_name ServiceBinding)).
Implicit Types (calls : list controller_event).

Lemma resume_calls σ clock k w res log e :
  resume σ clock k w = (res, log) → take (S (length (w_calls w))) log = w_calls w ++ [e] → may_call k w e.
Proof.
  intros Hrun Htake. exists res, (drop (S (length (w_calls w))) log), (replay_kind (w_calls w) σ),
    (replay_binding (w_calls w) σ clock).
  rewrite (cons_middle e (w_calls w)), (assoc_L (++)), <- Htake, take_drop. exact Hrun.
Qed.

Lemma resume_returns σ clock k w res : resume σ clock k w = (res, w_calls w) → may_return k w res.
Proof. intros Hrun. by exists (replay_kind (w_calls w) σ), (replay_binding (w_calls w) σ clock). Qed.

Definition answered_now σ (clock : Time) (e : controller_event) : bool :=
  match e with
  | inl (EvListerGet namespace n r) => bool_decide (env_ListerGet (kind_env σ) namespace n [] = r)
  | inl (EvClientGet namespace n r) => bool_decide (env_ClientGet (kind_env σ) namespace n [] = r)
  | inl (EvUpdateStatus namespace b r) => bool_decide (env_UpdateStatus (kind_env σ) namespace b [] = r)
  | inl (EvPatchFinalizers namespace n fs version r) =>
      bool_decide (env_PatchFinalizers (kind_env σ) namespace n fs version [] = r)
  | inr (EvNow t) => bool_decide (clock = t)
  | inr (EvResolver (EvTrackReference ref parent r)) => bool_decide (env_TrackReference (services σ) ref parent [] = r)
  | inr (EvResolver (EvInformer gvr r)) => bool_decide (env_Informer (services σ) gvr [] = r)
  | inr (EvResolver (EvLookup gvr namespace n r)) => bool_decide (env_Lookup (services σ) gvr namespace n [] = r)
  | inr (EvGetProjection namespace n r) => bool_decide (env_GetProjection (binding_env σ clock) namespace n [] = r)
  | inr (EvCreateProjection namespace p r) => bool_decide (env_CreateProjection (binding_env σ clock) namespace p [] = r)
  | inr (EvUpdateProjection namespace p r) => bool_decide (env_UpdateProjection (binding_env σ clock) namespace p [] = r)
  | inl (EvKindRecord _ _ _) | inr (EvRecord _ _ _) => true
  end.

Lemma answered_now_sound σ clock e : answered_now σ clock e = true → answered σ clock e.
Proof.
  destruct e as [[]|[|[]| | | |]]; cbn [answered_now]; intros He; try done; apply bool_decide_eq_true in He;
    by exists [].
Qed.
End schedules.

(** The replicas and workers do in turn what the schedule says, if they can; the workers work
    on the stored binding of [system0]. *)
Inductive action := Promoted (i : nat) | Hears (i : nat) | Takes (i : nat) | Calls (i : nat) | Returns (i : nat) | Stops (i : nat).

Definition the_key : object_name := key_of db_binding.

Definition act (φ : sample_operation) (a : action) : sample_operation :=
  let ρ := op_deployment φ in
  match a with
  | Promoted i =>
      match replicas ρ !! i with
      | Some r => mkOperation (set_replica ρ i (promote (λ _, true) r)) (op_crews φ) | None => φ end
  | Hears i =>
      match replicas ρ !! i with
      | Some r =>
          match rep_projectionWatch r, rep_bindingWatch r with
          | ch :: chs, _ => mkOperation (set_replica ρ i (own (deliver_projection (view ρ r) ch chs) (rep_leads r))) (op_crews φ)
          | [], ch :: chs => mkOperation (set_replica ρ i (own (deliver_binding (view ρ r) ch chs) (rep_leads r))) (op_crews φ)
          | [], [] => φ
          end
      | None => φ
      end
  | Takes i =>
      match replicas ρ !! i, op_crews φ !! i with
      | Some r, Some c =>
          if decide (the_key ∈ rep_queue r ∧ c !! the_key = None) then
            mkOperation (set_replica ρ i (own (take_key (view ρ r) the_key) (rep_leads r)))
              (<[i := <[the_key := mkWorker (rep_leads r the_key) []]> c]> (op_crews φ))
          else φ
      | _, _ => φ
      end
  | Calls i =>
      match replicas ρ !! i, op_crews φ !! i with
      | Some r, Some c =>
          match c !! the_key with
          | Some w =>
              let log := (resume (view ρ r) 50%Z the_key w).2 in
              match log !! length (w_calls w) with
              | Some e =>
                  if decide (take (S (length (w_calls w))) log = w_calls w ++ [e] ∧ answered_now (view ρ r) 50%Z e = true) then
                    mkOperation (replica_calls ρ i r e)
                      (<[i := <[the_key := mkWorker (w_leads w) (w_calls w ++ [e])]> c]> (op_crews φ))
                  else φ
              | None => φ
              end
          | None => φ
          end
      | _, _ => φ
      end
  | Returns i =>
      match replicas ρ !! i, op_crews φ !! i with
      | Some r, Some c =>
          match c !! the_key with
          | Some w =>
              let '(res, log) := resume (view ρ r) 50%Z the_key w in
              if decide (log = w_calls w) then
                mkOperation (set_replica ρ i (enqueues (requeued_unskipped the_key res) r))
                  (<[i := delete the_key c]> (op_crews φ))
              else φ
          | None => φ
          end
      | _, _ => φ
      end
  | Stops i => mkOperation (mkDeployment (all_projections ρ) (all_bindings ρ) (all_services ρ) (delete i (replicas ρ)))
      (delete i (op_crews φ))
  end.

Lemma act_step φ a : rtc operation_step φ (act φ a).
Proof.
  destruct φ as [ρ crews]. destruct a as [i|i|i|i|i|i]; cbn -[resume decide take enqueues];
    [..|by apply rtc_once, operation_stops]; (destruct (replicas ρ !! i) as [r|] eqn:Hi; [|done]).
  - by apply rtc_once, operation_goes_on, replica_promoted.
  - destruct (rep_projectionWatch r) eqn:Hp; [|by apply rtc_once, operation_goes_on, replica_hears_projection].
    destruct (rep_bindingWatch r) eqn:Hb; [done|by apply rtc_once, operation_goes_on, replica_hears_binding].
  - destruct (crews !! i) as [c|] eqn:Hc; [|done]. destruct (decide _) as [[Hq Hk]|]; [|done].
    by apply rtc_once, (worker_takes (mkOperation ρ crews)).
  - destruct (crews !! i) as [c|] eqn:Hc; [|done]. destruct (c !! the_key) as [w|] eqn:Hk; [|done].
    destruct (resume (view ρ r) 50%Z the_key w) as [res log] eqn:Hrun. cbn [snd].
    destruct (log !! _) as [e|]; [|done]. destruct (decide _) as [[Htake Ha]|]; [|done].
    apply rtc_once, (worker_calls (mkOperation ρ crews) i r c the_key w 50%Z e); [done..| |by apply answered_now_sound].
    by eapply resume_calls.
  - destruct (crews !! i) as [c|] eqn:Hc; [|done]. destruct (c !! the_key) as [w|] eqn:Hk; [|done].
    destruct (resume (view ρ r) 50%Z the_key w) as [res log] eqn:Hrun. destruct (decide _) as [->|]; [|done].
    apply rtc_once, (worker_returns (mkOperation ρ crews) i r c the_key w res); [done..|]. by eapply resume_returns.
Qed.

Lemma acts_run φ l : rtc operation_step φ (foldl act φ l).
Proof. revert φ. induction l as [|a l IH]; intros φ; [done|]. etrans; [apply act_step|apply IH]. Qed.

(** ** Witnesses *)

(** Two replicas over the stored binding of [system0], neither of which leads. *)
Definition operation0 : sample_operation :=
  let r := own system0 (λ _, false) in
  mkOperation (mkDeployment (projections system0) (bindings system0) (services system0) [r; r]) [∅; ∅].

Lemma operation0_opened : opened operation0.
Proof.
  split; [|done]. intros r Hr.
  assert (r = own system0 (λ _, false)) as -> by (cbn in Hr; rewrite !elem_of_cons, elem_of_nil in Hr; tauto).
  split; [|done]. rewrite view_own by done. exact system0_started.
Qed.

Definition first_replica (φ : sample_operation) : replica :=
  default (own system0 (λ _, false)) (head (replicas (op_deployment φ))).
Definition stored_binding (φ : sample_operation) : ServiceBinding :=
  default db_binding (all_bindings (op_deployment φ) !! the_key).

(** Both replicas lead the key, and their workers make their calls in turn, until the first
    has returned; the second has looked for the projection before it was there. *)
Definition overlapping : sample_operation :=
  foldl act operation0 ([Promoted 0; Promoted 1; Hears 0; Hears 1; Takes 0; Takes 1] ++
    concat (repeat [Calls 0; Calls 1] 12) ++ [Returns 0]).

(** The first replica hears of what was written, looks again, and rests; the worker of the
    second has still not returned. *)
Definition first_rests : sample_operation :=
  foldl act overlapping ([Hears 0; Hears 0; Hears 0; Takes 0] ++ repeat (Calls 0) 12 ++ [Returns 0]).

Lemma first_rests_run : rtc operation_step operation0 first_rests.
Proof. transitivity overlapping; [exact (acts_run operation0 _)|exact (acts_run overlapping _)]. Qed.

Lemma leaders_lose_no_wakeups_witness :
  awake (view (op_deployment overlapping) (first_replica overlapping)) the_key ∨
  rested (view (op_deployment overlapping) (first_replica overlapping)) the_key (stored_binding overlapping).
Proof.
  apply (leaders_lose_no_wakeups operation0 overlapping 0 (first_replica overlapping) ∅);
    [exact operation0_opened|apply acts_run|..]; vm_compute; reflexivity.
Defined.

Lemma leaders_quiescent_in_sync_witness :
  ∃ secret p, in_sync_with (view (op_deployment first_rests) (first_replica first_rests)) the_key
    (stored_binding first_rests) secret p.
Proof.
  destruct (leaders_quiescent_in_sync operation0 first_rests 0 (first_replica first_rests))
    with (k := the_key) (b := stored_binding first_rests) as (secret & p & Hsync & _);
    [exact operation0_opened| |vm_compute; reflexivity|vm_compute; reflexivity|vm_compute; split_and!; reflexivity
    |vm_compute; reflexivity..|].
  - exact first_rests_run.
  - by exists secret, p.
Defined.

(** The worker of the second replica is still there. *)
Lemma first_rests_overlaps : is_Some (op_crews first_rests !! 1 ≫= lookup the_key).
Proof. apply (bool_decide_unpack _). vm_compute. exact I. Qed.

(** In the middle of it all. *)
Definition halfway : sample_operation :=
  foldl act operation0 ([Promoted 0; Promoted 1; Hears 0; Hears 1; Takes 0; Takes 1] ++ concat (repeat [Calls 0; Calls 1] 3)).

Definition second_worker : worker := default (mkWorker false []) (op_crews halfway !! 1 ≫= lookup the_key).

Lemma workers_return_witness :
  length (w_calls second_worker) = 3 ∧ 3 ≤ most_calls ∧ ∃ φ, operation_step halfway φ.
Proof.
  destruct (workers_return operation0 halfway 1 (default (first_replica halfway) (replicas (op_deployment halfway) !! 1))
    {[ the_key := second_worker ]} the_key second_worker 60%Z) as [Hle (φ & Hstep & _)];
    [exact operation0_opened|apply acts_run|vm_compute; reflexivity..|].
  assert (length (w_calls second_worker) = 3) as Hlen by (vm_compute; reflexivity).
  split; [exact Hlen|]. split; [rewrite <- Hlen; exact Hle|by exists φ].
Defined.
