(* ===== verification/ReplicasSettling.v ===== *)
(** * Several replicas settle

    When the election is stable, several replicas settle as one does ([Settling]), even if
    a key has two leaders: what one has finished the others leave alone.  Every run
    of reconciliations that follow each other, with caches up to date for their keys, ends,
    because either a key is finished, or a replica has heard of a change, or it has a key
    less to look at. *)
From S2P Require Import Prelude Api Conditions Effects Projection ProjectionLemmas ProjectionFacts.
From S2P Require Import Binding BindingFacts Resolver Resources BindingReconciler BindingReconcilerFacts.
From S2P Require Import Cluster ClusterFacts EndToEnd.
From S2P Require Import KindReconciler Kinds KindReconcilerFacts ClientsFacts Controllers ControllersFacts.
From S2P Require Import System SystemRuns SystemFacts WakeUps Settling Replicas ReplicasFacts Workers WorkersFacts.

(** ** A measure with three parts *)

(** A relation stops when each of its steps makes the first part of a measure less, or the
    second with the same first part, or only the third. *)
Lemma lex_sn {S} (R : relation S) (I : nat → nat → nat → S → Prop) :
  (∀ a b c s s', I a b c s → R s s' →
    ∃ a' b' c', I a' b' c' s' ∧ (a' < a ∨ a' = a ∧ (b' < b ∨ b' = b ∧ c' < c))) →
  ∀ a b c s, I a b c s → sn R s.
Proof.
  intros Hstep a. induction (lt_wf a) as [a _ IHa]. intros b. induction (lt_wf b) as [b _ IHb].
  intros c. induction (lt_wf c) as [c _ IHc]. intros s Hs. constructor. intros s' HR.
  destruct (Hstep a b c s s' Hs HR) as (a' & b' & c' & Hs' & [Ha|[-> [Hb|[-> Hc]]]]); eauto.
Qed.

Definition total {A} (f : A → nat) (l : list A) : nat := foldr (λ x n, f x + n) 0 l.

Lemma total_insert {A} (f : A → nat) (l : list A) i x y :
  l !! i = Some x → total f (<[i:=y]> l) + f x = total f l + f y.
Proof.
  revert i. induction l as [|z l IH]; intros [|i]; [done|done|intros [= ->]|intros Hi; specialize (IH i Hi)].
  - change (f y + total f l + f x = f x + total f l + f y). lia.
  - change (f z + total f (<[i:=y]> l) + f x = f z + total f l + f y). lia.
Qed.

Section settling.
Context `{KmetaLaws, !KnativeController, !KnativeControllerLaws, !SchemaGuess}.
Context `{!SemanticEquality, !SemanticEqualityLaws, !ConditionManager}.
Context `{!KnativeReconciler controller_event ServiceBinding ServiceBindingStatus}.
Context `{!KnativeReconcilerLaws controller_event ServiceBinding ServiceBindingStatus}.
Context {PServer BServer : Type} `{!ApiServer PServer, !ApiServerLaws}.
Context `{!BindingServer BServer, !BindingServerLaws, !BindingProcessing}.
Context `{!UidNames}.
Implicit Types (b : ServiceBinding) (k : object_name) (r : replica) (Q U D : gset object_name).
Implicit Types (σ : system (PServer := PServer) (BServer := BServer)).
Implicit Types (ρ : deployment (PServer := PServer) (BServer := BServer)).

(** ** What a reconciliation leaves *)
Lemma work_services σ leads clock k : services (work σ leads clock k) = services σ.
Proof. unfold work. by destruct (run_replica σ leads clock k). Qed.

Lemma work_watches σ leads clock k :
  let log := (run_replica σ leads clock k).2 in
  projectionWatch (work σ leads clock k) = projectionWatch σ ++ omap projection_change (binding_calls log) ∧
  bindingWatch (work σ leads clock k) = bindingWatch σ ++ omap binding_change (kind_calls log).
Proof. unfold work. by destruct (run_replica σ leads clock k). Qed.

Lemma work_caches σ leads clock k :
  projectionCache (work σ leads clock k) = projectionCache σ ∧
  bindingCache (work σ leads clock k) = bindingCache σ.
Proof. unfold work. by destruct (run_replica σ leads clock k). Qed.

(** A reconciliation that only takes the key off the queue concerns one replica. *)
Lemma idle_replica_works ρ i r clock k :
  idle (view ρ r) (work (view ρ r) (rep_leads r) clock k) k →
  replica_works ρ i r clock k = set_replica ρ i (own (work (view ρ r) (rep_leads r) clock k) (rep_leads r)).
Proof.
  intros Hidle. destruct (work_watches (view ρ r) (rep_leads r) clock k) as [Hp Hb].
  rewrite (idle_projectionWatch _ _ _ Hidle) in Hp. rewrite (idle_bindingWatch _ _ _ Hidle) in Hb.
  rewrite <- (app_nil_r (projectionWatch _)) in Hp at 1. apply app_inv_head in Hp.
  rewrite <- (app_nil_r (bindingWatch _)) in Hb at 1. apply app_inv_head in Hb.
  unfold replica_works, set_replica. rewrite <- Hp, <- Hb, (idle_projections _ _ _ Hidle), (idle_bindings _ _ _ Hidle).
  cbn [projections bindings view]. do 2 f_equal. rewrite <- (map_id (replicas ρ)) at 2. apply map_ext, hears_nil.
Qed.

Lemma skips_idle σ leads clock k : leads k = false → idle σ (work σ leads clock k) k.
Proof. intros Hk. rewrite work_skips by done. by split. Qed.

(** What a replica has heard and will hear of is what is stored. *)
Lemma heard_caches ρ r r0 : books (view ρ r) → books (view ρ r0) →
  foldl apply_change (rep_bindingCache r0) (rep_bindingWatch r0) = foldl apply_change (rep_bindingCache r) (rep_bindingWatch r) ∧
  foldl apply_change (rep_projectionCache r0) (rep_projectionWatch r0) =
    foldl apply_change (rep_projectionCache r) (rep_projectionWatch r).
Proof.
  intros Hr Hr0. split; apply map_eq; intros k.
  - etransitivity; [symmetry; apply (books_bindings _ Hr0)|apply (books_bindings _ Hr)].
  - etransitivity; [symmetry; apply (books_projections _ Hr0)|apply (books_projections _ Hr)].
Qed.

(** The keys that the other replicas will hear of. *)
Lemma heard_awake ρ ρ' r r0 σ' k k' bs ps :
  books (view ρ r) → books (view ρ r0) → news (view ρ r) σ' k bs ps →
  awake (view ρ' (hears ps bs r0)) k' → awake (view ρ r0) k' ∨ k' = k.
Proof.
  intros Hr Hr0 Hnews. destruct (heard_caches ρ r r0 Hr Hr0) as [Hb Hp].
  intros [Hq|[Hc|Hc]]; [by left; left|..]; cbn in Hc; apply will_enqueue_app in Hc as [Hc|Hc].
  - left. right. by left.
  - right. apply (news_told _ _ _ _ _ Hnews). left. unfold told. cbn. by rewrite <- Hb.
  - left. right. by right.
  - right. apply (news_told _ _ _ _ _ Hnews). right. unfold told. cbn. by rewrite <- Hp.
Qed.

(** ** What is left to do *)
Context (Haccepting : ∀ s : PServer, accepting s) (Hstatus_accepting : ∀ s : BServer, status_accepting s).

(** [U] has all that the replica has queued or will queue. *)
Definition waits ρ r U : Prop := ∀ k, awake (view ρ r) k → k ∈ U.

(** The keys [U] that can still be processed, of which [D] are finished. *)
Record settling ρ U D : Prop := {
  settling_guarded : all_guarded ρ;
  settling_served : served (cluster ρ);
  settling_unblocked : unblocked (cluster ρ);
  settling_waits r : r ∈ replicas ρ → waits ρ r U;
  settling_finished k : k ∈ D → finished (cluster ρ) k;
}.

Definition unheard r : nat := length (rep_projectionWatch r) + length (rep_bindingWatch r).
Definition queued r : nat := size (rep_queue r).

(** A replica in the place of another, which waits for no more. *)
Lemma set_replica_settling ρ i r' U D :
  settling ρ U D → guarded (rep_leads r') (view ρ r') → waits ρ r' U → settling (set_replica ρ i r') U D.
Proof.
  intros [Hg Hs Hu Hw Hf] Hr' Hw'. split; [by apply set_replica_guarded|exact Hs|exact Hu| |exact Hf].
  intros r (j & Hj)%list_elem_of_lookup. cbn in Hj. apply list_lookup_insert_Some in Hj as [(_ & <- & _)|[_ Hj]]; [done|].
  by eapply Hw, list_elem_of_lookup_2.
Qed.

Lemma replica_settling ρ i r σ' U D :
  settling ρ U D → replicas ρ !! i = Some r →
  projections σ' = all_projections ρ → bindings σ' = all_bindings ρ → services σ' = all_services ρ →
  guarded (rep_leads r) σ' → (∀ k, awake σ' k → awake (view ρ r) k) →
  settling (set_replica ρ i (own σ' (rep_leads r))) U D.
Proof.
  intros Hset Hi Hp Hb Hs Hg Haw. apply set_replica_settling; [done|by rewrite view_own|].
  intros k. rewrite view_own by done. intros Hk. eapply (settling_waits _ _ _ Hset r); [by eapply list_elem_of_lookup_2|].
  by apply Haw.
Qed.

(** A replica looks at a key that is not its own, or that is finished. *)
Lemma idle_settling ρ i r clock k U D :
  settling ρ U D → replicas ρ !! i = Some r → k ∈ rep_queue r →
  idle (view ρ r) (work (view ρ r) (rep_leads r) clock k) k →
  guarded (rep_leads r) (work (view ρ r) (rep_leads r) clock k) →
  settling (replica_works ρ i r clock k) U D ∧
  total unheard (replicas (replica_works ρ i r clock k)) = total unheard (replicas ρ) ∧
  total queued (replicas (replica_works ρ i r clock k)) < total queued (replicas ρ).
Proof.
  intros Hset Hi Hk Hidle Hg'. rewrite idle_replica_works by done. split_and!.
  - apply replica_settling; [done|done|apply Hidle..|done|].
    intros k' [Hk'|Hk']%(idle_awake _ _ k k' Hidle); [left; set_solver|by right].
  - pose proof (total_insert unheard (replicas ρ) i r (own (work (view ρ r) (rep_leads r) clock k) (rep_leads r)) Hi) as Ht.
    assert (unheard (own (work (view ρ r) (rep_leads r) clock k) (rep_leads r)) = unheard r) as Heq.
    { unfold unheard. cbn. by rewrite (idle_projectionWatch _ _ _ Hidle), (idle_bindingWatch _ _ _ Hidle). }
    cbn [replicas set_replica]. lia.
  - pose proof (total_insert queued (replicas ρ) i r (own (work (view ρ r) (rep_leads r) clock k) (rep_leads r)) Hi) as Ht.
    assert (queued (own (work (view ρ r) (rep_leads r) clock k) (rep_leads r)) < queued r) as Hlt.
    { unfold queued. cbn. rewrite (idle_queue _ _ _ Hidle). apply subset_size. cbn. set_solver. }
    cbn [replicas set_replica]. lia.
Qed.

(** A leader looks at a key that is not finished, and finishes it. *)
Lemma advance_waits ρ i r clock k U :
  all_guarded ρ → replicas ρ !! i = Some r → k ∈ rep_queue r →
  advanced (view ρ r) (work (view ρ r) (rep_leads r) clock k) k →
  (∀ r0, r0 ∈ replicas ρ → waits ρ r0 U) →
  ∀ r', r' ∈ replicas (replica_works ρ i r clock k) → waits (replica_works ρ i r clock k) r' U.
Proof.
  intros Hg Hi Hk Hadv HU r' (j & Hj)%list_elem_of_lookup k' Hk'.
  pose proof (list_elem_of_lookup_2 _ _ _ Hi) as Hr.
  cbn [replicas replica_works] in Hj. apply list_lookup_insert_Some in Hj as [(_ & <- & _)|[_ Hj]].
  - rewrite view_own in Hk' by (done || apply work_services).
    apply (HU r); [done|]. by apply (advanced_awake (view ρ r) _ k k') in Hk'.
  - rewrite list_lookup_fmap in Hj. apply fmap_Some in Hj as (r0 & Hj & ->).
    pose proof (list_elem_of_lookup_2 _ _ _ Hj) as Hr0.
    destruct (advanced_news _ _ _ Hadv) as (bs & ps & Hnews).
    destruct (work_watches (view ρ r) (rep_leads r) clock k) as [Hps Hbs].
    rewrite (news_projectionWatch _ _ _ _ _ Hnews) in Hps. apply app_inv_head in Hps.
    rewrite (news_bindingWatch _ _ _ _ _ Hnews) in Hbs. apply app_inv_head in Hbs.
    rewrite <- Hps, <- Hbs in Hk'.
    apply (heard_awake ρ _ r r0 _ k k' _ _ (proj1 (Hg r Hr)) (proj1 (Hg r0 Hr0)) Hnews) in Hk' as [Hk'| ->];
      [by apply (HU r0)|apply (HU r); [done|by left]].
Qed.

Lemma advance_settling ρ i r clock k U D :
  settling ρ U D → replicas ρ !! i = Some r → current (view ρ r) k →
  k ∈ rep_queue r → rep_leads r k = true → k ∉ D →
  settling (replica_works ρ i r clock k) U (D ∪ {[ k ]}) ∧ size (U ∖ (D ∪ {[ k ]})) < size (U ∖ D).
Proof.
  intros Hset Hi Hcur Hk Hlead HD. pose proof Hset as [Hg Hs Hu Hw Hf].
  pose proof (list_elem_of_lookup_2 _ _ _ Hi) as Hr. destruct (Hg r Hr) as [Hbooks _].
  set (ρ' := replica_works ρ i r clock k). set (σ' := work (view ρ r) (rep_leads r) clock k).
  assert (advanced (view ρ r) σ' k) as Hadv.
  { unfold σ'. rewrite work_led by done. by apply process_advances. }
  assert (view ρ' (own σ' (rep_leads r)) = σ') as Hview by (apply view_own; [done|done|apply work_services]).
  split; [split|].
  - by apply replica_works_guarded.
  - change (served (view ρ' (own σ' (rep_leads r)))). rewrite Hview. by apply (advanced_served (view ρ r) σ' k).
  - change (unblocked (view ρ' (own σ' (rep_leads r)))). rewrite Hview. by apply (advanced_unblocked (view ρ r) σ' k).
  - by apply advance_waits.
  - intros k' Hk'. change (finished (view ρ' (own σ' (rep_leads r))) k'). rewrite Hview.
    apply elem_of_union in Hk' as [Hk'|Hk'%elem_of_singleton]; [|subst k'; apply Hadv].
    eapply (finished_kept (view ρ r)); [done|]. by apply Hf.
  - apply subset_size. assert (k ∈ U) by (apply (Hw r Hr); by left). set_solver.
Qed.

(** ** Every run ends *)
Lemma replica_work_guarded ρ i r clock k : all_guarded ρ → replicas ρ !! i = Some r →
  guarded (rep_leads r) (work (view ρ r) (rep_leads r) clock k).
Proof.
  intros Hg Hi. pose proof (replica_works_guarded ρ i r clock k Hg Hi
    (own (work (view ρ r) (rep_leads r) clock k) (rep_leads r))) as Hown.
  rewrite view_own in Hown by (done || apply work_services). apply Hown. cbn.
  apply (list_elem_of_lookup_2 _ i), list_lookup_insert_eq. rewrite length_fmap. by eapply lookup_lt_Some.
Qed.

Lemma settling_step U D ρ ρ' :
  settling ρ U D → replicas_work ρ ρ' →
  ∃ D', settling ρ' U D' ∧
    (size (U ∖ D') < size (U ∖ D) ∨ D' = D ∧
      (total unheard (replicas ρ') < total unheard (replicas ρ) ∨
       total unheard (replicas ρ') = total unheard (replicas ρ) ∧ total queued (replicas ρ') < total queued (replicas ρ))).
Proof.
  intros Hset Hstep. pose proof (settling_guarded _ _ _ Hset) as Hall.
  destruct Hstep as [i r c cs Hi Hw|i r c cs Hi Hw|i r clock k Hi Hk Hcur];
    pose proof (Hall r (list_elem_of_lookup_2 _ _ _ Hi)) as Hg.
  - exists D. split; [|right; split; [done|left]].
    + apply replica_settling; [done..|by apply deliver_projection_invariant|]. intros k. by apply deliver_projection_awake.
    + pose proof (total_insert unheard _ i r (own (deliver_projection (view ρ r) c cs) (rep_leads r)) Hi) as Ht.
      cbn [replicas set_replica]. unfold unheard in Ht at 2 4. cbn in Ht. rewrite Hw in Ht. cbn in Ht. lia.
  - exists D. split; [|right; split; [done|left]].
    + apply replica_settling; [done..|by apply deliver_binding_invariant|]. intros k. by apply deliver_binding_awake.
    + pose proof (total_insert unheard _ i r (own (deliver_binding (view ρ r) c cs) (rep_leads r)) Hi) as Ht.
      cbn [replicas set_replica]. unfold unheard in Ht at 2 4. cbn in Ht. rewrite Hw in Ht. cbn in Ht. lia.
  - assert (guarded (rep_leads r) (work (view ρ r) (rep_leads r) clock k)) as Hg' by (by apply (replica_work_guarded ρ i)).
    destruct (rep_leads r k) eqn:Hlead; [destruct (decide (k ∈ D)) as [HD|HD]|].
    + exists D. assert (finished (view ρ r) k) as Hfin by (by apply (settling_finished _ _ _ Hset)).
      destruct (idle_settling ρ i r clock k U D) as (Hset' & Hlt); [done..| |done|by auto].
      rewrite work_led by (done || apply Hg). apply process_finished; [apply Hg|by apply Hcur|done].
    + exists (D ∪ {[ k ]}). destruct (advance_settling ρ i r clock k U D) as (Hset' & Hlt); [done|done|by apply Hcur|done..|].
      by auto.
    + exists D. destruct (idle_settling ρ i r clock k U D) as (Hset' & Hlt); [done..| |done|by auto].
      by apply skips_idle.
Qed.

Lemma replicas_end ρ : all_guarded ρ → served (cluster ρ) → unblocked (cluster ρ) → sn replicas_work ρ.
Proof.
  intros Hg Hs Hu. assert (∃ Qs, Forall2 (waits ρ) (replicas ρ) Qs) as [Qs HQs].
  { clear Hg. induction (replicas ρ) as [|r rs [Qs HQs]]; [by exists []|].
    destruct (awake_finite (view ρ r)) as [Q HQ]. exists (Q :: Qs). by constructor. }
  eapply (lex_sn _ (λ n1 n2 n3 ρ, ∃ D, settling ρ (⋃ Qs) D ∧
    n1 = size (⋃ Qs ∖ D) ∧ n2 = total unheard (replicas ρ) ∧ n3 = total queued (replicas ρ))).
  - intros ? ? ? ρ1 ρ2 (D & Hset & -> & -> & ->) Hstep.
    destruct (settling_step _ _ _ _ Hset Hstep) as (D' & Hset' & Hlt).
    do 3 eexists. split; [by exists D'|]. destruct Hlt as [?|[-> [?|[? ?]]]]; auto.
  - exists ∅. split_and!; [|done..]. split; [done..| |by intros k ?%elem_of_empty].
    intros r (i & Hi)%list_elem_of_lookup k Hk. destruct (Forall2_lookup_l _ _ _ _ _ HQs Hi) as (Q & HQ & Hw).
    apply elem_of_union_list. exists Q. split; [by eapply list_elem_of_lookup_2|by apply Hw].
Qed.

(** ** How it ends *)
Lemma work_until_rest ρ : all_guarded ρ → (∀ ρ', ¬ replicas_work ρ ρ') → ∀ r, r ∈ replicas ρ → at_rest (view ρ r).
Proof.
  intros Hg Hno r (i & Hi)%list_elem_of_lookup.
  destruct (rep_projectionWatch r) eqn:Hp; [|by edestruct Hno; eapply work_hears_projection].
  destruct (rep_bindingWatch r) eqn:Hb; [|by edestruct Hno; eapply work_hears_binding].
  split; [|done]. apply elem_of_equiv_empty_L. intros k Hk. apply (Hno (replica_works ρ i r 0%Z k)), work_works; [done..|].
  intros _. apply heard_current; [|done..]. by eapply Hg, list_elem_of_lookup_2.
Qed.

Lemma work_guarded ρ ρ' : replicas_work ρ ρ' → all_guarded ρ → all_guarded ρ'.
Proof.
  intros [i r c cs Hi Hw|i r c cs Hi Hw|i r clock k Hi _ _] Hall; [..|by apply replica_works_guarded];
    (apply set_replica_guarded; [done|]; rewrite view_own by done; cbn [rep_leads own]).
  - apply deliver_projection_invariant; [done|]. apply Hall. by eapply list_elem_of_lookup_2.
  - apply deliver_binding_invariant; [done|]. apply Hall. by eapply list_elem_of_lookup_2.
Qed.

Lemma works_guarded ρ ρ' : rtc replicas_work ρ ρ' → all_guarded ρ → all_guarded ρ'.
Proof. induction 1; eauto using work_guarded. Qed.

(** When nobody works, all that is led is guarded. *)
Lemma idle_guarded φ : all_manned φ → idle_crews φ → all_guarded (op_deployment φ).
Proof.
  intros Hall Hidle r (i & Hi)%list_elem_of_lookup.
  destruct (Forall2_lookup_l _ _ _ _ _ Hall Hi) as (c & Hc & [Hg _]).
  assert (c = ∅) as -> by (eapply Hidle, list_elem_of_lookup_2, Hc).
  apply (guarded_mono (λ k, rep_leads r k && free ∅ k)); [|done]. intros k Hk.
  unfold free. by rewrite Hk, bool_decide_eq_true_2.
Qed.

Lemma set_replica_leads ρ i r r' :
  replicas ρ !! i = Some r → rep_leads r' = rep_leads r →
  rep_leads <$> <[i := r']> (replicas ρ) = rep_leads <$> replicas ρ.
Proof. intros Hi Hl. rewrite list_fmap_insert, Hl. apply list_insert_id. by rewrite list_lookup_fmap, Hi. Qed.

(** The lead does not change. *)
Lemma work_leads ρ ρ' : replicas_work ρ ρ' → rep_leads <$> replicas ρ' = rep_leads <$> replicas ρ.
Proof.
  intros [i r c cs Hi|i r c cs Hi|i r clock k Hi]; [by apply (set_replica_leads ρ i r)..|].
  unfold replica_works. cbn [replicas]. rewrite list_fmap_insert, <- (list_fmap_compose (hears _ _) rep_leads).
  apply list_insert_id. by rewrite list_lookup_fmap, Hi.
Qed.

Lemma works_leads ρ ρ' : rtc replicas_work ρ ρ' → rep_leads <$> replicas ρ' = rep_leads <$> replicas ρ.
Proof. induction 1 as [ρ|ρ ρ1 ρ2 Hw _ IH]; [done|]. rewrite IH. by apply work_leads. Qed.

Lemma led_kept ρ ρ' k : rep_leads <$> replicas ρ' = rep_leads <$> replicas ρ → led ρ k → led ρ' k.
Proof.
  intros Heq (r & Hr & Hk). assert (rep_leads r ∈ rep_leads <$> replicas ρ') as Hin.
  { rewrite Heq. apply list_elem_of_fmap. by exists r. }
  apply list_elem_of_fmap in Hin as (r' & Hl & Hr'). exists r'. by rewrite <- Hl.
Qed.

(** C6: the controller settles, with any number of replicas.  The servers take what their
    versions allow, the services are found and publish their secrets, and no foreign projection
    is in the way.  Whatever state the replicas and their overlapping workers have got into,
    with caches however old, once the workers have returned: every run ends in which the
    replicas reconcile one key at a time and a leader's caches are up to date for the key that
    it reconciles ([replicas_work]; of other keys it may still have much to hear), whatever
    keys they pick, whatever their clocks say, and whoever leads, even if a key has several
    leaders.  It ends with empty queues, no notification pending and every live binding
    whose key has a leader in sync.  Reconciliations from stale caches are in what comes before
    such a run and not in it: each of them may fail and be tried again for as long as its
    cache stays stale. *)
Theorem replicas_settle φ0 φ :
  opened φ0 → rtc operation_step φ0 φ → idle_crews φ →
  served (cluster (op_deployment φ)) → unblocked (cluster (op_deployment φ)) →
  sn replicas_work (op_deployment φ) ∧
  ∀ ρ', rtc replicas_work (op_deployment φ) ρ' → (∀ ρ'', ¬ replicas_work ρ' ρ'') →
    (∀ r, r ∈ replicas ρ' → at_rest (view ρ' r)) ∧
    ∀ k b, led (op_deployment φ) k → live (cluster ρ') k b → in_sync (cluster ρ') k b.
Proof.
  intros Ho Hrun Hidle Hs Hu. pose proof (idle_guarded φ (run_manned φ0 φ Ho Hrun) Hidle) as Hg.
  split; [by apply replicas_end|].
  intros ρ' Hworks Hno. pose proof (works_guarded _ _ Hworks Hg) as Hg'.
  pose proof (work_until_rest ρ' Hg' Hno) as Hrest. split; [done|].
  intros k b Hled [Hb Hl]. apply (led_kept _ ρ' k (works_leads _ _ Hworks)) in Hled as (r & Hr & Hk).
  apply (at_rest_in_sync (rep_leads r) (view ρ' r)); [|done|by apply Hrest|done..].
  by apply Hg'.
Qed.
End settling.

(** ** Witness *)
#[local] Existing Instance string_opaque.
#[local] Existing Instance sample_guess.
#[local] Existing Instance sample_knative_controller.
#[local] Existing Instance sample_knative_controller_laws.
#[local] Existing Instance map_server.
#[local] Existing Instance map_server_laws.
#[local] Existing Instance binding_knative.
#[local] Existing Instance binding_knative_laws.
#[local] Existing Instance binding_processing.
#[local] Existing Instance any_uid.

(** A turn of a replica: it hears of a change, or looks at a key. *)
Definition turn (ρ : sample_deployment) (i : nat) : sample_deployment :=
  match replicas ρ !! i with
  | Some r =>
      match rep_projectionWatch r, rep_bindingWatch r, elements (rep_queue r) with
      | c :: cs, _, _ => set_replica ρ i (own (deliver_projection (view ρ r) c cs) (rep_leads r))
      | [], c :: cs, _ => set_replica ρ i (own (deliver_binding (view ρ r) c cs) (rep_leads r))
      | [], [], k :: _ => replica_works ρ i r 50%Z k
      | [], [], [] => ρ
      end
  | None => ρ
  end.

Lemma turn_works ρ i : all_guarded ρ → rtc replicas_work ρ (turn ρ i).
Proof.
  intros Hg. unfold turn. destruct (replicas ρ !! i) as [r|] eqn:Hi; [|done].
  destruct (rep_projectionWatch r) eqn:Hp; [|by apply rtc_once, work_hears_projection].
  destruct (rep_bindingWatch r) eqn:Hb; [|by apply rtc_once, work_hears_binding].
  destruct (elements (rep_queue r)) as [|k ks] eqn:Hq; [done|].
  apply rtc_once, work_works; [done|apply elem_of_elements; rewrite Hq; by left|].
  intros _. apply heard_current; [|done..]. by eapply Hg, list_elem_of_lookup_2.
Qed.

Lemma turns_work ρ l : all_guarded ρ → rtc replicas_work ρ (foldl turn ρ l).
Proof.
  revert ρ. induction l as [|i l IH]; intros ρ Hg; [done|]. pose proof (turn_works ρ i Hg) as Hturn.
  etrans; [exact Hturn|]. by apply IH, (works_guarded _ _ Hturn).
Qed.

(** Both replicas lead the key, and the worker of the second has returned, too. *)
Definition both_returned : sample_operation := act overlapping (Returns 1).

Definition both_settled : sample_deployment := foldl turn (op_deployment both_returned) (concat (repeat [0; 1] 20)).

Lemma rest_ends ρ : (∀ r, r ∈ replicas ρ → at_rest (view ρ r)) → ∀ ρ', ¬ replicas_work ρ ρ'.
Proof.
  intros Hrest ρ' Hwork. destruct Hwork as [i r c cs Hi|i r c cs Hi|i r clock k Hi];
    destruct (Hrest r (list_elem_of_lookup_2 _ _ _ Hi)) as (Hq & Hp & Hb); cbn in *; [congruence|congruence|].
  set_solver.
Qed.

Lemma both_returned_run : rtc operation_step operation0 both_returned.
Proof. transitivity overlapping; [exact (acts_run operation0 _)|exact (act_step overlapping _)]. Qed.

Section one_binding.
Context (ρ : sample_deployment) (b0 : ServiceBinding) (Hbindings : all_bindings ρ = {[ the_key := b0 ]}).

Lemma one_live k b : live (cluster ρ) k b → k = the_key ∧ b = b0.
Proof.
  intros [Hg _]. cbn in Hg. rewrite Hbindings in Hg. apply lookup_singleton_Some in Hg as [Hk Hb]. by split.
Qed.

Lemma one_served :
  all_services ρ = db_services "my-secret" → service_of b0 = service_of db_binding → served (cluster ρ).
Proof.
  intros Hsv Hs k b [-> ->]%one_live. exists my_secret. intros b' Hsame. right. cbn. rewrite Hsv.
  rewrite (same_service _ _ Hsame), Hs. split; [intros [_ ?]; discriminate|].
  exists (mkServiceableType (newMeta "db" "default") (mkServiceable my_secret)).
  split; [reflexivity|]. intros l. split_and!; reflexivity.
Qed.

Lemma one_unblocked :
  match api_get (all_projections ρ) the_key with
  | Some p => IsControlledBy (SBP_Meta p) (SB_Meta b0) | None => true end = true →
  unblocked (cluster ρ).
Proof.
  intros Hc k b p [-> ->]%one_live Hp. change (api_get (all_projections ρ) the_key = Some p) in Hp. by rewrite Hp in Hc.
Qed.
End one_binding.

Lemma returned_idle : idle_crews both_returned.
Proof.
  unfold idle_crews. assert (op_crews both_returned = [∅; ∅]) as -> by (vm_compute; reflexivity).
  intros c. rewrite !elem_of_cons, elem_of_nil. tauto.
Qed.

Lemma replicas_settle_witness :
  sn replicas_work (op_deployment both_returned) ∧
  in_sync (cluster both_settled) the_key (default db_binding (all_bindings both_settled !! the_key)).
Proof.
  destruct (replicas_settle log_accepting map_accepting operation0 both_returned operation0_opened both_returned_run)
    as [Hsn Hend].
  - exact returned_idle.
  - apply (one_served _ (stored_binding both_returned)); vm_compute; reflexivity.
  - apply (one_unblocked _ (stored_binding both_returned)); vm_compute; reflexivity.
  - split; [exact Hsn|]. apply (Hend both_settled).
    + apply turns_work, (idle_guarded both_returned); [|exact returned_idle].
      exact (run_manned operation0 both_returned operation0_opened both_returned_run).
    + apply rest_ends. apply Forall_forall. vm_compute. repeat constructor.
    + exists (first_replica both_returned). split; [apply (list_elem_of_lookup_2 _ 0)|]; vm_compute; reflexivity.
    + vm_compute. split; reflexivity.
Defined.
